(** * The x402 payment handshake of the BlockRun Go SDK

    A shallow embedding of [x402.go], [types.go] and the payment path of
    [client.go], and the properties of the handshake proved over it.

    Conventions.
    - A Go [string] and a Go [[]byte] holding text are Rocq [string]s (a
      sequence of 8-bit characters); a [[]byte] that is indexed and updated
      (the signature) is a [list Z] of values in [0, 256).
    - Go's [int] and [int64] are both 64 bits wide on the platforms the SDK
      targets; they are integers in [Z], and every operation that can leave
      the range is followed by [wrap64].
    - A Go function returning [(T, error)] returns a [result T]; a run-time
      panic is the third outcome [Panic].
    - The collaborators the SDK calls but does not define (clock, entropy,
      secp256k1 and keccak, the JSON text layer, the HTTP transport) are the
      fields of one record, [Env]; nothing is assumed about them unless a
      theorem says so. *)

From Stdlib Require Import ZArith Lia Ascii String List Bool Floats.
From stdpp Require Import base option list gmap strings fin_maps sorting.

Set Warnings "-register-all".
Open Scope string_scope.
Open Scope list_scope.
Open Scope Z_scope.

(* ===================================================================== *)
(** * Results *)
(* ===================================================================== *)

(** Go's [error] values.  The three typed errors are those of [types.go];
    [errorString] is what [fmt.Errorf] and the libraries' own errors carry. *)
Inductive error :=
| errorString (msg : string)
| ValidationError (Field Message : string)
| PaymentError (Message : string)
| APIError (StatusCode : Z) (Message : string).

Inductive result (A : Type) :=
| Ok (a : A)
| Err (e : error)
| Panic (why : string).
Arguments Ok {A} a.
Arguments Err {A} e.
Arguments Panic {A} why.

(** Sequencing: [x ← r; k] is Go's [x, err := r; if err != nil { return err }]. *)
#[global] Instance result_ret : MRet result := λ A a, Ok a.
#[global] Instance result_bind : MBind result := λ A B k r,
  match r with
  | Ok a => k a
  | Err e => Err e
  | Panic w => Panic w
  end.
#[global] Instance result_fmap : FMap result := λ A B f r,
  match r with
  | Ok a => Ok (f a)
  | Err e => Err e
  | Panic w => Panic w
  end.

Definition is_Ok {A} (r : result A) : Prop := ∃ a, r = Ok a.
Definition is_Err {A} (r : result A) : Prop := ∃ e, r = Err e.

(** [err != nil] after a call whose error is wrapped by the caller. *)
Definition wrap_err {A} (f : error → error) (r : result A) : result A :=
  match r with
  | Err e => Err (f e)
  | other => other
  end.

(* ===================================================================== *)
(** * Machine integers *)
(* ===================================================================== *)

Definition min_int64 : Z := - 2 ^ 63.
Definition max_int64 : Z := 2 ^ 63 - 1.

Definition in_int64 (z : Z) : Prop := min_int64 ≤ z ≤ max_int64.

(** Two's-complement wrap-around of a 64-bit signed result. *)
Definition wrap64 (z : Z) : Z := (z + 2 ^ 63) mod 2 ^ 64 - 2 ^ 63.

(* ===================================================================== *)
(** * strconv and math/big: decimal text *)
(* ===================================================================== *)

Module strconv.

Definition digit_char (d : Z) : ascii := ascii_of_N (Z.to_N (48 + d)).

Definition digit_val (c : ascii) : option Z :=
  let n := Z.of_N (N_of_ascii c) in
  if (48 <=? n) && (n <=? 57) then Some (n - 48) else None.

(** The digits of [n], most significant first, written in front of [acc]:
    the right-to-left loop of [formatBits]. *)
Fixpoint format_uint (fuel : nat) (n : Z) (acc : string) : string :=
  match fuel with
  | O => acc
  | S fuel' =>
      let acc' := String (digit_char (n mod 10)) acc in
      if n <? 10 then acc' else format_uint fuel' (n / 10) acc'
  end.

Definition digits_fuel (n : Z) : nat := S (Z.to_nat (Z.log2 n)).

(** [strconv.FormatInt(i, 10)]; also the [String] method of [big.Int] and
    [fmt.Sprintf("%d", i)]. *)
Definition FormatInt (i : Z) : string :=
  if i <? 0 then String "-" (format_uint (digits_fuel (- i)) (- i) "")
  else format_uint (digits_fuel i) i "".

(** A run of decimal digits read left to right onto [acc]. *)
Fixpoint scan_digits (s : string) (acc : Z) : option Z :=
  match s with
  | EmptyString => Some acc
  | String c s' =>
      match digit_val c with
      | Some d => scan_digits s' (acc * 10 + d)
      | None => None
      end
  end.

Definition scan_nat (s : string) : option Z :=
  match s with
  | EmptyString => None
  | _ => scan_digits s 0
  end.

End strconv.

Module big.

(** [new(big.Int).SetString(s, 10)]: an optional sign, then one or more
    decimal digits, and nothing else.  [None] is [ok == false]. *)
Definition SetString10 (s : string) : option Z :=
  match s with
  | String "+"%char s' => strconv.scan_nat s'
  | String "-"%char s' => Z.opp <$> strconv.scan_nat s'
  | _ => strconv.scan_nat s
  end.

Definition String_ (z : Z) : string := strconv.FormatInt z.

End big.

(* ===================================================================== *)
(** * Bytes and hexadecimal text *)
(* ===================================================================== *)

Definition byte_of_ascii (c : ascii) : Z := Z.of_N (N_of_ascii c).
Definition ascii_of_byte (b : Z) : ascii := ascii_of_N (Z.to_N b).

Definition bytes_of_string (s : string) : list Z :=
  byte_of_ascii <$> list_ascii_of_string s.
Definition string_of_bytes (l : list Z) : string :=
  string_of_list_ascii (ascii_of_byte <$> l).

(** Go's [byte(x)] conversion of an unsigned value. *)
Definition to_byte (x : Z) : Z := Z.land x 255.

Definition hextable : string := "0123456789abcdef".

Definition hex_digit (n : Z) : ascii :=
  default "0"%char (String.get (Z.to_nat n) hextable).

(** [common.Bytes2Hex], i.e. [hex.EncodeToString]: two lower-case digits
    per byte. *)
Fixpoint Bytes2Hex (d : list Z) : string :=
  match d with
  | [] => ""
  | b :: d' =>
      String (hex_digit (Z.shiftr b 4))
        (String (hex_digit (Z.land b 15)) (Bytes2Hex d'))
  end.

(* ===================================================================== *)
(** * encoding/base64, the standard padded encoding *)
(* ===================================================================== *)

Module base64.

Definition encodeStd : string :=
  "ABCDEFGHIJKLMNOPQRSTUVWXYZabcdefghijklmnopqrstuvwxyz0123456789+/".

Definition padChar : ascii := "="%char.

(** [enc.encode[i]] *)
Definition encode_char (i : Z) : ascii :=
  default "A"%char (String.get (Z.to_nat i) encodeStd).

Fixpoint index_of (c : ascii) (s : string) (i : Z) : option Z :=
  match s with
  | EmptyString => None
  | String c' s' => if Ascii.eqb c c' then Some i else index_of c s' (i + 1)
  end.

(** [enc.decodeMap[c]]; [None] is the table's [0xff]. *)
Definition decodeMap (c : ascii) : option Z := index_of c encodeStd 0.

(** [Encode]: three source bytes make four characters; a remainder of one
    or two bytes is padded with [=]. *)
Fixpoint Encode (src : list Z) : string :=
  match src with
  | [] => ""
  | [b0] =>
      let val := Z.shiftl b0 16 in
      String (encode_char (Z.land (Z.shiftr val 18) 63))
        (String (encode_char (Z.land (Z.shiftr val 12) 63))
           (String padChar (String padChar "")))
  | [b0; b1] =>
      let val := Z.lor (Z.shiftl b0 16) (Z.shiftl b1 8) in
      String (encode_char (Z.land (Z.shiftr val 18) 63))
        (String (encode_char (Z.land (Z.shiftr val 12) 63))
           (String (encode_char (Z.land (Z.shiftr val 6) 63))
              (String padChar "")))
  | b0 :: b1 :: b2 :: rest =>
      let val := Z.lor (Z.lor (Z.shiftl b0 16) (Z.shiftl b1 8)) b2 in
      String (encode_char (Z.land (Z.shiftr val 18) 63))
        (String (encode_char (Z.land (Z.shiftr val 12) 63))
           (String (encode_char (Z.land (Z.shiftr val 6) 63))
              (String (encode_char (Z.land val 63)) (Encode rest))))
  end.

Definition EncodeToString (src : string) : string :=
  Encode (bytes_of_string src).

(** [CorruptInputError(n).Error()] *)
Definition CorruptInputError (n : Z) : error :=
  errorString ("illegal base64 data at input byte " +:+ strconv.FormatInt n).

Definition is_newline (c : ascii) : bool :=
  Ascii.eqb c "010"%char || Ascii.eqb c "013"%char.

(** The loops "skip over newlines" of [decodeQuantum]: the input left and
    how many characters were skipped. *)
Fixpoint skip_newlines (src : string) (si : Z) : string * Z :=
  match src with
  | String c src' => if is_newline c then skip_newlines src' (si + 1) else (src, si)
  | EmptyString => (src, si)
  end.

(** The bytes of a quantum: [val] is assembled from the four 6-bit values
    (missing ones are 0) and [dlen - 1] bytes of it are kept. *)
Definition quantum_bytes (dbuf : list Z) (dlen : nat) : list Z :=
  let d i := default 0 (dbuf !! i) in
  let val := Z.lor (Z.lor (Z.lor (Z.shiftl (d 0%nat) 18) (Z.shiftl (d 1%nat) 12))
                      (Z.shiftl (d 2%nat) 6)) (d 3%nat) in
  take (dlen - 1) [to_byte (Z.shiftr val 16); to_byte (Z.shiftr val 8); to_byte val].

(** What [decodeQuantum] does once it has read a [=] with [j] values in
    [dbuf] ([src] is the input after that [=], [si] its offset, [len] the
    length of the whole input). *)
Definition decode_padding (src : string) (si len : Z) (j : nat) (dbuf : list Z)
  : result (list Z) :=
  match j with
  | 0%nat | 1%nat => Err (CorruptInputError (si - 1))
  | _ =>
      let after_second :=
        if decide (j = 2%nat) then
          let '(src1, si1) := skip_newlines src si in
          match src1 with
          | EmptyString => Err (CorruptInputError len)
          | String c src2 =>
              if Ascii.eqb c padChar then Ok (src2, si1 + 1)
              else Err (CorruptInputError (si1 - 1))
          end
        else Ok (src, si) in
      '(src2, si2) ← after_second;
      let '(src3, si3) := skip_newlines src2 si2 in
      match src3 with
      | EmptyString => Ok (quantum_bytes dbuf j)
      | String _ _ => Err (CorruptInputError si3)
      end
  end.

(** [Decode], one input character at a time: [si] is the offset of the
    next character, [j] and [dbuf] the state of the quantum being read.
    The 8- and 4-character fast paths of the library decode the same
    quanta and fall back to [decodeQuantum] on any other character. *)
Fixpoint decode_from (src : string) (si len : Z) (j : nat) (dbuf : list Z)
  : result (list Z) :=
  match src with
  | EmptyString =>
      match j with
      | 0%nat => Ok []
      | _ => Err (CorruptInputError (si - Z.of_nat j))
      end
  | String c src' =>
      match decodeMap c with
      | Some out =>
          if decide (j = 3%nat) then
            rest ← decode_from src' (si + 1) len 0%nat [];
            Ok (quantum_bytes (dbuf ++ [out]) 4 ++ rest)
          else decode_from src' (si + 1) len (S j) (dbuf ++ [out])
      | None =>
          if is_newline c then decode_from src' (si + 1) len j dbuf
          else if Ascii.eqb c padChar then decode_padding src' (si + 1) len j dbuf
          else Err (CorruptInputError si)
      end
  end.

(** [DecodeString]; the error is the only part of a failed result the
    SDK looks at. *)
Definition DecodeString (s : string) : result string :=
  string_of_bytes <$> decode_from s 0 (Z.of_nat (String.length s)) 0%nat [].

End base64.

(* ===================================================================== *)
(** * The data model of [types.go] *)
(* ===================================================================== *)

(** [ChatMessage] *)
Record ChatMessage := {
  Role : string;
  Content : string;
}.

(** Go's dynamically typed values ([any]).  The first six constructors are
    the values [encoding/json] stores into an [any]: [nil], [bool],
    [float64], [string], [[]any] and [map[string]any], the last two never
    nil.  The others are the statically typed values the SDK itself stores
    into a request body. *)
Inductive any :=
| ANil
| ABool (b : bool)
| AFloat64 (f : float)
| AString (s : string)
| ASlice (l : list any)
| AMap (m : gmap string any)
| AInt (n : Z)
| AMessages (l : list ChatMessage)
| AStringMap (m : gmap string string).

(** A Go map value: [None] is the nil map.  Reading a nil map yields the
    zero value, as reading an absent key does. *)
Definition gomap : Type := option (gmap string any).

Definition gomap_lookup (m : gomap) (k : string) : option any :=
  m ≫= (λ g, g !! k).

(** [v, ok := m[k].(string)] *)
Definition lookup_string (m : gomap) (k : string) : option string :=
  match gomap_lookup m k with
  | Some (AString s) => Some s
  | _ => None
  end.

(** [len(m)], which is 0 for the nil map. *)
Definition gomap_len (m : gomap) : nat :=
  match m with
  | Some g => size g
  | None => 0%nat
  end.

(** A Go slice value: [None] is the nil slice. *)
Definition slice (A : Type) : Type := option (list A).

Definition elems {A} (s : slice A) : list A := default [] s.

(** [ResourceInfo] *)
Record ResourceInfo := {
  URL : string;
  Description : string;
  MimeType : string;
}.

(** [PaymentOption] *)
Record PaymentOption := {
  Scheme : string;
  Network : string;
  Amount : string;
  Asset : string;
  PayTo : string;
  MaxTimeoutSeconds : Z;
  Extra : gomap;
}.

(** [PaymentRequirement] *)
Record PaymentRequirement := {
  X402Version : Z;
  Accepts : slice PaymentOption;
  Resource : ResourceInfo;
  Extensions : gomap;
}.

(** [TransferAuthorization] *)
Record TransferAuthorization := {
  From : string;
  To : string;
  Value : string;
  ValidAfter : string;
  ValidBefore : string;
  Nonce : string;
}.

(** [PaymentData] *)
Record PaymentData := {
  Signature : string;
  Authorization : TransferAuthorization;
}.

(** [PaymentPayload]; the fields it shares with [PaymentRequirement] carry
    the prefix [Payload]. *)
Record PaymentPayload := {
  PayloadX402Version : Z;
  PayloadResource : ResourceInfo;
  Accepted : PaymentOption;
  Payload : PaymentData;
  PayloadExtensions : gomap;
}.

(** [Usage], [Choice], [ChatResponse] *)
Record Usage := {
  PromptTokens : Z;
  CompletionTokens : Z;
  TotalTokens : Z;
}.

Record Choice := {
  Index : Z;
  Message : ChatMessage;
  FinishReason : string;
}.

Record ChatResponse := {
  ID : string;
  Object : string;
  Created : Z;
  Model : string;
  Choices : slice Choice;
  ResponseUsage : Usage;
}.

(** [ChatCompletionOptions], with the two search fields [ChatCompletion]
    reads.  The struct behind [SearchParameters] is declared outside the
    sources at hand; the pointer is carried as a dynamic value, [None]
    being nil. *)
Record ChatCompletionOptions := {
  MaxTokens : Z;
  Temperature : float;
  TopP : float;
  SearchParameters : option any;
  Search : bool;
}.

(** [Spending] *)
Record Spending := {
  TotalUSD : float;
  Calls : Z;
}.

(** The [Error] methods of the three typed errors. *)
Definition Error (e : error) : string :=
  match e with
  | errorString msg => msg
  | ValidationError field msg =>
      "Validation error for " +:+ field +:+ ": " +:+ msg
  | PaymentError msg => "Payment error: " +:+ msg
  | APIError code msg =>
      "BlockRun API error (status " +:+ strconv.FormatInt code +:+ "): " +:+ msg
  end.

(** [fmt.Errorf(prefix + "%w", err)] and [fmt.Sprintf(prefix + "%v", err)] *)
Definition Errorf (prefix : string) (e : error) : error :=
  errorString (prefix +:+ Error e).

(* ===================================================================== *)
(** * JSON documents *)
(* ===================================================================== *)

(** A JSON document as [encoding/json] sees it between the text and the Go
    value: numbers are still their literal, objects still a sequence of
    members. *)
Inductive json :=
| JNull
| JBool (b : bool)
| JNumber (lit : string)
| JString (s : string)
| JArray (l : list json)
| JObject (kvs : list (string * json)).

(** [apitypes.TypedData], as far as [CreatePaymentPayload] fills it. *)
Record Type_ := {
  TypeName : string;
  TypeType : string;
}.

Record TypedDataDomain := {
  DomainName : string;
  DomainVersion : string;
  ChainId : Z;
  VerifyingContract : string;
}.

Record TypedData := {
  Types : gmap string (list Type_);
  PrimaryType : string;
  Domain : TypedDataDomain;
  TypedDataMessage : gmap string any;
}.

(** An HTTP request as the SDK builds it and a response as it reads it. *)
Record Request := {
  Method : string;
  RequestURL : string;
  RequestHeader : gmap string string;
  RequestBody : string;
}.

Record Response := {
  StatusCode : Z;
  Header : gmap string string;
  Body : string;
}.

(** One round trip: the request sent and what the transport returned. *)
Definition exchange : Type := Request * result Response.

(* ===================================================================== *)
(** * The collaborators *)
(* ===================================================================== *)

(** Everything the SDK calls and does not define.  Each field is the
    library function named in its comment, as a function of its arguments
    (and, for the transport, of the round trips made so far). *)
Record Env := {
  (** [*ecdsa.PrivateKey] *)
  PrivateKey : Type;
  (** [crypto.PubkeyToAddress(key.PublicKey).Hex()] *)
  PubkeyToAddress_Hex : PrivateKey → string;
  (** [time.Now().Unix()] *)
  time_Now_Unix : Z;
  (** [rand.Read(nonce)] on a 32-byte buffer: the buffer it filled *)
  rand_Read : result (list Z);
  (** [typedData.HashStruct(primaryType, data)] *)
  HashStruct : TypedData → string → result (list Z);
  (** [crypto.Keccak256Hash(data).Bytes()] *)
  Keccak256Hash : list Z → list Z;
  (** [crypto.Sign(hash, key)] *)
  crypto_Sign : list Z → PrivateKey → result (list Z);
  (** the JSON text of a Go string, quotes included *)
  json_quote : string → string;
  (** the JSON text of a [float64]; fails on NaN and the infinities *)
  json_FormatFloat : float → result string;
  (** [float64] of a JSON number literal; fails when out of range *)
  json_ParseFloat : string → result float;
  (** the document [json.Unmarshal] reads: the whole input is one value *)
  json_Unmarshal_text : string → result json;
  (** the document [json.NewDecoder(r).Decode] reads: the first value *)
  json_Decoder_text : string → result json;
  (** whether a member name matches a field name up to case *)
  json_EqualFold : string → string → bool;
  (** the [UnmarshalTypeError] reported for a document *)
  json_UnmarshalTypeError : json → error;
  (** [json.Unmarshal] into a [PaymentRequirement] for a document that
      repeats a member or spells a field in another case *)
  json_Unmarshal_irregular : json → result PaymentRequirement;
  (** [json.NewDecoder(r).Decode(&chatResp)] *)
  json_Decode_ChatResponse : string → result ChatResponse;
  (** [fmt.Sscanf(s, "%f", &x)] on inputs other than a short run of digits *)
  Sscanf_f_other : string → result float;
  (** the error of [http.NewRequest(method, url, body)], if any *)
  http_NewRequest_error : string → string → option error;
  (** [textproto.CanonicalMIMEHeaderKey] *)
  CanonicalMIMEHeaderKey : string → string;
  (** [httpClient.Do(req)], given the round trips already made *)
  httpClient_Do : list exchange → Request → result Response;
}.

(* ===================================================================== *)
(** * encoding/json over documents *)
(* ===================================================================== *)

Section json_codec.
Context (E : Env).

Definition join_comma (parts : list string) : string :=
  match parts with
  | [] => ""
  | p :: ps => foldl (λ acc q, acc +:+ "," +:+ q) p ps
  end.

(** The compact text [json.Marshal] writes for a document. *)
Fixpoint json_print (j : json) : string :=
  match j with
  | JNull => "null"
  | JBool true => "true"
  | JBool false => "false"
  | JNumber lit => lit
  | JString s => json_quote E s
  | JArray l => "[" +:+ join_comma (json_print <$> l) +:+ "]"
  | JObject kvs =>
      "{" +:+ join_comma ((λ '(k, v), json_quote E k +:+ ":" +:+ json_print v) <$> kvs)
        +:+ "}"
  end.

(** Map keys are written in byte order. *)
Definition key_le {A} (a b : string * A) : Prop := String.leb a.1 b.1 = true.

#[global] Instance key_le_dec {A} (a b : string * A) : Decision (key_le a b).
Proof. unfold key_le. apply _. Defined.

Definition sorted_members {A} (m : gmap string A) : list (string * A) :=
  merge_sort key_le (map_to_list m).

Definition member_result {A} (kv : string * result A) : result (string * A) :=
  v ← kv.2; Ok (kv.1, v).

Definition toJSON_ChatMessage (m : ChatMessage) : json :=
  JObject [("role", JString (Role m)); ("content", JString (Content m))].

(** The document of a dynamic value. *)
Fixpoint toJSON_any (a : any) : result json :=
  match a with
  | ANil => Ok JNull
  | ABool b => Ok (JBool b)
  | AFloat64 f => JNumber <$> json_FormatFloat E f
  | AString s => Ok (JString s)
  | ASlice l => JArray <$> mapM toJSON_any l
  | AMap m => JObject <$> mapM member_result (sorted_members (toJSON_any <$> m))
  | AInt n => Ok (JNumber (strconv.FormatInt n))
  | AMessages l => Ok (JArray (toJSON_ChatMessage <$> l))
  | AStringMap m => Ok (JObject (sorted_members (JString <$> m)))
  end.

(** A map-typed value: the nil map is [null]. *)
Definition toJSON_gomap (m : gomap) : result json :=
  match m with
  | None => Ok JNull
  | Some g => toJSON_any (AMap g)
  end.

(** A map-typed field tagged [omitempty]: no member at all when the map
    has no entries, nil or not. *)
Definition omitempty_member (name : string) (m : gomap)
  : result (list (string * json)) :=
  if decide (gomap_len m = 0%nat) then Ok []
  else v ← toJSON_gomap m; Ok [(name, v)].

Definition toJSON_ResourceInfo (r : ResourceInfo) : json :=
  JObject [("url", JString (URL r));
           ("description", JString (Description r));
           ("mimeType", JString (MimeType r))].

Definition toJSON_PaymentOption (o : PaymentOption) : result json :=
  extra ← omitempty_member "extra" (Extra o);
  Ok (JObject ([("scheme", JString (Scheme o));
                ("network", JString (Network o));
                ("amount", JString (Amount o));
                ("asset", JString (Asset o));
                ("payTo", JString (PayTo o));
                ("maxTimeoutSeconds", JNumber (strconv.FormatInt (MaxTimeoutSeconds o)))]
               ++ extra)).

Definition toJSON_Accepts (s : slice PaymentOption) : result json :=
  match s with
  | None => Ok JNull
  | Some l => JArray <$> mapM toJSON_PaymentOption l
  end.

Definition toJSON_PaymentRequirement (r : PaymentRequirement) : result json :=
  accepts ← toJSON_Accepts (Accepts r);
  extensions ← omitempty_member "extensions" (Extensions r);
  Ok (JObject ([("x402Version", JNumber (strconv.FormatInt (X402Version r)));
                ("accepts", accepts);
                ("resource", toJSON_ResourceInfo (Resource r))]
               ++ extensions)).

Definition toJSON_TransferAuthorization (a : TransferAuthorization) : json :=
  JObject [("from", JString (From a));
           ("to", JString (To a));
           ("value", JString (Value a));
           ("validAfter", JString (ValidAfter a));
           ("validBefore", JString (ValidBefore a));
           ("nonce", JString (Nonce a))].

Definition toJSON_PaymentData (d : PaymentData) : json :=
  JObject [("signature", JString (Signature d));
           ("authorization", toJSON_TransferAuthorization (Authorization d))].

Definition toJSON_PaymentPayload (p : PaymentPayload) : result json :=
  accepted ← toJSON_PaymentOption (Accepted p);
  extensions ← omitempty_member "extensions" (PayloadExtensions p);
  Ok (JObject ([("x402Version", JNumber (strconv.FormatInt (PayloadX402Version p)));
                ("resource", toJSON_ResourceInfo (PayloadResource p));
                ("accepted", accepted);
                ("payload", toJSON_PaymentData (Payload p))]
               ++ extensions)).

(** [json.Marshal]: the text of the value's document. *)
Definition json_Marshal (doc : result json) : result string :=
  json_print <$> doc.

(** ** Decoding *)

(** The dynamic value of a document; [None] when a number does not fit a
    [float64].  A repeated member keeps its last value. *)
Fixpoint fromJSON_any (j : json) : option any :=
  match j with
  | JNull => Some ANil
  | JBool b => Some (ABool b)
  | JNumber lit =>
      match json_ParseFloat E lit with
      | Ok f => Some (AFloat64 f)
      | _ => None
      end
  | JString s => Some (AString s)
  | JArray l => ASlice <$> mapM fromJSON_any l
  | JObject kvs =>
      (λ l, AMap (list_to_map (reverse l)))
        <$> mapM (λ '(k, v), a ← fromJSON_any v; Some (k, a)) kvs
  end.

(** The first member of that name. *)
Fixpoint member (name : string) (kvs : list (string * json)) : option json :=
  match kvs with
  | [] => None
  | (k, v) :: kvs' => if String.eqb k name then Some v else member name kvs'
  end.

(** A field of type [string]: an absent member and [null] leave the zero
    value; anything but a string is a type error ([None]). *)
Definition dec_string (v : option json) : option string :=
  match v with
  | None | Some JNull => Some ""
  | Some (JString s) => Some s
  | Some _ => None
  end.

(** [strconv.ParseInt(lit, 10, 64)] *)
Definition ParseInt64 (lit : string) : option Z :=
  n ← big.SetString10 lit;
  if decide (min_int64 ≤ n ≤ max_int64) then Some n else None.

(** A field of type [int]. *)
Definition dec_int (v : option json) : option Z :=
  match v with
  | None | Some JNull => Some 0
  | Some (JNumber lit) => ParseInt64 lit
  | Some _ => None
  end.

(** A field of type [map[string]any]: [null] and an absent member leave
    the nil map, an object makes a map. *)
Definition dec_gomap (v : option json) : option gomap :=
  match v with
  | None | Some JNull => Some None
  | Some (JObject kvs) =>
      a ← fromJSON_any (JObject kvs);
      match a with
      | AMap g => Some (Some g)
      | _ => None
      end
  | Some _ => None
  end.

Definition dec_ResourceInfo (v : option json) : option ResourceInfo :=
  match v with
  | None | Some JNull =>
      Some {| URL := ""; Description := ""; MimeType := "" |}
  | Some (JObject kvs) =>
      url ← dec_string (member "url" kvs);
      description ← dec_string (member "description" kvs);
      mimeType ← dec_string (member "mimeType" kvs);
      Some {| URL := url; Description := description; MimeType := mimeType |}
  | Some _ => None
  end.

Definition zero_PaymentOption : PaymentOption :=
  {| Scheme := ""; Network := ""; Amount := ""; Asset := ""; PayTo := "";
     MaxTimeoutSeconds := 0; Extra := None |}.

(** An element of [accepts]. *)
Definition dec_PaymentOption (v : json) : option PaymentOption :=
  match v with
  | JNull => Some zero_PaymentOption
  | JObject kvs =>
      scheme ← dec_string (member "scheme" kvs);
      network ← dec_string (member "network" kvs);
      amount ← dec_string (member "amount" kvs);
      asset ← dec_string (member "asset" kvs);
      payTo ← dec_string (member "payTo" kvs);
      maxTimeoutSeconds ← dec_int (member "maxTimeoutSeconds" kvs);
      extra ← dec_gomap (member "extra" kvs);
      Some {| Scheme := scheme; Network := network; Amount := amount;
              Asset := asset; PayTo := payTo;
              MaxTimeoutSeconds := maxTimeoutSeconds; Extra := extra |}
  | _ => None
  end.

(** A field of type [[]PaymentOption]: [null] and an absent member leave
    the nil slice; an array makes a slice, empty but not nil for [[]]. *)
Definition dec_Accepts (v : option json) : option (slice PaymentOption) :=
  match v with
  | None | Some JNull => Some None
  | Some (JArray l) => Some <$> mapM dec_PaymentOption l
  | Some _ => None
  end.

Definition zero_PaymentRequirement : PaymentRequirement :=
  {| X402Version := 0; Accepts := None;
     Resource := {| URL := ""; Description := ""; MimeType := "" |};
     Extensions := None |}.

Definition dec_PaymentRequirement (doc : json) : option PaymentRequirement :=
  match doc with
  | JNull => Some zero_PaymentRequirement
  | JObject kvs =>
      x402Version ← dec_int (member "x402Version" kvs);
      accepts ← dec_Accepts (member "accepts" kvs);
      resource ← dec_ResourceInfo (member "resource" kvs);
      extensions ← dec_gomap (member "extensions" kvs);
      Some {| X402Version := x402Version; Accepts := accepts;
              Resource := resource; Extensions := extensions |}
  | _ => None
  end.

(** The member names of the three structs a challenge is decoded into. *)
Definition PaymentRequirement_fields : list string :=
  ["x402Version"; "accepts"; "resource"; "extensions"].
Definition PaymentOption_fields : list string :=
  ["scheme"; "network"; "amount"; "asset"; "payTo"; "maxTimeoutSeconds"; "extra"].
Definition ResourceInfo_fields : list string :=
  ["url"; "description"; "mimeType"].

(** An object is regular for a struct when no member name repeats and each
    name either is a field's name or matches no field even up to case.
    Then which field a member sets, and that it is set once, does not
    depend on the order of the members. *)
Definition regular_members (fields : list string) (kvs : list (string * json)) : bool :=
  bool_decide (NoDup kvs.*1)
  && forallb (λ k, bool_decide (k ∈ fields)
                   || forallb (λ f, negb (json_EqualFold E k f)) fields) kvs.*1.

Definition regular_object (fields : list string) (v : json) : bool :=
  match v with
  | JObject kvs => regular_members fields kvs
  | _ => true
  end.

Definition regular_challenge (doc : json) : bool :=
  match doc with
  | JObject kvs =>
      regular_members PaymentRequirement_fields kvs
      && match member "accepts" kvs with
         | Some (JArray l) => forallb (regular_object PaymentOption_fields) l
         | _ => true
         end
      && match member "resource" kvs with
         | Some v => regular_object ResourceInfo_fields v
         | None => true
         end
  | _ => true
  end.

(** [json.Unmarshal(data, &req)] for [req] a zero [PaymentRequirement]. *)
Definition json_Unmarshal_PaymentRequirement (data : string)
  : result PaymentRequirement :=
  doc ← json_Unmarshal_text E data;
  if regular_challenge doc then
    match dec_PaymentRequirement doc with
    | Some req => Ok req
    | None => Err (json_UnmarshalTypeError E doc)
    end
  else json_Unmarshal_irregular E doc.

(** [json.NewDecoder(r).Decode(&respBody)] for [respBody] a nil
    [map[string]any]. *)
Definition json_Decode_map (data : string) : result gomap :=
  doc ← json_Decoder_text E data;
  match dec_gomap (Some doc) with
  | Some m => Ok m
  | None => Err (json_UnmarshalTypeError E doc)
  end.

End json_codec.

(* ===================================================================== *)
(** * encoding/json: the text of a document *)
(* ===================================================================== *)

(** The text format of [encoding/json], byte for byte: how [json.Marshal]
    writes a string ([appendString], with HTML escaping on, as [Marshal]
    sets it) and how [json.Unmarshal] reads a text (the scanner of
    [scanner.go] together with [unquote] of [decode.go]).  The reader
    makes the document of the whole text, or fails. *)
Module json_text.

Definition byte (c : ascii) : Z := Z.of_N (N_of_ascii c).

Definition quote_mark : ascii := "034"%char.
Definition backslash : ascii := "092"%char.

Definition between (lo hi : Z) (c : ascii) : bool :=
  (lo <=? byte c) && (byte c <=? hi).

(** ** unicode/utf8 *)

(** A continuation byte of a multi-byte encoding. *)
Definition continuation (c : ascii) : bool := between 128 191 c.

(** The first two bytes of a three-byte encoding: no overlong form and no
    surrogate half. *)
Definition three_bytes (c0 c1 : ascii) : bool :=
  (between 224 224 c0 && between 160 191 c1)
  || (between 225 236 c0 && continuation c1)
  || (between 237 237 c0 && between 128 159 c1)
  || (between 238 239 c0 && continuation c1).

(** The first two bytes of a four-byte encoding: no overlong form and
    nothing above [U+10FFFF]. *)
Definition four_bytes (c0 c1 : ascii) : bool :=
  (between 240 240 c0 && between 144 191 c1)
  || (between 241 243 c0 && continuation c1)
  || (between 244 244 c0 && between 128 143 c1).

(** The width [utf8.DecodeRuneInString] reports for the rune a text
    starts with; [None] where it reports [(RuneError, 1)]: the text is
    empty or does not start with a well-formed encoding. *)
Definition rune_size (s : string) : option nat :=
  match s with
  | String c0 s1 =>
      if byte c0 <? 128 then Some 1%nat
      else
        match s1 with
        | String c1 s2 =>
            if between 194 223 c0 && continuation c1 then Some 2%nat
            else
              match s2 with
              | String c2 s3 =>
                  if three_bytes c0 c1 && continuation c2 then Some 3%nat
                  else
                    match s3 with
                    | String c3 _ =>
                        if four_bytes c0 c1 && continuation c2 && continuation c3
                        then Some 4%nat
                        else None
                    | "" => None
                    end
              | "" => None
              end
        | "" => None
        end
  | "" => None
  end.

(** [s[:n]] and [s[n:]]. *)
Fixpoint take (n : nat) (s : string) : string :=
  match n, s with
  | S n', String c s' => String c (take n' s')
  | _, _ => ""
  end.

Fixpoint drop (n : nat) (s : string) : string :=
  match n, s with
  | S n', String _ s' => drop n' s'
  | _, _ => s
  end.

Fixpoint valid_from (fuel : nat) (s : string) : bool :=
  match fuel with
  | O => match s with "" => true | _ => false end
  | S fuel' =>
      match s with
      | "" => true
      | String c rest =>
          if byte c <? 128 then valid_from fuel' rest
          else
            match rune_size s with
            | Some n => valid_from fuel' (drop n s)
            | None => false
            end
      end
  end.

(** [utf8.ValidString]: the text is a sequence of well-formed encodings. *)
Definition ValidString (s : string) : bool := valid_from (String.length s) s.

(** [utf8.AppendRune]: the encoding of a code point; of [U+FFFD] for a
    surrogate half and for what lies above [U+10FFFF]. *)
Definition chr (b : Z) : ascii := ascii_of_N (Z.to_N b).

Definition replacement : string :=
  String (chr 239) (String (chr 191) (String (chr 189) "")).

Definition encode_rune (r : Z) : string :=
  if r <? 0 then replacement
  else if r <? 128 then String (chr r) ""
  else if r <? 2048 then
    String (chr (Z.lor 192 (Z.shiftr r 6)))
      (String (chr (Z.lor 128 (Z.land r 63))) "")
  else if (55296 <=? r) && (r <=? 57343) then replacement
  else if r <? 65536 then
    String (chr (Z.lor 224 (Z.shiftr r 12)))
      (String (chr (Z.lor 128 (Z.land (Z.shiftr r 6) 63)))
         (String (chr (Z.lor 128 (Z.land r 63))) ""))
  else if r <=? 1114111 then
    String (chr (Z.lor 240 (Z.shiftr r 18)))
      (String (chr (Z.lor 128 (Z.land (Z.shiftr r 12) 63)))
         (String (chr (Z.lor 128 (Z.land (Z.shiftr r 6) 63)))
            (String (chr (Z.lor 128 (Z.land r 63))) "")))
  else replacement.

(** ** Writing a string *)

(** [\u00XX] for the byte [b]. *)
Definition u00 (b : Z) : string :=
  String backslash (String "u" (String "0" (String "0"
    (String (hex_digit (Z.shiftr b 4)) (String (hex_digit (Z.land b 15)) ""))))).

Definition u202 (last : ascii) : string :=
  String backslash (String "u" (String "2" (String "0" (String "2" (String last ""))))).

Definition ufffd : string :=
  String backslash (String "u" (String "f" (String "f" (String "f" (String "d" ""))))).

(** What [appendString] writes for a byte below [utf8.RuneSelf].  The
    short forms [\b] and [\f] are written from Go 1.22 on ([go122]);
    before, those two bytes are written like the other control bytes. *)
Definition escape_ascii (go122 : bool) (c : ascii) : string :=
  let b := byte c in
  if (b =? 34) || (b =? 92) then String backslash (String c "")
  else if go122 && (b =? 8) then String backslash "b"
  else if go122 && (b =? 12) then String backslash "f"
  else if b =? 10 then String backslash "n"
  else if b =? 13 then String backslash "r"
  else if b =? 9 then String backslash "t"
  else if (b <? 32) || (b =? 60) || (b =? 62) || (b =? 38) then u00 b
  else String c "".

Definition line_separator : string :=
  String (chr 226) (String (chr 128) (String (chr 168) "")).

Definition paragraph_separator : string :=
  String (chr 226) (String (chr 128) (String (chr 169) "")).

(** One turn of the loop of [appendString]: what is written for the rune
    the text starts with, and the text after that rune. *)
Definition quote_step (go122 : bool) (c : ascii) (rest : string) : string * string :=
  if byte c <? 128 then (escape_ascii go122 c, rest)
  else
    match rune_size (String c rest) with
    | None => (ufffd, rest)
    | Some n =>
        let rune := take n (String c rest) in
        (if String.eqb rune line_separator then u202 "8"
         else if String.eqb rune paragraph_separator then u202 "9"
         else rune,
         drop n (String c rest))
    end.

Fixpoint quote_body (go122 : bool) (fuel : nat) (s : string) : string :=
  match fuel with
  | O => ""
  | S fuel' =>
      match s with
      | "" => ""
      | String c rest =>
          let '(written, s') := quote_step go122 c rest in
          written +:+ quote_body go122 fuel' s'
      end
  end.

(** [appendString(dst, s, true)]: the JSON text of a Go string. *)
Definition quote (go122 : bool) (s : string) : string :=
  String quote_mark (quote_body go122 (String.length s) s +:+ String quote_mark "").

(** ** Reading a string *)

Definition hex_val (c : ascii) : option Z :=
  let b := byte c in
  if (48 <=? b) && (b <=? 57) then Some (b - 48)
  else if (97 <=? b) && (b <=? 102) then Some (b - 87)
  else if (65 <=? b) && (b <=? 70) then Some (b - 55)
  else None.

(** Four hexadecimal digits, as [getu4] reads them after [\u]. *)
Definition hex4 (s : string) : option (Z * string) :=
  match s with
  | String a (String b (String c (String d rest))) =>
      va ← hex_val a; vb ← hex_val b; vc ← hex_val c; vd ← hex_val d;
      Some (((va * 16 + vb) * 16 + vc) * 16 + vd, rest)
  | _ => None
  end.

(** [getu4]: the code unit of a [\uXXXX] the text starts with. *)
Definition getu4 (s : string) : option (Z * string) :=
  match s with
  | String c0 (String c1 rest) =>
      if (byte c0 =? 92) && (byte c1 =? 117) then hex4 rest else None
  | _ => None
  end.

(** What follows [\u]: one code unit, or the two of a surrogate pair; a
    half without its other half is read as [U+FFFD]. *)
Definition unquote_unicode (s : string) : option (string * string) :=
  '(r, rest) ← hex4 s;
  if (55296 <=? r) && (r <? 57344) then
    match getu4 rest with
    | Some (r1, rest1) =>
        if (r <? 56320) && (56320 <=? r1) && (r1 <? 57344)
        then Some (encode_rune ((r - 55296) * 1024 + (r1 - 56320) + 65536), rest1)
        else Some (replacement, rest)
    | None => Some (replacement, rest)
    end
  else Some (encode_rune r, rest).

(** What follows a backslash. *)
Definition unquote_escape (s : string) : option (string * string) :=
  match s with
  | "" => None
  | String e rest =>
      let b := byte e in
      if (b =? 34) || (b =? 92) || (b =? 47) then Some (String e "", rest)
      else if b =? 98 then Some (String (chr 8) "", rest)
      else if b =? 102 then Some (String (chr 12) "", rest)
      else if b =? 110 then Some (String (chr 10) "", rest)
      else if b =? 114 then Some (String (chr 13) "", rest)
      else if b =? 116 then Some (String (chr 9) "", rest)
      else if b =? 117 then unquote_unicode rest
      else None
  end.

(** One turn of the loop of [unquote], on a text that does not start with
    the closing quote: the bytes read and the text left.  Control bytes
    are refused (by the scanner); bytes that are not well-formed UTF-8 are
    read as [U+FFFD]. *)
Definition unquote_step (c : ascii) (rest : string) : option (string * string) :=
  let b := byte c in
  if b =? 92 then unquote_escape rest
  else if b <? 32 then None
  else if b <? 128 then Some (String c "", rest)
  else
    match rune_size (String c rest) with
    | Some n => Some (take n (String c rest), drop n (String c rest))
    | None => Some (replacement, rest)
    end.

Definition prepend (read : string) (r : option (string * string))
  : option (string * string) :=
  '(t, rest) ← r; Some (read +:+ t, rest).

(** The string up to the closing quote, and the text after that quote. *)
Fixpoint unquote_from (fuel : nat) (s : string) : option (string * string) :=
  match fuel with
  | O => None
  | S fuel' =>
      match s with
      | "" => None
      | String c rest =>
          if byte c =? 34 then Some ("", rest)
          else
            '(read, s') ← unquote_step c rest;
            prepend read (unquote_from fuel' s')
      end
  end.

Definition unquote (s : string) : option (string * string) :=
  unquote_from (String.length s) s.

(** ** Reading a number *)

Definition is_digit (c : ascii) : bool := between 48 57 c.

(** The bytes a number is made of. *)
Definition number_char (c : ascii) : bool :=
  let b := byte c in
  is_digit c || (b =? 43) || (b =? 45) || (b =? 46) || (b =? 101) || (b =? 69).

Fixpoint skip_digits (s : string) : string :=
  match s with
  | String c rest => if is_digit c then skip_digits rest else s
  | "" => ""
  end.

(** The number grammar as [isValidNumber] checks it, part by part: an
    optional minus sign; a zero, or a digit from 1 to 9 and digits; then,
    optionally, a point and digits; then, optionally, an [e] or [E], an
    optional sign and digits. *)
Definition after_sign (s : string) : string :=
  match s with
  | String c rest => if byte c =? 45 then rest else s
  | "" => ""
  end.

Definition after_integer (s : string) : option string :=
  match s with
  | String c rest =>
      if byte c =? 48 then Some rest
      else if between 49 57 c then Some (skip_digits rest)
      else None
  | "" => None
  end.

Definition after_fraction (s : string) : string :=
  match s with
  | String c (String d rest) =>
      if (byte c =? 46) && is_digit d then skip_digits rest else s
  | _ => s
  end.

Definition after_exponent (s : string) : option string :=
  match s with
  | String c (String d rest) =>
      if (byte c =? 101) || (byte c =? 69) then
        if (byte d =? 43) || (byte d =? 45) then
          match rest with
          | "" => None
          | _ => Some (skip_digits rest)
          end
        else Some (skip_digits (String d rest))
      else Some s
  | _ => Some s
  end.

Definition isValidNumber (s : string) : bool :=
  match after_integer (after_sign s) with
  | Some s1 =>
      match after_exponent (after_fraction s1) with
      | Some "" => true
      | _ => false
      end
  | None => false
  end.

(** A number as the encoder writes one. *)
Definition number_literal (lit : string) : bool :=
  forallb number_char (list_ascii_of_string lit) && isValidNumber lit.

(** The longest run of number bytes a text starts with. *)
Fixpoint span_number (s : string) : string * string :=
  match s with
  | String c rest =>
      if number_char c then
        let '(tok, r) := span_number rest in (String c tok, r)
      else ("", s)
  | "" => ("", "")
  end.

(** ** Reading a document *)

(** [isSpace] of the scanner. *)
Definition is_space (c : ascii) : bool :=
  let b := byte c in (b =? 32) || (b =? 9) || (b =? 13) || (b =? 10).

Fixpoint skip_space (s : string) : string :=
  match s with
  | String c rest => if is_space c then skip_space rest else s
  | "" => ""
  end.

(** The text after the literal [lit], when the text starts with it. *)
Fixpoint strip (lit s : string) {struct lit} : option string :=
  match lit with
  | "" => Some s
  | String a lit' =>
      match s with
      | String b s' => if Ascii.eqb a b then strip lit' s' else None
      | "" => None
      end
  end.

(** [maxNestingDepth] of the scanner. *)
Definition maxNestingDepth : Z := 10000.

(** A value that is not a string, an array or an object. *)
Definition parse_scalar (s : string) : option (json * string) :=
  match strip "true" s with
  | Some r => Some (JBool true, r)
  | None =>
      match strip "false" s with
      | Some r => Some (JBool false, r)
      | None =>
          match strip "null" s with
          | Some r => Some (JNull, r)
          | None =>
              let '(tok, r) := span_number s in
              if isValidNumber tok then Some (JNumber tok, r) else None
          end
      end
  end.

(** The value a text starts with, after white space, and the text after
    it.  [depth] is how many arrays and objects may still be opened;
    [fuel] bounds the number of values and separators read. *)
Fixpoint parse_value (fuel : nat) (depth : Z) (s : string) : option (json * string) :=
  match fuel with
  | O => None
  | S fuel' =>
      match skip_space s with
      | "" => None
      | String c rest =>
          if byte c =? 34 then
            '(t, r) ← unquote rest; Some (JString t, r)
          else if byte c =? 91 then
            if 0 <? depth then
              match skip_space rest with
              | "" => None
              | String c' rest' =>
                  if byte c' =? 93 then Some (JArray [], rest')
                  else '(l, r) ← parse_elements fuel' (depth - 1) rest; Some (JArray l, r)
              end
            else None
          else if byte c =? 123 then
            if 0 <? depth then
              match skip_space rest with
              | "" => None
              | String c' rest' =>
                  if byte c' =? 125 then Some (JObject [], rest')
                  else '(kvs, r) ← parse_members fuel' (depth - 1) rest; Some (JObject kvs, r)
              end
            else None
          else parse_scalar (String c rest)
      end
  end
with parse_elements (fuel : nat) (depth : Z) (s : string) : option (list json * string) :=
  match fuel with
  | O => None
  | S fuel' =>
      '(v, r) ← parse_value fuel' depth s;
      match skip_space r with
      | "" => None
      | String c r' =>
          if byte c =? 44 then
            '(l, r'') ← parse_elements fuel' depth r'; Some (v :: l, r'')
          else if byte c =? 93 then Some ([v], r')
          else None
      end
  end
with parse_members (fuel : nat) (depth : Z) (s : string)
  : option (list (string * json) * string) :=
  match fuel with
  | O => None
  | S fuel' =>
      match skip_space s with
      | "" => None
      | String q after_quote =>
          if byte q =? 34 then
            '(k, r0) ← unquote after_quote;
            match skip_space r0 with
            | "" => None
            | String colon r1 =>
                if byte colon =? 58 then
                  '(v, r) ← parse_value fuel' depth r1;
                  match skip_space r with
                  | "" => None
                  | String c r' =>
                      if byte c =? 44 then
                        '(kvs, r'') ← parse_members fuel' depth r'; Some ((k, v) :: kvs, r'')
                      else if byte c =? 125 then Some ([(k, v)], r')
                      else None
                  end
                else None
            end
          else None
      end
  end.

(** [json.Unmarshal], up to the document: the text is one value, with
    white space around it at most. *)
Definition Unmarshal (data : string) : option json :=
  '(doc, rest) ← parse_value (S (String.length data)) maxNestingDepth data;
  match skip_space rest with
  | "" => Some doc
  | _ => None
  end.

(** A document the encoder can have written within [depth] levels of
    arrays and objects: its strings are valid UTF-8 and its numbers are
    number literals. *)
Fixpoint writable (j : json) (depth : Z) {struct j} : bool :=
  match j with
  | JNull | JBool _ => true
  | JNumber lit => number_literal lit
  | JString s => ValidString s
  | JArray l => (0 <? depth) && forallb (λ v, writable v (depth - 1)) l
  | JObject kvs =>
      (0 <? depth)
      && forallb (λ '(k, v), ValidString k && writable v (depth - 1)) kvs
  end.

End json_text.

(* ===================================================================== *)
(** * x402.go *)
(* ===================================================================== *)

(** [BaseChainID], [USDCBase] *)
Definition BaseChainID : Z := 8453.
Definition USDCBase : string := "0x833589fCD6eDb6E08f4c7C32D4f71b54bdA02913".

(** The [Types] literal of the typed data. *)
Definition TransferTypes : gmap string (list Type_) :=
  <["EIP712Domain" :=
      [ {| TypeName := "name"; TypeType := "string" |};
        {| TypeName := "version"; TypeType := "string" |};
        {| TypeName := "chainId"; TypeType := "uint256" |};
        {| TypeName := "verifyingContract"; TypeType := "address" |} ]]>
  (<["TransferWithAuthorization" :=
      [ {| TypeName := "from"; TypeType := "address" |};
        {| TypeName := "to"; TypeType := "address" |};
        {| TypeName := "value"; TypeType := "uint256" |};
        {| TypeName := "validAfter"; TypeType := "uint256" |};
        {| TypeName := "validBefore"; TypeType := "uint256" |};
        {| TypeName := "nonce"; TypeType := "bytes32" |} ]]> ∅).

(** [option.Amount = extra] on a struct value. *)
Definition set_Amount (o : PaymentOption) (amount : string) : PaymentOption :=
  {| Scheme := Scheme o; Network := Network o; Amount := amount;
     Asset := Asset o; PayTo := PayTo o;
     MaxTimeoutSeconds := MaxTimeoutSeconds o; Extra := Extra o |}.

(** [if signature[64] < 27 { signature[64] += 27 }] *)
Definition fix_recovery_id (signature : list Z) : result (list Z) :=
  match signature !! 64%nat with
  | None => Panic "index out of range [64]"
  | Some v =>
      if v <? 27 then Ok (<[64%nat := to_byte (v + 27)]> signature)
      else Ok signature
  end.

(** [ExtractPaymentDetails], on the value [req] points to. *)
Definition ExtractPaymentDetails (req : PaymentRequirement) : result PaymentOption :=
  match elems (Accepts req) with
  | [] => Err (errorString "no payment options in payment required response")
  | option :: _ =>
      let option :=
        if decide (Amount option = "") then
          match lookup_string (Extra option) "maxAmountRequired" with
          | Some extra => set_Amount option extra
          | None => option
          end
        else option in
      if decide (Amount option = "") then
        Err (errorString "no amount found in payment requirements")
      else Ok option
  end.

Section x402.
Context (E : Env).

(** [createNonce] *)
Definition createNonce : result string :=
  nonce ← wrap_err (Errorf "failed to generate nonce: ") (rand_Read E);
  Ok ("0x" +:+ Bytes2Hex nonce).

(** The token name and version of the signing domain. *)
Definition usdcName (extra : gomap) : string :=
  default "USD Coin" (lookup_string extra "name").
Definition usdcVersion (extra : gomap) : string :=
  default "2" (lookup_string extra "version").

(** [CreatePaymentPayload] up to and including the struct literal
    [payload]. *)
Definition CreatePaymentPayload_payload
    (privateKey : PrivateKey E) (recipient amount network : string)
    (resourceURL resourceDescription : string) (maxTimeoutSeconds : Z)
    (extra extensions : gomap) : result PaymentPayload :=
  let walletAddress := PubkeyToAddress_Hex E privateKey in
  let now := time_Now_Unix E in
  let validAfter := wrap64 (now - 600) in
  let validBefore := wrap64 (now + maxTimeoutSeconds) in
  nonce ← createNonce;
  amountBig ← match big.SetString10 amount with
              | Some z => Ok z
              | None => Err (errorString ("invalid amount: " +:+ amount))
              end;
  let typedData :=
    {| Types := TransferTypes;
       PrimaryType := "TransferWithAuthorization";
       Domain := {| DomainName := usdcName extra;
                    DomainVersion := usdcVersion extra;
                    ChainId := BaseChainID;
                    VerifyingContract := USDCBase |};
       TypedDataMessage :=
         <["from" := AString walletAddress]>
         (<["to" := AString recipient]>
         (<["value" := AString (big.String_ amountBig)]>
         (<["validAfter" := AString (big.String_ validAfter)]>
         (<["validBefore" := AString (big.String_ validBefore)]>
         (<["nonce" := AString nonce]> ∅))))) |} in
  domainSeparator ← wrap_err (Errorf "failed to hash domain: ")
                       (HashStruct E typedData "EIP712Domain");
  messageHash ← wrap_err (Errorf "failed to hash message: ")
                   (HashStruct E typedData (PrimaryType typedData));
  let rawData := ([25; 1] ++ domainSeparator) ++ messageHash in
  let hash := Keccak256Hash E rawData in
  signature ← wrap_err (Errorf "failed to sign: ") (crypto_Sign E hash privateKey);
  signature ← fix_recovery_id signature;
  let responseExtra : gmap string any :=
    <["name" := AString (usdcName extra)]>
    (<["version" := AString (usdcVersion extra)]> ∅) in
  Ok {| PayloadX402Version := 2;
        PayloadResource := {| URL := resourceURL;
                              Description := resourceDescription;
                              MimeType := "application/json" |};
        Accepted := {| Scheme := "exact";
                       Network := network;
                       Amount := amount;
                       Asset := USDCBase;
                       PayTo := recipient;
                       MaxTimeoutSeconds := maxTimeoutSeconds;
                       Extra := Some responseExtra |};
        Payload := {| Signature := "0x" +:+ Bytes2Hex signature;
                      Authorization :=
                        {| From := walletAddress;
                           To := recipient;
                           Value := amount;
                           ValidAfter := strconv.FormatInt validAfter;
                           ValidBefore := strconv.FormatInt validBefore;
                           Nonce := nonce |} |};
        PayloadExtensions := extensions |}.

(** [CreatePaymentPayload] *)
Definition CreatePaymentPayload
    (privateKey : PrivateKey E) (recipient amount network : string)
    (resourceURL resourceDescription : string) (maxTimeoutSeconds : Z)
    (extra extensions : gomap) : result string :=
  payload ← CreatePaymentPayload_payload privateKey recipient amount network
              resourceURL resourceDescription maxTimeoutSeconds extra extensions;
  jsonData ← wrap_err (Errorf "failed to marshal payload: ")
               (json_Marshal E (toJSON_PaymentPayload E payload));
  Ok (base64.EncodeToString jsonData).

(** [ParsePaymentRequired] *)
Definition ParsePaymentRequired (headerValue : string) : result PaymentRequirement :=
  decoded ← wrap_err (Errorf "failed to decode payment required header: ")
              (base64.DecodeString headerValue);
  req ← wrap_err (Errorf "failed to parse payment required: ")
          (json_Unmarshal_PaymentRequirement E decoded);
  Ok req.

(** What the tests and the server do to make a header value:
    [base64.StdEncoding.EncodeToString(json.Marshal(req))]. *)
Definition EncodePaymentRequired (req : PaymentRequirement) : result string :=
  jsonData ← json_Marshal E (toJSON_PaymentRequirement E req);
  Ok (base64.EncodeToString jsonData).

End x402.

(* ===================================================================== *)
(** * client.go *)
(* ===================================================================== *)

Definition DefaultMaxTokens : Z := 1024.
Definition StatusOK : Z := 200.
Definition StatusPaymentRequired : Z := 402.

(** [fmt.Sscanf(s, "%f", &x)] reads a run of decimal digits below [2^53]
    as that integer, which a [float64] holds exactly. *)
Definition exact_digits (s : string) : option Z :=
  n ← strconv.scan_nat s;
  if decide (n < 2 ^ 53) then Some n else None.

Section client.
Context (E : Env).

(** [LLMClient]; its [httpClient] is the transport of [E]. *)
Record LLMClient := {
  privateKey : PrivateKey E;
  address : string;
  apiURL : string;
  sessionTotalUSD : float;
  sessionCalls : Z;
}.

(** What a method call can change: the client it is called on, and the
    round trips made on the transport, oldest first. *)
Record world := {
  client : LLMClient;
  trips : list exchange;
}.

(** A method of [*LLMClient] returning [(A, error)]: it runs in a world
    and leaves one behind, whatever it returns. *)
Definition M (A : Type) : Type := world → result A * world.

#[global] Instance M_ret : MRet M := λ A a w, (Ok a, w).
#[global] Instance M_bind : MBind M := λ A B k m w,
  match m w with
  | (Ok a, w') => k a w'
  | (Err e, w') => (Err e, w')
  | (Panic why, w') => (Panic why, w')
  end.

(** A call that touches neither the client nor the transport. *)
Definition lift {A} (r : result A) : M A := λ w, (r, w).

Definition fail {A} (e : error) : M A := lift (Err e).

(** [c.httpClient.Do(req)], its error wrapped with [prefix]. *)
Definition Do (prefix : string) (req : Request) : M Response := λ w,
  let r := httpClient_Do E (trips w) req in
  (wrap_err (Errorf prefix) r,
   {| client := client w; trips := trips w ++ [(req, r)] |}).

(** [http.NewRequest("POST", url, bytes.NewReader(body))] followed by the
    [Header.Set] calls of [headers], in order. *)
Definition NewRequest_POST (prefix url body : string)
    (headers : list (string * string)) : M Request :=
  match http_NewRequest_error E "POST" url with
  | Some e => fail (Errorf prefix e)
  | None =>
      mret {| Method := "POST";
              RequestURL := url;
              RequestHeader :=
                foldl (λ h kv, <[CanonicalMIMEHeaderKey E kv.1 := kv.2]> h) ∅ headers;
              RequestBody := body |}
  end.

(** [resp.Header.Get(key)] *)
Definition Header_Get (resp : Response) (key : string) : string :=
  default "" (Header resp !! CanonicalMIMEHeaderKey E key).

Definition Sscanf_f (s : string) : result float :=
  match exact_digits s with
  | Some n => Ok (PrimFloat.of_uint63 (Uint63.of_Z n))
  | None => Sscanf_f_other E s
  end.

(** The "Track spending" statements at the end of
    [handlePaymentAndRetry]. *)
Definition track_spending (amountStr : string) : M unit := λ w,
  let c := client w in
  let calls := wrap64 (sessionCalls c + 1) in
  let total :=
    if decide (amountStr = "") then sessionTotalUSD c
    else match Sscanf_f amountStr with
         | Ok amountMicro =>
             PrimFloat.add (sessionTotalUSD c) (PrimFloat.div amountMicro 1000000)
         | _ => sessionTotalUSD c
         end in
  (Ok tt,
   {| client := {| privateKey := privateKey c; address := address c;
                   apiURL := apiURL c;
                   sessionTotalUSD := total; sessionCalls := calls |};
      trips := trips w |}).

(** The payment-required value of a 402 response: the header, or, when
    there is none and the body is a JSON object with a member [x402], the
    text of the body marshalled again. *)
Definition paymentHeader_of (resp : Response) : string :=
  let paymentHeader := Header_Get resp "payment-required" in
  if decide (paymentHeader = "") then
    match json_Decode_map E (Body resp) with
    | Ok respBody =>
        match gomap_lookup respBody "x402" with
        | Some _ =>
            match json_Marshal E (toJSON_gomap E respBody) with
            | Ok jsonBytes => jsonBytes
            | _ => ""
            end
        | None => paymentHeader
        end
    | _ => paymentHeader
    end
  else paymentHeader.

(** [handlePaymentAndRetry] *)
Definition handlePaymentAndRetry (url body : string) (resp : Response)
  : M ChatResponse :=
  let paymentHeader := paymentHeader_of resp in
  if decide (paymentHeader = "") then
    fail (PaymentError "402 response but no payment requirements found")
  else
  paymentReq ← lift (wrap_err
      (λ err, PaymentError ("Failed to parse payment requirements: " +:+ Error err))
      (ParsePaymentRequired E paymentHeader));
  paymentOption ← lift (wrap_err
      (λ err, PaymentError ("Failed to extract payment details: " +:+ Error err))
      (ExtractPaymentDetails paymentReq));
  let resourceURL :=
    if decide (URL (Resource paymentReq) = "") then url
    else URL (Resource paymentReq) in
  c ← (λ w, (Ok (client w), w));
  paymentPayload ← lift (wrap_err
      (λ err, PaymentError ("Failed to create payment: " +:+ Error err))
      (CreatePaymentPayload E (privateKey c)
         (PayTo paymentOption) (Amount paymentOption) (Network paymentOption)
         resourceURL (Description (Resource paymentReq))
         (MaxTimeoutSeconds paymentOption) (Extra paymentOption)
         (Extensions paymentReq)));
  retryReq ← NewRequest_POST "failed to create retry request: " url body
               [("Content-Type", "application/json");
                ("PAYMENT-SIGNATURE", paymentPayload)];
  retryResp ← Do "retry request failed: " retryReq;
  if decide (StatusCode retryResp = StatusPaymentRequired) then
    fail (PaymentError "Payment was rejected. Check your wallet balance.")
  else if decide (StatusCode retryResp ≠ StatusOK) then
    fail (APIError (StatusCode retryResp)
            ("API error after payment: " +:+ Body retryResp))
  else
  chatResp ← lift (wrap_err (Errorf "failed to decode response: ")
                     (json_Decode_ChatResponse E (Body retryResp)));
  track_spending (Amount paymentOption);;
  mret chatResp.

(** [requestWithPayment] *)
Definition requestWithPayment (endpoint : string) (body : gmap string any)
  : M ChatResponse :=
  c ← (λ w, (Ok (client w), w));
  let url := apiURL c +:+ endpoint in
  jsonBody ← lift (wrap_err (Errorf "failed to encode request body: ")
                     (json_Marshal E (toJSON_any E (AMap body))));
  req ← NewRequest_POST "failed to create request: " url jsonBody
          [("Content-Type", "application/json")];
  resp ← Do "request failed: " req;
  if decide (StatusCode resp = StatusPaymentRequired) then
    handlePaymentAndRetry url jsonBody resp
  else if decide (StatusCode resp ≠ StatusOK) then
    fail (APIError (StatusCode resp) ("API error: " +:+ Body resp))
  else
  chatResp ← lift (wrap_err (Errorf "failed to decode response: ")
                     (json_Decode_ChatResponse E (Body resp)));
  mret chatResp.

(** The request body [ChatCompletion] builds. *)
Definition ChatCompletion_body (model : string) (messages : slice ChatMessage)
    (opts : option ChatCompletionOptions) : gmap string any :=
  let body : gmap string any :=
    <["messages" := AMessages (elems messages)]> (<["model" := AString model]> ∅) in
  let maxTokens :=
    match opts with
    | Some o => if 0 <? MaxTokens o then MaxTokens o else DefaultMaxTokens
    | None => DefaultMaxTokens
    end in
  let body :=
    match opts with
    | Some o =>
        let body := if PrimFloat.ltb 0 (Temperature o)
                    then <["temperature" := AFloat64 (Temperature o)]> body else body in
        let body := if PrimFloat.ltb 0 (TopP o)
                    then <["top_p" := AFloat64 (TopP o)]> body else body in
        match SearchParameters o with
        | Some p => <["search_parameters" := p]> body
        | None =>
            if Search o
            then <["search_parameters" := AStringMap {["mode" := "on"]}]> body
            else body
        end
    | None => body
    end in
  <["max_tokens" := AInt maxTokens]> body.

(** [ChatCompletion] *)
Definition ChatCompletion (model : string) (messages : slice ChatMessage)
    (opts : option ChatCompletionOptions) : M ChatResponse :=
  if decide (model = "") then
    fail (ValidationError "model" "Model is required")
  else if decide (length (elems messages) = 0%nat) then
    fail (ValidationError "messages" "At least one message is required")
  else
    requestWithPayment "/v1/chat/completions"
      (ChatCompletion_body model messages opts).

(** [GetSpending] *)
Definition GetSpending (c : LLMClient) : Spending :=
  {| TotalUSD := sessionTotalUSD c; Calls := sessionCalls c |}.

(** The requests a call adds to the transport's history. *)
Definition new_trips (before after : world) : list exchange :=
  drop (length (trips before)) (trips after).

End client.

(* ===================================================================== *)
(** * [ExtractPaymentDetails] on the heap *)
(* ===================================================================== *)

(** [ExtractPaymentDetails] takes and returns pointers.  To see what it
    writes, the memory it works on is made explicit: the structs that
    [*PaymentRequirement] pointers point to, the backing arrays of
    [[]PaymentOption] slices, and the [PaymentOption] variables whose
    address has been taken.  Strings are immutable in Go and the function
    never assigns to a map element, so both stay values. *)

Definition loc : Type := nat.

(** The slice header: backing array, offset of the first element, length. *)
Record slice_header := {
  sl_array : loc;
  sl_off : nat;
  sl_len : nat;
}.

(** A [PaymentRequirement] in memory: its [Accepts] is a slice header or
    the nil slice. *)
Record PaymentRequirement_cell := {
  cell_X402Version : Z;
  cell_Accepts : option slice_header;
  cell_Resource : ResourceInfo;
  cell_Extensions : gomap;
}.

Record heap := {
  requirements : gmap loc PaymentRequirement_cell;
  arrays : gmap loc (list PaymentOption);
  options : gmap loc PaymentOption;
}.

(** [len(s)] and [s[i]] for a slice in memory; indexing out of range, or
    into an array that is not there, panics. *)
Definition slice_len (s : option slice_header) : nat :=
  match s with
  | Some hd => sl_len hd
  | None => 0%nat
  end.

Definition slice_index (h : heap) (s : option slice_header) (i : nat)
  : result PaymentOption :=
  match s with
  | Some hd =>
      if decide (i < sl_len hd)%nat then
        match arrays h !! sl_array hd ≫= (λ a, a !! (sl_off hd + i)%nat) with
        | Some o => Ok o
        | None => Panic "index out of range"
        end
      else Panic "index out of range"
  | None => Panic "index out of range"
  end.

(** [&option] for a local [option] whose address escapes: a new variable
    at an address not in use. *)
Definition alloc_option (h : heap) (o : PaymentOption) : loc * heap :=
  let p := fresh (dom (options h)) in
  (p, {| requirements := requirements h; arrays := arrays h;
         options := <[p := o]> (options h) |}).

(** [ExtractPaymentDetails(req)], statement by statement. *)
Definition ExtractPaymentDetails_heap (h : heap) (req : loc) : result loc * heap :=
  match requirements h !! req with
  | None => (Panic "nil pointer dereference", h)
  | Some r =>
      if decide (slice_len (cell_Accepts r) = 0%nat) then
        (Err (errorString "no payment options in payment required response"), h)
      else
        (* option := req.Accepts[0] *)
        match slice_index h (cell_Accepts r) 0 with
        | Ok option =>
            let option :=
              if decide (Amount option = "") then
                match lookup_string (Extra option) "maxAmountRequired" with
                | Some extra => set_Amount option extra
                | None => option
                end
              else option in
            if decide (Amount option = "") then
              (Err (errorString "no amount found in payment requirements"), h)
            else
              let '(p, h') := alloc_option h option in (Ok p, h')
        | Err e => (Err e, h)
        | Panic why => (Panic why, h)
        end
  end.

(** The value a [*PaymentRequirement] points to. *)
Definition load_Accepts (h : heap) (s : option slice_header)
  : option (slice PaymentOption) :=
  match s with
  | None => Some None
  | Some hd =>
      a ← arrays h !! sl_array hd;
      if decide (sl_off hd + sl_len hd ≤ length a)%nat
      then Some (Some (take (sl_len hd) (drop (sl_off hd) a)))
      else None
  end.

Definition load_PaymentRequirement (h : heap) (req : loc)
  : option PaymentRequirement :=
  r ← requirements h !! req;
  accepts ← load_Accepts h (cell_Accepts r);
  Some {| X402Version := cell_X402Version r; Accepts := accepts;
          Resource := cell_Resource r; Extensions := cell_Extensions r |}.

(* ===================================================================== *)
(** * Vocabulary of the statements *)
(* ===================================================================== *)

Definition is_byte (b : Z) : Prop := 0 ≤ b < 256.

(** The 6-bit value [Encode] takes at bit [k] of a 24-bit group. *)
Definition sextet (val k : Z) : Z := Z.land (Z.shiftr val k) 63.

(** The fields of the message the typed data declares as [uint256]. *)
Definition uint256_fields : list string := ["value"; "validAfter"; "validBefore"].

(** What go-ethereum's typed-data encoder checks of a field that the
    types of the typed data declare as [uint256], when the message gives it
    as decimal text: hashing the message succeeds only if the integer is
    in [0, 2^256). *)
Definition HashStruct_checks_uint256 (E : Env) : Prop :=
  ∀ td h field n,
    Types td = TransferTypes →
    HashStruct E td "TransferWithAuthorization" = Ok h →
    field ∈ uint256_fields →
    TypedDataMessage td !! field = Some (AString (big.String_ n)) →
    0 ≤ n < 2 ^ 256.

(** A base-10 integer as [SetString] reads it: an optional sign and at
    least one decimal digit. *)
Definition all_digits (s : string) : bool :=
  forallb (λ c, bool_decide (is_Some (strconv.digit_val c))) (list_ascii_of_string s).

Definition is_base10_integer (s : string) : Prop :=
  ∃ sign digits,
    s = sign +:+ digits
    ∧ (sign = "" ∨ sign = "+" ∨ sign = "-")
    ∧ digits ≠ "" ∧ all_digits digits = true.

(** The amount the specification resolves for an option: its [amount]
    field, or, when that is empty, the string stored under
    [maxAmountRequired] in its [extra] map (empty when there is none). *)
Definition resolved_amount (o : PaymentOption) : string :=
  if decide (Amount o = "") then
    default "" (lookup_string (Extra o) "maxAmountRequired")
  else Amount o.

(** The [extra] map of an [accepted] field: the token name and version. *)
Definition token_extra (name version : string) : gomap :=
  Some (<["name" := AString name]> (<["version" := AString version]> ∅)).

(** A map-typed field that [omitempty] writes back as it was: the nil map
    (no member, read back as nil) or a map with at least one entry. *)
Definition survives_omitempty (m : gomap) : Prop := m ≠ Some ∅.

(** The dynamic values [encoding/json] itself produces, with at most
    [depth] levels of slices and maps: [nil], booleans, strings of valid
    UTF-8, numbers as [float64] (those the text layer writes as a JSON
    number and reads back), and slices and maps of such values, the keys
    of a map being valid UTF-8 too. *)
Inductive json_native (E : Env) : Z → any → Prop :=
| native_nil depth : json_native E depth ANil
| native_bool depth b : json_native E depth (ABool b)
| native_float depth f lit :
    json_FormatFloat E f = Ok lit →
    json_text.number_literal lit = true →
    json_ParseFloat E lit = Ok f →
    json_native E depth (AFloat64 f)
| native_string depth s :
    json_text.ValidString s = true → json_native E depth (AString s)
| native_slice depth l :
    0 < depth →
    (∀ a, a ∈ l → json_native E (depth - 1) a) →
    json_native E depth (ASlice l)
| native_map depth g :
    0 < depth →
    (∀ k a, g !! k = Some a → json_text.ValidString k = true) →
    (∀ k a, g !! k = Some a → json_native E (depth - 1) a) →
    json_native E depth (AMap g).

Definition gomap_native (E : Env) (depth : Z) (m : gomap) : Prop :=
  match m with
  | None => True
  | Some g => json_native E depth (AMap g)
  end.

(** An option [encoding/json] can write and read: the timeout within
    [int], the strings valid UTF-8, the [extra] map (three levels down in
    the document of a requirement) of JSON values. *)
Definition valid_PaymentOption (E : Env) (o : PaymentOption) : Prop :=
  in_int64 (MaxTimeoutSeconds o)
  ∧ json_text.ValidString (Scheme o) = true
  ∧ json_text.ValidString (Network o) = true
  ∧ json_text.ValidString (Amount o) = true
  ∧ json_text.ValidString (Asset o) = true
  ∧ json_text.ValidString (PayTo o) = true
  ∧ gomap_native E (json_text.maxNestingDepth - 3) (Extra o).

(** The instances of [PaymentRequirement] a Go program can hold and
    [encoding/json] can write and read: integers within [int], strings of
    valid UTF-8, maps of JSON values, nested no deeper than the reader
    follows. *)
Definition valid_PaymentRequirement (E : Env) (req : PaymentRequirement) : Prop :=
  in_int64 (X402Version req)
  ∧ Forall (valid_PaymentOption E) (elems (Accepts req))
  ∧ json_text.ValidString (URL (Resource req)) = true
  ∧ json_text.ValidString (Description (Resource req)) = true
  ∧ json_text.ValidString (MimeType (Resource req)) = true
  ∧ gomap_native E (json_text.maxNestingDepth - 1) (Extensions req).

(** The text layer of [E] is that of [encoding/json]: a string is written
    as [appendString] writes it, in one release of Go or another, and the
    document the reader of [json_text] makes of a text is the one
    [json.Unmarshal] reads. *)
Definition encoding_json_text (E : Env) : Prop :=
  (∃ go122, ∀ s, json_quote E s = json_text.quote go122 s)
  ∧ ∀ data doc,
      json_text.Unmarshal data = Some doc → json_Unmarshal_text E data = Ok doc.

(** A text ends a number when it is empty or starts with a byte no number
    contains. *)
Definition number_ends (rest : string) : Prop :=
  match rest with
  | "" => True
  | String c _ => json_text.number_char c = false
  end.

Section json_reading.
Context (E : Env).

(** The text of one member of an object. *)
Definition member_text (kv : string * json) : string :=
  json_quote E kv.1 +:+ ":" +:+ json_print E kv.2.

(** With [fuel], the reader reads back every writable document whose text
    is shorter than [fuel], whatever follows it; likewise the elements of
    an array up to its closing bracket and the members of an object up to
    its closing brace. *)
Definition reads_values (fuel : nat) : Prop :=
  ∀ doc depth rest,
    json_text.writable doc depth = true →
    (String.length (json_print E doc) < fuel)%nat →
    number_ends rest →
    json_text.parse_value fuel depth (json_print E doc +:+ rest) = Some (doc, rest).

Definition reads_elements (fuel : nat) : Prop :=
  ∀ v l depth rest,
    forallb (λ v, json_text.writable v depth) (v :: l) = true →
    (String.length (join_comma (json_print E <$> v :: l)) + 1 < fuel)%nat →
    json_text.parse_elements fuel depth
      (join_comma (json_print E <$> v :: l) +:+ "]" +:+ rest)
    = Some (v :: l, rest).

Definition reads_members (fuel : nat) : Prop :=
  ∀ kv kvs depth rest,
    forallb (λ '(k, v), json_text.ValidString k && json_text.writable v depth)
      (kv :: kvs) = true →
    (String.length (join_comma (member_text <$> kv :: kvs)) + 1 < fuel)%nat →
    json_text.parse_members fuel depth
      (join_comma (member_text <$> kv :: kvs) +:+ "}" +:+ rest)
    = Some (kv :: kvs, rest).

End json_reading.

(** The two requests of a handshake: the first attempt, and the retry,
    which is the first attempt with one more header. *)
Definition first_request (E : Env) (url jsonBody : string) : Request :=
  {| Method := "POST";
     RequestURL := url;
     RequestHeader :=
       <[CanonicalMIMEHeaderKey E "Content-Type" := "application/json"]> ∅;
     RequestBody := jsonBody |}.

Definition retry_request (E : Env) (url jsonBody paymentPayload : string) : Request :=
  {| Method := "POST";
     RequestURL := url;
     RequestHeader :=
       <[CanonicalMIMEHeaderKey E "PAYMENT-SIGNATURE" := paymentPayload]>
         (RequestHeader (first_request E url jsonBody));
     RequestBody := jsonBody |}.

(** The ledger entry of the specification: one more call, and the amount,
    read as a number of micro-units, divided by a million, more on the
    total. *)
Definition record (s : Spending) (amountMicro : float) : Spending :=
  {| TotalUSD := PrimFloat.add (TotalUSD s) (PrimFloat.div amountMicro 1000000);
     Calls := Calls s + 1 |}.

(** The option a 402 response leads to, when it leads to one. *)
Definition chosen_option (E : Env) (resp : Response) : result PaymentOption :=
  req ← ParsePaymentRequired E (paymentHeader_of E resp);
  ExtractPaymentDetails req.

(** The call [handlePaymentAndRetry] makes for a chosen option. *)
Definition CreatePaymentPayload_for (E : Env) (key : PrivateKey E)
    (opt : PaymentOption) (resourceURL resourceDescription : string)
    (extensions : gomap) : result string :=
  CreatePaymentPayload E key (PayTo opt) (Amount opt) (Network opt)
    resourceURL resourceDescription (MaxTimeoutSeconds opt) (Extra opt) extensions.

(** The world after a request has been sent. *)
Definition after_request (E : Env) (w : world E) (req : Request) : world E :=
  {| client := client E w;
     trips := trips E w ++ [(req, httpClient_Do E (trips E w) req)] |}.

(** The outcome of a handshake whose retry was sent: what the transport
    returned decides the result, and only a decoded 200 touches the
    ledger. *)
Definition retry_outcome (E : Env) (w : world E) (opt : PaymentOption)
    (retryReq : Request)
    (run : result ChatResponse * world E) : Prop :=
  trips E run.2 = trips E w ++ [(retryReq, httpClient_Do E (trips E w) retryReq)]
  ∧ match httpClient_Do E (trips E w) retryReq with
    | Ok retryResp =>
        if decide (StatusCode retryResp = StatusPaymentRequired) then
          run.1 = Err (PaymentError "Payment was rejected. Check your wallet balance.")
          ∧ client E run.2 = client E w
        else if decide (StatusCode retryResp ≠ StatusOK) then
          run.1 = Err (APIError (StatusCode retryResp)
                         ("API error after payment: " +:+ Body retryResp))
          ∧ client E run.2 = client E w
        else
          match json_Decode_ChatResponse E (Body retryResp) with
          | Ok chatResp =>
              run.1 = Ok chatResp
              ∧ run.2 = (track_spending E (Amount opt) (after_request E w retryReq)).2
          | Err e =>
              run.1 = Err (Errorf "failed to decode response: " e)
              ∧ client E run.2 = client E w
          | Panic why => run.1 = Panic why ∧ client E run.2 = client E w
          end
    | Err e =>
        run.1 = Err (Errorf "retry request failed: " e) ∧ client E run.2 = client E w
    | Panic why => run.1 = Panic why ∧ client E run.2 = client E w
    end.

(** The messages of the two [PaymentError]s a 402 response without a
    payment-required header can end in. *)
Definition no_requirements_found : string :=
  "402 response but no payment requirements found".

Definition not_base64 : string :=
  "Failed to parse payment requirements: failed to decode payment required header: illegal base64 data at input byte 0".

(* ===================================================================== *)
(** * A test double for the collaborators *)
(* ===================================================================== *)

(** A deterministic stand-in for the libraries and the server, to run the
    embedding on concrete inputs: a fixed clock and key, all-zero entropy,
    hashes and signatures, a typed-data encoder that only checks the range
    of the [uint256] fields, string literals without escapes, a JSON reader that knows
    the documents of [docs], and a server that answers the n-th request
    with the n-th entry of [script]. *)

Definition quote_char : string := String "034"%char "".

Definition demo_quote (s : string) : string := quote_char +:+ s +:+ quote_char.

Definition demo_uint256 (v : option any) : bool :=
  match v with
  | Some (AString text) =>
      match big.SetString10 text with
      | Some n => bool_decide (0 ≤ n < 2 ^ 256)
      | None => false
      end
  | _ => false
  end.

Definition demo_HashStruct (td : TypedData) (primaryType : string) : result (list Z) :=
  if decide (primaryType = "EIP712Domain") then Ok (replicate 32 0)
  else if forallb (λ field, demo_uint256 (TypedDataMessage td !! field)) uint256_fields
  then Ok (replicate 32 0)
  else Err (errorString "invalid value for unsigned type uint256").

(** Integer-valued floats are written and read as integers. *)
Definition demo_FormatFloat (f : float) : result string :=
  match Prim2SF f with
  | S754_zero _ => Ok "0"
  | S754_finite sign m e =>
      let num := if sign then - Z.pos m else Z.pos m in
      if 0 <=? e then Ok (strconv.FormatInt (num * 2 ^ e))
      else if decide (num mod 2 ^ (- e) = 0) then Ok (strconv.FormatInt (num / 2 ^ (- e)))
      else Err (errorString "json: unsupported value")
  | _ => Err (errorString "json: unsupported value")
  end.

Definition demo_ParseFloat (lit : string) : result float :=
  match exact_digits lit with
  | Some n => Ok (PrimFloat.of_uint63 (Uint63.of_Z n))
  | None => Err (errorString "strconv.ParseFloat: value out of range")
  end.

Definition demo_canonical (key : string) : string :=
  if decide (key = "payment-required") then "Payment-Required"
  else if decide (key = "PAYMENT-SIGNATURE") then "Payment-Signature"
  else key.

Definition demo_ChatResponse : ChatResponse :=
  {| ID := "chatcmpl-1"; Object := "chat.completion"; Created := 0;
     Model := "openai/gpt-4o-mini"; Choices := None;
     ResponseUsage := {| PromptTokens := 0; CompletionTokens := 0; TotalTokens := 0 |} |}.

Definition demo_now : Z := 1761847200.

Definition demo_env_with (parse : string → result json)
    (script : list (result Response)) : Env :=
  {| PrivateKey := unit;
     PubkeyToAddress_Hex := λ _, "0xf39Fd6e51aad88F6F4ce6aB8827279cffFb92266";
     time_Now_Unix := demo_now;
     rand_Read := Ok (replicate 32 0);
     HashStruct := demo_HashStruct;
     Keccak256Hash := λ _, replicate 32 0;
     crypto_Sign := λ _ _, Ok (replicate 65 0);
     json_quote := demo_quote;
     json_FormatFloat := demo_FormatFloat;
     json_ParseFloat := demo_ParseFloat;
     json_Unmarshal_text := parse;
     json_Decoder_text := parse;
     json_EqualFold := String.eqb;
     json_UnmarshalTypeError := λ _, errorString "json: cannot unmarshal";
     json_Unmarshal_irregular := λ _, Err (errorString "json: cannot unmarshal");
     json_Decode_ChatResponse := λ _, Ok demo_ChatResponse;
     Sscanf_f_other := λ _, Err (errorString "strconv.ParseFloat: invalid syntax");
     http_NewRequest_error := λ _ _, None;
     CanonicalMIMEHeaderKey := demo_canonical;
     httpClient_Do := λ trips _,
       default (Err (errorString "connection refused")) (script !! length trips) |}.

Definition demo_syntax_error : error :=
  errorString "invalid character looking for beginning of value".

(** The reader of the test double: it finds, among [docs], the document
    whose text it is given. *)
Definition demo_parse (docs : list json) (s : string) : result json :=
  let text := json_print (demo_env_with (λ _, Err demo_syntax_error) []) in
  match list_find (λ d, text d = s) docs with
  | Some (_, d) => Ok d
  | None => Err demo_syntax_error
  end.

Definition demo_env (docs : list json) (script : list (result Response)) : Env :=
  demo_env_with (demo_parse docs) script.

(** The reader of [encoding/json] as the reader of a test double. *)
Definition json_read (data : string) : result json :=
  match json_text.Unmarshal data with
  | Some doc => Ok doc
  | None => Err demo_syntax_error
  end.

(** The test double with the text layer of [encoding/json] (Go 1.22 or
    later) in the place of the reader that knows its documents. *)
Definition demo_text_env : Env :=
  {| PrivateKey := unit;
     PubkeyToAddress_Hex := λ _, "0xf39Fd6e51aad88F6F4ce6aB8827279cffFb92266";
     time_Now_Unix := demo_now;
     rand_Read := Ok (replicate 32 0);
     HashStruct := demo_HashStruct;
     Keccak256Hash := λ _, replicate 32 0;
     crypto_Sign := λ _ _, Ok (replicate 65 0);
     json_quote := json_text.quote true;
     json_FormatFloat := demo_FormatFloat;
     json_ParseFloat := demo_ParseFloat;
     json_Unmarshal_text := json_read;
     json_Decoder_text := json_read;
     json_EqualFold := String.eqb;
     json_UnmarshalTypeError := λ _, errorString "json: cannot unmarshal";
     json_Unmarshal_irregular := λ _, Err (errorString "json: cannot unmarshal");
     json_Decode_ChatResponse := λ _, Ok demo_ChatResponse;
     Sscanf_f_other := λ _, Err (errorString "strconv.ParseFloat: invalid syntax");
     http_NewRequest_error := λ _ _, None;
     CanonicalMIMEHeaderKey := demo_canonical;
     httpClient_Do := λ _ _, Err (errorString "connection refused") |}.

Definition demo_client (E : Env) (key : PrivateKey E) : LLMClient E :=
  {| privateKey := key;
     address := PubkeyToAddress_Hex E key;
     apiURL := "https://blockrun.ai/api";
     sessionTotalUSD := 0%float;
     sessionCalls := 0 |}.

(* ===================================================================== *)
(** * Scenarios *)
(* ===================================================================== *)

(** Concrete inputs on which the statements below are run. *)

(** The payee of the scenarios. *)
Definition scenario_payTo : string := "0x1234567890123456789012345678901234567890".

Definition scenario_option : PaymentOption :=
  {| Scheme := "exact"; Network := "eip155:8453"; Amount := "500000";
     Asset := USDCBase; PayTo := scenario_payTo; MaxTimeoutSeconds := 300;
     Extra := None |}.

(** An option a server on the Base Sepolia test network offers: the same
    scheme, another chain and another token contract. *)
Definition sepolia_option : PaymentOption :=
  {| Scheme := "exact"; Network := "eip155:84532"; Amount := "500000";
     Asset := "0x036CbD53842c5426634e7929541eC2318f3dCF7e";
     PayTo := scenario_payTo; MaxTimeoutSeconds := 300; Extra := None |}.

(** A legacy challenge: no [amount], the price under [maxAmountRequired]. *)
Definition legacy_option : PaymentOption :=
  {| Scheme := "exact"; Network := "eip155:8453"; Amount := "";
     Asset := USDCBase; PayTo := scenario_payTo; MaxTimeoutSeconds := 300;
     Extra := Some {[ "maxAmountRequired" := AString "1000" ]} |}.

Definition resource_chat : ResourceInfo :=
  {| URL := "https://blockrun.ai/api/v1/chat/completions";
     Description := "Chat completion"; MimeType := "application/json" |}.

Definition legacy_requirement : PaymentRequirement :=
  {| X402Version := 1; Accepts := Some [legacy_option; scenario_option];
     Resource := resource_chat; Extensions := None |}.

(** A heap holding the legacy challenge: the requirement at address 1, its
    two options in the array at address 7. *)
Definition legacy_heap : heap :=
  {| requirements :=
       {[ 1%nat := {| cell_X402Version := 1;
                      cell_Accepts := Some {| sl_array := 7%nat; sl_off := 0; sl_len := 2 |};
                      cell_Resource := resource_chat;
                      cell_Extensions := None |} ]};
     arrays := {[ 7%nat := [legacy_option; scenario_option] ]};
     options := ∅ |}.

(** The challenge of the end-to-end scenario, as a server sends it. *)
Definition scenario_requirement : PaymentRequirement :=
  {| X402Version := 2; Accepts := Some [scenario_option];
     Resource := resource_chat; Extensions := None |}.

Definition scenario_doc : json :=
  Eval vm_compute in
    match toJSON_PaymentRequirement (demo_env [] []) scenario_requirement with
    | Ok doc => doc
    | _ => JNull
    end.

Definition scenario_header : string :=
  Eval vm_compute in
    match EncodePaymentRequired (demo_env [] []) scenario_requirement with
    | Ok header => header
    | _ => ""
    end.

Definition challenge_response : Response :=
  {| StatusCode := 402;
     Header := {[ "Payment-Required" := scenario_header ]};
     Body := "" |}.

Definition settled_response : Response :=
  {| StatusCode := 200; Header := ∅; Body := "{}" |}.

Definition hello_body : gmap string any :=
  ChatCompletion_body "openai/gpt-4o-mini"
    (Some [ {| Role := "user"; Content := "Hello" |} ]) None.

(** A server that answers 402 twice. *)
Definition rejecting_env : Env :=
  demo_env [scenario_doc] [Ok challenge_response; Ok challenge_response].

Definition fresh_world (E : Env) (key : PrivateKey E) : world E :=
  {| client := demo_client E key; trips := [] |}.

(** A challenge for one USDC, and a server that settles the retry. *)
Definition million_option : PaymentOption :=
  {| Scheme := "exact"; Network := "eip155:8453"; Amount := "1000000";
     Asset := USDCBase; PayTo := scenario_payTo; MaxTimeoutSeconds := 300;
     Extra := None |}.

Definition million_requirement : PaymentRequirement :=
  {| X402Version := 2; Accepts := Some [million_option];
     Resource := resource_chat; Extensions := None |}.

Definition million_doc : json :=
  Eval vm_compute in
    match toJSON_PaymentRequirement (demo_env [] []) million_requirement with
    | Ok doc => doc
    | _ => JNull
    end.

Definition million_challenge : Response :=
  {| StatusCode := 402;
     Header :=
       {[ "Payment-Required" :=
            match EncodePaymentRequired (demo_env [] []) million_requirement with
            | Ok header => header
            | _ => ""
            end ]};
     Body := "" |}.

Definition settling_env : Env :=
  demo_env [million_doc] [Ok million_challenge; Ok settled_response].

(** A server that asks for nothing. *)
Definition free_env : Env := demo_env [] [Ok settled_response].

(** A well-formed challenge carried in the body: the members of the
    scenario's requirement beside the marker. *)
Definition body_challenge_doc : json :=
  match scenario_doc with
  | JObject members => JObject (("x402", JBool true) :: members)
  | other => other
  end.

Definition body_challenge_text : string :=
  Eval vm_compute in json_print (demo_env [] []) body_challenge_doc.

Definition body_challenge_response : Response :=
  {| StatusCode := 402; Header := ∅; Body := body_challenge_text |}.

(** A server that sends the challenge in the body and would settle the
    retry. *)
Definition body_challenge_env : Env :=
  demo_env [body_challenge_doc; scenario_doc]
    [Ok body_challenge_response; Ok settled_response].

(** A challenge with token metadata and an extension, as a server sends
    it. *)
Definition rich_option : PaymentOption :=
  {| Scheme := "exact"; Network := "eip155:8453"; Amount := "500000";
     Asset := USDCBase; PayTo := scenario_payTo; MaxTimeoutSeconds := 300;
     Extra := Some (<["name" := AString "USD Coin"]> {[ "version" := AString "2" ]}) |}.

Definition rich_requirement : PaymentRequirement :=
  {| X402Version := 2; Accepts := Some [rich_option; scenario_option];
     Resource := resource_chat;
     Extensions := Some {[ "bazaar" := AMap {[ "discoverable" := ABool true ]} ]} |}.

(** The scenario's challenge with an [extensions] object that is empty:
    what the decoder makes of ["extensions":{}]. *)
Definition empty_extensions_requirement : PaymentRequirement :=
  {| X402Version := 2; Accepts := Some [scenario_option];
     Resource := resource_chat; Extensions := Some ∅ |}.

(* ===================================================================== *)
(** * More vocabulary: what is signed *)
(* ===================================================================== *)

(** Lower-case hexadecimal text, and the bytes it denotes. *)
Definition is_lower_hex (c : ascii) : bool :=
  let n := Z.of_N (N_of_ascii c) in
  ((48 <=? n) && (n <=? 57)) || ((97 <=? n) && (n <=? 102)).

Definition hex_value (c : ascii) : option Z := base64.index_of c hextable 0.

Fixpoint Hex2Bytes (s : string) : option (list Z) :=
  match s with
  | EmptyString => Some []
  | String hi (String lo s') =>
      h ← hex_value hi; l ← hex_value lo; rest ← Hex2Bytes s';
      Some (h * 16 + l :: rest)
  | String _ EmptyString => None
  end.

(** The [typedData] literal of [CreatePaymentPayload], as a function of
    what the function has computed when it builds it. *)
Definition transfer_typed_data (walletAddress recipient : string)
    (amountBig validAfter validBefore : Z) (nonce : string) (extra : gomap)
  : TypedData :=
  {| Types := TransferTypes;
     PrimaryType := "TransferWithAuthorization";
     Domain := {| DomainName := default "USD Coin" (lookup_string extra "name");
                  DomainVersion := default "2" (lookup_string extra "version");
                  ChainId := BaseChainID;
                  VerifyingContract := USDCBase |};
     TypedDataMessage :=
       <["from" := AString walletAddress]>
       (<["to" := AString recipient]>
       (<["value" := AString (big.String_ amountBig)]>
       (<["validAfter" := AString (big.String_ validAfter)]>
       (<["validBefore" := AString (big.String_ validBefore)]>
       (<["nonce" := AString nonce]> ∅))))) |}.

(** The digest EIP-712 signs: keccak256 of 0x19 0x01, the domain
    separator and the hash of the message. *)
Definition eip712_digest (E : Env) (domainSeparator messageHash : list Z) : list Z :=
  Keccak256Hash E (([25; 1] ++ domainSeparator) ++ messageHash).

(** The recovery byte after [if signature[64] < 27 { signature[64] += 27 }]. *)
Definition recovery_byte (v : Z) : Z := if v <? 27 then to_byte (v + 27) else v.

(* ===================================================================== *)
(** * More vocabulary: the handshake *)
(* ===================================================================== *)

(** The resource URL [handlePaymentAndRetry] signs for: the challenge's,
    or the URL of the request when the challenge names none. *)
Definition payment_resource_url (req : PaymentRequirement) (url : string) : string :=
  if decide (URL (Resource req) = "") then url else URL (Resource req).

(** The messages of the [PaymentError]s returned before a retry is
    sent. *)
Definition stops_before_retry (message : string) : Prop :=
  message = no_requirements_found
  ∨ (∃ cause, message = "Failed to parse payment requirements: " +:+ cause)
  ∨ (∃ cause, message = "Failed to extract payment details: " +:+ cause)
  ∨ (∃ cause, message = "Failed to create payment: " +:+ cause).

Definition payment_rejected : string :=
  "Payment was rejected. Check your wallet balance.".

(** What a call of [requestWithPayment] can have been, by the round trips
    it made: none; one, whose answer decided the result; or the first
    answered 402 and then the retry for the option that challenge leads
    to. *)
Inductive call_shape (E : Env) (endpoint : string) (body : gmap string any)
    (w : world E) : Prop :=
| shape_no_request :
    (requestWithPayment E endpoint body w).2 = w →
    (∃ text, (requestWithPayment E endpoint body w).1 = Err (errorString text))
    ∨ (∃ why, (requestWithPayment E endpoint body w).1 = Panic why) →
    call_shape E endpoint body w
| shape_one_request jsonBody :
    let url := apiURL E (client E w) +:+ endpoint in
    let req1 := first_request E url jsonBody in
    json_Marshal E (toJSON_any E (AMap body)) = Ok jsonBody →
    (requestWithPayment E endpoint body w).2 = after_request E w req1 →
    match httpClient_Do E (trips E w) req1 with
    | Ok resp =>
        if decide (StatusCode resp = StatusPaymentRequired) then
          (∃ message, (requestWithPayment E endpoint body w).1 = Err (PaymentError message)
                      ∧ stops_before_retry message)
          ∨ (∃ text, (requestWithPayment E endpoint body w).1 = Err (errorString text))
          ∨ (∃ why, (requestWithPayment E endpoint body w).1 = Panic why)
        else if decide (StatusCode resp ≠ StatusOK) then
          (requestWithPayment E endpoint body w).1
          = Err (APIError (StatusCode resp) ("API error: " +:+ Body resp))
        else
          (requestWithPayment E endpoint body w).1
          = wrap_err (Errorf "failed to decode response: ")
              (json_Decode_ChatResponse E (Body resp))
    | Err e => (requestWithPayment E endpoint body w).1 = Err (Errorf "request failed: " e)
    | Panic why => (requestWithPayment E endpoint body w).1 = Panic why
    end →
    call_shape E endpoint body w
| shape_two_requests jsonBody resp1 req opt paymentPayload :
    let url := apiURL E (client E w) +:+ endpoint in
    let req1 := first_request E url jsonBody in
    json_Marshal E (toJSON_any E (AMap body)) = Ok jsonBody →
    httpClient_Do E (trips E w) req1 = Ok resp1 →
    StatusCode resp1 = StatusPaymentRequired →
    ParsePaymentRequired E (paymentHeader_of E resp1) = Ok req →
    ExtractPaymentDetails req = Ok opt →
    CreatePaymentPayload_for E (privateKey E (client E w)) opt
      (payment_resource_url req url) (Description (Resource req)) (Extensions req)
    = Ok paymentPayload →
    retry_outcome E (after_request E w req1) opt
      (retry_request E url jsonBody paymentPayload)
      (requestWithPayment E endpoint body w) →
    call_shape E endpoint body w.

(* ===================================================================== *)
(** * client.go: the convenience calls *)
(* ===================================================================== *)

Section chat.
Context (E : Env).

(** [ChatWithSystem] *)
Definition ChatWithSystem (model prompt system : string) : M E string :=
  let messages : list ChatMessage := [] in
  let messages :=
    if decide (system ≠ "")
    then messages ++ [ {| Role := "system"; Content := system |} ]
    else messages in
  let messages := messages ++ [ {| Role := "user"; Content := prompt |} ] in
  resp ← ChatCompletion E model (Some messages) None;
  match elems (Choices resp) with
  | [] => fail E (APIError 0 "No choices in response")
  | choice :: _ => mret (Content (Message choice))
  end.

(** [Chat] *)
Definition Chat (model prompt : string) : M E string :=
  ChatWithSystem model prompt "".

End chat.

(** The messages [ChatWithSystem] sends: the system prompt, when there
    is one, and then the user's. *)
Definition chat_messages (prompt system : string) : list ChatMessage :=
  (if decide (system = "") then [] else [ {| Role := "system"; Content := system |} ])
  ++ [ {| Role := "user"; Content := prompt |} ].

(** The keys a chat completion body can have. *)
Definition body_keys : list string :=
  ["model"; "messages"; "max_tokens"; "temperature"; "top_p"; "search_parameters"].

(** The body of the request [ChatWithSystem] makes. *)
Definition chat_body (model prompt system : string) : gmap string any :=
  ChatCompletion_body model (Some (chat_messages prompt system)) None.

(* ===================================================================== *)
(** * client.go: listing the models *)
(* ===================================================================== *)

(** [Model].  The name is taken by a field of [ChatResponse], as the
    names of its first three fields are; record and fields carry the
    prefix [LLM]. *)
Record LLMModel := {
  LLM_ID : string;
  LLM_Name : string;
  LLM_Provider : string;
  InputPrice : float;
  OutputPrice : float;
  ContextLimit : Z;
}.

(** [ImageModel] *)
Record ImageModel := {
  Image_ID : string;
  Image_Name : string;
  Image_Provider : string;
  Image_Description : string;
  PricePerImage : float;
  SupportedSizes : slice string;
  MaxPromptLength : Z;
  Available : bool;
}.

(** [AllModel], with the fields [ListAllModels] sets. *)
Record AllModel := {
  All_ID : string;
  All_Name : string;
  All_Provider : string;
  All_Type : string;
  All_InputPrice : float;
  All_OutputPrice : float;
  All_ContextLimit : Z;
  All_PricePerImage : float;
  All_SupportedSizes : slice string;
}.

(** [json.NewDecoder(resp.Body).Decode(&result)] for the two listings:
    the [Data] field of what was decoded. *)
Record Decoders := {
  json_Decode_Models : string → result (slice LLMModel);
  json_Decode_ImageModels : string → result (slice ImageModel);
}.

(** The two struct literals of [ListAllModels]; the fields a literal
    leaves out have their zero value. *)
Definition AllModel_of_llm (m : LLMModel) : AllModel :=
  {| All_ID := LLM_ID m; All_Name := LLM_Name m; All_Provider := LLM_Provider m;
     All_Type := "llm";
     All_InputPrice := InputPrice m; All_OutputPrice := OutputPrice m;
     All_ContextLimit := ContextLimit m;
     All_PricePerImage := 0; All_SupportedSizes := None |}.

Definition AllModel_of_image (m : ImageModel) : AllModel :=
  {| All_ID := Image_ID m; All_Name := Image_Name m; All_Provider := Image_Provider m;
     All_Type := "image";
     All_InputPrice := 0; All_OutputPrice := 0; All_ContextLimit := 0;
     All_PricePerImage := PricePerImage m; All_SupportedSizes := SupportedSizes m |}.

Section listing.
Context (E : Env) (D : Decoders).

(** [c.httpClient.Get(url)]: a GET request without headers or body, its
    error wrapped with [prefix]. *)
Definition Get (prefix url : string) : M E Response :=
  match http_NewRequest_error E "GET" url with
  | Some e => fail E (Errorf prefix e)
  | None =>
      Do E prefix {| Method := "GET"; RequestURL := url;
                     RequestHeader := ∅; RequestBody := "" |}
  end.

(** [llmModels, err := c.ListModels(); if err != nil { return nil,
    fmt.Errorf(prefix + "%w", err) }] *)
Definition wrapped {A} (prefix : string) (m : M E A) : M E A := λ w,
  ((wrap_err (Errorf prefix) (m w).1), (m w).2).

(** [ListModels] *)
Definition ListModels : M E (slice LLMModel) :=
  c ← (λ w, (Ok (client E w), w));
  let url := apiURL E c +:+ "/v1/models" in
  resp ← Get "failed to list models: " url;
  if decide (StatusCode resp ≠ StatusOK) then
    fail E (APIError (StatusCode resp) "Failed to list models")
  else
  result ← lift E (wrap_err (Errorf "failed to decode models response: ")
                     (json_Decode_Models D (Body resp)));
  mret result.

(** [ListImageModels] *)
Definition ListImageModels : M E (slice ImageModel) :=
  c ← (λ w, (Ok (client E w), w));
  let url := apiURL E c +:+ "/v1/images/models" in
  resp ← Get "failed to list image models: " url;
  if decide (StatusCode resp ≠ StatusOK) then
    fail E (APIError (StatusCode resp) "Failed to list image models")
  else
  result ← lift E (wrap_err (Errorf "failed to decode image models response: ")
                     (json_Decode_ImageModels D (Body resp)));
  mret result.

(** [ListAllModels]; the slice it returns is made, so not nil. *)
Definition ListAllModels : M E (slice AllModel) :=
  llmModels ← wrapped "failed to list LLM models: " ListModels;
  imageModels ← wrapped "failed to list image models: " ListImageModels;
  let allModels : list AllModel := [] in
  let allModels :=
    foldl (λ all m, all ++ [AllModel_of_llm m]) allModels (elems llmModels) in
  let allModels :=
    foldl (λ all m, all ++ [AllModel_of_image m]) allModels (elems imageModels) in
  mret (Some allModels).

End listing.

(** The GET request of a listing. *)
Definition get_request (url : string) : Request :=
  {| Method := "GET"; RequestURL := url; RequestHeader := ∅; RequestBody := "" |}.

(** A listing call as its caller sees it: the client is left as it was;
    at most one request is made, a GET of [url] without headers or body;
    any answer but 200, a 402 among them, is returned as an [APIError]
    with that status and the message [failure]; and a result is returned
    only for an answer 200. *)
Definition plain_get {A} (E : Env) (w : world E) (url failure : string)
    (run : result A * world E) : Prop :=
  client E run.2 = client E w
  ∧ (run.2 = w
     ∨ ∃ answer, trips E run.2 = trips E w ++ [(get_request url, answer)])
  ∧ (∀ x resp,
       trips E run.2 = trips E w ++ [x] → x.2 = Ok resp →
       StatusCode resp ≠ StatusOK →
       run.1 = Err (APIError (StatusCode resp) failure))
  ∧ (∀ a, run.1 = Ok a →
       ∃ x resp, trips E run.2 = trips E w ++ [x] ∧ x.2 = Ok resp
                 ∧ StatusCode resp = StatusOK).

(** A server for the listings, and what the test double decodes. *)
Definition demo_models : list LLMModel :=
  [ {| LLM_ID := "openai/gpt-4o"; LLM_Name := "GPT-4o"; LLM_Provider := "openai";
       InputPrice := 2.5; OutputPrice := 10; ContextLimit := 0 |};
    {| LLM_ID := "anthropic/claude-sonnet-4"; LLM_Name := "Claude Sonnet 4";
       LLM_Provider := "anthropic";
       InputPrice := 3; OutputPrice := 15; ContextLimit := 0 |} ].

Definition demo_image_models : list ImageModel :=
  [ {| Image_ID := "google/nano-banana"; Image_Name := "Nano Banana";
       Image_Provider := "google"; Image_Description := "";
       PricePerImage := 0.25; SupportedSizes := None; MaxPromptLength := 0;
       Available := true |} ].

Definition demo_decoders : Decoders :=
  {| json_Decode_Models := λ _, Ok (Some demo_models);
     json_Decode_ImageModels := λ _, Ok (Some demo_image_models) |}.

Definition listing_env : Env := demo_env [] [Ok settled_response; Ok settled_response].

(** A server that answers every request with 402 and the scenario's
    challenge. *)
Definition charging_env : Env :=
  demo_env [scenario_doc] [Ok challenge_response; Ok challenge_response].

(* ===================================================================== *)
(** * strings and regexp *)
(* ===================================================================== *)

Module strings.

(** [strings.CutPrefix(s, prefix)]: what follows the prefix, if [s]
    starts with it. *)
Fixpoint CutPrefix (s prefix : string) {struct prefix} : option string :=
  match prefix, s with
  | EmptyString, _ => Some s
  | String p prefix', String c s' =>
      if Ascii.eqb p c then CutPrefix s' prefix' else None
  | String _ _, EmptyString => None
  end.

(** [strings.TrimPrefix(s, prefix)] *)
Definition TrimPrefix (s prefix : string) : string :=
  default s (CutPrefix s prefix).

(** [strings.HasSuffix(s, suffix)] and [strings.TrimSuffix(s, suffix)],
    on the characters as a list. *)
Definition HasSuffix (s suffix : string) : bool :=
  bool_decide (list_ascii_of_string suffix `suffix_of` list_ascii_of_string s).

Definition TrimSuffix (s suffix : string) : string :=
  if HasSuffix s suffix
  then string_of_list_ascii
         (take (String.length s - String.length suffix) (list_ascii_of_string s))
  else s.

End strings.

Module regexp.

(** Regular expressions over bytes, as far as the two expressions of
    [validation.go] go: character classes, concatenation, alternation and
    repetition. *)
Inductive regex :=
| Nothing
| Empty
| Class (p : ascii → bool)
| Cat (r1 r2 : regex)
| Alt (r1 r2 : regex)
| Star (r : regex).

(** [r?], [r+], [r{n}] and a literal text. *)
Definition Opt (r : regex) : regex := Alt Empty r.
Definition Plus (r : regex) : regex := Cat r (Star r).
Fixpoint Repeat (n : nat) (r : regex) : regex :=
  match n with
  | O => Empty
  | S n' => Cat r (Repeat n' r)
  end.
Fixpoint Lit (s : string) : regex :=
  match s with
  | EmptyString => Empty
  | String c s' => Cat (Class (Ascii.eqb c)) (Lit s')
  end.

(** Matching by derivatives. *)
Fixpoint nullable (r : regex) : bool :=
  match r with
  | Nothing => false
  | Empty => true
  | Class _ => false
  | Cat r1 r2 => nullable r1 && nullable r2
  | Alt r1 r2 => nullable r1 || nullable r2
  | Star _ => true
  end.

Fixpoint deriv (c : ascii) (r : regex) : regex :=
  match r with
  | Nothing => Nothing
  | Empty => Nothing
  | Class p => if p c then Empty else Nothing
  | Cat r1 r2 =>
      if nullable r1 then Alt (Cat (deriv c r1) r2) (deriv c r2)
      else Cat (deriv c r1) r2
  | Alt r1 r2 => Alt (deriv c r1) (deriv c r2)
  | Star r' => Cat (deriv c r') (Star r')
  end.

(** [MatchString] for an expression written between [^] and [$]: the
    whole text is in the language. *)
Fixpoint MatchString (r : regex) (s : string) : bool :=
  match s with
  | EmptyString => nullable r
  | String c s' => MatchString (deriv c r) s'
  end.

(** A character range [lo-hi] of a class. *)
Definition range (lo hi c : ascii) : bool :=
  (N_of_ascii lo <=? N_of_ascii c)%N && (N_of_ascii c <=? N_of_ascii hi)%N.

(** The language of an expression. *)
Inductive star (L : string → Prop) : string → Prop :=
| star_nil : star L ""
| star_app x y : L x → star L y → star L (x +:+ y).

Fixpoint lang (r : regex) (s : string) : Prop :=
  match r with
  | Nothing => False
  | Empty => s = ""
  | Class p => ∃ c, s = String c "" ∧ p c = true
  | Cat r1 r2 => ∃ x y, s = x +:+ y ∧ lang r1 x ∧ lang r2 y
  | Alt r1 r2 => lang r1 s ∨ lang r2 s
  | Star r' => star (lang r') s
  end.

End regexp.

(* ===================================================================== *)
(** * validation.go *)
(* ===================================================================== *)

(** [[a-fA-F0-9]], [[a-zA-Z0-9_-]] and [[a-zA-Z0-9._-]] *)
Definition hex_class (c : ascii) : bool :=
  regexp.range "a" "f" c || regexp.range "A" "F" c || regexp.range "0" "9" c.

Definition provider_class (c : ascii) : bool :=
  regexp.range "a" "z" c || regexp.range "A" "Z" c || regexp.range "0" "9" c
  || Ascii.eqb c "_" || Ascii.eqb c "-".

Definition name_class (c : ascii) : bool :=
  regexp.range "a" "z" c || regexp.range "A" "Z" c || regexp.range "0" "9" c
  || Ascii.eqb c "." || Ascii.eqb c "_" || Ascii.eqb c "-".

(** [privateKeyRegex]: [^(0x)?[a-fA-F0-9]{64}$] *)
Definition privateKeyRegex : regexp.regex :=
  regexp.Cat (regexp.Opt (regexp.Lit "0x"))
    (regexp.Repeat 64 (regexp.Class hex_class)).

(** [modelRegex]: [^[a-zA-Z0-9_-]+(/[a-zA-Z0-9._-]+)?$] *)
Definition modelRegex : regexp.regex :=
  regexp.Cat (regexp.Plus (regexp.Class provider_class))
    (regexp.Opt (regexp.Cat (regexp.Lit "/") (regexp.Plus (regexp.Class name_class)))).

(** A validator returns [nil] ([None]) or a [ValidationError]. *)

(** [ValidatePrivateKey] *)
Definition ValidatePrivateKey (key : string) : option error :=
  if decide (key = "") then
    Some (ValidationError "privateKey" "Private key is required")
  else if negb (regexp.MatchString privateKeyRegex key) then
    Some (ValidationError "privateKey"
            "Private key must be a 64-character hex string (with optional 0x prefix)")
  else None.

(** [ValidateModel] *)
Definition ValidateModel (model : string) : option error :=
  if decide (model = "") then
    Some (ValidationError "model" "Model is required")
  else if negb (regexp.MatchString modelRegex model) then
    Some (ValidationError "model"
            "Invalid model format. Expected format: 'provider/model' or 'model-name'")
  else None.

(** [ValidateMaxTokens] *)
Definition ValidateMaxTokens (maxTokens : Z) : option error :=
  if maxTokens <? 0 then
    Some (ValidationError "maxTokens" "max_tokens must be non-negative")
  else if 1000000 <? maxTokens then
    Some (ValidationError "maxTokens" "max_tokens exceeds maximum allowed value")
  else None.

(** [ValidateTemperature] *)
Definition ValidateTemperature (temperature : float) : option error :=
  if PrimFloat.ltb temperature 0 then
    Some (ValidationError "temperature" "temperature must be non-negative")
  else if PrimFloat.ltb 2 temperature then
    Some (ValidationError "temperature" "temperature must be at most 2.0")
  else None.

(** [ValidateTopP] *)
Definition ValidateTopP (topP : float) : option error :=
  if PrimFloat.ltb topP 0 then
    Some (ValidationError "topP" "top_p must be non-negative")
  else if PrimFloat.ltb 1 topP then
    Some (ValidationError "topP" "top_p must be at most 1.0")
  else None.

(** What the validators read of a parsed URL, and [url.Parse] itself,
    which is the library's. *)
Record URL_ := {
  URLScheme : string;
}.

Section urls.
Context (url_Parse : string → result URL_).

(** [ValidateAPIURL] *)
Definition ValidateAPIURL (apiURL : string) : option error :=
  if decide (apiURL = "") then
    Some (ValidationError "apiURL" "API URL is required")
  else
    match url_Parse apiURL with
    | Ok parsed =>
        if decide (URLScheme parsed ≠ "http" ∧ URLScheme parsed ≠ "https") then
          Some (ValidationError "apiURL" "URL must use http or https scheme")
        else None
    | _ => Some (ValidationError "apiURL" "Invalid URL format")
    end.

(** [ValidateResourceURL] *)
Definition ValidateResourceURL (resourceURL expectedBase : string) : result string :=
  if decide (resourceURL = "") then
    Ok (expectedBase +:+ "/v1/chat/completions")
  else
    match url_Parse resourceURL with
    | Ok parsed =>
        if decide (URLScheme parsed ≠ "http" ∧ URLScheme parsed ≠ "https") then
          Err (ValidationError "resourceURL" "Resource URL must use http or https scheme")
        else Ok (strings.TrimSuffix resourceURL "/")
    | _ => Err (ValidationError "resourceURL" "Invalid resource URL format")
    end.

End urls.

(** The texts a key is made of: 64 hexadecimal digits of either case. *)
Definition is_hex_key (digits : string) : Prop :=
  String.length digits = 64%nat
  ∧ forallb hex_class (list_ascii_of_string digits) = true.

(* ===================================================================== *)
(** * strings.TrimSpace *)
(* ===================================================================== *)

(** The UTF-8 encodings of the characters [unicode.IsSpace] accepts:
    tab, line feed, vertical tab, form feed, carriage return, space,
    U+0085, U+00A0, U+1680, U+2000 to U+200A, U+2028, U+2029, U+202F,
    U+205F and U+3000. *)
Definition utf8 (bytes : list Z) : string := string_of_bytes bytes.

Definition space_sequences : list string :=
  [ utf8 [9]; utf8 [10]; utf8 [11]; utf8 [12]; utf8 [13]; utf8 [32];
    utf8 [194; 133]; utf8 [194; 160]; utf8 [225; 154; 128] ]
  ++ ((λ b, utf8 [226; 128; b]) <$> [128; 129; 130; 131; 132; 133; 134; 135; 136; 137; 138])
  ++ [ utf8 [226; 128; 168]; utf8 [226; 128; 169]; utf8 [226; 128; 175];
       utf8 [226; 129; 159]; utf8 [227; 128; 128] ].

(** The text after the first of [seqs] that [s] begins with, if any. *)
Definition cut_one (seqs : list string) (s : string) : option string :=
  (list_find (λ r : option string, is_Some r)
     ((λ sp, strings.CutPrefix s sp) <$> seqs)) ≫= snd.

(** The text after one leading space character, if there is one. *)
Definition cut_space (s : string) : option string :=
  cut_one space_sequences s.

(** The text before one trailing space character, if there is one: the
    same, read from the end. *)
Definition cut_space_right (s : string) : option string :=
  String.rev <$> cut_one (String.rev <$> space_sequences) (String.rev s).

Fixpoint trim_left (fuel : nat) (s : string) : string :=
  match fuel with
  | O => s
  | S fuel' =>
      match cut_space s with
      | Some rest => trim_left fuel' rest
      | None => s
      end
  end.

Fixpoint trim_right (fuel : nat) (s : string) : string :=
  match fuel with
  | O => s
  | S fuel' =>
      match cut_space_right s with
      | Some rest => trim_right fuel' rest
      | None => s
      end
  end.

(** [strings.TrimSpace(s)] *)
Definition TrimSpace (s : string) : string :=
  let s := trim_left (String.length s) s in
  trim_right (String.length s) s.

(* ===================================================================== *)
(** * wallet.go *)
(* ===================================================================== *)

(** The files the process can read, by path, with their content. *)
Abbreviation files := (gmap string string) (only parsing).

(** What the wallet and constructor code asks of the process and of
    go-ethereum's [crypto] package. *)
Record Host (E : Env) := {
  (** [os.Getenv(name)] *)
  os_Getenv : string → string;
  (** [filepath.Join(dir, name)] *)
  filepath_Join : string → string → string;
  (** [crypto.GenerateKey()] *)
  crypto_GenerateKey : result (PrivateKey E);
  (** [crypto.FromECDSA(key)] *)
  crypto_FromECDSA : PrivateKey E → list Z;
  (** [crypto.HexToECDSA(hexkey)] *)
  crypto_HexToECDSA : string → result (PrivateKey E);
  (** the error of [os.MkdirAll(dir, 0755)], if any *)
  os_MkdirAll_error : files → string → option error;
  (** a failing [os.WriteFile(path, data, 0600)]: its error and the files
      it leaves behind *)
  os_WriteFile_failure : files → string → string → option (error * files);
}.
Arguments os_Getenv {E} _ _.
Arguments filepath_Join {E} _ _ _.
Arguments crypto_GenerateKey {E} _.
Arguments crypto_FromECDSA {E} _ _.
Arguments crypto_HexToECDSA {E} _ _.
Arguments os_MkdirAll_error {E} _ _ _.
Arguments os_WriteFile_failure {E} _ _ _ _.

Definition first_nonempty (l : list string) : string :=
  default "" (List.find (λ s, negb (String.eqb s "")) l).

(** [WalletInfo]; the fields [PrivateKey] and [Address] carry the name of
    the struct, [PrivateKey] being the key type of [Env]. *)
Record WalletInfo := {
  WalletPrivateKey : string;
  WalletAddress : string;
  IsNew : bool;
}.

Section wallet.
Context {E : Env} (H : Host E).

Definition WalletDir : string := filepath_Join H (os_Getenv H "HOME") ".blockrun".
Definition WalletFile : string := filepath_Join H WalletDir ".session".

(** [os.ReadFile(path)] *)
Definition os_ReadFile (fs : files) (path : string) : result string :=
  match fs !! path with
  | Some data => Ok data
  | None => Err (errorString ("open " +:+ path +:+ ": no such file or directory"))
  end.

(** [os.WriteFile(path, data, 0600)] *)
Definition os_WriteFile (fs : files) (path data : string) : option error * files :=
  match os_WriteFile_failure H fs path data with
  | Some (err, fs') => (Some err, fs')
  | None => (None, <[path := data]> fs)
  end.

(** [CreateWallet]: the address, then the private key. *)
Definition CreateWallet : result (string * string) :=
  key ← wrap_err (Errorf "failed to generate key: ") (crypto_GenerateKey H);
  let privateKeyBytes := crypto_FromECDSA H key in
  let privateKey := "0x" +:+ Bytes2Hex privateKeyBytes in
  let address := PubkeyToAddress_Hex E key in
  Ok (address, privateKey).

(** [SaveWallet] *)
Definition SaveWallet (privateKey : string) (fs : files) : result string * files :=
  match os_MkdirAll_error H fs WalletDir with
  | Some err => (Err (Errorf "failed to create wallet directory: " err), fs)
  | None =>
      match os_WriteFile fs WalletFile privateKey with
      | (Some err, fs') => (Err (Errorf "failed to write wallet file: " err), fs')
      | (None, fs') => (Ok WalletFile, fs')
      end
  end.

(** The [if data, err := os.ReadFile(path); err == nil { ... }] block of
    [LoadWallet]: the key it returns, if it returns. *)
Definition key_in_file (fs : files) (path : string) : option string :=
  match os_ReadFile fs path with
  | Ok data =>
      let key := TrimSpace data in
      if negb (String.eqb key "") then Some key else None
  | _ => None
  end.

(** [LoadWallet] *)
Definition LoadWallet (fs : files) : result string :=
  match key_in_file fs WalletFile with
  | Some key => Ok key
  | None =>
      let legacyFile := filepath_Join H WalletDir "wallet.key" in
      match key_in_file fs legacyFile with
      | Some key => Ok key
      | None => Ok ""
      end
  end.

(** [GetAddressFromKey] *)
Definition GetAddressFromKey (privateKey : string) : result string :=
  let key := strings.TrimPrefix privateKey "0x" in
  ecdsaKey ← wrap_err (Errorf "invalid private key: ") (crypto_HexToECDSA H key);
  Ok (PubkeyToAddress_Hex E ecdsaKey).

(** [GetPrivateKeyFromHex] *)
Definition GetPrivateKeyFromHex (privateKey : string) : result (PrivateKey E) :=
  let key := strings.TrimPrefix privateKey "0x" in
  crypto_HexToECDSA H key.

(** [envKey] of [GetOrCreateWallet] and [GetWalletAddressFromEnvOrFile] *)
Definition wallet_envKey : string :=
  let envKey := os_Getenv H "BLOCKRUN_WALLET_KEY" in
  if String.eqb envKey "" then os_Getenv H "BASE_CHAIN_WALLET_KEY" else envKey.

(** [fileKey, _ := LoadWallet()] *)
Definition wallet_fileKey (fs : files) : string :=
  match LoadWallet fs with
  | Ok fileKey => fileKey
  | _ => ""
  end.

(** [GetOrCreateWallet] *)
Definition GetOrCreateWallet (fs : files) : result WalletInfo * files :=
  let envKey := wallet_envKey in
  if negb (String.eqb envKey "") then
    (address ← GetAddressFromKey envKey;
     Ok {| WalletPrivateKey := envKey; WalletAddress := address; IsNew := false |},
     fs)
  else
  let fileKey := wallet_fileKey fs in
  if negb (String.eqb fileKey "") then
    (address ← GetAddressFromKey fileKey;
     Ok {| WalletPrivateKey := fileKey; WalletAddress := address; IsNew := false |},
     fs)
  else
  match CreateWallet with
  | Ok (address, privateKey) =>
      match SaveWallet privateKey fs with
      | (Ok _, fs') =>
          (Ok {| WalletPrivateKey := privateKey; WalletAddress := address;
                 IsNew := true |}, fs')
      | (Err err, fs') => (Err err, fs')
      | (Panic why, fs') => (Panic why, fs')
      end
  | Err err => (Err err, fs)
  | Panic why => (Panic why, fs)
  end.

(** The priority [GetOrCreateWallet] documents: the two environment
    variables, then the content of the two files without the white space
    around it; [first_nonempty] of these is the key in use. *)
Definition wallet_candidates (fs : files) : list string :=
  [ os_Getenv H "BLOCKRUN_WALLET_KEY";
    os_Getenv H "BASE_CHAIN_WALLET_KEY";
    default "" (TrimSpace <$> fs !! WalletFile);
    default "" (TrimSpace <$> fs !! filepath_Join H WalletDir "wallet.key") ].

(** [GetWalletAddressFromEnvOrFile] *)
Definition GetWalletAddressFromEnvOrFile (fs : files) : result string :=
  let envKey := wallet_envKey in
  if negb (String.eqb envKey "") then GetAddressFromKey envKey
  else
  let fileKey := wallet_fileKey fs in
  if negb (String.eqb fileKey "") then GetAddressFromKey fileKey
  else Ok "".

End wallet.

(** A stand-in for [url.Parse] in examples: it reads the scheme of the
    three kinds of URL it knows and fails on a space. *)
Definition demo_url_Parse (s : string) : result URL_ :=
  if existsb (Ascii.eqb " ") (list_ascii_of_string s) then
    Err (errorString "parse: invalid character in host name")
  else if String.prefix "https://" s then Ok {| URLScheme := "https" |}
  else if String.prefix "http://" s then Ok {| URLScheme := "http" |}
  else if String.prefix "ftp://" s then Ok {| URLScheme := "ftp" |}
  else Ok {| URLScheme := "" |}.

(** The ASCII characters that print: none of them begins or ends the
    encoding of a space character. *)
Definition printable (c : ascii) : bool :=
  let n := Z.of_N (N_of_ascii c) in
  (32 <? n) && (n <? 127).

(** A text that begins and ends with a printing ASCII character, and
    white space: space characters one after the other. *)
Definition printable_ends (s : string) : Prop :=
  ∃ c rest init d,
    s = String c rest ∧ s = init +:+ String d ""
    ∧ printable c = true ∧ printable d = true.

Definition white_space (l : list string) : string := foldr String.app "" l.

(** The key of the tests, as the 32 bytes [crypto.FromECDSA] returns. *)
Definition demo_key_bytes : list Z :=
  default [] (Hex2Bytes "ac0974bec39a17e36ba4a6b4d238ff944bacb478cbed5efcae784d7bf4f2ff80").

(** A process for examples: its environment is [env]; every directory can
    be made and every file written; there is one key, which
    [crypto.HexToECDSA] reads from any 64 hexadecimal digits. *)
Definition demo_host (env : list (string * string)) : Host (demo_env [] []) :=
  Build_Host (demo_env [] [])
    (λ name, default "" ((list_to_map env : gmap string string) !! name))
    (λ dir name, dir +:+ "/" +:+ name)
    (Ok tt)
    (λ _, demo_key_bytes)
    (λ hexkey,
       if (String.length hexkey =? 64)%nat
          && forallb hex_class (list_ascii_of_string hexkey)
       then Ok tt
       else Err (errorString "invalid hex character or length"))
    (λ _ _, None)
    (λ _ _ _, None).

(** The process of the examples, in the home directory [/home/u], and the
    key of the tests as a user writes it. *)
Definition demo_home : list (string * string) := [("HOME", "/home/u")].

Definition demo_key : string :=
  "0xac0974bec39a17e36ba4a6b4d238ff944bacb478cbed5efcae784d7bf4f2ff80".

Definition demo_session : string := "/home/u/.blockrun/.session".

Definition demo_address : string := "0xf39Fd6e51aad88F6F4ce6aB8827279cffFb92266".

(** A process with the key of the tests in [BASE_CHAIN_WALLET_KEY], and a
    session file that holds no key. *)
Definition demo_keyed_host : Host (demo_env [] []) :=
  demo_host (("BASE_CHAIN_WALLET_KEY", demo_key) :: demo_home).

Definition demo_stale_files : gmap string string := {[ demo_session := " not a key " ]}.

(** A session file as an editor leaves it: the key and a line feed. *)
Definition demo_edited_files : gmap string string :=
  {[ demo_session := demo_key +:+ utf8 [10] ]}.

(* ===================================================================== *)
(** * NewLLMClient and NewImageClient *)
(* ===================================================================== *)

Definition DefaultAPIURL : string := "https://blockrun.ai/api".

(** [time.Duration] counts nanoseconds. *)
Definition time_Second : Z := 1000000000.
Definition DefaultTimeout : Z := 60 * time_Second.
Definition DefaultImageTimeout : Z := 120 * time_Second.

(** The [http.Client] objects of the process, by address: the [Timeout]
    of each. *)
Abbreviation http_clients := (gmap loc Z) (only parsing).

(** [ClientOption]: the closures the package can return. *)
Inductive ClientOption :=
| WithAPIURL (url : string)
| WithTimeout (timeout : Z)
| WithHTTPClient (client : option loc).

(** [ImageClientOption] *)
Inductive ImageClientOption :=
| WithImageAPIURL (url : string)
| WithImageTimeout (timeout : Z)
| WithImageHTTPClient (client : option loc).

Section construction.
Context {E : Env} (H : Host E).

(** A client under construction: the fields [LLMClient] models, and the
    [httpClient] pointer, [None] for nil.  [ImageClient] has the same
    fields, so the same record stands for it. *)
Record NewClient := {
  fields : LLMClient E;
  httpClient : option loc;
}.

(** [c.apiURL = url] *)
Definition set_apiURL (c : NewClient) (url : string) : NewClient :=
  {| fields := {| privateKey := privateKey E (fields c);
                  address := address E (fields c);
                  apiURL := url;
                  sessionTotalUSD := sessionTotalUSD E (fields c);
                  sessionCalls := sessionCalls E (fields c) |};
     httpClient := httpClient c |}.

(** [c.httpClient.Timeout = timeout] *)
Definition set_Timeout (c : NewClient) (timeout : Z) (h : http_clients)
  : result NewClient * http_clients :=
  match httpClient c with
  | Some l => (Ok c, <[l := timeout]> h)
  | None => (Panic "invalid memory address or nil pointer dereference", h)
  end.

(** [opt(client)] *)
Definition apply_ClientOption (opt : ClientOption) (c : NewClient) (h : http_clients)
  : result NewClient * http_clients :=
  match opt with
  | WithAPIURL url => (Ok (set_apiURL c (strings.TrimSuffix url "/")), h)
  | WithTimeout timeout => set_Timeout c timeout h
  | WithHTTPClient client =>
      (Ok {| fields := fields c; httpClient := client |}, h)
  end.

Definition apply_ImageClientOption (opt : ImageClientOption) (c : NewClient)
    (h : http_clients) : result NewClient * http_clients :=
  match opt with
  | WithImageAPIURL url => (Ok (set_apiURL c (strings.TrimSuffix url "/")), h)
  | WithImageTimeout timeout => set_Timeout c timeout h
  | WithImageHTTPClient client =>
      (Ok {| fields := fields c; httpClient := client |}, h)
  end.

(** [for _, opt := range opts { opt(client) }] *)
Fixpoint apply_options {O} (apply : O → NewClient → http_clients → result NewClient * http_clients)
    (opts : list O) (c : NewClient) (h : http_clients) : result NewClient * http_clients :=
  match opts with
  | [] => (Ok c, h)
  | opt :: opts' =>
      match apply opt c h with
      | (Ok c', h') => apply_options apply opts' c' h'
      | other => other
      end
  end.

(** The end of both constructors: the environment gives the API URL when
    the options left the default one. *)
Definition env_apiURL (client : NewClient) : NewClient :=
  let envURL := os_Getenv H "BLOCKRUN_API_URL" in
  if negb (String.eqb envURL "") && String.eqb (apiURL E (fields client)) DefaultAPIURL
  then set_apiURL client (strings.TrimSuffix envURL "/")
  else client.

(** [&http.Client{Timeout: timeout}]: a new object. *)
Definition new_http_Client (timeout : Z) (h : http_clients) : loc * http_clients :=
  let l := fresh (dom h) in (l, <[l := timeout]> h).

(** [NewLLMClient] *)
Definition NewLLMClient (privateKey : string) (opts : list ClientOption)
    (h : http_clients) : result NewClient * http_clients :=
  let key := privateKey in
  let key := if String.eqb key "" then os_Getenv H "BASE_CHAIN_WALLET_KEY" else key in
  if String.eqb key "" then
    (Err (ValidationError "privateKey"
            "Private key required. Pass privateKey parameter or set BASE_CHAIN_WALLET_KEY environment variable. NOTE: Your key never leaves your machine - only signatures are sent."),
     h)
  else
  let key := strings.TrimPrefix key "0x" in
  match crypto_HexToECDSA H key with
  | Err err =>
      (Err (ValidationError "privateKey" ("Invalid private key format: " +:+ Error err)), h)
  | Panic why => (Panic why, h)
  | Ok ecdsaKey =>
      let address := PubkeyToAddress_Hex E ecdsaKey in
      let '(l, h) := new_http_Client DefaultTimeout h in
      let client :=
        {| fields := {| privateKey := ecdsaKey; address := address;
                        apiURL := DefaultAPIURL;
                        sessionTotalUSD := 0%float; sessionCalls := 0 |};
           httpClient := Some l |} in
      match apply_options apply_ClientOption opts client h with
      | (Ok client, h) => (Ok (env_apiURL client), h)
      | other => other
      end
  end.

(** [NewImageClient] *)
Definition NewImageClient (privateKey : string) (opts : list ImageClientOption)
    (h : http_clients) : result NewClient * http_clients :=
  let key := privateKey in
  let key := if String.eqb key "" then os_Getenv H "BLOCKRUN_WALLET_KEY" else key in
  let key := if String.eqb key "" then os_Getenv H "BASE_CHAIN_WALLET_KEY" else key in
  if String.eqb key "" then
    (Err (ValidationError "privateKey"
            "Private key required. Pass privateKey parameter or set BLOCKRUN_WALLET_KEY environment variable."),
     h)
  else
  let key := strings.TrimPrefix key "0x" in
  match crypto_HexToECDSA H key with
  | Err err =>
      (Err (ValidationError "privateKey" ("Invalid private key format: " +:+ Error err)), h)
  | Panic why => (Panic why, h)
  | Ok ecdsaKey =>
      let address := PubkeyToAddress_Hex E ecdsaKey in
      let '(l, h) := new_http_Client DefaultImageTimeout h in
      let client :=
        {| fields := {| privateKey := ecdsaKey; address := address;
                        apiURL := DefaultAPIURL;
                        sessionTotalUSD := 0%float; sessionCalls := 0 |};
           httpClient := Some l |} in
      match apply_options apply_ImageClientOption opts client h with
      | (Ok client, h) => (Ok (env_apiURL client), h)
      | other => other
      end
  end.

End construction.

(** The key each constructor parses: its argument, or, for an empty
    argument, what it reads in the environment. *)
Definition llm_key {E} (H : Host E) (privateKey : string) : string :=
  if String.eqb privateKey "" then os_Getenv H "BASE_CHAIN_WALLET_KEY" else privateKey.

Definition image_key {E} (H : Host E) (privateKey : string) : string :=
  if String.eqb privateKey "" then wallet_envKey H else privateKey.

Definition is_WithAPIURL (opt : ClientOption) : bool :=
  match opt with WithAPIURL _ => true | _ => false end.

Definition is_WithTimeout (opt : ClientOption) : bool :=
  match opt with WithTimeout _ => true | _ => false end.

Definition is_WithHTTPClient (opt : ClientOption) : bool :=
  match opt with WithHTTPClient _ => true | _ => false end.

(** The image option that has the code of a client option. *)
Definition image_option (opt : ClientOption) : ImageClientOption :=
  match opt with
  | WithAPIURL url => WithImageAPIURL url
  | WithTimeout timeout => WithImageTimeout timeout
  | WithHTTPClient client => WithImageHTTPClient client
  end.

(** What no option changes: the key, the address and the ledger. *)
Definition same_identity {E} (c c' : NewClient (E := E)) : Prop :=
  privateKey E (fields c') = privateKey E (fields c)
  ∧ address E (fields c') = address E (fields c)
  ∧ sessionTotalUSD E (fields c') = sessionTotalUSD E (fields c)
  ∧ sessionCalls E (fields c') = sessionCalls E (fields c).

(** A process with the key of the tests in [BLOCKRUN_WALLET_KEY] only. *)
Definition demo_blockrun_host : Host (demo_env [] []) :=
  demo_host (("BLOCKRUN_WALLET_KEY", demo_key) :: demo_home).

(** Two stores of [http.Client] objects that differ at most in the object
    at [l0], which then has the default [Timeout] of each constructor. *)
Definition same_but_default (l0 : loc) (h1 h2 : gmap loc Z) : Prop :=
  ∀ l, h2 !! l = h1 !! l
       ∨ (l = l0 ∧ h1 !! l = Some DefaultTimeout ∧ h2 !! l = Some DefaultImageTimeout).

(** A process with [BLOCKRUN_API_URL] set, and a caller's [http.Client]
    with a [Timeout] of 30 s at address 0. *)
Definition demo_staging_host : Host (demo_env [] []) :=
  demo_host (("BLOCKRUN_API_URL", "https://staging.example/api/") :: demo_home).

Definition demo_http_clients : gmap loc Z := {[ 0%nat := 30 * time_Second ]}.

(* ===================================================================== *)
(** * The image client *)
(* ===================================================================== *)

Definition DefaultImageModel : string := "google/nano-banana".
Definition DefaultImageSize : string := "1024x1024".

(** [ImageGenerateOptions]; the fields [Model] and [N] carry the name of
    the struct, [Model] being a field of [ChatResponse] and [N] the type
    of binary naturals. *)
Record ImageGenerateOptions := {
  ImageModelName : string;
  Size : string;
  ImageN : Z;
  Quality : string;
}.

(** [ImageData] and [ImageResponse] *)
Record ImageData := {
  ImageURL : string;
  RevisedPrompt : string;
  B64JSON : string;
}.

Record ImageResponse := {
  ImageCreated : Z;
  Data : slice ImageData;
}.

(** The request body [Generate] builds. *)
Definition Generate_body (prompt : string) (opts : option ImageGenerateOptions)
  : gmap string any :=
  let body : gmap string any :=
    <["n" := AInt 1]>
      (<["size" := AString DefaultImageSize]>
         (<["model" := AString DefaultImageModel]>
            (<["prompt" := AString prompt]> ∅))) in
  match opts with
  | Some o =>
      let body := if negb (String.eqb (ImageModelName o) "")
                  then <["model" := AString (ImageModelName o)]> body else body in
      let body := if negb (String.eqb (Size o) "")
                  then <["size" := AString (Size o)]> body else body in
      let body := if 0 <? ImageN o
                  then <["n" := AInt (ImageN o)]> body else body in
      let body := if negb (String.eqb (Quality o) "")
                  then <["quality" := AString (Quality o)]> body else body in
      body
  | None => body
  end.

Section image.
Context (E : Env).
(** [json.NewDecoder(r).Decode(&imageResp)] *)
Context (json_Decode_ImageResponse : string → result ImageResponse).

(** [handlePaymentAndRetry] of [*ImageClient]; the client has the fields
    of [LLMClient], and the world of a call is the same. *)
Definition Image_handlePaymentAndRetry (url body : string) (resp : Response)
  : M E ImageResponse :=
  let paymentHeader := paymentHeader_of E resp in
  if decide (paymentHeader = "") then
    fail E (PaymentError "402 response but no payment requirements found")
  else
  paymentReq ← lift E (wrap_err
      (λ err, PaymentError ("Failed to parse payment requirements: " +:+ Error err))
      (ParsePaymentRequired E paymentHeader));
  paymentOption ← lift E (wrap_err
      (λ err, PaymentError ("Failed to extract payment details: " +:+ Error err))
      (ExtractPaymentDetails paymentReq));
  let resourceURL :=
    if decide (URL (Resource paymentReq) = "") then url
    else URL (Resource paymentReq) in
  c ← (λ w, (Ok (client E w), w));
  paymentPayload ← lift E (wrap_err
      (λ err, PaymentError ("Failed to create payment: " +:+ Error err))
      (CreatePaymentPayload E (privateKey E c)
         (PayTo paymentOption) (Amount paymentOption) (Network paymentOption)
         resourceURL (Description (Resource paymentReq))
         (MaxTimeoutSeconds paymentOption) (Extra paymentOption)
         (Extensions paymentReq)));
  retryReq ← NewRequest_POST E "failed to create retry request: " url body
               [("Content-Type", "application/json");
                ("PAYMENT-SIGNATURE", paymentPayload)];
  retryResp ← Do E "retry request failed: " retryReq;
  if decide (StatusCode retryResp = StatusPaymentRequired) then
    fail E (PaymentError "Payment was rejected. Check your wallet balance.")
  else if decide (StatusCode retryResp ≠ StatusOK) then
    fail E (APIError (StatusCode retryResp)
              ("API error after payment: " +:+ Body retryResp))
  else
  imageResp ← lift E (wrap_err (Errorf "failed to decode response: ")
                        (json_Decode_ImageResponse (Body retryResp)));
  track_spending E (Amount paymentOption);;
  mret imageResp.

(** [requestWithPayment] of [*ImageClient] *)
Definition Image_requestWithPayment (endpoint : string) (body : gmap string any)
  : M E ImageResponse :=
  c ← (λ w, (Ok (client E w), w));
  let url := apiURL E c +:+ endpoint in
  jsonBody ← lift E (wrap_err (Errorf "failed to encode request body: ")
                       (json_Marshal E (toJSON_any E (AMap body))));
  req ← NewRequest_POST E "failed to create request: " url jsonBody
          [("Content-Type", "application/json")];
  resp ← Do E "request failed: " req;
  if decide (StatusCode resp = StatusPaymentRequired) then
    Image_handlePaymentAndRetry url jsonBody resp
  else if decide (StatusCode resp ≠ StatusOK) then
    fail E (APIError (StatusCode resp) ("API error: " +:+ Body resp))
  else
  imageResp ← lift E (wrap_err (Errorf "failed to decode response: ")
                        (json_Decode_ImageResponse (Body resp)));
  mret imageResp.

(** [Generate] *)
Definition Generate (prompt : string) (opts : option ImageGenerateOptions)
  : M E ImageResponse :=
  Image_requestWithPayment "/v1/images/generations" (Generate_body prompt opts).

End image.

(** How a call of the image client compares with the call of the LLM
    client on the same input: the same round trips; the same error,
    unless it is one of decoding the response; the same world after it
    when both return a response or neither does; and a client that is
    unchanged when the image call returns no response. *)
Definition same_handshake {E A B} (w : world E)
    (image : result A * world E) (chat : result B * world E) : Prop :=
  trips E image.2 = trips E chat.2
  ∧ (∀ e, (∀ cause, e ≠ Errorf "failed to decode response: " cause) →
          image.1 = Err e ↔ chat.1 = Err e)
  ∧ ((is_Ok image.1 ↔ is_Ok chat.1) → image.2 = chat.2)
  ∧ (¬ is_Ok image.1 → client E image.2 = client E w).

(** The keys a body of [Generate] can have. *)
Definition image_body_keys : list string := ["prompt"; "model"; "size"; "n"; "quality"].

(** An image decoder for examples: every body is one response. *)
Definition demo_ImageResponse : ImageResponse := {| ImageCreated := 0; Data := None |}.

Definition demo_image_decoder (body : string) : result ImageResponse :=
  Ok demo_ImageResponse.

(** Options that ask for a model, two images and a quality, and leave the
    size to the default. *)
Definition demo_image_options : ImageGenerateOptions :=
  {| ImageModelName := "openai/dall-e-3"; Size := ""; ImageN := 2; Quality := "hd" |}.

(* ===================================================================== *)
(** * Proofs: machine integers and decimal text *)
(* ===================================================================== *)

Lemma wrap64_id z : in_int64 z → wrap64 z = z.
Proof.
  unfold in_int64, min_int64, max_int64, wrap64. intros H.
  rewrite Z.mod_small; lia.
Qed.

Lemma wrap64_range z : in_int64 (wrap64 z).
Proof.
  unfold in_int64, min_int64, max_int64, wrap64.
  pose proof (Z.mod_pos_bound (z + 2 ^ 63) (2 ^ 64) ltac:(lia)). lia.
Qed.

Lemma digit_val_char d : 0 ≤ d < 10 → strconv.digit_val (strconv.digit_char d) = Some d.
Proof.
  intros H.
  assert (Hd : d = 0 ∨ d = 1 ∨ d = 2 ∨ d = 3 ∨ d = 4 ∨ d = 5 ∨ d = 6 ∨ d = 7
               ∨ d = 8 ∨ d = 9) by lia.
  repeat (destruct Hd as [-> | Hd]; [reflexivity |]). subst. reflexivity.
Qed.

Lemma string_app_nil_l (s : string) : "" +:+ s = s.
Proof. reflexivity. Qed.

Lemma string_app_cons c (s1 s2 : string) :
  String c s1 +:+ s2 = String c (s1 +:+ s2).
Proof. reflexivity. Qed.

Lemma string_app_assoc (s1 s2 s3 : string) :
  (s1 +:+ s2) +:+ s3 = s1 +:+ (s2 +:+ s3).
Proof.
  induction s1 as [| c s1 IH]; [done |].
  rewrite !string_app_cons. by rewrite IH.
Qed.

Lemma scan_digits_app s1 s2 acc :
  strconv.scan_digits (s1 +:+ s2) acc
  = strconv.scan_digits s1 acc ≫= strconv.scan_digits s2.
Proof.
  revert acc. induction s1 as [| c s1 IH]; intros acc; [done |].
  rewrite string_app_cons. cbn [strconv.scan_digits].
  destruct (strconv.digit_val c); [apply IH | done].
Qed.

Lemma format_uint_S fuel n acc :
  strconv.format_uint (S fuel) n acc
  = if n <? 10 then String (strconv.digit_char (n mod 10)) acc
    else strconv.format_uint fuel (n / 10) (String (strconv.digit_char (n mod 10)) acc).
Proof. reflexivity. Qed.

Lemma format_uint_acc fuel n acc :
  strconv.format_uint fuel n acc = strconv.format_uint fuel n "" +:+ acc.
Proof.
  revert n acc. induction fuel as [| fuel IH]; intros n acc; simpl; [done |].
  destruct (n <? 10); [done |].
  rewrite IH. rewrite (IH _ (String _ "")).
  rewrite string_app_assoc. done.
Qed.

Lemma format_uint_nonempty fuel n : strconv.format_uint (S fuel) n "" ≠ "".
Proof.
  simpl. destruct (n <? 10); [done |].
  rewrite format_uint_acc. destruct (strconv.format_uint fuel (n / 10) ""); done.
Qed.

Lemma scan_format_uint fuel n :
  0 ≤ n < 2 ^ Z.of_nat fuel →
  strconv.scan_digits (strconv.format_uint fuel n "") 0 = Some n.
Proof.
  revert n. induction fuel as [| fuel IH]; intros n Hn.
  - simpl in *. assert (n = 0) as -> by lia. done.
  - cbn [strconv.format_uint]. destruct (Z.ltb_spec n 10) as [Hlt | Hge].
    + cbn [strconv.scan_digits]. rewrite Z.mod_small by lia.
      rewrite digit_val_char by lia. simpl; f_equal; lia.
    + rewrite format_uint_acc, scan_digits_app.
      rewrite IH.
      * cbn [mbind option_bind strconv.scan_digits].
        rewrite digit_val_char by (apply Z.mod_pos_bound; lia).
        f_equal. pose proof (Z.div_mod n 10 ltac:(lia)). lia.
      * split; [apply Z.div_pos; lia |].
        rewrite Nat2Z.inj_succ, Z.pow_succ_r in Hn by lia.
        apply Z.div_lt_upper_bound; lia.
Qed.

Lemma digits_fuel_enough n : 0 ≤ n → n < 2 ^ Z.of_nat (strconv.digits_fuel n).
Proof.
  intros Hn. unfold strconv.digits_fuel.
  rewrite Nat2Z.inj_succ, Z2Nat.id by apply Z.log2_nonneg.
  destruct (decide (n = 0)) as [-> | Hne]; [done |].
  apply Z.log2_spec. lia.
Qed.

Lemma scan_nat_format n :
  0 ≤ n →
  strconv.scan_nat (strconv.format_uint (strconv.digits_fuel n) n "") = Some n.
Proof.
  intros Hn. unfold strconv.scan_nat.
  pose proof (format_uint_nonempty (Z.to_nat (Z.log2 n)) n) as Hne.
  fold (strconv.digits_fuel n) in Hne.
  destruct (strconv.format_uint (strconv.digits_fuel n) n "") eqn:Hf; [done |].
  rewrite <- Hf. apply scan_format_uint. split; [done |].
  by apply digits_fuel_enough.
Qed.

Lemma format_uint_head_digit fuel n :
  0 ≤ n →
  ∃ c s, strconv.format_uint (S fuel) n "" = String c s
         ∧ is_Some (strconv.digit_val c).
Proof.
  revert n. induction fuel as [| fuel IH]; intros n Hn.
  - simpl. destruct (n <? 10); eexists _, _; (split; [done |]);
      rewrite digit_val_char by (apply Z.mod_pos_bound; lia); done.
  - rewrite format_uint_S. destruct (Z.ltb_spec n 10).
    + eexists _, _. split; [done |].
      rewrite digit_val_char by (apply Z.mod_pos_bound; lia). done.
    + rewrite format_uint_acc.
      destruct (IH (n / 10)) as (c & s & Heq & Hc); [apply Z.div_pos; lia |].
      rewrite Heq. eexists _, _. split; [done | done].
Qed.

(** Reading back what [FormatInt] wrote gives the integer. *)
Lemma SetString10_FormatInt z : big.SetString10 (strconv.FormatInt z) = Some z.
Proof.
  unfold strconv.FormatInt. destruct (Z.ltb_spec z 0) as [Hneg | Hpos].
  - cbn [big.SetString10]. rewrite scan_nat_format by lia.
    simpl. f_equal. lia.
  - pose proof (scan_nat_format z Hpos) as Hscan.
    destruct (format_uint_head_digit (Z.to_nat (Z.log2 z)) z Hpos)
      as (c & s & Heq & [d Hd]).
    fold (strconv.digits_fuel z) in Heq. rewrite Heq in *.
    unfold big.SetString10.
    assert (c ≠ "+"%char) by (intros ->; discriminate Hd).
    assert (c ≠ "-"%char) by (intros ->; discriminate Hd).
    destruct c as [[] [] [] [] [] [] [] []]; done.
Qed.

Lemma ParseInt64_FormatInt z : in_int64 z → ParseInt64 (strconv.FormatInt z) = Some z.
Proof.
  intros Hz. unfold ParseInt64. rewrite SetString10_FormatInt. simpl.
  rewrite decide_True by exact Hz. done.
Qed.

(* ===================================================================== *)
(** * Proofs: base64 *)
(* ===================================================================== *)

(** Or-ing a value into the low bits left free by a shift adds it. *)
Lemma land_shiftl_low a b n :
  0 ≤ n → 0 ≤ b < 2 ^ n → Z.land (a * 2 ^ n) b = 0.
Proof.
  intros Hn Hb. apply Z.bits_inj'. intros i Hi.
  rewrite Z.land_spec, Z.bits_0.
  destruct (Z.lt_ge_cases i n) as [Hlt | Hge].
  - rewrite Z.mul_pow2_bits_low by done. done.
  - destruct (decide (b = 0)) as [-> | Hb0].
    + rewrite Z.bits_0. apply andb_false_r.
    + rewrite (Z.bits_above_log2 b i); [apply andb_false_r | lia |].
      assert (Z.log2 b < n) by (apply Z.log2_lt_pow2; lia). lia.
Qed.

Lemma lor_shiftl_add a b n :
  0 ≤ n → 0 ≤ b < 2 ^ n → Z.lor (Z.shiftl a n) b = a * 2 ^ n + b.
Proof.
  intros Hn Hb. rewrite Z.shiftl_mul_pow2 by done.
  pose proof (land_shiftl_low a b n Hn Hb) as Hland.
  rewrite <- Z.lxor_lor by done. symmetry. by apply Z.add_nocarry_lxor.
Qed.

Lemma land_low x k : 0 ≤ k → Z.land x (2 ^ k - 1) = x mod 2 ^ k.
Proof.
  intros Hk. replace (2 ^ k - 1) with (Z.ones k) by (rewrite Z.ones_equiv; lia).
  by apply Z.land_ones.
Qed.

Lemma decodeMap_encode_char i :
  0 ≤ i < 64 → base64.decodeMap (base64.encode_char i) = Some i.
Proof.
  intros Hi.
  assert (Hnat : ∃ k : nat, (k < 64)%nat ∧ i = Z.of_nat k).
  { exists (Z.to_nat i). lia. }
  destruct Hnat as (k & Hk & ->).
  do 64 (destruct k as [| k]; [reflexivity |]). lia.
Qed.

Lemma encode_char_not_special i :
  0 ≤ i < 64 →
  base64.is_newline (base64.encode_char i) = false
  ∧ base64.encode_char i ≠ base64.padChar.
Proof.
  intros Hi.
  assert (Hnat : ∃ k : nat, (k < 64)%nat ∧ i = Z.of_nat k).
  { exists (Z.to_nat i). lia. }
  destruct Hnat as (k & Hk & ->).
  do 64 (destruct k as [| k]; [split; [reflexivity | discriminate] |]). lia.
Qed.

(** The four 6-bit values of three bytes, and the bytes back from them. *)
Lemma sextets_of_three b0 b1 b2 :
  is_byte b0 → is_byte b1 → is_byte b2 →
  Z.lor (Z.lor (Z.shiftl b0 16) (Z.shiftl b1 8)) b2 = b0 * 65536 + b1 * 256 + b2.
Proof.
  unfold is_byte. intros H0 H1 H2.
  rewrite (Z.shiftl_mul_pow2 b1) by lia.
  rewrite (lor_shiftl_add b0 (b1 * 2 ^ 8) 16) by lia.
  replace (b0 * 2 ^ 16 + b1 * 2 ^ 8) with (Z.shiftl (b0 * 2 ^ 8 + b1) 8)
    by (rewrite Z.shiftl_mul_pow2 by lia; lia).
  rewrite lor_shiftl_add by lia. lia.
Qed.

Lemma quantum_bytes_value dbuf d0 d1 d2 d3 dlen :
  d0 = default 0 (dbuf !! 0%nat) → d1 = default 0 (dbuf !! 1%nat) →
  d2 = default 0 (dbuf !! 2%nat) → d3 = default 0 (dbuf !! 3%nat) →
  0 ≤ d0 < 64 → 0 ≤ d1 < 64 → 0 ≤ d2 < 64 → 0 ≤ d3 < 64 →
  ∀ val, val = d0 * 262144 + d1 * 4096 + d2 * 64 + d3 →
  base64.quantum_bytes dbuf dlen
  = take (dlen - 1) [val / 65536 mod 256; val / 256 mod 256; val mod 256].
Proof.
  intros E0 E1 E2 E3 H0 H1 H2 H3 val Hv. unfold base64.quantum_bytes.
  rewrite <- E0, <- E1, <- E2, <- E3.
  assert (Hval : Z.lor (Z.lor (Z.lor (Z.shiftl d0 18) (Z.shiftl d1 12)) (Z.shiftl d2 6)) d3
                 = val).
  { subst val.
    rewrite (Z.shiftl_mul_pow2 d1), (Z.shiftl_mul_pow2 d2) by lia.
    rewrite (lor_shiftl_add d0 _ 18) by lia.
    replace (d0 * 2 ^ 18 + d1 * 2 ^ 12) with (Z.shiftl (d0 * 2 ^ 6 + d1) 12)
      by (rewrite Z.shiftl_mul_pow2 by lia; lia).
    rewrite (lor_shiftl_add _ (d2 * 2 ^ 6) 12) by lia.
    replace ((d0 * 2 ^ 6 + d1) * 2 ^ 12 + d2 * 2 ^ 6)
      with (Z.shiftl ((d0 * 2 ^ 6 + d1) * 2 ^ 6 + d2) 6)
      by (rewrite Z.shiftl_mul_pow2 by lia; lia).
    rewrite lor_shiftl_add by lia. lia. }
  rewrite Hval. unfold to_byte.
  rewrite !Z.shiftr_div_pow2 by lia.
  change 255 with (2 ^ 8 - 1). rewrite !land_low by lia. done.
Qed.

Lemma sextet_div val k : 0 ≤ k → sextet val k = val / 2 ^ k mod 64.
Proof.
  intros Hk. unfold sextet. rewrite Z.shiftr_div_pow2 by done.
  change 63 with (2 ^ 6 - 1). by rewrite land_low by lia.
Qed.

Lemma sextet_range val k : 0 ≤ k → 0 ≤ sextet val k < 64.
Proof. intros Hk. rewrite sextet_div by done. apply Z.mod_pos_bound. lia. Qed.

Ltac pow_consts :=
  change (2 ^ 18) with 262144 in *; change (2 ^ 16) with 65536 in *;
  change (2 ^ 12) with 4096 in *; change (2 ^ 8) with 256 in *;
  change (2 ^ 6) with 64 in *; change (2 ^ 0) with 1 in *;
  rewrite ?Z.div_1_r in *.

Lemma sextets_recompose val :
  0 ≤ val < 2 ^ 24 →
  sextet val 18 * 262144 + sextet val 12 * 4096 + sextet val 6 * 64 + sextet val 0 = val.
Proof.
  intros Hv. rewrite !sextet_div by lia.
  change (2 ^ 18) with 262144. change (2 ^ 12) with 4096.
  change (2 ^ 6) with 64. change (2 ^ 0) with 1.
  rewrite Z.div_1_r.
  Z.div_mod_to_equations. lia.
Qed.

Lemma three_bytes_back b0 b1 b2 val :
  is_byte b0 → is_byte b1 → is_byte b2 →
  val = b0 * 65536 + b1 * 256 + b2 →
  [val / 65536 mod 256; val / 256 mod 256; val mod 256] = [b0; b1; b2].
Proof.
  unfold is_byte. intros H0 H1 H2 ->.
  repeat f_equal; Z.div_mod_to_equations; lia.
Qed.

Lemma decode_from_quad d0 d1 d2 d3 tail si len :
  0 ≤ d0 < 64 → 0 ≤ d1 < 64 → 0 ≤ d2 < 64 → 0 ≤ d3 < 64 →
  base64.decode_from
    (String (base64.encode_char d0) (String (base64.encode_char d1)
       (String (base64.encode_char d2) (String (base64.encode_char d3) tail))))
    si len 0%nat []
  = rest ← base64.decode_from tail (si + 1 + 1 + 1 + 1) len 0%nat [];
    Ok (base64.quantum_bytes [d0; d1; d2; d3] 4 ++ rest).
Proof.
  intros H0 H1 H2 H3. cbn [base64.decode_from].
  rewrite !decodeMap_encode_char by done. done.
Qed.

Lemma list_ind3 {A} (P : list A → Prop) :
  P [] → (∀ a, P [a]) → (∀ a b, P [a; b]) →
  (∀ a b c l, P l → P (a :: b :: c :: l)) →
  ∀ l, P l.
Proof.
  intros H0 H1 H2 H3 l.
  cut (P l ∧ (∀ a, P (a :: l)) ∧ (∀ a b, P (a :: b :: l))); [tauto |].
  induction l as [| x l (IH0 & IH1 & IH2)]; [done |].
  split; [apply IH1 |]. split; [intros a; apply IH2 |].
  intros a b. by apply H3.
Qed.

Lemma decode_from_valid c out src si len j dbuf :
  base64.decodeMap c = Some out → j ≠ 3%nat →
  base64.decode_from (String c src) si len j dbuf
  = base64.decode_from src (si + 1) len (S j) (dbuf ++ [out]).
Proof.
  intros Hc Hj. cbn [base64.decode_from]. rewrite Hc.
  by rewrite decide_False by done.
Qed.

Lemma decode_from_pad src si len j dbuf :
  base64.decode_from (String base64.padChar src) si len j dbuf
  = base64.decode_padding src (si + 1) len j dbuf.
Proof. reflexivity. Qed.

Lemma decode_padding_one si len dbuf :
  base64.decode_padding (String base64.padChar "") si len 2 dbuf
  = Ok (base64.quantum_bytes dbuf 2).
Proof. reflexivity. Qed.

Lemma decode_padding_two si len dbuf :
  base64.decode_padding "" si len 3 dbuf = Ok (base64.quantum_bytes dbuf 3).
Proof. reflexivity. Qed.

Lemma decode_from_Encode bs :
  Forall is_byte bs →
  ∀ si len, base64.decode_from (base64.Encode bs) si len 0%nat [] = Ok bs.
Proof.
  induction bs as [| b0 | b0 b1 | b0 b1 b2 rest IH] using list_ind3;
    intros Hbs si len.
  - done.
  - apply Forall_cons_1 in Hbs as [H0 _]. unfold is_byte in H0.
    cbn [base64.Encode]. fold (sextet (Z.shiftl b0 16) 18) (sextet (Z.shiftl b0 16) 12).
    rewrite (decode_from_valid _ (sextet (Z.shiftl b0 16) 18))
      by (by rewrite ?decodeMap_encode_char by (by apply sextet_range)).
    rewrite (decode_from_valid _ (sextet (Z.shiftl b0 16) 12))
      by (by rewrite ?decodeMap_encode_char by (by apply sextet_range)).
    rewrite decode_from_pad, decode_padding_one. cbn [app].
    rewrite (quantum_bytes_value
               [sextet (Z.shiftl b0 16) 18; sextet (Z.shiftl b0 16) 12]
               (sextet (Z.shiftl b0 16) 18)
               (sextet (Z.shiftl b0 16) 12) 0 0 2 eq_refl eq_refl eq_refl eq_refl
               (sextet_range _ 18 ltac:(lia)) (sextet_range _ 12 ltac:(lia))
               ltac:(lia) ltac:(lia) _ eq_refl).
    cbn [take Nat.sub]. f_equal. f_equal.
    rewrite !sextet_div, Z.shiftl_mul_pow2 by lia. pow_consts.
    Z.div_mod_to_equations. lia.
  - apply Forall_cons_1 in Hbs as [H0 Hbs]. apply Forall_cons_1 in Hbs as [H1 _].
    unfold is_byte in H0, H1.
    cbn [base64.Encode].
    set (val := Z.lor (Z.shiftl b0 16) (Z.shiftl b1 8)).
    fold (sextet val 18) (sextet val 12) (sextet val 6).
    assert (Hval : val = b0 * 65536 + b1 * 256).
    { subst val. rewrite (Z.shiftl_mul_pow2 b1) by lia.
      rewrite lor_shiftl_add by lia. lia. }
    rewrite (decode_from_valid _ (sextet val 18))
      by (by rewrite ?decodeMap_encode_char by (by apply sextet_range)).
    rewrite (decode_from_valid _ (sextet val 12))
      by (by rewrite ?decodeMap_encode_char by (by apply sextet_range)).
    rewrite (decode_from_valid _ (sextet val 6))
      by (by rewrite ?decodeMap_encode_char by (by apply sextet_range)).
    rewrite decode_from_pad, decode_padding_two. cbn [app].
    rewrite (quantum_bytes_value [sextet val 18; sextet val 12; sextet val 6]
               (sextet val 18) (sextet val 12) (sextet val 6) 0 3
               eq_refl eq_refl eq_refl eq_refl
               (sextet_range _ 18 ltac:(lia)) (sextet_range _ 12 ltac:(lia))
               (sextet_range _ 6 ltac:(lia)) ltac:(lia) _ eq_refl).
    cbn [take Nat.sub]. f_equal.
    rewrite !sextet_div by lia. rewrite Hval. pow_consts.
    repeat f_equal; Z.div_mod_to_equations; lia.
  - apply Forall_cons_1 in Hbs as [H0 Hbs]. apply Forall_cons_1 in Hbs as [H1 Hbs].
    apply Forall_cons_1 in Hbs as [H2 Hbs].
    cbn [base64.Encode].
    set (val := Z.lor (Z.lor (Z.shiftl b0 16) (Z.shiftl b1 8)) b2).
    assert (Hval : val = b0 * 65536 + b1 * 256 + b2) by (by apply sextets_of_three).
    replace (Z.land val 63) with (sextet val 0) by (unfold sextet; by rewrite Z.shiftr_0_r).
    fold (sextet val 18) (sextet val 12) (sextet val 6).
    rewrite decode_from_quad by (by apply sextet_range).
    rewrite IH by done. cbn [mbind result_bind].
    rewrite (quantum_bytes_value
               [sextet val 18; sextet val 12; sextet val 6; sextet val 0]
               (sextet val 18) (sextet val 12) (sextet val 6)
               (sextet val 0) 4 eq_refl eq_refl eq_refl eq_refl
               (sextet_range _ 18 ltac:(lia)) (sextet_range _ 12 ltac:(lia))
               (sextet_range _ 6 ltac:(lia)) (sextet_range _ 0 ltac:(lia)) _ eq_refl).
    cbn [take Nat.sub]. rewrite sextets_recompose.
    + by rewrite (three_bytes_back b0 b1 b2).
    + unfold is_byte in *. lia.
Qed.

Lemma byte_of_ascii_range c : is_byte (byte_of_ascii c).
Proof.
  unfold is_byte, byte_of_ascii. pose proof (N_ascii_bounded c). lia.
Qed.

Lemma ascii_of_byte_of_ascii c : ascii_of_byte (byte_of_ascii c) = c.
Proof.
  unfold ascii_of_byte, byte_of_ascii. by rewrite N2Z.id, ascii_N_embedding.
Qed.

Lemma string_of_bytes_of_string s : string_of_bytes (bytes_of_string s) = s.
Proof.
  unfold string_of_bytes, bytes_of_string.
  rewrite <- list_fmap_compose.
  rewrite (list_fmap_ext _ id) by (intros ? c _; apply ascii_of_byte_of_ascii).
  rewrite list_fmap_id. apply string_of_list_ascii_of_string.
Qed.

Lemma bytes_of_string_range s : Forall is_byte (bytes_of_string s).
Proof.
  unfold bytes_of_string. apply Forall_fmap, Forall_true.
  intros c. apply byte_of_ascii_range.
Qed.

(** Decoding what [EncodeToString] wrote gives the bytes back. *)
Lemma DecodeString_EncodeToString s :
  base64.DecodeString (base64.EncodeToString s) = Ok s.
Proof.
  unfold base64.DecodeString, base64.EncodeToString.
  rewrite decode_from_Encode by apply bytes_of_string_range.
  cbn [fmap result_fmap]. by rewrite string_of_bytes_of_string.
Qed.

(** No JSON object is a base64 text: its first character is a brace,
    which is outside the alphabet. *)
Lemma DecodeString_brace s :
  base64.DecodeString (String "{"%char s) = Err (base64.CorruptInputError 0).
Proof. reflexivity. Qed.

(* ===================================================================== *)
(** * Proofs: results *)
(* ===================================================================== *)

Lemma bind_Ok {A B} (r : result A) (k : A → result B) b :
  r ≫= k = Ok b → ∃ a, r = Ok a ∧ k a = Ok b.
Proof. destruct r; [eauto | done | done]. Qed.

Lemma fmap_Ok {A B} (f : A → B) (r : result A) b :
  f <$> r = Ok b → ∃ a, r = Ok a ∧ b = f a.
Proof. destruct r; [| done | done]. intros [= <-]. eauto. Qed.

Lemma wrap_err_Ok {A} f (r : result A) a : wrap_err f r = Ok a → r = Ok a.
Proof. by destruct r. Qed.

Lemma wrap_err_not_Ok {A} f (r : result A) :
  (∀ a, r ≠ Ok a) → ∀ a, wrap_err f r ≠ Ok a.
Proof. destruct r; [intros H a'; by destruct (H a) | done | done]. Qed.

(* ===================================================================== *)
(** * Proofs: CreatePaymentPayload *)
(* ===================================================================== *)

Section payload_facts.
Context (E : Env).

(** What a successful run of [CreatePaymentPayload] has established and
    built. *)
Lemma CreatePaymentPayload_payload_inv key recipient amount network url desc m extra ext p :
  CreatePaymentPayload_payload E key recipient amount network url desc m extra ext = Ok p →
  ∃ nonce amountBig td h signature,
    createNonce E = Ok nonce
    ∧ big.SetString10 amount = Some amountBig
    ∧ TypedDataMessage td !! "value" = Some (AString (big.String_ amountBig))
    ∧ TypedDataMessage td !! "validAfter"
      = Some (AString (big.String_ (wrap64 (time_Now_Unix E - 600))))
    ∧ TypedDataMessage td !! "validBefore"
      = Some (AString (big.String_ (wrap64 (time_Now_Unix E + m))))
    ∧ HashStruct E td "TransferWithAuthorization" = Ok h
    ∧ Types td = TransferTypes
    ∧ p = {| PayloadX402Version := 2;
             PayloadResource := {| URL := url; Description := desc;
                                   MimeType := "application/json" |};
             Accepted := {| Scheme := "exact"; Network := network; Amount := amount;
                            Asset := USDCBase; PayTo := recipient;
                            MaxTimeoutSeconds := m;
                            Extra := token_extra (usdcName extra) (usdcVersion extra) |};
             Payload := {| Signature := "0x" +:+ Bytes2Hex signature;
                           Authorization :=
                             {| From := PubkeyToAddress_Hex E key;
                                To := recipient;
                                Value := amount;
                                ValidAfter :=
                                  strconv.FormatInt (wrap64 (time_Now_Unix E - 600));
                                ValidBefore :=
                                  strconv.FormatInt (wrap64 (time_Now_Unix E + m));
                                Nonce := nonce |} |};
             PayloadExtensions := ext |}.
Proof.
  unfold CreatePaymentPayload_payload. intros H.
  apply bind_Ok in H as (nonce & Hnonce & H).
  apply bind_Ok in H as (amountBig & Hamount & H).
  destruct (big.SetString10 amount) as [z |] eqn:Hz; [| done].
  injection Hamount as ->.
  apply bind_Ok in H as (dom & Hdom & H).
  apply bind_Ok in H as (h & Hh & H). apply wrap_err_Ok in Hh.
  apply bind_Ok in H as (sig & Hsig & H).
  apply bind_Ok in H as (sig' & Hsig' & H).
  injection H as <-.
  match type of Hh with
  | HashStruct _ ?td _ = _ => exists nonce, amountBig, td, h, sig'
  end.
  split; [done |]. split; [done |].
  cbn [TypedDataMessage].
  split; [by repeat (rewrite lookup_insert_ne by done); rewrite lookup_insert_eq |].
  split; [by repeat (rewrite lookup_insert_ne by done); rewrite lookup_insert_eq |].
  split; [by repeat (rewrite lookup_insert_ne by done); rewrite lookup_insert_eq |].
  split; [exact Hh |]. split; [reflexivity | done].
Qed.

Lemma CreatePaymentPayload_inv key recipient amount network url desc m extra ext header :
  CreatePaymentPayload E key recipient amount network url desc m extra ext = Ok header →
  ∃ p doc,
    CreatePaymentPayload_payload E key recipient amount network url desc m extra ext = Ok p
    ∧ toJSON_PaymentPayload E p = Ok doc
    ∧ header = base64.EncodeToString (json_print E doc).
Proof.
  unfold CreatePaymentPayload. intros H.
  apply bind_Ok in H as (p & Hp & H).
  apply bind_Ok in H as (jsonData & Hj & H). apply wrap_err_Ok in Hj.
  injection H as <-. unfold json_Marshal in Hj.
  apply fmap_Ok in Hj as (doc & Hdoc & ->). eauto.
Qed.

End payload_facts.

(* ===================================================================== *)
(** * The validity window (C1) *)
(* ===================================================================== *)

Lemma wrap64_overflow z :
  max_int64 < z ≤ 2 * max_int64 + 1 → wrap64 z = z - 2 ^ 64.
Proof.
  unfold max_int64, wrap64. intros Hz.
  change (2 ^ 63) with 9223372036854775808 in *.
  change (2 ^ 64) with 18446744073709551616.
  Z.div_mod_to_equations. lia.
Qed.

(** The window is computed in [int64]: both ends as the code computes
    them, whatever the timeout. *)
Lemma validity_window_wraps (E : Env) key recipient amount network url desc m extra ext p :
  CreatePaymentPayload_payload E key recipient amount network url desc m extra ext = Ok p →
  ValidAfter (Authorization (Payload p))
    = strconv.FormatInt (wrap64 (time_Now_Unix E - 600))
  ∧ ValidBefore (Authorization (Payload p))
    = strconv.FormatInt (wrap64 (time_Now_Unix E + m)).
Proof.
  intros H. apply CreatePaymentPayload_payload_inv in H
    as (nonce & n & td & h & sig & _ & _ & _ & _ & _ & _ & _ & ->). done.
Qed.

(** A sum that wrapped around is negative, and the typed-data encoder
    signs no negative [validBefore]: a payload that was produced has its
    window's end where the sum is. *)
Lemma validBefore_does_not_wrap (E : Env) key recipient amount network url desc m extra ext p :
  HashStruct_checks_uint256 E →
  0 ≤ m ≤ max_int64 →
  in_int64 (time_Now_Unix E) →
  CreatePaymentPayload_payload E key recipient amount network url desc m extra ext = Ok p →
  in_int64 (time_Now_Unix E + m).
Proof.
  intros Hlib Hm Hnow H. apply CreatePaymentPayload_payload_inv in H
    as (nonce & n & td & h & sig & _ & _ & _ & _ & Hbefore & Hh & Htypes & _).
  assert (0 ≤ wrap64 (time_Now_Unix E + m)) as Hpos.
  { apply (Hlib td h "validBefore" _ Htypes Hh); [| exact Hbefore].
    do 2 apply list_elem_of_further. apply list_elem_of_here. }
  destruct Hm as [Hm0 Hm1]. destruct Hnow as [Hnow0 Hnow1].
  unfold in_int64. split; [unfold min_int64 in *; lia |].
  destruct (Z.le_gt_cases (time_Now_Unix E + m) max_int64) as [| Hover]; [done |].
  rewrite wrap64_overflow in Hpos by lia. unfold max_int64 in *. lia.
Qed.

(** C1: every authorization [CreatePaymentPayload] produces, for any
    [maxTimeoutSeconds >= 0], has [validAfter = now - 600] and
    [validBefore = now + maxTimeoutSeconds], both from the one reading
    [now] of the clock, so [validBefore - validAfter] is exactly
    [maxTimeoutSeconds + 600]; and the header returned is the base64 text
    of the JSON document of that payload.  The sum is computed in
    [int64]; it cannot have wrapped around in a payload that was
    produced, because the typed-data encoder refuses the negative
    [validBefore] a wrapped sum is ([HashStruct_checks_uint256]).  The
    clock is assumed to read an [int64] from which 600 can be taken. *)
Theorem C1_validity_window (E : Env) key recipient amount network url desc m extra ext
    header :
  HashStruct_checks_uint256 E →
  0 ≤ m ≤ max_int64 →
  in_int64 (time_Now_Unix E) →
  in_int64 (time_Now_Unix E - 600) →
  CreatePaymentPayload E key recipient amount network url desc m extra ext = Ok header →
  ∃ p doc va vb,
    CreatePaymentPayload_payload E key recipient amount network url desc m extra ext = Ok p
    ∧ toJSON_PaymentPayload E p = Ok doc
    ∧ base64.DecodeString header = Ok (json_print E doc)
    ∧ big.SetString10 (ValidAfter (Authorization (Payload p))) = Some va
    ∧ big.SetString10 (ValidBefore (Authorization (Payload p))) = Some vb
    ∧ va = time_Now_Unix E - 600
    ∧ vb = time_Now_Unix E + m
    ∧ vb - va = m + 600.
Proof.
  intros Hlib Hm Hnow Hafter H.
  apply CreatePaymentPayload_inv in H as (p & doc & Hp & Hdoc & ->).
  pose proof (validBefore_does_not_wrap E _ _ _ _ _ _ _ _ _ _ Hlib Hm Hnow Hp) as Hbefore.
  destruct (validity_window_wraps _ _ _ _ _ _ _ _ _ _ _ Hp) as [Hva Hvb].
  rewrite wrap64_id in Hva by done. rewrite wrap64_id in Hvb by done.
  exists p, doc, (time_Now_Unix E - 600), (time_Now_Unix E + m).
  split; [done |]. split; [done |].
  split; [apply DecodeString_EncodeToString |].
  rewrite Hva, Hvb, !SetString10_FormatInt. repeat split; lia.
Qed.

(** The window without the library's check: as long as the sum fits. *)
Lemma validity_window_in_range (E : Env) key recipient amount network url desc m extra ext p :
  in_int64 (time_Now_Unix E - 600) →
  in_int64 (time_Now_Unix E + m) →
  CreatePaymentPayload_payload E key recipient amount network url desc m extra ext = Ok p →
  ValidAfter (Authorization (Payload p)) = strconv.FormatInt (time_Now_Unix E - 600)
  ∧ ValidBefore (Authorization (Payload p)) = strconv.FormatInt (time_Now_Unix E + m).
Proof.
  intros Hafter Hbefore Hp.
  destruct (validity_window_wraps _ _ _ _ _ _ _ _ _ _ _ Hp) as [Hva Hvb].
  by rewrite wrap64_id in Hva, Hvb by done.
Qed.

Lemma demo_uint256_spec n :
  demo_uint256 (Some (AString (big.String_ n))) = true → 0 ≤ n < 2 ^ 256.
Proof.
  unfold demo_uint256, big.String_. rewrite SetString10_FormatInt.
  apply bool_decide_eq_true.
Qed.

Lemma demo_checks_uint256 docs script : HashStruct_checks_uint256 (demo_env docs script).
Proof.
  intros td h field n _ Hh Hfield Hv. cbn in Hh. unfold demo_HashStruct in Hh.
  rewrite decide_False in Hh by done.
  destruct (forallb _ uint256_fields) eqn:Hall; [| done].
  rewrite forallb_forall in Hall. specialize (Hall field).
  rewrite Hv in Hall. apply demo_uint256_spec.
  apply Hall. by apply list_elem_of_In.
Qed.

(** The scenario's payment: 300 seconds from the test double's clock. *)
Lemma C1_validity_window_witness :
  ∃ header,
    CreatePaymentPayload (demo_env [] []) tt scenario_payTo "500000" "eip155:8453"
      "https://blockrun.ai/api/v1/chat/completions" "Chat completion" 300 None None
    = Ok header
    ∧ ∃ p doc va vb,
        CreatePaymentPayload_payload (demo_env [] []) tt scenario_payTo "500000"
          "eip155:8453" "https://blockrun.ai/api/v1/chat/completions" "Chat completion"
          300 None None = Ok p
        ∧ toJSON_PaymentPayload (demo_env [] []) p = Ok doc
        ∧ base64.DecodeString header = Ok (json_print (demo_env [] []) doc)
        ∧ big.SetString10 (ValidAfter (Authorization (Payload p))) = Some va
        ∧ big.SetString10 (ValidBefore (Authorization (Payload p))) = Some vb
        ∧ va = time_Now_Unix (demo_env [] []) - 600
        ∧ vb = time_Now_Unix (demo_env [] []) + 300
        ∧ vb - va = 300 + 600.
Proof.
  assert (Hrun : ∃ header,
    CreatePaymentPayload (demo_env [] []) tt scenario_payTo "500000" "eip155:8453"
      "https://blockrun.ai/api/v1/chat/completions" "Chat completion" 300 None None
    = Ok header) by (eexists; vm_compute; reflexivity).
  destruct Hrun as [header Hrun]. exists header. split; [exact Hrun |].
  apply (C1_validity_window (demo_env [] []) tt scenario_payTo "500000" "eip155:8453"
           "https://blockrun.ai/api/v1/chat/completions" "Chat completion" 300
           None None header).
  - apply demo_checks_uint256.
  - vm_compute. split; discriminate.
  - vm_compute. split; discriminate.
  - vm_compute. split; discriminate.
  - exact Hrun.
Defined.

(* ===================================================================== *)
(** * The accepted field (C5) *)
(* ===================================================================== *)

(** C5 (as amended): the [accepted] field of the payload built for a
    chosen option has the option's network, amount, payee and
    maxTimeoutSeconds; its scheme is always "exact" and its asset always
    the USDC contract on Base, whatever the option says; and its extra map
    holds exactly the token name and version, each the string the option's
    extra map has under that key, or "USD Coin" / "2" when it has none.
    So the field echoes the option, extra apart, exactly when the option's
    scheme is "exact" and its asset is that contract. *)
Theorem C5_accepted_field (E : Env) key opt url desc ext header :
  CreatePaymentPayload_for E key opt url desc ext = Ok header →
  ∃ p doc,
    CreatePaymentPayload_payload E key (PayTo opt) (Amount opt) (Network opt) url desc
      (MaxTimeoutSeconds opt) (Extra opt) ext = Ok p
    ∧ toJSON_PaymentPayload E p = Ok doc
    ∧ base64.DecodeString header = Ok (json_print E doc)
    ∧ Accepted p
      = {| Scheme := "exact";
           Network := Network opt;
           Amount := Amount opt;
           Asset := USDCBase;
           PayTo := PayTo opt;
           MaxTimeoutSeconds := MaxTimeoutSeconds opt;
           Extra := token_extra
                      (default "USD Coin" (lookup_string (Extra opt) "name"))
                      (default "2" (lookup_string (Extra opt) "version")) |}
    ∧ (Scheme opt = "exact" → Asset opt = USDCBase →
       Scheme (Accepted p) = Scheme opt ∧ Network (Accepted p) = Network opt
       ∧ Amount (Accepted p) = Amount opt ∧ Asset (Accepted p) = Asset opt
       ∧ PayTo (Accepted p) = PayTo opt
       ∧ MaxTimeoutSeconds (Accepted p) = MaxTimeoutSeconds opt).
Proof.
  unfold CreatePaymentPayload_for. intros H.
  apply CreatePaymentPayload_inv in H as (p & doc & Hp & Hdoc & ->).
  exists p, doc. split; [done |]. split; [done |].
  split; [apply DecodeString_EncodeToString |].
  apply CreatePaymentPayload_payload_inv in Hp
    as (nonce & n & td & h & sig & _ & _ & _ & _ & _ & _ & _ & ->).
  split; [reflexivity |]. intros Hs Ha. rewrite Hs, Ha. repeat split.
Qed.

(** The payload built for the scenario's option. *)
Lemma C5_accepted_field_witness :
  ∃ header,
    CreatePaymentPayload_for (demo_env [] []) tt scenario_option
      "https://blockrun.ai/api/v1/chat/completions" "Chat completion" None = Ok header
    ∧ ∃ p doc,
        CreatePaymentPayload_payload (demo_env [] []) tt (PayTo scenario_option)
          (Amount scenario_option) (Network scenario_option)
          "https://blockrun.ai/api/v1/chat/completions" "Chat completion"
          (MaxTimeoutSeconds scenario_option) (Extra scenario_option) None = Ok p
        ∧ toJSON_PaymentPayload (demo_env [] []) p = Ok doc
        ∧ base64.DecodeString header = Ok (json_print (demo_env [] []) doc)
        ∧ Accepted p
          = {| Scheme := "exact";
               Network := Network scenario_option;
               Amount := Amount scenario_option;
               Asset := USDCBase;
               PayTo := PayTo scenario_option;
               MaxTimeoutSeconds := MaxTimeoutSeconds scenario_option;
               Extra := token_extra
                          (default "USD Coin" (lookup_string (Extra scenario_option) "name"))
                          (default "2" (lookup_string (Extra scenario_option) "version")) |}
        ∧ (Scheme scenario_option = "exact" → Asset scenario_option = USDCBase →
           Scheme (Accepted p) = Scheme scenario_option
           ∧ Network (Accepted p) = Network scenario_option
           ∧ Amount (Accepted p) = Amount scenario_option
           ∧ Asset (Accepted p) = Asset scenario_option
           ∧ PayTo (Accepted p) = PayTo scenario_option
           ∧ MaxTimeoutSeconds (Accepted p) = MaxTimeoutSeconds scenario_option).
Proof.
  assert (Hrun : ∃ header,
    CreatePaymentPayload_for (demo_env [] []) tt scenario_option
      "https://blockrun.ai/api/v1/chat/completions" "Chat completion" None = Ok header)
    by (eexists; vm_compute; reflexivity).
  destruct Hrun as [header Hrun]. exists header. split; [exact Hrun |].
  exact (C5_accepted_field (demo_env [] []) tt scenario_option
           "https://blockrun.ai/api/v1/chat/completions" "Chat completion" None
           header Hrun).
Defined.

(** C5 as stated fails: the asset of the accepted field is not the
    option's. *)
Lemma C5_counterexample :
  ∃ p,
    CreatePaymentPayload_payload (demo_env [] []) tt (PayTo sepolia_option)
      (Amount sepolia_option) (Network sepolia_option)
      "https://blockrun.ai/api/v1/chat/completions" "Chat completion"
      (MaxTimeoutSeconds sepolia_option) (Extra sepolia_option) None = Ok p
    ∧ Asset (Accepted p) = "0x833589fCD6eDb6E08f4c7C32D4f71b54bdA02913"
    ∧ Asset sepolia_option = "0x036CbD53842c5426634e7929541eC2318f3dCF7e"
    ∧ Asset (Accepted p) ≠ Asset sepolia_option.
Proof.
  eexists. split; [vm_compute; reflexivity |].
  split; [reflexivity |]. split; [reflexivity |]. discriminate.
Qed.

(* ===================================================================== *)
(** * The amount (C7) *)
(* ===================================================================== *)

Lemma scan_digits_Some s acc :
  is_Some (strconv.scan_digits s acc) ↔ all_digits s = true.
Proof.
  revert acc. induction s as [| c s IH]; intros acc.
  - split; [done | by eexists].
  - cbn [strconv.scan_digits]. unfold all_digits. cbn [list_ascii_of_string forallb].
    fold (all_digits s). destruct (strconv.digit_val c) as [d |].
    + rewrite bool_decide_true by (by eexists). apply IH.
    + rewrite bool_decide_false by (by intros [? ?]).
      split; [by intros [? ?] | done].
Qed.

Lemma scan_nat_Some s :
  is_Some (strconv.scan_nat s) ↔ s ≠ "" ∧ all_digits s = true.
Proof.
  destruct s as [| c s].
  - split; [by intros [? ?] | by intros [? _]].
  - unfold strconv.scan_nat. rewrite scan_digits_Some. split; [done | by intros [_ ?]].
Qed.

Lemma scan_digits_nonneg s acc n :
  0 ≤ acc → strconv.scan_digits s acc = Some n → 0 ≤ n.
Proof.
  revert acc. induction s as [| c s IH]; intros acc Hacc; cbn [strconv.scan_digits].
  - intros [= <-]. done.
  - unfold strconv.digit_val.
    destruct ((48 <=? Z.of_N (N_of_ascii c)) && (Z.of_N (N_of_ascii c) <=? 57)) eqn:Hc;
      [| done].
    apply IH. lia.
Qed.

Lemma scan_nat_nonneg s n : strconv.scan_nat s = Some n → 0 ≤ n.
Proof.
  destruct s; [done |]. unfold strconv.scan_nat. by apply scan_digits_nonneg.
Qed.

(** [SetString] accepts exactly the base-10 integers. *)
Lemma SetString10_Some s : is_Some (big.SetString10 s) ↔ is_base10_integer s.
Proof.
  unfold is_base10_integer. split.
  - intros Hs. destruct s as [| c s]; [by destruct Hs |].
    destruct (decide (c = "+"%char)) as [-> | Hplus].
    { exists "+", s. cbn [big.SetString10] in Hs. apply scan_nat_Some in Hs as [? ?].
      eauto 6. }
    destruct (decide (c = "-"%char)) as [-> | Hminus].
    { exists "-", s. cbn [big.SetString10] in Hs.
      rewrite fmap_is_Some in Hs. apply scan_nat_Some in Hs as [? ?]. eauto 6. }
    exists "", (String c s).
    assert (big.SetString10 (String c s) = strconv.scan_nat (String c s)) as Heq.
    { destruct c as [[] [] [] [] [] [] [] []]; done. }
    rewrite Heq in Hs. apply scan_nat_Some in Hs as [? ?]. eauto 6.
  - intros (sign & digits & -> & Hsign & Hne & Hd).
    assert (is_Some (strconv.scan_nat digits)) as Hscan by (by apply scan_nat_Some).
    destruct Hsign as [-> | [-> | ->]].
    + rewrite string_app_nil_l. destruct digits as [| c ds]; [done |].
      assert (c ≠ "+"%char ∧ c ≠ "-"%char) as [Hp Hm].
      { unfold all_digits in Hd. cbn [list_ascii_of_string forallb] in Hd.
        apply andb_prop in Hd as [Hc _]. apply bool_decide_eq_true in Hc as [d Hc].
        split; intros ->; discriminate Hc. }
      assert (big.SetString10 (String c ds) = strconv.scan_nat (String c ds)) as ->; [| done].
      destruct c as [[] [] [] [] [] [] [] []]; done.
    + done.
    + cbn [big.SetString10 String.append]. change ("-" +:+ digits) with (String "-" digits).
      cbn [big.SetString10]. by rewrite fmap_is_Some.
Qed.

(** C7: [CreatePaymentPayload] returns no payload for an amount that is
    not a base-10 integer: it fails, with the error "invalid amount: ..."
    once the nonce has been drawn, and otherwise with the error of the
    entropy source.  An amount for which it signs and returns a payload
    is a base-10 integer that is not negative.  The second half rests on
    the typed-data encoder refusing a negative [uint256], which is what
    [HashStruct_checks_uint256] says of the library. *)
Theorem C7_amount_is_base10 (E : Env) key recipient amount network url desc m extra ext :
  HashStruct_checks_uint256 E →
  (¬ is_base10_integer amount →
     (∀ header,
        CreatePaymentPayload E key recipient amount network url desc m extra ext
        ≠ Ok header)
     ∧ (∀ nonce, createNonce E = Ok nonce →
        CreatePaymentPayload E key recipient amount network url desc m extra ext
        = Err (errorString ("invalid amount: " +:+ amount)))
     ∧ ((∀ why, rand_Read E ≠ Panic why) →
        is_Err (CreatePaymentPayload E key recipient amount network url desc m extra ext)))
  ∧ (∀ header,
       CreatePaymentPayload E key recipient amount network url desc m extra ext
       = Ok header →
       is_base10_integer amount
       ∧ ∃ n, big.SetString10 amount = Some n ∧ 0 ≤ n).
Proof.
  intros Hlib. split.
  - intros Hbad.
    assert (big.SetString10 amount = None) as Hnone.
    { destruct (big.SetString10 amount) eqn:Hs; [| done].
      destruct Hbad. apply SetString10_Some. by eexists. }
    split; [| split].
    + intros header H. apply CreatePaymentPayload_inv in H as (p & doc & Hp & _).
      apply CreatePaymentPayload_payload_inv in Hp as (? & n & ? & ? & ? & _ & Hn & _).
      congruence.
    + intros nonce Hnonce. unfold CreatePaymentPayload, CreatePaymentPayload_payload.
      rewrite Hnonce, Hnone. done.
    + intros Hrand. unfold CreatePaymentPayload, CreatePaymentPayload_payload, createNonce.
      destruct (rand_Read E) as [bytes | e | why]; cbn [wrap_err mbind result_bind].
      * rewrite Hnone. by eexists.
      * by eexists.
      * by destruct (Hrand why).
  - intros header H. apply CreatePaymentPayload_inv in H as (p & doc & Hp & _).
    apply CreatePaymentPayload_payload_inv in Hp
      as (nonce & n & td & h & sig & _ & Hn & Hvalue & _ & _ & Hh & Htypes & _).
    split; [apply SetString10_Some; by eexists |].
    exists n. split; [done |].
    assert ("value" ∈ uint256_fields) as Hfield by apply list_elem_of_here.
    by destruct (Hlib td h "value" n Htypes Hh Hfield Hvalue).
Qed.

(** On "12.5" nothing is signed; on "500000" a payload is. *)
Lemma C7_amount_is_base10_witness :
  CreatePaymentPayload (demo_env [] []) tt scenario_payTo "12.5" "eip155:8453"
    "https://blockrun.ai/api/v1/chat/completions" "Chat completion" 300 None None
  = Err (errorString "invalid amount: 12.5")
  ∧ ∃ header,
      CreatePaymentPayload (demo_env [] []) tt scenario_payTo "500000" "eip155:8453"
        "https://blockrun.ai/api/v1/chat/completions" "Chat completion" 300 None None
      = Ok header
      ∧ is_base10_integer "500000"
      ∧ ∃ n, big.SetString10 "500000" = Some n ∧ 0 ≤ n.
Proof.
  split.
  - destruct (C7_amount_is_base10 (demo_env [] []) tt scenario_payTo "12.5" "eip155:8453"
                "https://blockrun.ai/api/v1/chat/completions" "Chat completion" 300
                None None (demo_checks_uint256 [] [])) as [Hbad _].
    destruct Hbad as (_ & Herr & _).
    + intros H. apply SetString10_Some in H. destruct H as [n H]. vm_compute in H.
      discriminate H.
    + exact (Herr _ eq_refl).
  - destruct (C7_amount_is_base10 (demo_env [] []) tt scenario_payTo "500000" "eip155:8453"
                "https://blockrun.ai/api/v1/chat/completions" "Chat completion" 300
                None None (demo_checks_uint256 [] [])) as [_ Hgood].
    assert (Hrun : ∃ header,
      CreatePaymentPayload (demo_env [] []) tt scenario_payTo "500000" "eip155:8453"
        "https://blockrun.ai/api/v1/chat/completions" "Chat completion" 300 None None
      = Ok header) by (eexists; vm_compute; reflexivity).
    destruct Hrun as [header Hrun]. exists header. split; [exact Hrun |].
    exact (Hgood header Hrun).
Defined.

(* ===================================================================== *)
(** * Choosing the option (C3) *)
(* ===================================================================== *)

(** The amount after the fallback is the resolved amount. *)
Lemma fallback_resolves (o : PaymentOption) :
  (if decide (Amount o = "") then
     match lookup_string (Extra o) "maxAmountRequired" with
     | Some extra => set_Amount o extra
     | None => o
     end
   else o) = set_Amount o (resolved_amount o).
Proof.
  unfold resolved_amount. destruct (decide (Amount o = "")) as [Hempty | Hset].
  - destruct (lookup_string (Extra o) "maxAmountRequired"); [done |].
    destruct o; simpl in *; by subst.
  - by destruct o.
Qed.

(** An option that [ExtractPaymentDetails] returns has an amount. *)
Lemma ExtractPaymentDetails_amount (req : PaymentRequirement) (o : PaymentOption) :
  ExtractPaymentDetails req = Ok o → Amount o ≠ "".
Proof.
  unfold ExtractPaymentDetails.
  destruct (elems (Accepts req)) as [| first rest]; [done |].
  rewrite fallback_resolves. cbn [Amount set_Amount].
  destruct (decide (resolved_amount first = "")); [done |]. by intros [= <-].
Qed.

(** C3: with no option on offer [ExtractPaymentDetails] fails; otherwise
    it looks at the first option only, resolves its amount (the [amount]
    field, or the string under [maxAmountRequired] in [extra] when the
    field is empty), fails when that is empty, and returns the first option
    with the resolved amount.  What it returns is never an option without
    an amount. *)
Theorem C3_ExtractPaymentDetails (req : PaymentRequirement) :
  (elems (Accepts req) = [] →
     ExtractPaymentDetails req
     = Err (errorString "no payment options in payment required response"))
  ∧ (∀ first rest, elems (Accepts req) = first :: rest →
       (Amount first ≠ "" → resolved_amount first = Amount first)
       ∧ (Amount first = "" →
          resolved_amount first
          = default "" (lookup_string (Extra first) "maxAmountRequired"))
       ∧ (resolved_amount first = "" →
          ExtractPaymentDetails req
          = Err (errorString "no amount found in payment requirements"))
       ∧ (resolved_amount first ≠ "" →
          ExtractPaymentDetails req = Ok (set_Amount first (resolved_amount first))))
  ∧ (∀ o, ExtractPaymentDetails req = Ok o → Amount o ≠ "").
Proof.
  split; [unfold ExtractPaymentDetails; by intros -> |]. split.
  - unfold ExtractPaymentDetails. intros first rest ->.
    rewrite fallback_resolves. cbn [Amount set_Amount].
    unfold resolved_amount at 1 2.
    split; [intros H; by rewrite decide_False |].
    split; [intros H; by rewrite decide_True |].
    split; intros H; [by rewrite decide_True | by rewrite decide_False].
  - apply ExtractPaymentDetails_amount.
Qed.

(** The legacy challenge: the amount comes from [maxAmountRequired]. *)
Lemma C3_ExtractPaymentDetails_witness :
  elems (Accepts legacy_requirement) = [legacy_option; scenario_option]
  ∧ Amount legacy_option = ""
  ∧ resolved_amount legacy_option = "1000"
  ∧ ExtractPaymentDetails legacy_requirement = Ok (set_Amount legacy_option "1000").
Proof.
  destruct (C3_ExtractPaymentDetails legacy_requirement) as (_ & Hfirst & _).
  destruct (Hfirst legacy_option [scenario_option] eq_refl) as (_ & Hfallback & _ & Hok).
  split; [reflexivity |]. split; [reflexivity |].
  split; [exact (Hfallback eq_refl) |].
  apply Hok. rewrite (Hfallback eq_refl). discriminate.
Defined.

(* ===================================================================== *)
(** * What ExtractPaymentDetails writes (C10) *)
(* ===================================================================== *)

Lemma load_Accepts_arrays h h' s :
  arrays h' = arrays h → load_Accepts h' s = load_Accepts h s.
Proof. intros Heq. unfold load_Accepts. by rewrite Heq. Qed.

Lemma slice_index_arrays h h' s i :
  arrays h' = arrays h → slice_index h' s i = slice_index h s i.
Proof. intros Heq. unfold slice_index. by rewrite Heq. Qed.

Lemma load_Accepts_index h s l :
  load_Accepts h s = Some l →
  match elems l with
  | [] => slice_len s = 0%nat
  | first :: _ => slice_len s ≠ 0%nat ∧ slice_index h s 0 = Ok first
  end.
Proof.
  unfold load_Accepts, slice_index, slice_len.
  destruct s as [hd |]; [| by intros [= <-]].
  destruct (arrays h !! sl_array hd) as [a |] eqn:Ha; [| done]. cbn [mbind option_bind].
  destruct (decide (sl_off hd + sl_len hd ≤ length a)%nat) as [Hle |]; [| done].
  intros [= <-]. cbn [elems default from_option id].
  destruct (take (sl_len hd) (drop (sl_off hd) a)) as [| first rest] eqn:Ht.
  - apply (f_equal length) in Ht. rewrite length_take, length_drop in Ht.
    change (length []) with 0%nat in Ht. lia.
  - assert (sl_len hd ≠ 0)%nat as Hlen by (intros Hz; by rewrite Hz in Ht).
    split; [done |]. rewrite decide_True by lia.
    assert (a !! (sl_off hd + 0)%nat = Some first) as ->; [| done].
    rewrite <- lookup_drop.
    rewrite <- (lookup_take_lt _ (sl_len hd)) by lia. by rewrite Ht.
Qed.

(** C10: [ExtractPaymentDetails] writes to nothing that existed before the
    call.  Every [PaymentRequirement], every backing array of options and
    every option variable of the heap is after the call what it was
    before; so [req] points to the same value and [req.Accepts[0]] reads
    the same option.  On success the pointer returned is to a variable
    that did not exist before, and that variable holds what the function
    computes from the value [req] points to: the first option with the
    resolved amount. *)
Theorem C10_ExtractPaymentDetails_frame (h : heap) (req : loc) :
  requirements (ExtractPaymentDetails_heap h req).2 = requirements h
  ∧ arrays (ExtractPaymentDetails_heap h req).2 = arrays h
  ∧ (∀ p o, options h !! p = Some o →
            options (ExtractPaymentDetails_heap h req).2 !! p = Some o)
  ∧ load_PaymentRequirement (ExtractPaymentDetails_heap h req).2 req
    = load_PaymentRequirement h req
  ∧ (∀ r, requirements h !! req = Some r →
          slice_index (ExtractPaymentDetails_heap h req).2 (cell_Accepts r) 0
          = slice_index h (cell_Accepts r) 0)
  ∧ (∀ p, (ExtractPaymentDetails_heap h req).1 = Ok p →
          options h !! p = None
          ∧ ∀ v, load_PaymentRequirement h req = Some v →
                 ∃ first rest, elems (Accepts v) = first :: rest
                   ∧ options (ExtractPaymentDetails_heap h req).2 !! p
                     = Some (set_Amount first (resolved_amount first))
                   ∧ ExtractPaymentDetails v
                     = Ok (set_Amount first (resolved_amount first))).
Proof.
  assert (Hframe :
    requirements (ExtractPaymentDetails_heap h req).2 = requirements h
    ∧ arrays (ExtractPaymentDetails_heap h req).2 = arrays h
    ∧ (∀ p o, options h !! p = Some o →
              options (ExtractPaymentDetails_heap h req).2 !! p = Some o)).
  { unfold ExtractPaymentDetails_heap.
    destruct (requirements h !! req) as [r |]; [| done].
    destruct (decide (slice_len (cell_Accepts r) = 0%nat)); [done |].
    destruct (slice_index h (cell_Accepts r) 0) as [o | |]; [| done | done].
    rewrite fallback_resolves.
    destruct (decide (Amount (set_Amount o (resolved_amount o)) = "")); [done |].
    cbn. split; [done |]. split; [done |]. intros p o' Hp.
    rewrite lookup_insert_ne; [done |]. intros <-.
    pose proof (is_fresh (dom (options h))) as Hfresh.
    apply Hfresh, elem_of_dom. by eexists. }
  destruct Hframe as (Hreq & Harr & Hopt).
  split; [done |]. split; [done |]. split; [done |]. split.
  { unfold load_PaymentRequirement. rewrite Hreq.
    destruct (requirements h !! req) as [r |]; [| done]. cbn [mbind option_bind].
    by rewrite (load_Accepts_arrays h). }
  split; [intros r _; by apply slice_index_arrays |].
  intros p Hp. unfold ExtractPaymentDetails_heap in *.
  destruct (requirements h !! req) as [r |] eqn:Hr; [| done].
  destruct (decide (slice_len (cell_Accepts r) = 0%nat)) as [| Hlen]; [done |].
  destruct (slice_index h (cell_Accepts r) 0) as [o | |] eqn:Ho; [| done | done].
  rewrite fallback_resolves in Hp |- *.
  destruct (decide (Amount (set_Amount o (resolved_amount o)) = "")) as [| Hamount];
    [done |].
  cbn in Hp |- *. injection Hp as <-. split.
  { apply not_elem_of_dom, is_fresh. }
  intros v Hv. unfold load_PaymentRequirement in Hv. rewrite Hr in Hv.
  cbn [mbind option_bind] in Hv.
  destruct (load_Accepts h (cell_Accepts r)) as [l |] eqn:Hl; [| done].
  injection Hv as <-. cbn [Accepts].
  apply load_Accepts_index in Hl.
  destruct (elems l) as [| first rest] eqn:Hel; [done |].
  destruct Hl as [_ Hfirst]. rewrite Ho in Hfirst. injection Hfirst as ->.
  exists first, rest. split; [done |]. split; [apply lookup_insert_eq |].
  unfold ExtractPaymentDetails. cbn [Accepts]. rewrite Hel, fallback_resolves.
  by rewrite decide_False.
Qed.

(** On the legacy challenge the fallback is taken: the option returned
    has the amount 1000, and the first element of [req.Accepts] still has
    none. *)
Lemma C10_ExtractPaymentDetails_frame_witness :
  ∃ p,
    (ExtractPaymentDetails_heap legacy_heap 1%nat).1 = Ok p
    ∧ options (ExtractPaymentDetails_heap legacy_heap 1%nat).2 !! p
      = Some (set_Amount legacy_option "1000")
    ∧ load_PaymentRequirement (ExtractPaymentDetails_heap legacy_heap 1%nat).2 1%nat
      = Some legacy_requirement
    ∧ slice_index (ExtractPaymentDetails_heap legacy_heap 1%nat).2
        (Some {| sl_array := 7%nat; sl_off := 0; sl_len := 2 |}) 0
      = Ok legacy_option.
Proof.
  destruct (C10_ExtractPaymentDetails_frame legacy_heap 1%nat)
    as (_ & _ & _ & Hload & Hindex & Hnew).
  exists (fresh (dom (options legacy_heap))).
  assert (Hrun : (ExtractPaymentDetails_heap legacy_heap 1%nat).1
                 = Ok (fresh (dom (options legacy_heap)))) by reflexivity.
  split; [exact Hrun |].
  destruct (Hnew _ Hrun) as [_ Hvalue].
  destruct (Hvalue legacy_requirement eq_refl) as (first & rest & Hel & Hcell & _).
  injection Hel as <- <-.
  split; [exact Hcell |]. split; [rewrite Hload; reflexivity |].
  pose proof (Hindex _ eq_refl) as Hfirst. cbn [cell_Accepts] in Hfirst.
  rewrite Hfirst. reflexivity.
Defined.

(* ===================================================================== *)
(** * Proofs: the handshake *)
(* ===================================================================== *)

Section handshake.
Context (E : Env).

Lemma run_bind {A B} (m : M E A) (k : A → M E B) w :
  (m ≫= k) w
  = match m w with
    | (Ok a, w') => k a w'
    | (Err e, w') => (Err e, w')
    | (Panic why, w') => (Panic why, w')
    end.
Proof. reflexivity. Qed.

Lemma run_lift_bind {A B} (r : result A) (k : A → M E B) w :
  (lift E r ≫= k) w
  = match r with
    | Ok a => k a w
    | Err e => (Err e, w)
    | Panic why => (Panic why, w)
    end.
Proof. rewrite run_bind. unfold lift. by destruct r. Qed.

Lemma run_NewRequest_POST prefix url body headers w :
  NewRequest_POST E prefix url body headers w
  = match http_NewRequest_error E "POST" url with
    | Some e => (Err (Errorf prefix e), w)
    | None =>
        (Ok {| Method := "POST"; RequestURL := url;
               RequestHeader :=
                 foldl (λ h kv, <[CanonicalMIMEHeaderKey E kv.1 := kv.2]> h) ∅ headers;
               RequestBody := body |}, w)
    end.
Proof. unfold NewRequest_POST. by destruct (http_NewRequest_error E "POST" url). Qed.

(** [handlePaymentAndRetry] either stops before the retry, leaving the
    world as it was and returning no response, or sends exactly the retry
    request for the option the challenge leads to. *)
Lemma handlePaymentAndRetry_cases url body resp w :
  ((handlePaymentAndRetry E url body resp w).2 = w
   ∧ ∀ chatResp, (handlePaymentAndRetry E url body resp w).1 ≠ Ok chatResp)
  ∨ ∃ opt paymentPayload,
      chosen_option E resp = Ok opt
      ∧ retry_outcome E w opt (retry_request E url body paymentPayload)
          (handlePaymentAndRetry E url body resp w).
Proof.
  unfold handlePaymentAndRetry, chosen_option.
  destruct (decide (paymentHeader_of E resp = "")) as [| Hheader]; [by left |].
  rewrite run_lift_bind.
  destruct (ParsePaymentRequired E (paymentHeader_of E resp)) as [req | e | why];
    cbn [wrap_err]; [| by left | by left].
  rewrite run_lift_bind.
  destruct (ExtractPaymentDetails req) as [opt | e | why] eqn:Hopt;
    cbn [wrap_err]; [| by left | by left].
  rewrite run_bind. cbn beta iota.
  rewrite run_lift_bind.
  match goal with |- context [wrap_err _ ?c] => destruct c as [payload | e | why] end;
    cbn [wrap_err]; [| by left | by left].
  rewrite run_bind, run_NewRequest_POST.
  destruct (http_NewRequest_error E "POST" url) as [e |]; [by left |].
  right. exists opt, payload. split; [exact Hopt |].
  cbn [foldl fst snd].
  change {| Method := "POST"; RequestURL := url;
            RequestHeader := _; RequestBody := body |}
    with (retry_request E url body payload).
  rewrite run_bind. unfold Do at 1. unfold retry_outcome.
  destruct (httpClient_Do E (trips E w) (retry_request E url body payload))
    as [retryResp | e | why] eqn:Hdo; cbn [wrap_err]; [| done | done].
  destruct (decide (StatusCode retryResp = StatusPaymentRequired)); [done |].
  destruct (decide (StatusCode retryResp ≠ StatusOK)); [done |].
  rewrite run_lift_bind.
  destruct (json_Decode_ChatResponse E (Body retryResp)) as [chatResp | e | why];
    cbn [wrap_err]; [| done | done].
  rewrite run_bind. unfold after_request. rewrite Hdo.
  split; [done |]. done.
Qed.

(** [requestWithPayment] either stops before any request, or sends the
    first request and goes on as the response says. *)
Lemma requestWithPayment_cases endpoint body w :
  ((requestWithPayment E endpoint body w).2 = w
   ∧ ∀ chatResp, (requestWithPayment E endpoint body w).1 ≠ Ok chatResp)
  ∨ ∃ jsonBody,
      json_Marshal E (toJSON_any E (AMap body)) = Ok jsonBody
      ∧ requestWithPayment E endpoint body w
        = match httpClient_Do E (trips E w)
                  (first_request E (apiURL E (client E w) +:+ endpoint) jsonBody) with
          | Ok resp =>
              if decide (StatusCode resp = StatusPaymentRequired) then
                handlePaymentAndRetry E (apiURL E (client E w) +:+ endpoint) jsonBody resp
                  (after_request E w
                     (first_request E (apiURL E (client E w) +:+ endpoint) jsonBody))
              else
                (if decide (StatusCode resp ≠ StatusOK) then
                   Err (APIError (StatusCode resp) ("API error: " +:+ Body resp))
                 else wrap_err (Errorf "failed to decode response: ")
                        (json_Decode_ChatResponse E (Body resp)),
                 after_request E w
                   (first_request E (apiURL E (client E w) +:+ endpoint) jsonBody))
          | Err e =>
              (Err (Errorf "request failed: " e),
               after_request E w
                 (first_request E (apiURL E (client E w) +:+ endpoint) jsonBody))
          | Panic why =>
              (Panic why,
               after_request E w
                 (first_request E (apiURL E (client E w) +:+ endpoint) jsonBody))
          end.
Proof.
  unfold requestWithPayment. rewrite run_bind. cbn beta iota.
  rewrite run_lift_bind.
  destruct (json_Marshal E (toJSON_any E (AMap body))) as [jsonBody | e | why];
    cbn [wrap_err]; [| by left | by left].
  rewrite run_bind, run_NewRequest_POST.
  destruct (http_NewRequest_error E "POST" (apiURL E (client E w) +:+ endpoint));
    [by left |].
  right. exists jsonBody. split; [done |].
  cbn [foldl fst snd].
  change {| Method := "POST"; RequestURL := _; RequestHeader := _; RequestBody := jsonBody |}
    with (first_request E (apiURL E (client E w) +:+ endpoint) jsonBody).
  rewrite run_bind. unfold Do at 1. fold (after_request E w
    (first_request E (apiURL E (client E w) +:+ endpoint) jsonBody)).
  destruct (httpClient_Do E (trips E w)
              (first_request E (apiURL E (client E w) +:+ endpoint) jsonBody))
    as [resp | e | why]; cbn [wrap_err]; [| done | done].
  destruct (decide (StatusCode resp = StatusPaymentRequired)); [done |].
  destruct (decide (StatusCode resp ≠ StatusOK)); [done |].
  rewrite run_lift_bind.
  by destruct (json_Decode_ChatResponse E (Body resp)).
Qed.

(** The three shapes of a logical call: no request; one request, which
    leaves the client as it was; the first request answered 402 and then
    the retry for the option that challenge leads to. *)
Lemma requestWithPayment_outcomes endpoint body w :
  ((requestWithPayment E endpoint body w).2 = w
   ∧ ∀ chatResp, (requestWithPayment E endpoint body w).1 ≠ Ok chatResp)
  ∨ (∃ jsonBody,
       (requestWithPayment E endpoint body w).2
       = after_request E w (first_request E (apiURL E (client E w) +:+ endpoint) jsonBody))
  ∨ (∃ jsonBody resp1 opt paymentPayload,
       httpClient_Do E (trips E w)
         (first_request E (apiURL E (client E w) +:+ endpoint) jsonBody) = Ok resp1
       ∧ StatusCode resp1 = StatusPaymentRequired
       ∧ chosen_option E resp1 = Ok opt
       ∧ retry_outcome E
           (after_request E w (first_request E (apiURL E (client E w) +:+ endpoint) jsonBody))
           opt
           (retry_request E (apiURL E (client E w) +:+ endpoint) jsonBody paymentPayload)
           (requestWithPayment E endpoint body w)).
Proof.
  destruct (requestWithPayment_cases endpoint body w) as [Hstop | (jsonBody & _ & Hrun)];
    [by left |].
  right. rewrite Hrun. clear Hrun.
  destruct (httpClient_Do E (trips E w)
              (first_request E (apiURL E (client E w) +:+ endpoint) jsonBody))
    as [resp1 | e | why] eqn:Hdo; [| left; by exists jsonBody..].
  destruct (decide (StatusCode resp1 = StatusPaymentRequired)) as [H402 |];
    [| left; by exists jsonBody].
  destruct (handlePaymentAndRetry_cases
              (apiURL E (client E w) +:+ endpoint) jsonBody resp1
              (after_request E w
                 (first_request E (apiURL E (client E w) +:+ endpoint) jsonBody)))
    as [[Hw _] | (opt & payload & Hopt & Hout)].
  - left. exists jsonBody. exact Hw.
  - right. by exists jsonBody, resp1, opt, payload.
Qed.

Lemma retry_outcome_trips w opt retryReq run :
  retry_outcome E w opt retryReq run →
  trips E run.2 = trips E w ++ [(retryReq, httpClient_Do E (trips E w) retryReq)].
Proof. by intros [? _]. Qed.

Lemma track_spending_trips amount w :
  trips E (track_spending E amount w).2 = trips E w.
Proof. reflexivity. Qed.

End handshake.

(* ===================================================================== *)
(** * At most two round trips (C2) *)
(* ===================================================================== *)

(** C2: a call of [requestWithPayment] adds at most two round trips to the
    transport's history.  When it adds two, the second request has the
    method, the URL and, byte for byte, the body of the first, and its
    headers are those of the first with the payment signature set; and if
    the answer to it is again 402 the call returns the "payment rejected"
    [PaymentError], no third request having been made. *)
Theorem C2_at_most_two_round_trips (E : Env) endpoint body (w : world E) :
  ∃ new,
    trips E (requestWithPayment E endpoint body w).2 = trips E w ++ new
    ∧ (length new ≤ 2)%nat
    ∧ ∀ x1 x2, new = [x1; x2] →
        Method x2.1 = Method x1.1
        ∧ RequestURL x2.1 = RequestURL x1.1
        ∧ RequestBody x2.1 = RequestBody x1.1
        ∧ (∃ paymentPayload,
             RequestHeader x2.1
             = <[CanonicalMIMEHeaderKey E "PAYMENT-SIGNATURE" := paymentPayload]>
                 (RequestHeader x1.1))
        ∧ (∀ resp2, x2.2 = Ok resp2 → StatusCode resp2 = StatusPaymentRequired →
             (requestWithPayment E endpoint body w).1
             = Err (PaymentError "Payment was rejected. Check your wallet balance.")).
Proof.
  destruct (requestWithPayment_outcomes E endpoint body w)
    as [[Hw _] | [(jsonBody & Hw) | (jsonBody & resp1 & opt & payload & Hdo & _ & _ & Hout)]].
  - exists []. rewrite Hw, app_nil_r. split; [done |]. split; [cbn; lia |]. done.
  - eexists [_]. rewrite Hw. split; [reflexivity |]. split; [cbn; lia |]. done.
  - destruct Hout as [Htrips Hout]. cbn [after_request trips] in Htrips, Hout.
    eexists [_; _]. rewrite Htrips.
    split; [by rewrite <- app_assoc |].
    split; [cbn; lia |].
    intros x1 x2 [= <- <-]. cbn [fst snd].
    split; [done |]. split; [done |]. split; [done |].
    split; [by exists payload |].
    intros resp2 Hresp2 H402. rewrite Hresp2 in Hout.
    rewrite decide_True in Hout by done. by destruct Hout.
Qed.

(** A call against the server that answers 402 twice: two round trips
    with one body, and the payment is reported rejected. *)
Lemma C2_at_most_two_round_trips_witness :
  ∃ x1 x2,
    trips rejecting_env
      (requestWithPayment rejecting_env "/v1/chat/completions" hello_body
         (fresh_world rejecting_env tt)).2 = [x1; x2]
    ∧ RequestBody x2.1 = RequestBody x1.1
    ∧ x2.2 = Ok challenge_response
    ∧ (requestWithPayment rejecting_env "/v1/chat/completions" hello_body
         (fresh_world rejecting_env tt)).1
      = Err (PaymentError "Payment was rejected. Check your wallet balance.").
Proof.
  destruct (C2_at_most_two_round_trips rejecting_env "/v1/chat/completions" hello_body
              (fresh_world rejecting_env tt)) as (new & Hnew & _ & Hpair).
  assert (Hrun : ∃ x1 x2,
    trips rejecting_env
      (requestWithPayment rejecting_env "/v1/chat/completions" hello_body
         (fresh_world rejecting_env tt)).2 = [x1; x2]
    ∧ x2.2 = Ok challenge_response)
    by (eexists _, _; split; [vm_compute; reflexivity | vm_compute; reflexivity]).
  destruct Hrun as (x1 & x2 & Htrips & Hx2).
  exists x1, x2. split; [exact Htrips |].
  rewrite Htrips in Hnew. cbn [fresh_world trips app] in Hnew. subst new.
  destruct (Hpair x1 x2 eq_refl) as (_ & _ & Hbody & _ & Hrejected).
  split; [exact Hbody |]. split; [exact Hx2 |].
  exact (Hrejected challenge_response Hx2 eq_refl).
Defined.

(* ===================================================================== *)
(** * The spending ledger (C6) *)
(* ===================================================================== *)

Lemma chosen_option_amount (E : Env) resp opt :
  chosen_option E resp = Ok opt → Amount opt ≠ "".
Proof.
  unfold chosen_option. intros H. apply bind_Ok in H as (req & _ & H).
  by apply (ExtractPaymentDetails_amount req).
Qed.

(** What the "Track spending" statements leave in the client. *)
Lemma track_spending_client (E : Env) amount (w : world E) :
  amount ≠ "" →
  sessionCalls E (client E (track_spending E amount w).2)
  = wrap64 (sessionCalls E (client E w) + 1)
  ∧ sessionTotalUSD E (client E (track_spending E amount w).2)
    = match Sscanf_f E amount with
      | Ok amountMicro =>
          PrimFloat.add (sessionTotalUSD E (client E w))
            (PrimFloat.div amountMicro 1000000)
      | _ => sessionTotalUSD E (client E w)
      end.
Proof.
  intros Hne. unfold track_spending. cbn [snd client sessionCalls sessionTotalUSD].
  by rewrite decide_False by done.
Qed.

(** [fmt.Sscanf(s, "%f", &x)] reads the decimal text of an integer below
    [2^53] as that integer. *)
Lemma Sscanf_f_decimal (E : Env) n :
  0 ≤ n < 2 ^ 53 →
  Sscanf_f E (strconv.FormatInt n) = Ok (PrimFloat.of_uint63 (Uint63.of_Z n)).
Proof.
  intros Hn. unfold Sscanf_f, exact_digits, strconv.FormatInt.
  destruct (Z.ltb_spec n 0) as [| _]; [lia |].
  rewrite scan_nat_format by lia. cbn [mbind option_bind].
  by rewrite decide_True by lia.
Qed.

(** C6: the ledger changes only when a paid retry settles.  A call that
    returns no response, and any call that made a single round trip (a
    success on the first attempt among them), leaves the client as it
    was.  A call that made two round trips and returned a response had its
    first request answered 402 and its retry 200; it adds one to the call
    count and, reading the amount of the chosen option as a number of
    micro-units, that number divided by 1,000,000 to the total.  With the
    amount "1000000" a new client then reports a total of 1.0 and one
    call; and whenever the amount is the decimal text of an integer [n]
    below [2^53], the total grows by [n / 1,000,000], computed in
    [float64] from the float that is [n]. *)
Theorem C6_spending_ledger (E : Env) endpoint body (w : world E) :
  ((∀ chatResp, (requestWithPayment E endpoint body w).1 ≠ Ok chatResp) →
     client E (requestWithPayment E endpoint body w).2 = client E w)
  ∧ (∀ x1, trips E (requestWithPayment E endpoint body w).2 = trips E w ++ [x1] →
       client E (requestWithPayment E endpoint body w).2 = client E w)
  ∧ (∀ x1 x2 chatResp,
       trips E (requestWithPayment E endpoint body w).2 = trips E w ++ [x1; x2] →
       (requestWithPayment E endpoint body w).1 = Ok chatResp →
       ∃ resp1 resp2 opt,
         x1.2 = Ok resp1 ∧ StatusCode resp1 = StatusPaymentRequired
         ∧ x2.2 = Ok resp2 ∧ StatusCode resp2 = StatusOK
         ∧ chosen_option E resp1 = Ok opt
         ∧ sessionCalls E (client E (requestWithPayment E endpoint body w).2)
           = wrap64 (sessionCalls E (client E w) + 1)
         ∧ (∀ amountMicro,
              Sscanf_f E (Amount opt) = Ok amountMicro →
              in_int64 (sessionCalls E (client E w) + 1) →
              GetSpending E (client E (requestWithPayment E endpoint body w).2)
              = record (GetSpending E (client E w)) amountMicro)
         ∧ (Amount opt = "1000000" →
            GetSpending E (client E w) = {| TotalUSD := 0; Calls := 0 |} →
            GetSpending E (client E (requestWithPayment E endpoint body w).2)
            = {| TotalUSD := 1; Calls := 1 |})
         ∧ (∀ n, 0 ≤ n < 2 ^ 53 →
              Amount opt = strconv.FormatInt n →
              in_int64 (sessionCalls E (client E w) + 1) →
              GetSpending E (client E (requestWithPayment E endpoint body w).2)
              = {| TotalUSD :=
                     PrimFloat.add (sessionTotalUSD E (client E w))
                       (PrimFloat.div (PrimFloat.of_uint63 (Uint63.of_Z n)) 1000000);
                   Calls := sessionCalls E (client E w) + 1 |})).
Proof.
  destruct (requestWithPayment_outcomes E endpoint body w)
    as [[Hw Herr] | [(jsonBody & Hw)
                    | (jsonBody & resp1 & opt & payload & Hdo & H402 & Hopt & Hout)]].
  - rewrite Hw. split; [done |]. split; [done |].
    intros x1 x2 chatResp Htrips. apply (f_equal length) in Htrips.
    rewrite length_app in Htrips. cbn in Htrips. lia.
  - rewrite Hw. cbn [after_request client trips]. split; [done |]. split; [done |].
    intros x1 x2 chatResp Htrips. apply (f_equal length) in Htrips.
    rewrite !length_app in Htrips. cbn in Htrips. lia.
  - destruct Hout as [Htrips Hout]. cbn [after_request trips client] in Htrips, Hout.
    rewrite <- app_assoc in Htrips. cbn [app] in Htrips.
    set (url := apiURL E (client E w) +:+ endpoint) in *.
    set (r1 := httpClient_Do E (trips E w) (first_request E url jsonBody)) in *.
    set (r2 := httpClient_Do E (trips E w ++ [(first_request E url jsonBody, r1)])
                 (retry_request E url jsonBody payload)) in *.
    clearbody r2.
    split; [| split].
    + intros Herr. destruct r2 as [resp2 | e | why]; [| by destruct Hout..].
      destruct (decide (StatusCode resp2 = StatusPaymentRequired)); [by destruct Hout |].
      destruct (decide (StatusCode resp2 ≠ StatusOK)); [by destruct Hout |].
      destruct (json_Decode_ChatResponse E (Body resp2)) as [chatResp | e | why];
        [| by destruct Hout..].
      destruct Hout as [Hok _]. by destruct (Herr chatResp).
    + intros x1 Hone. rewrite Htrips in Hone. apply (f_equal length) in Hone.
      rewrite !length_app in Hone. cbn in Hone. lia.
    + intros x1 x2 chatResp Htwo Hok. rewrite Htrips in Htwo.
      apply app_inv_head in Htwo. injection Htwo as <- <-. cbn [fst snd].
      destruct r2 as [resp2 | e | why]; [| destruct Hout as [Hout _]; congruence..].
      destruct (decide (StatusCode resp2 = StatusPaymentRequired));
        [destruct Hout as [Hout _]; congruence |].
      destruct (decide (StatusCode resp2 ≠ StatusOK)) as [| H200];
        [destruct Hout as [Hout _]; congruence |].
      apply dec_stable in H200.
      destruct (json_Decode_ChatResponse E (Body resp2)) as [chatResp' | e | why];
        [| destruct Hout as [Hout _]; congruence..].
      destruct Hout as [_ Hworld]. rewrite Hworld.
      pose proof (chosen_option_amount E resp1 opt Hopt) as Hamount.
      destruct (track_spending_client E (Amount opt)
                  (after_request E (after_request E w (first_request E url jsonBody))
                     (retry_request E url jsonBody payload)) Hamount)
        as [Hcalls Htotal].
      change (client E (after_request E (after_request E w (first_request E url jsonBody))
                          (retry_request E url jsonBody payload)))
        with (client E w) in Hcalls, Htotal.
      exists resp1, resp2, opt.
      split; [exact Hdo |]. split; [done |]. split; [done |]. split; [done |].
      split; [done |]. split; [exact Hcalls |]. split; [| split].
      * intros amountMicro Hscan Hrange. unfold GetSpending, record. cbn [TotalUSD Calls].
        rewrite Hcalls, Htotal, Hscan. rewrite wrap64_id by exact Hrange. reflexivity.
      * intros Hmillion [= Htotal0 Hcalls0]. unfold GetSpending.
        rewrite Hcalls, Htotal, Hmillion, Htotal0, Hcalls0. reflexivity.
      * intros k Hk Hdecimal Hrange. unfold GetSpending.
        rewrite Hcalls, Htotal, Hdecimal, (Sscanf_f_decimal E k Hk).
        rewrite wrap64_id by exact Hrange. reflexivity.
Qed.

(** One USDC paid on a new client: total 1.0, one call.  A free answer
    on a new client: nothing recorded. *)
Lemma C6_spending_ledger_witness :
  (∃ x1 x2 chatResp,
     trips settling_env
       (requestWithPayment settling_env "/v1/chat/completions" hello_body
          (fresh_world settling_env tt)).2 = [x1; x2]
     ∧ (requestWithPayment settling_env "/v1/chat/completions" hello_body
          (fresh_world settling_env tt)).1 = Ok chatResp
     ∧ GetSpending settling_env
         (client settling_env
            (requestWithPayment settling_env "/v1/chat/completions" hello_body
               (fresh_world settling_env tt)).2)
       = {| TotalUSD := 1; Calls := 1 |})
  ∧ (∃ x1 chatResp,
       trips free_env
         (requestWithPayment free_env "/v1/chat/completions" hello_body
            (fresh_world free_env tt)).2 = [x1]
       ∧ (requestWithPayment free_env "/v1/chat/completions" hello_body
            (fresh_world free_env tt)).1 = Ok chatResp
       ∧ GetSpending free_env
           (client free_env
              (requestWithPayment free_env "/v1/chat/completions" hello_body
                 (fresh_world free_env tt)).2)
         = {| TotalUSD := 0; Calls := 0 |}).
Proof.
  split.
  - destruct (C6_spending_ledger settling_env "/v1/chat/completions" hello_body
                (fresh_world settling_env tt)) as (_ & _ & Hpaid).
    assert (Hrun : ∃ x1 x2 chatResp,
      trips settling_env
        (requestWithPayment settling_env "/v1/chat/completions" hello_body
           (fresh_world settling_env tt)).2 = [x1; x2]
      ∧ (requestWithPayment settling_env "/v1/chat/completions" hello_body
           (fresh_world settling_env tt)).1 = Ok chatResp
      ∧ x1.2 = Ok million_challenge)
      by (eexists _, _, _; split; [vm_compute; reflexivity |];
          split; [vm_compute; reflexivity | vm_compute; reflexivity]).
    destruct Hrun as (x1 & x2 & chatResp & Htrips & Hok & Hx1).
    exists x1, x2, chatResp. split; [exact Htrips |]. split; [exact Hok |].
    destruct (Hpaid x1 x2 chatResp Htrips Hok)
      as (resp1 & resp2 & opt & Hresp1 & _ & _ & _ & Hopt & _ & _ & Hmillion & _).
    rewrite Hx1 in Hresp1. injection Hresp1 as <-.
    apply Hmillion; [| reflexivity].
    assert (Hchosen : chosen_option settling_env million_challenge = Ok million_option)
      by (vm_compute; reflexivity).
    rewrite Hchosen in Hopt. by injection Hopt as <-.
  - destruct (C6_spending_ledger free_env "/v1/chat/completions" hello_body
                (fresh_world free_env tt)) as (_ & Hone & _).
    assert (Hrun : ∃ x1 chatResp,
      trips free_env
        (requestWithPayment free_env "/v1/chat/completions" hello_body
           (fresh_world free_env tt)).2 = [x1]
      ∧ (requestWithPayment free_env "/v1/chat/completions" hello_body
           (fresh_world free_env tt)).1 = Ok chatResp)
      by (eexists _, _; split; [vm_compute; reflexivity | vm_compute; reflexivity]).
    destruct Hrun as (x1 & chatResp & Htrips & Hok).
    exists x1, chatResp. split; [exact Htrips |]. split; [exact Hok |].
    rewrite (Hone x1 Htrips). reflexivity.
Defined.

(* ===================================================================== *)
(** * Validation before the network (C9) *)
(* ===================================================================== *)

(** C9: with an empty model or no message, [ChatCompletion] returns a
    [ValidationError] and leaves the world as it found it: the transport
    has not been called, once or again. *)
Theorem C9_validation_before_network (E : Env) model messages opts (w : world E) :
  model = "" ∨ elems messages = [] →
  ∃ field message,
    ChatCompletion E model messages opts w = (Err (ValidationError field message), w)
    ∧ trips E (ChatCompletion E model messages opts w).2 = trips E w.
Proof.
  intros Hbad. unfold ChatCompletion.
  destruct (decide (model = "")) as [| Hmodel].
  - by eexists _, _.
  - destruct Hbad as [| Hmessages]; [done |].
    rewrite Hmessages. rewrite decide_True by done. by eexists _, _.
Qed.

(** An empty model, and an empty list of messages. *)
Lemma C9_validation_before_network_witness :
  (∃ field message,
     ChatCompletion free_env "" (Some [ {| Role := "user"; Content := "Hello" |} ]) None
       (fresh_world free_env tt)
     = (Err (ValidationError field message), fresh_world free_env tt)
     ∧ trips free_env
         (ChatCompletion free_env "" (Some [ {| Role := "user"; Content := "Hello" |} ])
            None (fresh_world free_env tt)).2
       = trips free_env (fresh_world free_env tt))
  ∧ (∃ field message,
       ChatCompletion free_env "openai/gpt-4o-mini" (Some []) None (fresh_world free_env tt)
       = (Err (ValidationError field message), fresh_world free_env tt)
       ∧ trips free_env
           (ChatCompletion free_env "openai/gpt-4o-mini" (Some []) None
              (fresh_world free_env tt)).2
         = trips free_env (fresh_world free_env tt)).
Proof.
  split.
  - apply (C9_validation_before_network free_env ""
             (Some [ {| Role := "user"; Content := "Hello" |} ]) None
             (fresh_world free_env tt)).
    left. reflexivity.
  - apply (C9_validation_before_network free_env "openai/gpt-4o-mini" (Some []) None
             (fresh_world free_env tt)).
    right. reflexivity.
Defined.

(* ===================================================================== *)
(** * The challenge in the body (C4) *)
(* ===================================================================== *)

(** The text of a map is an object: it opens with a brace. *)
Lemma json_Marshal_map_brace (E : Env) (g : gmap string any) text :
  json_Marshal E (toJSON_gomap E (Some g)) = Ok text →
  ∃ rest, text = String "{"%char rest.
Proof.
  unfold json_Marshal, toJSON_gomap. cbn [toJSON_any]. intros H.
  apply fmap_Ok in H as (doc & Hdoc & ->).
  apply fmap_Ok in Hdoc as (kvs & _ & ->).
  cbn [json_print]. eexists. reflexivity.
Qed.

(** C4 fails on the code: when the 402 response has no payment-required
    header, [handlePaymentAndRetry] always returns a [PaymentError] and
    never sends the retry.  If the body is an object with the member
    [x402], its text is marshalled again and handed to
    [ParsePaymentRequired] as it is, which base64-decodes it first and
    stops at the opening brace; otherwise no requirement is found at
    all. *)
Theorem C4_body_challenge_is_rejected (E : Env) url body resp (w : world E) :
  Header_Get E resp "payment-required" = "" →
  ∃ message,
    handlePaymentAndRetry E url body resp w = (Err (PaymentError message), w)
    ∧ (message = no_requirements_found ∨ message = not_base64)
    ∧ ∀ respBody text,
        json_Decode_map E (Body resp) = Ok respBody →
        is_Some (gomap_lookup respBody "x402") →
        json_Marshal E (toJSON_gomap E respBody) = Ok text →
        paymentHeader_of E resp = text ∧ message = not_base64.
Proof.
  intros Hheader. unfold handlePaymentAndRetry.
  assert (Hcases :
    paymentHeader_of E resp = ""
    ∧ (∀ respBody text,
         json_Decode_map E (Body resp) = Ok respBody →
         is_Some (gomap_lookup respBody "x402") →
         json_Marshal E (toJSON_gomap E respBody) = Ok text → False)
    ∨ ∃ rest, paymentHeader_of E resp = String "{"%char rest
        ∧ ∀ respBody text,
            json_Decode_map E (Body resp) = Ok respBody →
            is_Some (gomap_lookup respBody "x402") →
            json_Marshal E (toJSON_gomap E respBody) = Ok text →
            String "{"%char rest = text).
  { unfold paymentHeader_of. rewrite Hheader. rewrite decide_True by done.
    destruct (json_Decode_map E (Body resp)) as [respBody | e | why];
      [| left; split; [done | by intros ?? [=]]..].
    destruct (gomap_lookup respBody "x402") as [marker |] eqn:Hmarker;
      [| left; split; [done | intros ?? [= <-] Hsome; rewrite Hmarker in Hsome;
                                 by destruct Hsome]].
    destruct respBody as [g |]; [| done].
    destruct (json_Marshal E (toJSON_gomap E (Some g))) as [text | e | why] eqn:Htext;
      [| left; split; [done | intros ?? [= <-] _; by rewrite Htext]..].
    destruct (json_Marshal_map_brace E g text Htext) as [rest ->].
    right. exists rest. split; [done |].
    intros ?? [= <-] _. rewrite Htext. by intros [= <-]. }
  destruct Hcases as [[-> Hnone] | (rest & -> & Htext)].
  - rewrite decide_True by done. exists no_requirements_found.
    split; [done |]. split; [by left |].
    intros respBody text H1 H2 H3. by destruct (Hnone respBody text).
  - rewrite decide_False by done. rewrite run_lift_bind.
    unfold ParsePaymentRequired. rewrite DecodeString_brace. cbn [wrap_err mbind result_bind].
    exists not_base64. split; [reflexivity |]. split; [by right |].
    intros respBody text H1 H2 H3. split; [| done]. by apply (Htext respBody).
Qed.

(** The scenario's challenge sent in the body: the call ends after one
    round trip with the parse error, though the server would have settled
    the retry. *)
Lemma C4_body_challenge_is_rejected_witness :
  Header_Get body_challenge_env body_challenge_response "payment-required" = ""
  ∧ (∃ respBody,
       json_Decode_map body_challenge_env (Body body_challenge_response) = Ok respBody
       ∧ is_Some (gomap_lookup respBody "x402"))
  ∧ (∃ x1,
       (requestWithPayment body_challenge_env "/v1/chat/completions" hello_body
          (fresh_world body_challenge_env tt)).1
       = Err (PaymentError not_base64)
       ∧ trips body_challenge_env
           (requestWithPayment body_challenge_env "/v1/chat/completions" hello_body
              (fresh_world body_challenge_env tt)).2 = [x1]
       ∧ x1.2 = Ok body_challenge_response)
  ∧ ∃ message,
      handlePaymentAndRetry body_challenge_env
        "https://blockrun.ai/api/v1/chat/completions" "{}" body_challenge_response
        (fresh_world body_challenge_env tt)
      = (Err (PaymentError message), fresh_world body_challenge_env tt)
      ∧ (message = no_requirements_found ∨ message = not_base64)
      ∧ ∀ respBody text,
          json_Decode_map body_challenge_env (Body body_challenge_response) = Ok respBody →
          is_Some (gomap_lookup respBody "x402") →
          json_Marshal body_challenge_env (toJSON_gomap body_challenge_env respBody)
          = Ok text →
          paymentHeader_of body_challenge_env body_challenge_response = text
          ∧ message = not_base64.
Proof.
  split; [reflexivity |].
  split.
  { eexists. split; [vm_compute; reflexivity |]. vm_compute. eexists. reflexivity. }
  split.
  { eexists. split; [vm_compute; reflexivity |].
    split; [vm_compute; reflexivity | vm_compute; reflexivity]. }
  exact (C4_body_challenge_is_rejected body_challenge_env
           "https://blockrun.ai/api/v1/chat/completions" "{}" body_challenge_response
           (fresh_world body_challenge_env tt) eq_refl).
Defined.

(* ===================================================================== *)
(** * Proofs: the text of a document is read back *)
(* ===================================================================== *)

Lemma string_app_length (s1 s2 : string) :
  String.length (s1 +:+ s2) = (String.length s1 + String.length s2)%nat.
Proof.
  induction s1 as [| c s1 IH]; [done |].
  rewrite string_app_cons. cbn [String.length]. by rewrite IH.
Qed.

Lemma string_app_empty_r (s : string) : s +:+ "" = s.
Proof. induction s as [| c s IH]; [done |]. rewrite string_app_cons. by rewrite IH. Qed.

(** ** Runes *)

(** A well-formed encoding a text starts with is a prefix of that text,
    and is recognised whatever follows it. *)
Lemma rune_size_split (s : string) n :
  json_text.rune_size s = Some n →
  s = json_text.take n s +:+ json_text.drop n s
  ∧ (0 < String.length (json_text.take n s))%nat
  ∧ ∀ X, json_text.rune_size (json_text.take n s +:+ X) = Some n
         ∧ json_text.take n (json_text.take n s +:+ X) = json_text.take n s
         ∧ json_text.drop n (json_text.take n s +:+ X) = X.
Proof.
  assert (Hdone : ∀ (r s' : string) m,
            (0 < String.length r)%nat →
            (∀ X, json_text.rune_size (r +:+ X) = Some m
                  ∧ json_text.take m (r +:+ X) = r ∧ json_text.drop m (r +:+ X) = X) →
            json_text.take m (r +:+ s') = r →
            r +:+ s' = json_text.take m (r +:+ s') +:+ json_text.drop m (r +:+ s')
            ∧ (0 < String.length (json_text.take m (r +:+ s')))%nat
            ∧ ∀ X, json_text.rune_size (json_text.take m (r +:+ s') +:+ X) = Some m
                   ∧ json_text.take m (json_text.take m (r +:+ s') +:+ X)
                     = json_text.take m (r +:+ s')
                   ∧ json_text.drop m (json_text.take m (r +:+ s') +:+ X) = X).
  { intros r s' m Hlen HX Htake. rewrite Htake.
    destruct (HX s') as (_ & _ & ->). split; [done |]. split; [done |]. exact HX. }
  unfold json_text.rune_size at 1.
  destruct s as [| c0 s]; [done |].
  destruct (json_text.byte c0 <? 128) eqn:H0.
  { intros [= <-]. apply (Hdone (String c0 "") s 1%nat); [cbn; lia | | done].
    intros X. unfold json_text.rune_size. rewrite ?string_app_cons, ?string_app_nil_l. by rewrite H0. }
  destruct s as [| c1 s]; [done |].
  destruct (json_text.between 194 223 c0 && json_text.continuation c1) eqn:H1.
  { intros [= <-]. apply (Hdone (String c0 (String c1 "")) s 2%nat); [cbn; lia | | done].
    intros X. unfold json_text.rune_size. rewrite ?string_app_cons, ?string_app_nil_l. by rewrite H0, H1. }
  destruct s as [| c2 s]; [done |].
  destruct (json_text.three_bytes c0 c1 && json_text.continuation c2) eqn:H2.
  { intros [= <-].
    apply (Hdone (String c0 (String c1 (String c2 ""))) s 3%nat); [cbn; lia | | done].
    intros X. unfold json_text.rune_size. rewrite ?string_app_cons, ?string_app_nil_l. by rewrite H0, H1, H2. }
  destruct s as [| c3 s]; [done |].
  destruct (json_text.four_bytes c0 c1 && json_text.continuation c2
            && json_text.continuation c3) eqn:H3; [| done].
  intros [= <-].
  apply (Hdone (String c0 (String c1 (String c2 (String c3 "")))) s 4%nat);
    [cbn; lia | | done].
  intros X. unfold json_text.rune_size. rewrite ?string_app_cons, ?string_app_nil_l. by rewrite H0, H1, H2, H3.
Qed.

(** ** Strings *)

(** What is written for a byte below [0x80] does not start with a quote
    and is read as that byte. *)
Lemma escape_ascii_read go122 c :
  (json_text.byte c <? 128) = true →
  ∃ e0 e', json_text.escape_ascii go122 c = String e0 e'
           ∧ (json_text.byte e0 =? 34) = false
           ∧ ∀ X, json_text.unquote_step e0 (e' +:+ X) = Some (String c "", X).
Proof.
  destruct c as [b0 b1 b2 b3 b4 b5 b6 b7]. intros H.
  destruct b7; [by destruct b0, b1, b2, b3, b4, b5, b6 |]. clear H.
  destruct go122, b0, b1, b2, b3, b4, b5, b6;
    (eexists _, _; split; [reflexivity |]; split; [reflexivity |]; intros X; reflexivity).
Qed.

(** One turn of the writer against one turn of the reader: what is
    written for a well-formed rune does not start with a quote and is
    read as that rune. *)
Lemma quote_step_read go122 c rest :
  ((json_text.byte c <? 128) = true
   ∨ is_Some (json_text.rune_size (String c rest))) →
  ∃ e0 e' read,
    (json_text.quote_step go122 c rest).1 = String e0 e'
    ∧ (json_text.byte e0 =? 34) = false
    ∧ String c rest = read +:+ (json_text.quote_step go122 c rest).2
    ∧ ∀ X, json_text.unquote_step e0 (e' +:+ X) = Some (read, X).
Proof.
  intros Hwell. unfold json_text.quote_step.
  destruct (json_text.byte c <? 128) eqn:Hc.
  - destruct (escape_ascii_read go122 c Hc) as (e0 & e' & He & Hq & Hread).
    exists e0, e', (String c ""). cbn [fst snd]. done.
  - destruct Hwell as [| [n Hn]]; [done |]. rewrite Hn. cbn [fst snd].
    destruct (rune_size_split _ _ Hn) as (Hsplit & Hlen & Hprefix).
    set (rune := json_text.take n (String c rest)) in *.
    destruct (String.eqb_spec rune json_text.line_separator) as [Hline |].
    { eexists _, _, rune. split; [reflexivity |]. split; [reflexivity |].
      split; [exact Hsplit |]. intros X. rewrite Hline. reflexivity. }
    destruct (String.eqb_spec rune json_text.paragraph_separator) as [Hpara |].
    { eexists _, _, rune. split; [reflexivity |]. split; [reflexivity |].
      split; [exact Hsplit |]. intros X. rewrite Hpara. reflexivity. }
    assert (Hhead : ∃ r', rune = String c r').
    { subst rune. destruct n; [cbn in Hlen; lia |]. by eexists. }
    destruct Hhead as [r' Hrune].
    exists c, r', rune. split; [exact Hrune |].
    assert (Hnot : (json_text.byte c =? 34) = false).
    { apply Z.eqb_neq. apply Z.ltb_ge in Hc. lia. }
    split; [exact Hnot |]. split; [exact Hsplit |].
    intros X. unfold json_text.unquote_step.
    assert (H92 : (json_text.byte c =? 92) = false).
    { apply Z.eqb_neq. apply Z.ltb_ge in Hc. lia. }
    assert (H32 : (json_text.byte c <? 32) = false).
    { apply Z.ltb_ge. apply Z.ltb_ge in Hc. lia. }
    rewrite H92, H32, Hc.
    change (String c (r' +:+ X)) with (String c r' +:+ X). rewrite <- Hrune.
    destruct (Hprefix X) as (-> & -> & ->). done.
Qed.

(** The text written for a string of well-formed runes, followed by the
    closing quote, is read back as that string. *)
Lemma unquote_from_quote_body go122 fuel s :
  json_text.valid_from fuel s = true →
  ∀ fuel' X,
    (String.length (json_text.quote_body go122 fuel s) < fuel')%nat →
    json_text.unquote_from fuel'
      (json_text.quote_body go122 fuel s +:+ String json_text.quote_mark X)
    = Some (s, X).
Proof.
  revert s. induction fuel as [| fuel IH]; intros s Hvalid fuel' X Hfuel.
  { destruct s; [| done]. destruct fuel'; [cbn in Hfuel; lia |]. reflexivity. }
  destruct s as [| c rest].
  { destruct fuel'; [cbn in Hfuel; lia |]. reflexivity. }
  cbn [json_text.valid_from] in Hvalid. cbn [json_text.quote_body] in Hfuel |- *.
  assert (Hwell : (json_text.byte c <? 128) = true
                  ∨ is_Some (json_text.rune_size (String c rest))).
  { destruct (json_text.byte c <? 128); [by left | right].
    destruct (json_text.rune_size (String c rest)); [by eexists | done]. }
  assert (Hrest : json_text.valid_from fuel (json_text.quote_step go122 c rest).2 = true).
  { unfold json_text.quote_step.
    destruct (json_text.byte c <? 128); [done |].
    destruct (json_text.rune_size (String c rest)); done. }
  destruct (quote_step_read go122 c rest Hwell)
    as (e0 & e' & read & Hwritten & Hquote & Hsplit & Hread).
  destruct (json_text.quote_step go122 c rest) as [written s'].
  cbn [fst snd] in *. subst written. cbv beta iota in Hfuel |- *.
  rewrite string_app_length in Hfuel. cbn [String.length] in Hfuel.
  destruct fuel' as [| fuel']; [lia |].
  rewrite string_app_assoc, string_app_cons. cbn [json_text.unquote_from].
  rewrite Hquote, Hread. cbn [mbind option_bind].
  rewrite (IH s' Hrest fuel' X) by lia.
  unfold json_text.prepend. cbn [mbind option_bind]. by rewrite <- Hsplit.
Qed.

Lemma unquote_quote_body go122 s X :
  json_text.ValidString s = true →
  json_text.unquote
    (json_text.quote_body go122 (String.length s) s +:+ String json_text.quote_mark X)
  = Some (s, X).
Proof.
  intros Hvalid. unfold json_text.unquote.
  apply unquote_from_quote_body; [exact Hvalid |].
  rewrite string_app_length. cbn [String.length]. lia.
Qed.

(** The text of a string followed by anything: the opening quote, and
    what the reader reads back. *)
Lemma quote_app go122 s X :
  json_text.quote go122 s +:+ X
  = String json_text.quote_mark
      (json_text.quote_body go122 (String.length s) s +:+ String json_text.quote_mark X).
Proof.
  unfold json_text.quote. rewrite string_app_cons, string_app_assoc. done.
Qed.

(** ** Numbers *)

Lemma skip_digits_all s :
  forallb json_text.is_digit (list_ascii_of_string s) = true →
  json_text.skip_digits s = "".
Proof.
  induction s as [| c s IH]; [done |]. cbn [list_ascii_of_string forallb json_text.skip_digits].
  intros [Hc Hs]%andb_true_iff. rewrite Hc. by apply IH.
Qed.

Lemma is_digit_number_char c :
  json_text.is_digit c = true → json_text.number_char c = true.
Proof. unfold json_text.number_char. by intros ->. Qed.

Lemma digits_number_chars s :
  forallb json_text.is_digit (list_ascii_of_string s) = true →
  forallb json_text.number_char (list_ascii_of_string s) = true.
Proof.
  induction s as [| c s IH]; [done |]. cbn [list_ascii_of_string forallb].
  intros [Hc Hs]%andb_true_iff. rewrite (is_digit_number_char c Hc). by apply IH.
Qed.

Lemma digit_char_is_digit d :
  0 ≤ d < 10 → json_text.is_digit (strconv.digit_char d) = true.
Proof.
  intros H.
  assert (Hd : d = 0 ∨ d = 1 ∨ d = 2 ∨ d = 3 ∨ d = 4 ∨ d = 5 ∨ d = 6 ∨ d = 7
               ∨ d = 8 ∨ d = 9) by lia.
  repeat (destruct Hd as [-> | Hd]; [reflexivity |]). subst. reflexivity.
Qed.

Lemma digit_char_leading d :
  1 ≤ d < 10 → json_text.between 49 57 (strconv.digit_char d) = true.
Proof.
  intros H.
  assert (Hd : d = 1 ∨ d = 2 ∨ d = 3 ∨ d = 4 ∨ d = 5 ∨ d = 6 ∨ d = 7
               ∨ d = 8 ∨ d = 9) by lia.
  repeat (destruct Hd as [-> | Hd]; [reflexivity |]). subst. reflexivity.
Qed.

(** The decimal text of a positive integer: a digit from 1 to 9, then
    digits. *)
Lemma format_uint_shape fuel n acc :
  0 < n < 2 ^ Z.of_nat fuel →
  forallb json_text.is_digit (list_ascii_of_string acc) = true →
  ∃ c ds, strconv.format_uint fuel n acc = String c ds
          ∧ json_text.between 49 57 c = true
          ∧ forallb json_text.is_digit (list_ascii_of_string ds) = true.
Proof.
  revert n acc. induction fuel as [| fuel IH]; intros n acc Hn Hacc.
  - simpl in Hn. lia.
  - rewrite format_uint_S. destruct (Z.ltb_spec n 10) as [Hlt | Hge].
    + eexists _, _. split; [done |]. rewrite Z.mod_small by lia.
      split; [apply digit_char_leading; lia | exact Hacc].
    + apply IH.
      * split; [apply Z.div_str_pos; lia |].
        rewrite Nat2Z.inj_succ, Z.pow_succ_r in Hn by lia.
        apply Z.div_lt_upper_bound; lia.
      * cbn [list_ascii_of_string forallb].
        rewrite digit_char_is_digit by (apply Z.mod_pos_bound; lia). exact Hacc.
Qed.

Lemma leading_digit_literal c ds :
  json_text.between 49 57 c = true →
  forallb json_text.is_digit (list_ascii_of_string ds) = true →
  json_text.after_sign (String c ds) = String c ds
  ∧ json_text.after_integer (String c ds) = Some ""
  ∧ forallb json_text.number_char (list_ascii_of_string (String c ds)) = true.
Proof.
  intros Hc Hds.
  assert (Hlow : 49 ≤ json_text.byte c).
  { unfold json_text.between in Hc. apply andb_true_iff in Hc as [H1 _].
    by apply Z.leb_le in H1. }
  assert (H45 : (json_text.byte c =? 45) = false) by (apply Z.eqb_neq; lia).
  assert (H48 : (json_text.byte c =? 48) = false) by (apply Z.eqb_neq; lia).
  split; [| split].
  - unfold json_text.after_sign. by rewrite H45.
  - unfold json_text.after_integer. rewrite H48, Hc. by rewrite (skip_digits_all ds Hds).
  - cbn [list_ascii_of_string forallb]. rewrite (digits_number_chars ds Hds).
    rewrite is_digit_number_char; [done |].
    unfold json_text.is_digit, json_text.between in *.
    apply andb_true_iff in Hc as [H1 H2]. apply andb_true_iff.
    split; [apply Z.leb_le; lia | exact H2].
Qed.

(** The decimal text of an integer is a number literal. *)
Lemma FormatInt_number_literal z :
  json_text.number_literal (strconv.FormatInt z) = true.
Proof.
  unfold json_text.number_literal, strconv.FormatInt.
  destruct (Z.ltb_spec z 0) as [Hneg | Hpos].
  - destruct (format_uint_shape (strconv.digits_fuel (- z)) (- z) "")
      as (c & ds & -> & Hc & Hds); [| done |].
    { split; [lia |]. apply digits_fuel_enough. lia. }
    destruct (leading_digit_literal c ds Hc Hds) as (_ & Hinteger & Hchars).
    apply andb_true_iff. split.
    + change (list_ascii_of_string (String "-" (String c ds)))
        with ("-"%char :: list_ascii_of_string (String c ds)).
      cbn [forallb]. by rewrite Hchars.
    + unfold json_text.isValidNumber.
      change (json_text.after_sign (String "-" (String c ds))) with (String c ds).
      by rewrite Hinteger.
  - destruct (decide (z = 0)) as [-> | Hne]; [reflexivity |].
    destruct (format_uint_shape (strconv.digits_fuel z) z "")
      as (c & ds & -> & Hc & Hds); [| done |].
    { split; [lia |]. apply digits_fuel_enough. lia. }
    destruct (leading_digit_literal c ds Hc Hds) as (Hsign & Hinteger & Hchars).
    rewrite Hchars. unfold json_text.isValidNumber. by rewrite Hsign, Hinteger.
Qed.

Lemma span_number_app lit rest :
  forallb json_text.number_char (list_ascii_of_string lit) = true →
  number_ends rest →
  json_text.span_number (lit +:+ rest) = (lit, rest).
Proof.
  intros Hlit Hrest. induction lit as [| c lit IH].
  - rewrite string_app_nil_l. destruct rest as [| c rest]; [done |].
    cbn [json_text.span_number]. cbn [number_ends] in Hrest. by rewrite Hrest.
  - cbn [list_ascii_of_string forallb] in Hlit.
    apply andb_true_iff in Hlit as [Hc Hlit].
    rewrite string_app_cons. cbn [json_text.span_number].
    rewrite Hc, (IH Hlit). done.
Qed.

(** ** Documents *)

(** How the reader takes a text by its first byte. *)
Lemma parse_value_string fuel depth X :
  json_text.parse_value (S fuel) depth (String json_text.quote_mark X)
  = '(t, r) ← json_text.unquote X; Some (JString t, r).
Proof. reflexivity. Qed.

Lemma parse_value_array fuel depth X :
  json_text.parse_value (S fuel) depth (String "[" X)
  = if 0 <? depth then
      match json_text.skip_space X with
      | "" => None
      | String c rest =>
          if json_text.byte c =? 93 then Some (JArray [], rest)
          else '(l, r) ← json_text.parse_elements fuel (depth - 1) X; Some (JArray l, r)
      end
    else None.
Proof. reflexivity. Qed.

Lemma parse_value_object fuel depth X :
  json_text.parse_value (S fuel) depth (String "{" X)
  = if 0 <? depth then
      match json_text.skip_space X with
      | "" => None
      | String c rest =>
          if json_text.byte c =? 125 then Some (JObject [], rest)
          else '(kvs, r) ← json_text.parse_members fuel (depth - 1) X; Some (JObject kvs, r)
      end
    else None.
Proof. reflexivity. Qed.

Lemma parse_value_number fuel depth c X :
  json_text.number_char c = true →
  json_text.parse_value (S fuel) depth (String c X)
  = let '(tok, r) := json_text.span_number (String c X) in
    if json_text.isValidNumber tok then Some (JNumber tok, r) else None.
Proof.
  destruct c as [b0 b1 b2 b3 b4 b5 b6 b7]. intros H.
  destruct b0, b1, b2, b3, b4, b5, b6, b7; try discriminate H; reflexivity.
Qed.

Lemma number_char_head c :
  json_text.number_char c = true →
  json_text.is_space c = false
  ∧ (json_text.byte c =? 93) = false ∧ (json_text.byte c =? 125) = false.
Proof.
  destruct c as [b0 b1 b2 b3 b4 b5 b6 b7]. intros H.
  destruct b0, b1, b2, b3, b4, b5, b6, b7; try discriminate H; done.
Qed.

Lemma parse_elements_S fuel depth s :
  json_text.parse_elements (S fuel) depth s
  = '(v, r) ← json_text.parse_value fuel depth s;
    match json_text.skip_space r with
    | "" => None
    | String c r' =>
        if json_text.byte c =? 44 then
          '(l, r'') ← json_text.parse_elements fuel depth r'; Some (v :: l, r'')
        else if json_text.byte c =? 93 then Some ([v], r')
        else None
    end.
Proof. reflexivity. Qed.

Lemma parse_members_S fuel depth X :
  json_text.parse_members (S fuel) depth (String json_text.quote_mark X)
  = '(k, r0) ← json_text.unquote X;
    match json_text.skip_space r0 with
    | "" => None
    | String colon r1 =>
        if json_text.byte colon =? 58 then
          '(v, r) ← json_text.parse_value fuel depth r1;
          match json_text.skip_space r with
          | "" => None
          | String c r' =>
              if json_text.byte c =? 44 then
                '(kvs, r'') ← json_text.parse_members fuel depth r'; Some ((k, v) :: kvs, r'')
              else if json_text.byte c =? 125 then Some ([(k, v)], r')
              else None
          end
        else None
    end.
Proof. reflexivity. Qed.

Lemma join_comma_cons p q ps :
  join_comma (p :: q :: ps) = p +:+ "," +:+ join_comma (q :: ps).
Proof.
  unfold join_comma. cbn [foldl]. revert p q.
  induction ps as [| r ps IH]; intros p q; cbn [foldl]; [done |].
  rewrite (IH (p +:+ "," +:+ q) r), (IH q r).
  by rewrite !string_app_assoc.
Qed.

Section text_round_trip.
Context (E : Env) (go122 : bool).
Hypothesis Hquote : ∀ s, json_quote E s = json_text.quote go122 s.

(** The text of a writable document starts with a byte that is neither
    white space nor a closing bracket. *)
Lemma json_print_head doc depth :
  json_text.writable doc depth = true →
  ∃ c s, json_print E doc = String c s
         ∧ json_text.is_space c = false
         ∧ (json_text.byte c =? 93) = false.
Proof.
  destruct doc as [| [] | lit | s | l | kvs]; intros Hw; cbn [json_print].
  - by eexists _, _.
  - by eexists _, _.
  - by eexists _, _.
  - cbn [json_text.writable] in Hw. unfold json_text.number_literal in Hw.
    apply andb_true_iff in Hw as [Hchars Hvalid].
    destruct lit as [| c lit]; [discriminate Hvalid |].
    cbn [list_ascii_of_string forallb] in Hchars.
    apply andb_true_iff in Hchars as [Hc _].
    destruct (number_char_head c Hc) as (? & ? & ?). by eexists _, _.
  - rewrite Hquote. unfold json_text.quote. by eexists _, _.
  - by eexists _, _.
  - by eexists _, _.
Qed.

Lemma json_print_object kvs :
  json_print E (JObject kvs) = "{" +:+ join_comma (member_text E <$> kvs) +:+ "}".
Proof.
  cbn [json_print]. do 3 f_equal. apply list_fmap_ext. by intros ? [k v].
Qed.

Lemma reads_values_S fuel :
  reads_elements E fuel → reads_members E fuel → reads_values E (S fuel).
Proof.
  intros Helements Hmembers doc depth rest Hw Hfuel Hrest.
  destruct doc as [| [] | lit | s | l | kvs].
  - reflexivity.
  - reflexivity.
  - reflexivity.
  - cbn [json_text.writable] in Hw. unfold json_text.number_literal in Hw.
    apply andb_true_iff in Hw as [Hchars Hvalid]. cbn [json_print].
    assert (Hhead : ∃ c tail, lit = String c tail ∧ json_text.number_char c = true).
    { destruct lit as [| c tail]; [discriminate Hvalid |].
      cbn [list_ascii_of_string forallb] in Hchars.
      apply andb_true_iff in Hchars as [Hc _]. by eexists _, _. }
    destruct Hhead as (c & tail & Hlit & Hc).
    rewrite Hlit at 1. rewrite string_app_cons, (parse_value_number _ _ _ _ Hc).
    rewrite <- string_app_cons, <- Hlit, (span_number_app _ _ Hchars Hrest).
    by rewrite Hvalid.
  - cbn [json_text.writable] in Hw. cbn [json_print].
    rewrite Hquote, quote_app, parse_value_string.
    by rewrite (unquote_quote_body go122 s rest Hw).
  - cbn [json_text.writable] in Hw. apply andb_true_iff in Hw as [Hdepth Hl].
    cbn [json_print] in Hfuel |- *.
    rewrite !string_app_assoc, string_app_cons, string_app_nil_l.
    rewrite parse_value_array, Hdepth.
    destruct l as [| v l].
    + reflexivity.
    + cbn [forallb] in Hl. pose proof Hl as Hv. apply andb_true_iff in Hv as [Hv _].
      destruct (json_print_head v _ Hv) as (c & s & Hprint & Hspace & Hclose).
      assert (Hskip : json_text.skip_space
                        (join_comma (json_print E <$> v :: l) +:+ "]" +:+ rest)
                      = String c (json_text.drop 1
                          (join_comma (json_print E <$> v :: l) +:+ "]" +:+ rest))).
      { destruct l as [| q ps].
        - cbn [fmap list_fmap join_comma foldl]. rewrite Hprint, string_app_cons.
          cbn [json_text.skip_space json_text.drop]. by rewrite Hspace.
        - rewrite fmap_cons, fmap_cons, join_comma_cons, Hprint.
          rewrite !string_app_cons.
          cbn [json_text.skip_space json_text.drop]. by rewrite Hspace. }
      rewrite Hskip, Hclose.
      rewrite (Helements v l (depth - 1) rest); [done | exact Hl |].
      rewrite !string_app_length in Hfuel. cbn [String.length] in Hfuel. lia.
  - cbn [json_text.writable] in Hw. apply andb_true_iff in Hw as [Hdepth Hkvs].
    rewrite json_print_object in Hfuel |- *.
    rewrite !string_app_assoc, string_app_cons, string_app_nil_l.
    rewrite parse_value_object, Hdepth.
    destruct kvs as [| [k v] kvs].
    + reflexivity.
    + assert (Hskip : ∃ X,
                json_text.skip_space
                  (join_comma (member_text E <$> (k, v) :: kvs) +:+ "}" +:+ rest)
                = String json_text.quote_mark X).
      { destruct kvs as [| q ps].
        - cbn [fmap list_fmap join_comma foldl]. unfold member_text at 1. cbn [fst snd].
          rewrite Hquote. unfold json_text.quote. rewrite !string_app_cons. by eexists.
        - rewrite fmap_cons, fmap_cons, join_comma_cons. unfold member_text at 1.
          cbn [fst snd]. rewrite Hquote. unfold json_text.quote.
          rewrite !string_app_cons. by eexists. }
      destruct Hskip as [X ->].
      change (json_text.byte json_text.quote_mark =? 125) with false. cbv iota.
      rewrite (Hmembers (k, v) kvs (depth - 1) rest); [done | exact Hkvs |].
      rewrite !string_app_length in Hfuel. cbn [String.length] in Hfuel. lia.
Qed.

Lemma reads_elements_S fuel :
  reads_values E fuel → reads_elements E fuel → reads_elements E (S fuel).
Proof.
  intros Hvalues Helements v l depth rest Hw Hfuel.
  cbn [forallb] in Hw. apply andb_true_iff in Hw as [Hv Hl].
  rewrite parse_elements_S. destruct l as [| q ps].
  - cbn [fmap list_fmap join_comma foldl] in Hfuel |- *.
    rewrite (Hvalues v depth ("]" +:+ rest) Hv); [| lia | done].
    reflexivity.
  - rewrite fmap_cons, fmap_cons, join_comma_cons in Hfuel |- *.
    rewrite !string_app_length in Hfuel. cbn [String.length] in Hfuel.
    rewrite !string_app_assoc.
    rewrite (Hvalues v depth _ Hv); [| lia | done].
    cbn [mbind option_bind]. rewrite string_app_cons, string_app_nil_l.
    cbn [json_text.skip_space].
    change (json_text.is_space ",") with false. cbv iota.
    change (json_text.byte "," =? 44) with true. cbv iota.
    rewrite <- fmap_cons. rewrite (Helements q ps depth rest Hl); [done |].
    rewrite fmap_cons. lia.
Qed.

Lemma reads_members_S fuel :
  reads_values E fuel → reads_members E fuel → reads_members E (S fuel).
Proof.
  intros Hvalues Hmembers [k v] kvs depth rest Hw Hfuel.
  cbn [forallb] in Hw. apply andb_true_iff in Hw as [Hkv Hkvs].
  apply andb_true_iff in Hkv as [Hk Hv].
  assert (Hmember : ∀ X,
            member_text E (k, v) +:+ X
            = String json_text.quote_mark
                (json_text.quote_body go122 (String.length k) k
                 +:+ String json_text.quote_mark (":" +:+ json_print E v +:+ X))).
  { intros X. unfold member_text. cbn [fst snd].
    rewrite Hquote, !string_app_assoc, quote_app. done. }
  assert (Hlength : (String.length (json_print E v) < String.length (member_text E (k, v)))%nat).
  { unfold member_text. cbn [fst snd]. rewrite !string_app_length.
    cbn [String.length]. lia. }
  destruct kvs as [| q ps].
  - cbn [fmap list_fmap join_comma foldl] in Hfuel |- *.
    rewrite Hmember, parse_members_S, (unquote_quote_body go122 k _ Hk).
    cbn [mbind option_bind]. rewrite string_app_cons, string_app_nil_l.
    cbn [json_text.skip_space].
    change (json_text.is_space ":") with false. cbv iota.
    change (json_text.byte ":" =? 58) with true. cbv iota.
    rewrite (Hvalues v depth ("}" +:+ rest) Hv); [| lia | done].
    reflexivity.
  - rewrite fmap_cons, fmap_cons, join_comma_cons in Hfuel |- *.
    rewrite !string_app_length in Hfuel. cbn [String.length] in Hfuel.
    rewrite !string_app_assoc.
    rewrite Hmember, parse_members_S, (unquote_quote_body go122 k _ Hk).
    cbn [mbind option_bind]. rewrite string_app_cons, string_app_nil_l.
    cbn [json_text.skip_space].
    change (json_text.is_space ":") with false. cbv iota.
    change (json_text.byte ":" =? 58) with true. cbv iota.
    rewrite (Hvalues v depth _ Hv); [| lia | done].
    cbn [mbind option_bind]. rewrite string_app_cons, string_app_nil_l.
    cbn [json_text.skip_space].
    change (json_text.is_space ",") with false. cbv iota.
    change (json_text.byte "," =? 44) with true. cbv iota.
    rewrite <- fmap_cons.
    rewrite (Hmembers q ps depth rest Hkvs); [done |].
    rewrite fmap_cons. lia.
Qed.

(** Enough fuel reads any writable document back, whatever follows it. *)
Lemma reads_all fuel : reads_values E fuel ∧ reads_elements E fuel ∧ reads_members E fuel.
Proof.
  induction fuel as [| fuel (Hvalues & Helements & Hmembers)].
  - split; [| split].
    + intros doc depth rest _ Hfuel. lia.
    + intros v l depth rest _ Hfuel. lia.
    + intros kv kvs depth rest _ Hfuel. lia.
  - split; [by apply reads_values_S |].
    split; [by apply reads_elements_S | by apply reads_members_S].
Qed.

(** [json.Unmarshal] reads the text of a writable document as that
    document. *)
Lemma Unmarshal_json_print doc :
  json_text.writable doc json_text.maxNestingDepth = true →
  json_text.Unmarshal (json_print E doc) = Some doc.
Proof.
  intros Hw. unfold json_text.Unmarshal.
  destruct (reads_all (S (String.length (json_print E doc)))) as (Hvalues & _ & _).
  pose proof (Hvalues doc json_text.maxNestingDepth "" Hw ltac:(lia) I) as Hread.
  rewrite string_app_empty_r in Hread. rewrite Hread. reflexivity.
Qed.

End text_round_trip.

(* ===================================================================== *)
(** * Proofs: dynamic values and their documents *)
(* ===================================================================== *)

(** A list of members that agrees with a map, key by key, and leaves out
    none of its keys makes that map, in whatever order it is read. *)
Lemma list_to_map_reverse_lookup (g : gmap string any) (l : list (string * any)) :
  NoDup l.*1 →
  Forall (λ ka, g !! ka.1 = Some ka.2) l →
  (∀ k, is_Some (g !! k) → k ∈ l.*1) →
  list_to_map (reverse l) = g.
Proof.
  intros Hnodup Hagree Hcover. rewrite Forall_forall in Hagree.
  apply map_eq. intros k. destruct (g !! k) as [a |] eqn:Hk.
  - apply elem_of_list_to_map_1.
    + by rewrite fmap_reverse, reverse_Permutation.
    + apply elem_of_reverse.
      destruct (list_elem_of_fmap_1 fst l k) as ([k' a'] & -> & Hin);
        [apply Hcover; by eexists |].
      pose proof (Hagree _ Hin) as Ha. cbn [fst snd] in Ha, Hk.
      rewrite Hk in Ha. by injection Ha as <-.
  - apply not_elem_of_list_to_map_1. rewrite fmap_reverse, elem_of_reverse.
    intros Hin. apply list_elem_of_fmap_1 in Hin as ([k' a'] & -> & Hin).
    pose proof (Hagree _ Hin) as Ha. cbn [fst snd] in Ha, Hk. congruence.
Qed.

Section native_values.
Context (E : Env).

(** Members whose documents read back as the values of a map are written
    and read back, one by one, with their keys; the documents written are
    as writable as the members' own. *)
Lemma members_round_trip (g : gmap string any) (depth : Z)
    (kvs : list (string * result json)) :
  Forall (λ kr, ∃ a doc, g !! kr.1 = Some a ∧ kr.2 = Ok doc
                         ∧ fromJSON_any E doc = Some a
                         ∧ json_text.ValidString kr.1 = true
                         ∧ json_text.writable doc depth = true) kvs →
  ∃ docs l,
    mapM member_result kvs = Ok docs
    ∧ mapM (λ '(k, v), a ← fromJSON_any E v; Some (k, a)) docs = Some l
    ∧ l.*1 = kvs.*1
    ∧ Forall (λ ka, g !! ka.1 = Some ka.2) l
    ∧ forallb (λ '(k, v), json_text.ValidString k && json_text.writable v depth) docs
      = true.
Proof.
  induction 1 as [| [k r] kvs (a & doc & Hk & Hr & Hback & Hkey & Hdoc) _
                    (docs & l & Hdocs & Hl & Hkeys & Hagree & Hwritable)].
  - by exists [], [].
  - cbn [fst snd] in Hk, Hr, Hkey. subst r.
    exists ((k, doc) :: docs), ((k, a) :: l). cbn [mapM].
    assert (Hmember : member_result (k, Ok doc) = Ok (k, doc)) by reflexivity.
    rewrite Hmember. cbn [mbind result_bind]. rewrite Hdocs. cbn [mbind result_bind option_bind].
    rewrite Hback. cbn [mbind option_bind]. rewrite Hl. cbn [mbind option_bind].
    split; [done |]. split; [done |]. split; [cbn; by rewrite Hkeys |].
    split; [by constructor |].
    cbn [forallb]. by rewrite Hkey, Hdoc, Hwritable.
Qed.

(** Elements whose documents read back are written and read back. *)
Lemma elements_round_trip (l : list any) (depth : Z) :
  (∀ a, a ∈ l → ∃ doc, toJSON_any E a = Ok doc ∧ fromJSON_any E doc = Some a
                       ∧ json_text.writable doc depth = true) →
  ∃ docs, mapM (toJSON_any E) l = Ok docs ∧ mapM (fromJSON_any E) docs = Some l
          ∧ forallb (λ v, json_text.writable v depth) docs = true.
Proof.
  induction l as [| a l IH]; intros Hall.
  - by exists [].
  - destruct (Hall a) as (doc & Hdoc & Hback & Hwritable); [apply list_elem_of_here |].
    destruct IH as (docs & Hdocs & Hbacks & Hwritables).
    { intros a' Ha'. apply Hall. by apply list_elem_of_further. }
    exists (doc :: docs). cbn [mapM]. rewrite Hdoc. cbn [mbind result_bind].
    rewrite Hdocs. cbn [mbind result_bind option_bind].
    rewrite Hback. cbn [mbind option_bind]. rewrite Hbacks.
    cbn [forallb]. by rewrite Hwritable, Hwritables.
Qed.

(** A JSON-native value has a document, the document reads back as the
    value, and the reader can read its text. *)
Lemma json_native_round_trip (depth : Z) (a : any) :
  json_native E depth a →
  ∃ doc, toJSON_any E a = Ok doc ∧ fromJSON_any E doc = Some a
         ∧ json_text.writable doc depth = true.
Proof.
  induction 1 as [depth | depth b | depth f lit Hformat Hliteral Hparse | depth s Hs
                  | depth l Hdepth _ IH | depth g Hdepth Hkeys _ IH].
  - by exists JNull.
  - by exists (JBool b).
  - exists (JNumber lit). cbn [toJSON_any fromJSON_any json_text.writable].
    rewrite Hformat, Hparse. done.
  - by exists (JString s).
  - destruct (elements_round_trip l (depth - 1) IH) as (docs & Hdocs & Hback & Hwritable).
    exists (JArray docs). cbn [toJSON_any fromJSON_any json_text.writable].
    rewrite Hdocs, Hback, Hwritable.
    split; [done |]. split; [done |]. apply andb_true_iff. split; [by apply Z.ltb_lt | done].
  - pose proof (merge_sort_Permutation key_le (map_to_list (toJSON_any E <$> g)))
      as Hperm.
    fold (sorted_members (toJSON_any E <$> g)) in Hperm.
    destruct (members_round_trip g (depth - 1) (sorted_members (toJSON_any E <$> g)))
      as (docs & l & Hdocs & Hl & Hkeylist & Hagree & Hwritable).
    { apply Forall_forall. intros [k r] Hin. rewrite Hperm in Hin.
      apply elem_of_map_to_list in Hin. apply lookup_fmap_Some in Hin as (a & <- & Hk).
      destruct (IH k a Hk) as (doc & Hdoc & Hback & Hw).
      exists a, doc. cbn [fst snd]. pose proof (Hkeys k a Hk). done. }
    exists (JObject docs). cbn [toJSON_any fromJSON_any json_text.writable].
    rewrite Hdocs, Hl. cbn [fmap result_fmap option_fmap option_map].
    split; [done |]. split.
    + do 2 f_equal.
      apply list_to_map_reverse_lookup; [| done |].
      * rewrite Hkeylist, Hperm. apply NoDup_fst_map_to_list.
      * intros k [a Hk]. rewrite Hkeylist, Hperm.
        apply (list_elem_of_fmap_2' fst _ (k, toJSON_any E a)); [| done].
        apply elem_of_map_to_list. by rewrite lookup_fmap, Hk.
    + rewrite Hwritable. apply andb_true_iff. split; [by apply Z.ltb_lt | done].
Qed.

(** Building native maps entry by entry. *)
Lemma native_map_empty depth : 0 < depth → json_native E depth (AMap ∅).
Proof.
  intros Hdepth. constructor; [done | |]; intros k a H; by rewrite lookup_empty in H.
Qed.

Lemma native_map_insert depth k a (g : gmap string any) :
  json_text.ValidString k = true →
  json_native E (depth - 1) a → json_native E depth (AMap g) →
  json_native E depth (AMap (<[k := a]> g)).
Proof.
  intros Hk Ha Hg. inversion Hg as [| | | | | depth' g' Hdepth Hkeys Hall]; subst.
  constructor; [done | |]; intros k' a' Hk'.
  - destruct (decide (k' = k)) as [-> | Hne]; [done |].
    rewrite lookup_insert_ne in Hk' by done. by apply (Hkeys k' a').
  - destruct (decide (k' = k)) as [-> | Hne].
    + rewrite lookup_insert_eq in Hk'. by injection Hk' as <-.
    + rewrite lookup_insert_ne in Hk' by done. by apply (Hall k').
Qed.

Lemma native_map_singleton depth k a :
  0 < depth → json_text.ValidString k = true →
  json_native E (depth - 1) a → json_native E depth (AMap {[ k := a ]}).
Proof.
  intros Hdepth Hk Ha.
  apply (native_map_insert depth k a ∅ Hk Ha (native_map_empty depth Hdepth)).
Qed.

End native_values.

(* ===================================================================== *)
(** * Proofs: the round trip of a challenge (C8) *)
(* ===================================================================== *)

Section round_trip.
Context (E : Env).

Lemma mapM_result_Ok {A B} (f : A → result B) l ks :
  mapM f l = Ok ks → Forall2 (λ a b, f a = Ok b) l ks.
Proof.
  revert ks. induction l as [| a l IH]; intros ks; cbn [mapM].
  - intros [= <-]. constructor.
  - intros H. apply bind_Ok in H as (b & Hb & H).
    apply bind_Ok in H as (k & Hk & H). injection H as <-.
    constructor; [done | by apply IH].
Qed.

Lemma mapM_result_Forall {A B} (f : A → result B) l :
  Forall (λ a, ∃ b, f a = Ok b) l → ∃ ks, mapM f l = Ok ks.
Proof.
  induction 1 as [| a l [b Hb] _ [ks Hks]]; cbn [mapM]; [by eexists |].
  rewrite Hb. cbn [mbind result_bind]. rewrite Hks. by eexists.
Qed.

(** The document of a map-typed value is an object. *)
Lemma toJSON_map_object (g : gmap string any) doc :
  toJSON_any E (AMap g) = Ok doc → ∃ kvs, doc = JObject kvs.
Proof.
  cbn [toJSON_any]. intros H. apply fmap_Ok in H as (kvs & _ & ->). by eexists.
Qed.

(** An object of writable members with valid keys is writable. *)
Lemma writable_object depth kvs :
  0 < depth →
  Forall (λ kv, json_text.ValidString kv.1 = true
                ∧ json_text.writable kv.2 (depth - 1) = true) kvs →
  json_text.writable (JObject kvs) depth = true.
Proof.
  intros Hdepth Hall. cbn [json_text.writable]. apply andb_true_iff.
  split; [by apply Z.ltb_lt |].
  induction Hall as [| [k v] kvs [Hk Hv] _ IH]; [done |].
  cbn [forallb fst snd] in *. by rewrite Hk, Hv, IH.
Qed.

(** What [omitempty] writes for a map that survives it is read back as
    that map. *)
Lemma omitempty_member_read name depth (m : gomap) :
  survives_omitempty m → gomap_native E depth m →
  ∃ members,
    omitempty_member E name m = Ok members
    ∧ (members = []
       ∨ ∃ doc, members = [(name, doc)] ∧ json_text.writable doc depth = true)
    ∧ dec_gomap E (member name members) = Some m.
Proof.
  unfold survives_omitempty, omitempty_member. intros Hsurvives Hnative.
  destruct m as [g |]; cbn [gomap_len].
  - assert (size g ≠ 0%nat) as Hsize.
    { intros Hz. apply map_size_empty_inv in Hz. by subst. }
    rewrite decide_False by done.
    destruct (json_native_round_trip E depth (AMap g) Hnative)
      as (doc & Hdoc & Hback & Hwritable).
    cbn [toJSON_gomap]. rewrite Hdoc.
    cbn [mbind result_bind]. eexists. split; [done |].
    split; [right; by eexists |].
    cbn [member]. rewrite String.eqb_refl.
    destruct (toJSON_map_object g doc Hdoc) as [kvs ->].
    unfold dec_gomap. rewrite Hback. done.
  - rewrite decide_True by done. exists []. split; [done |]. split; [by left | done].
Qed.

Lemma dec_string_JString s : dec_string (Some (JString s)) = Some s.
Proof. reflexivity. Qed.

Lemma dec_int_FormatInt n :
  in_int64 n → dec_int (Some (JNumber (strconv.FormatInt n))) = Some n.
Proof. intros Hn. cbn [dec_int]. by apply ParseInt64_FormatInt. Qed.

(** An option is read back from its document, which the reader can read
    two levels down. *)
Lemma dec_PaymentOption_toJSON (o : PaymentOption) :
  valid_PaymentOption E o → survives_omitempty (Extra o) →
  ∃ doc,
    toJSON_PaymentOption E o = Ok doc
    ∧ dec_PaymentOption E doc = Some o
    ∧ regular_object E PaymentOption_fields doc = true
    ∧ json_text.writable doc (json_text.maxNestingDepth - 2) = true.
Proof.
  intros (Hint & Hscheme & Hnetwork & Hamount & Hasset & HpayTo & Hnative) Hsurvives.
  unfold toJSON_PaymentOption.
  destruct (omitempty_member_read "extra" _ (Extra o) Hsurvives Hnative)
    as (members & -> & Hshape & Hextra).
  cbn [mbind result_bind]. eexists. split; [done |].
  destruct o as [scheme network amount asset payTo timeout extra].
  cbn [Scheme Network Amount Asset PayTo MaxTimeoutSeconds Extra] in *.
  assert (Hnumber := FormatInt_number_literal timeout).
  destruct Hshape as [-> | (doc & -> & Hdoc)].
  - split; [| split; [reflexivity |]].
    + cbn -[ParseInt64 strconv.FormatInt dec_gomap] in Hextra |- *.
      rewrite ParseInt64_FormatInt by done. cbn [mbind option_bind].
      rewrite Hextra. done.
    + apply writable_object; [done |].
      repeat (apply Forall_cons; split; [split; [reflexivity | done] |]).
      apply Forall_nil_2.
  - split; [| split; [reflexivity |]].
    + cbn -[ParseInt64 strconv.FormatInt dec_gomap] in Hextra |- *.
      rewrite ParseInt64_FormatInt by done. cbn [mbind option_bind].
      rewrite Hextra. done.
    + apply writable_object; [done |].
      repeat (apply Forall_cons; split; [split; [reflexivity | done] |]).
      apply Forall_nil_2.
Qed.

(** So is a list of options, element by element. *)
Lemma dec_options_toJSON (l : list PaymentOption) :
  Forall (valid_PaymentOption E) l →
  Forall (λ o, survives_omitempty (Extra o)) l →
  ∃ docs,
    mapM (toJSON_PaymentOption E) l = Ok docs
    ∧ mapM (dec_PaymentOption E) docs = Some l
    ∧ forallb (regular_object E PaymentOption_fields) docs = true
    ∧ forallb (λ v, json_text.writable v (json_text.maxNestingDepth - 2)) docs = true.
Proof.
  induction l as [| o l IH]; intros Hvalid Hsurvive.
  - by exists [].
  - apply Forall_cons_1 in Hvalid as [Ho Hvalid].
    apply Forall_cons_1 in Hsurvive as [Hso Hsurvive].
    destruct (dec_PaymentOption_toJSON o Ho Hso) as (doc & Hdoc & Hback & Hreg & Hw).
    destruct (IH Hvalid Hsurvive) as (docs & Hdocs & Hbacks & Hregs & Hws).
    exists (doc :: docs). cbn [mapM forallb].
    rewrite Hdoc, Hback, Hreg, Hw. cbn [mbind result_bind option_bind].
    rewrite Hdocs, Hbacks. done.
Qed.

Lemma dec_Accepts_toJSON (s : slice PaymentOption) :
  Forall (valid_PaymentOption E) (elems s) →
  Forall (λ o, survives_omitempty (Extra o)) (elems s) →
  ∃ doc,
    toJSON_Accepts E s = Ok doc
    ∧ dec_Accepts E (Some doc) = Some s
    ∧ match doc with
      | JArray l => forallb (regular_object E PaymentOption_fields) l = true
      | _ => True
      end
    ∧ json_text.writable doc (json_text.maxNestingDepth - 1) = true.
Proof.
  destruct s as [l |]; cbn [elems default from_option id]; intros Hvalid Hsurvive.
  - destruct (dec_options_toJSON l Hvalid Hsurvive)
      as (docs & Hdocs & Hback & Hreg & Hw).
    exists (JArray docs). cbn [toJSON_Accepts dec_Accepts].
    rewrite Hdocs, Hback. split; [done |]. split; [done |]. split; [done |].
    cbn [json_text.writable]. apply andb_true_iff. split; [reflexivity | exact Hw].
  - by exists JNull.
Qed.

(** A valid requirement whose maps survive [omitempty] is read back from
    its document; the document is regular, and the reader can read it. *)
Lemma dec_PaymentRequirement_toJSON (req : PaymentRequirement) :
  valid_PaymentRequirement E req →
  survives_omitempty (Extensions req) →
  Forall (λ o, survives_omitempty (Extra o)) (elems (Accepts req)) →
  ∃ doc,
    toJSON_PaymentRequirement E req = Ok doc
    ∧ dec_PaymentRequirement E doc = Some req
    ∧ regular_challenge E doc = true
    ∧ json_text.writable doc json_text.maxNestingDepth = true.
Proof.
  intros (Hint & Hoptions & Hurl & Hdescription & Hmime & Hnative) Hsurvives Hsurvive.
  unfold toJSON_PaymentRequirement.
  destruct (dec_Accepts_toJSON (Accepts req) Hoptions Hsurvive)
    as (accepts & -> & Haccepts & Hregular & Hwritable).
  destruct (omitempty_member_read "extensions" _ (Extensions req) Hsurvives Hnative)
    as (members & -> & Hshape & Hextensions).
  cbn [mbind result_bind]. eexists. split; [done |].
  destruct req as [version acc resource ext]. destruct resource as [url desc mime].
  cbn [X402Version Accepts Resource Extensions URL Description MimeType] in *.
  assert (Hnumber := FormatInt_number_literal version).
  assert (Hresource : json_text.writable
                        (toJSON_ResourceInfo {| URL := url; Description := desc;
                                                MimeType := mime |})
                        (json_text.maxNestingDepth - 1) = true).
  { apply writable_object; [done |].
    repeat (apply Forall_cons; split; [split; [reflexivity | done] |]).
    apply Forall_nil_2. }
  destruct Hshape as [-> | (doc & -> & Hdoc)].
  - split; [| split].
    + cbn -[ParseInt64 strconv.FormatInt dec_gomap dec_Accepts] in Hextensions |- *.
      rewrite ParseInt64_FormatInt by done. cbn [mbind option_bind].
      rewrite Haccepts. cbn [mbind option_bind]. rewrite Hextensions. done.
    + cbn -[regular_object]. destruct accepts; try done. by rewrite Hregular.
    + apply writable_object; [done |].
      repeat (apply Forall_cons; split; [split; [reflexivity | done] |]).
      apply Forall_nil_2.
  - split; [| split].
    + cbn -[ParseInt64 strconv.FormatInt dec_gomap dec_Accepts] in Hextensions |- *.
      rewrite ParseInt64_FormatInt by done. cbn [mbind option_bind].
      rewrite Haccepts. cbn [mbind option_bind]. rewrite Hextensions. done.
    + cbn -[regular_object]. destruct accepts; try done. by rewrite Hregular.
    + apply writable_object; [done |].
      repeat (apply Forall_cons; split; [split; [reflexivity | done] |]).
      apply Forall_nil_2.
Qed.

(** The header made of a requirement's document is parsed back to what
    the document is decoded to: [encoding/json] reads back the text of a
    document it can have written. *)
Lemma ParsePaymentRequired_of_doc (doc : json) (req : PaymentRequirement) :
  encoding_json_text E →
  json_text.writable doc json_text.maxNestingDepth = true →
  regular_challenge E doc = true →
  dec_PaymentRequirement E doc = Some req →
  ParsePaymentRequired E (base64.EncodeToString (json_print E doc)) = Ok req.
Proof.
  intros [[go122 Hquote] Hread] Hwritable Hregular Hdec. unfold ParsePaymentRequired.
  rewrite DecodeString_EncodeToString. cbn [wrap_err mbind result_bind].
  unfold json_Unmarshal_PaymentRequirement.
  rewrite (Hread _ doc (Unmarshal_json_print E go122 Hquote doc Hwritable)).
  cbn [mbind result_bind]. by rewrite Hregular, Hdec.
Qed.

Lemma EncodePaymentRequired_of_doc (req : PaymentRequirement) doc :
  toJSON_PaymentRequirement E req = Ok doc →
  EncodePaymentRequired E req = Ok (base64.EncodeToString (json_print E doc)).
Proof. intros H. unfold EncodePaymentRequired, json_Marshal. by rewrite H. Qed.

End round_trip.


Lemma in_int64_small n : -1000000 ≤ n ≤ 1000000 → in_int64 n.
Proof. unfold in_int64, min_int64, max_int64. lia. Qed.

(** The test double's text layer is that of [encoding/json]. *)
Lemma demo_text_env_text : encoding_json_text demo_text_env.
Proof.
  split; [by exists true |].
  intros data doc Hdoc. cbn [json_Unmarshal_text demo_text_env].
  unfold json_read. by rewrite Hdoc.
Qed.

Lemma scenario_option_valid (E : Env) : valid_PaymentOption E scenario_option.
Proof.
  split; [apply in_int64_small; cbn; lia |].
  repeat (split; [reflexivity |]). exact I.
Qed.

Lemma scenario_requirement_valid (E : Env) :
  valid_PaymentRequirement E scenario_requirement.
Proof.
  split; [apply in_int64_small; cbn; lia |]. split.
  - apply Forall_cons. split; [apply scenario_option_valid | apply Forall_nil_2].
  - repeat (split; [reflexivity |]). exact I.
Qed.

Lemma rich_requirement_valid (E : Env) : valid_PaymentRequirement E rich_requirement.
Proof.
  split; [apply in_int64_small; cbn; lia |]. split.
  - apply Forall_cons. split.
    + split; [apply in_int64_small; cbn; lia |].
      repeat (split; [reflexivity |]).
      apply native_map_insert; [reflexivity | by constructor |].
      apply native_map_singleton; [done | reflexivity | by constructor].
    + apply Forall_cons. split; [apply scenario_option_valid | apply Forall_nil_2].
  - repeat (split; [reflexivity |]).
    apply native_map_singleton; [done | reflexivity |].
    apply native_map_singleton; [done | reflexivity | constructor].
Qed.



(** Why the strings must be valid UTF-8: a byte that is no well-formed
    encoding is written as the escape of [U+FFFD], and read back as the
    three bytes of that code point. *)
Lemma invalid_utf8_is_replaced :
  json_text.ValidString (String (json_text.chr 255) "") = false
  ∧ json_text.Unmarshal (json_text.quote true (String (json_text.chr 255) ""))
    = Some (JString json_text.replacement).
Proof. split; vm_compute; reflexivity. Qed.

(* ===================================================================== *)
(** * Proofs: hexadecimal text *)
(* ===================================================================== *)

Lemma nibble_cases n :
  0 ≤ n < 16 →
  n = 0 ∨ n = 1 ∨ n = 2 ∨ n = 3 ∨ n = 4 ∨ n = 5 ∨ n = 6 ∨ n = 7 ∨ n = 8 ∨ n = 9
  ∨ n = 10 ∨ n = 11 ∨ n = 12 ∨ n = 13 ∨ n = 14 ∨ n = 15.
Proof. lia. Qed.

Lemma hex_value_digit n : 0 ≤ n < 16 → hex_value (hex_digit n) = Some n.
Proof.
  intros Hn. apply nibble_cases in Hn.
  repeat (destruct Hn as [-> | Hn]; [reflexivity |]). subst. reflexivity.
Qed.

Lemma hex_digit_lower n : 0 ≤ n < 16 → is_lower_hex (hex_digit n) = true.
Proof.
  intros Hn. apply nibble_cases in Hn.
  repeat (destruct Hn as [-> | Hn]; [reflexivity |]). subst. reflexivity.
Qed.

(** The two halves of a byte. *)
Lemma byte_nibbles b :
  is_byte b →
  0 ≤ Z.shiftr b 4 < 16 ∧ 0 ≤ Z.land b 15 < 16
  ∧ Z.shiftr b 4 * 16 + Z.land b 15 = b.
Proof.
  unfold is_byte. intros Hb. rewrite Z.shiftr_div_pow2 by lia.
  change 15 with (2 ^ 4 - 1). rewrite land_low by lia.
  change (2 ^ 4) with 16. Z.div_mod_to_equations. lia.
Qed.

Lemma Bytes2Hex_length d : String.length (Bytes2Hex d) = (2 * length d)%nat.
Proof. induction d as [| b d IH]; [done |]. cbn [Bytes2Hex String.length length]. lia. Qed.

Lemma Bytes2Hex_lower d :
  Forall is_byte d → forallb is_lower_hex (list_ascii_of_string (Bytes2Hex d)) = true.
Proof.
  induction 1 as [| b d Hb _ IH]; [done |].
  destruct (byte_nibbles b Hb) as (Hhi & Hlo & _).
  cbn [Bytes2Hex list_ascii_of_string forallb].
  by rewrite !hex_digit_lower, IH.
Qed.

(** Reading back the hexadecimal text of bytes gives the bytes. *)
Lemma Hex2Bytes_Bytes2Hex d : Forall is_byte d → Hex2Bytes (Bytes2Hex d) = Some d.
Proof.
  induction 1 as [| b d Hb _ IH]; [done |].
  destruct (byte_nibbles b Hb) as (Hhi & Hlo & Hsum).
  cbn [Bytes2Hex Hex2Bytes]. rewrite !hex_value_digit by done.
  cbn [mbind option_bind]. rewrite IH. cbn [mbind option_bind]. by rewrite Hsum.
Qed.

(* ===================================================================== *)
(** * The nonce *)
(* ===================================================================== *)

(** [createNonce] returns ["0x"] followed by two lower-case hexadecimal
    digits for each byte the entropy source delivered, from which the
    bytes can be read back (so distinct bytes give distinct nonces); with
    the 32 bytes the code asks for, a text of 66 characters.  An error of
    the entropy source is returned wrapped, and no nonce. *)
Theorem createNonce_hex (E : Env) :
  (∀ bytes, rand_Read E = Ok bytes → Forall is_byte bytes →
     ∃ digits,
       createNonce E = Ok ("0x" +:+ digits)
       ∧ String.length digits = (2 * length bytes)%nat
       ∧ forallb is_lower_hex (list_ascii_of_string digits) = true
       ∧ Hex2Bytes digits = Some bytes
       ∧ (length bytes = 32%nat → String.length ("0x" +:+ digits) = 66%nat))
  ∧ (∀ e, rand_Read E = Err e →
       createNonce E = Err (errorString ("failed to generate nonce: " +:+ Error e))).
Proof.
  unfold createNonce. split.
  - intros bytes -> Hbytes. exists (Bytes2Hex bytes). cbn [wrap_err mbind result_bind].
    split; [done |]. split; [apply Bytes2Hex_length |].
    split; [by apply Bytes2Hex_lower |]. split; [by apply Hex2Bytes_Bytes2Hex |].
    intros Hlen. rewrite !string_app_cons, string_app_nil_l. cbn [String.length].
    rewrite Bytes2Hex_length, Hlen. done.
  - intros e ->. done.
Qed.

(** With the test double's entropy: 32 zero bytes. *)
Lemma createNonce_hex_witness :
  ∃ digits,
    createNonce (demo_env [] []) = Ok ("0x" +:+ digits)
    ∧ String.length digits = 64%nat
    ∧ Hex2Bytes digits = Some (replicate 32 0)
    ∧ String.length ("0x" +:+ digits) = 66%nat.
Proof.
  destruct (createNonce_hex (demo_env [] [])) as [Hok _].
  destruct (Hok (replicate 32 0) eq_refl) as (digits & Hrun & Hlen & _ & Hback & H66).
  { repeat constructor; unfold is_byte; lia. }
  exists digits. split; [exact Hrun |]. split; [exact Hlen |].
  split; [exact Hback | exact (H66 eq_refl)].
Defined.

(* ===================================================================== *)
(** * Proofs: what CreatePaymentPayload signs *)
(* ===================================================================== *)

Section signing.
Context (E : Env).

(** A successful run of [CreatePaymentPayload], step by step: the values
    each collaborator returned and how the payload is made of them. *)
Lemma CreatePaymentPayload_payload_trace key recipient amount network url desc m extra ext p :
  CreatePaymentPayload_payload E key recipient amount network url desc m extra ext = Ok p →
  ∃ nonce n domainSeparator messageHash sig v,
    createNonce E = Ok nonce
    ∧ big.SetString10 amount = Some n
    ∧ HashStruct E
        (transfer_typed_data (PubkeyToAddress_Hex E key) recipient n
           (wrap64 (time_Now_Unix E - 600)) (wrap64 (time_Now_Unix E + m)) nonce extra)
        "EIP712Domain" = Ok domainSeparator
    ∧ HashStruct E
        (transfer_typed_data (PubkeyToAddress_Hex E key) recipient n
           (wrap64 (time_Now_Unix E - 600)) (wrap64 (time_Now_Unix E + m)) nonce extra)
        "TransferWithAuthorization" = Ok messageHash
    ∧ crypto_Sign E (eip712_digest E domainSeparator messageHash) key = Ok sig
    ∧ sig !! 64%nat = Some v
    ∧ Signature (Payload p) = "0x" +:+ Bytes2Hex (<[64%nat := recovery_byte v]> sig)
    ∧ Authorization (Payload p)
      = {| From := PubkeyToAddress_Hex E key;
           To := recipient;
           Value := amount;
           ValidAfter := strconv.FormatInt (wrap64 (time_Now_Unix E - 600));
           ValidBefore := strconv.FormatInt (wrap64 (time_Now_Unix E + m));
           Nonce := nonce |}
    ∧ Accepted p
      = {| Scheme := "exact"; Network := network; Amount := amount;
           Asset := USDCBase; PayTo := recipient; MaxTimeoutSeconds := m;
           Extra := token_extra (default "USD Coin" (lookup_string extra "name"))
                      (default "2" (lookup_string extra "version")) |}.
Proof.
  unfold CreatePaymentPayload_payload. intros H.
  apply bind_Ok in H as (nonce & Hnonce & H).
  apply bind_Ok in H as (n & Hamount & H).
  destruct (big.SetString10 amount) as [z |] eqn:Hz; [| done].
  injection Hamount as ->.
  apply bind_Ok in H as (ds & Hds & H). apply wrap_err_Ok in Hds.
  apply bind_Ok in H as (h & Hh & H). apply wrap_err_Ok in Hh.
  apply bind_Ok in H as (sig & Hsig & H). apply wrap_err_Ok in Hsig.
  apply bind_Ok in H as (sig' & Hsig' & H).
  injection H as <-.
  unfold fix_recovery_id in Hsig'.
  destruct (sig !! 64%nat) as [v |] eqn:Hv; [| done].
  exists nonce, n, ds, h, sig, v.
  split; [done |]. split; [done |]. split; [exact Hds |]. split; [exact Hh |].
  split; [exact Hsig |]. split; [done |].
  cbn [Payload Signature Authorization Accepted].
  split; [| done].
  unfold recovery_byte. destruct (v <? 27).
  - by injection Hsig' as <-.
  - injection Hsig' as <-. by rewrite list_insert_id.
Qed.

End signing.

(* ===================================================================== *)
(** * The signature *)
(* ===================================================================== *)

(** In every payload [CreatePaymentPayload] builds, the signature is
    ["0x"] and the hexadecimal text of what [crypto.Sign] returned, byte
    for byte, except that a last byte (the recovery id) below 27 has 27
    added: 0 and 1 become 27 and 28, and a value already 27 or more stays.
    The text has two characters per signature byte after the prefix. *)
Theorem payload_signature_recovery_id (E : Env) key recipient amount network url desc m
    extra ext p :
  CreatePaymentPayload_payload E key recipient amount network url desc m extra ext = Ok p →
  ∃ digest sig v,
    crypto_Sign E digest key = Ok sig
    ∧ sig !! 64%nat = Some v
    ∧ Signature (Payload p) = "0x" +:+ Bytes2Hex (<[64%nat := recovery_byte v]> sig)
    ∧ String.length (Signature (Payload p)) = (2 + 2 * length sig)%nat
    ∧ (∀ i, i ≠ 64%nat → <[64%nat := recovery_byte v]> sig !! i = sig !! i)
    ∧ (v = 0 ∨ v = 1 → recovery_byte v = 27 + v)
    ∧ (27 ≤ v → recovery_byte v = v)
    ∧ (is_byte v → 27 ≤ recovery_byte v < 256).
Proof.
  intros H. apply CreatePaymentPayload_payload_trace in H
    as (nonce & n & ds & h & sig & v & _ & _ & _ & _ & Hsig & Hv & Hsignature & _).
  exists (eip712_digest E ds h), sig, v.
  split; [done |]. split; [done |]. split; [done |]. split.
  { rewrite Hsignature, !string_app_cons, string_app_nil_l. cbn [String.length].
    rewrite Bytes2Hex_length, length_insert. lia. }
  split; [intros i Hi; by rewrite list_lookup_insert_ne |].
  unfold recovery_byte, to_byte, is_byte.
  split; [intros [-> | ->]; reflexivity |].
  split; [intros Hbig; destruct (Z.ltb_spec v 27); [lia | done] |].
  intros Hbyte. destruct (Z.ltb_spec v 27) as [Hlt | Hge]; [| lia].
  change 255 with (2 ^ 8 - 1). rewrite land_low by lia.
  rewrite Z.mod_small by lia. lia.
Qed.

(** The test double signs with 65 zero bytes: the recovery id 0 is sent
    as 27, in a text of 132 characters. *)
Lemma payload_signature_recovery_id_witness :
  ∃ p digest sig,
    CreatePaymentPayload_payload (demo_env [] []) tt scenario_payTo "500000" "eip155:8453"
      "https://blockrun.ai/api/v1/chat/completions" "Chat completion" 300 None None = Ok p
    ∧ crypto_Sign (demo_env [] []) digest tt = Ok sig
    ∧ sig !! 64%nat = Some 0
    ∧ Signature (Payload p) = "0x" +:+ Bytes2Hex (<[64%nat := 27]> sig)
    ∧ String.length (Signature (Payload p)) = 132%nat.
Proof.
  assert (Hrun : ∃ p,
    CreatePaymentPayload_payload (demo_env [] []) tt scenario_payTo "500000" "eip155:8453"
      "https://blockrun.ai/api/v1/chat/completions" "Chat completion" 300 None None = Ok p)
    by (eexists; vm_compute; reflexivity).
  destruct Hrun as [p Hrun].
  destruct (payload_signature_recovery_id (demo_env [] []) tt scenario_payTo "500000"
              "eip155:8453" "https://blockrun.ai/api/v1/chat/completions"
              "Chat completion" 300 None None p Hrun)
    as (digest & sig & v & Hsig & Hv & Hsignature & Hlen & _ & Hzero & _).
  assert (Hsig' : sig = replicate 65 0) by (cbn in Hsig; by injection Hsig as <-).
  subst sig. assert (v = 0) as -> by (cbn in Hv; by injection Hv as <-).
  exists p, digest, (replicate 65 0).
  split; [exact Hrun |]. split; [exact Hsig |]. split; [exact Hv |].
  split; [rewrite Hsignature; by rewrite (Hzero (or_introl eq_refl)) |].
  rewrite Hlen. reflexivity.
Defined.

(* ===================================================================== *)
(** * What is signed is what is sent *)
(* ===================================================================== *)

(** The authorization a payload carries is the message that was signed.
    The typed data hashed for the signature has the payload's [from],
    [to], [validAfter], [validBefore] and [nonce] strings as they are sent,
    and as [value] the decimal text of the integer the sent [value]
    denotes (the text itself may differ: a sign or leading zeros are sent
    as given and signed in normal form).  Its domain is the token name
    and version echoed in [accepted.extra], chain 8453 and the contract
    named as [accepted.asset]; what [crypto.Sign] received is the EIP-712
    digest of that domain and message, and the signature the payload
    carries is the text of what it returned for that digest (with the
    recovery id raised to 27 or 28). *)
Theorem signed_authorization_is_sent (E : Env) key recipient amount network url desc m
    extra ext p :
  CreatePaymentPayload_payload E key recipient amount network url desc m extra ext = Ok p →
  ∃ td n domainSeparator messageHash sig v,
    HashStruct E td "EIP712Domain" = Ok domainSeparator
    ∧ HashStruct E td "TransferWithAuthorization" = Ok messageHash
    ∧ crypto_Sign E (eip712_digest E domainSeparator messageHash) key = Ok sig
    ∧ sig !! 64%nat = Some v
    ∧ Signature (Payload p) = "0x" +:+ Bytes2Hex (<[64%nat := recovery_byte v]> sig)
    ∧ PrimaryType td = "TransferWithAuthorization"
    ∧ Types td = TransferTypes
    ∧ ChainId (Domain td) = 8453
    ∧ VerifyingContract (Domain td) = Asset (Accepted p)
    ∧ Extra (Accepted p)
      = token_extra (DomainName (Domain td)) (DomainVersion (Domain td))
    ∧ From (Authorization (Payload p)) = PubkeyToAddress_Hex E key
    ∧ TypedDataMessage td !! "from" = Some (AString (From (Authorization (Payload p))))
    ∧ TypedDataMessage td !! "to" = Some (AString (To (Authorization (Payload p))))
    ∧ TypedDataMessage td !! "validAfter"
      = Some (AString (ValidAfter (Authorization (Payload p))))
    ∧ TypedDataMessage td !! "validBefore"
      = Some (AString (ValidBefore (Authorization (Payload p))))
    ∧ TypedDataMessage td !! "nonce" = Some (AString (Nonce (Authorization (Payload p))))
    ∧ big.SetString10 (Value (Authorization (Payload p))) = Some n
    ∧ TypedDataMessage td !! "value" = Some (AString (big.String_ n))
    ∧ size (TypedDataMessage td) = 6%nat.
Proof.
  intros H. apply CreatePaymentPayload_payload_trace in H
    as (nonce & n & ds & h & sig & v & _ & Hn & Hds & Hh & Hsig & Hv & Hsignature
        & Hauth & Hacc).
  eexists _, n, ds, h, sig, v.
  split; [exact Hds |]. split; [exact Hh |]. split; [exact Hsig |].
  split; [exact Hv |]. split; [exact Hsignature |].
  rewrite Hauth, Hacc.
  cbn [transfer_typed_data PrimaryType Types Domain ChainId VerifyingContract
       DomainName DomainVersion TypedDataMessage Asset Extra From To Value
       ValidAfter ValidBefore Nonce].
  split; [done |]. split; [done |]. split; [done |]. split; [done |].
  split; [done |]. split; [done |].
  split; [by rewrite lookup_insert_eq |].
  split; [by repeat (rewrite lookup_insert_ne by done); rewrite lookup_insert_eq |].
  split; [by repeat (rewrite lookup_insert_ne by done); rewrite lookup_insert_eq |].
  split; [by repeat (rewrite lookup_insert_ne by done); rewrite lookup_insert_eq |].
  split; [by repeat (rewrite lookup_insert_ne by done); rewrite lookup_insert_eq |].
  split; [exact Hn |].
  split; [by repeat (rewrite lookup_insert_ne by done); rewrite lookup_insert_eq |].
  repeat (rewrite map_size_insert_None;
          [| by repeat (rewrite lookup_insert_ne by done); rewrite ?lookup_empty]).
  by rewrite map_size_empty.
Qed.

(** The amount "007" is sent as given and signed as 7, and the signature
    sent is the one made for that message. *)
Lemma signed_authorization_is_sent_witness :
  ∃ p td domainSeparator messageHash sig v,
    CreatePaymentPayload_payload (demo_env [] []) tt scenario_payTo "007" "eip155:8453"
      "https://blockrun.ai/api/v1/chat/completions" "Chat completion" 300 None None = Ok p
    ∧ HashStruct (demo_env [] []) td "TransferWithAuthorization" = Ok messageHash
    ∧ crypto_Sign (demo_env [] [])
        (eip712_digest (demo_env [] []) domainSeparator messageHash) tt = Ok sig
    ∧ sig !! 64%nat = Some v
    ∧ Signature (Payload p) = "0x" +:+ Bytes2Hex (<[64%nat := recovery_byte v]> sig)
    ∧ Value (Authorization (Payload p)) = "007"
    ∧ TypedDataMessage td !! "value" = Some (AString "7")
    ∧ TypedDataMessage td !! "to" = Some (AString scenario_payTo)
    ∧ To (Authorization (Payload p)) = scenario_payTo.
Proof.
  assert (Hrun : ∃ p,
    CreatePaymentPayload_payload (demo_env [] []) tt scenario_payTo "007" "eip155:8453"
      "https://blockrun.ai/api/v1/chat/completions" "Chat completion" 300 None None = Ok p
    ∧ Value (Authorization (Payload p)) = "007"
    ∧ To (Authorization (Payload p)) = scenario_payTo)
    by (eexists; split; [vm_compute; reflexivity |]; split; reflexivity).
  destruct Hrun as (p & Hrun & Hvalue & Hto).
  destruct (signed_authorization_is_sent (demo_env [] []) tt scenario_payTo "007"
              "eip155:8453" "https://blockrun.ai/api/v1/chat/completions"
              "Chat completion" 300 None None p Hrun)
    as (td & n & ds & h & sig & v & _ & Hh & Hsig & Hv & Hsignature & _ & _ & _ & _ & _
        & _ & _ & Htd_to & _ & _ & _ & Hn & Htd_value & _).
  exists p, td, ds, h, sig, v.
  split; [exact Hrun |]. split; [exact Hh |]. split; [exact Hsig |].
  split; [exact Hv |]. split; [exact Hsignature |].
  split; [exact Hvalue |].
  rewrite Hvalue in Hn. assert (n = 7) as -> by (vm_compute in Hn; by injection Hn as <-).
  split; [exact Htd_value |]. rewrite Hto in Htd_to. split; [exact Htd_to | exact Hto].
Defined.

(* ===================================================================== *)
(** * Proofs: the handshake, step by step *)
(* ===================================================================== *)

Section handshake_steps.
Context (E : Env).

(** [handlePaymentAndRetry] either stops before the retry, the world as
    it was, with a [PaymentError] that says at which step, a plain error
    or a panic of a collaborator; or it sends the retry that carries the
    payload signed for the option the challenge leads to. *)
Lemma handlePaymentAndRetry_steps url body resp w :
  ((handlePaymentAndRetry E url body resp w).2 = w
   ∧ ((∃ message, (handlePaymentAndRetry E url body resp w).1 = Err (PaymentError message)
                  ∧ stops_before_retry message)
      ∨ (∃ text, (handlePaymentAndRetry E url body resp w).1 = Err (errorString text))
      ∨ (∃ why, (handlePaymentAndRetry E url body resp w).1 = Panic why)))
  ∨ ∃ req opt paymentPayload,
      ParsePaymentRequired E (paymentHeader_of E resp) = Ok req
      ∧ ExtractPaymentDetails req = Ok opt
      ∧ CreatePaymentPayload_for E (privateKey E (client E w)) opt
          (payment_resource_url req url) (Description (Resource req)) (Extensions req)
        = Ok paymentPayload
      ∧ retry_outcome E w opt (retry_request E url body paymentPayload)
          (handlePaymentAndRetry E url body resp w).
Proof.
  unfold handlePaymentAndRetry, stops_before_retry.
  destruct (decide (paymentHeader_of E resp = "")) as [| Hheader].
  { left. split; [done |]. left. eexists. split; [done |]. by left. }
  rewrite run_lift_bind.
  destruct (ParsePaymentRequired E (paymentHeader_of E resp)) as [req | e | why];
    cbn [wrap_err].
  2: { left. split; [done |]. left. eexists. split; [done |]. right. left. by eexists. }
  2: { left. split; [done |]. right. right. by eexists. }
  rewrite run_lift_bind.
  destruct (ExtractPaymentDetails req) as [opt | e | why] eqn:Hopt; cbn [wrap_err].
  2: { left. split; [done |]. left. eexists. split; [done |].
       right. right. left. by eexists. }
  2: { left. split; [done |]. right. right. by eexists. }
  rewrite run_bind. cbn beta iota.
  rewrite run_lift_bind.
  fold (payment_resource_url req url).
  fold (CreatePaymentPayload_for E (privateKey E (client E w)) opt
          (payment_resource_url req url) (Description (Resource req)) (Extensions req)).
  destruct (CreatePaymentPayload_for E (privateKey E (client E w)) opt
              (payment_resource_url req url) (Description (Resource req))
              (Extensions req)) as [payload | e | why] eqn:Hpayload; cbn [wrap_err].
  2: { left. split; [done |]. left. eexists. split; [done |].
       right. right. right. by eexists. }
  2: { left. split; [done |]. right. right. by eexists. }
  rewrite run_bind, run_NewRequest_POST.
  destruct (http_NewRequest_error E "POST" url) as [e |].
  { left. split; [done |]. right. left. by eexists. }
  right. exists req, opt, payload.
  split; [done |]. split; [done |]. split; [done |].
  cbn [foldl fst snd].
  change {| Method := "POST"; RequestURL := url;
            RequestHeader := _; RequestBody := body |}
    with (retry_request E url body payload).
  rewrite run_bind. unfold Do at 1. unfold retry_outcome.
  destruct (httpClient_Do E (trips E w) (retry_request E url body payload))
    as [retryResp | e | why] eqn:Hdo; cbn [wrap_err]; [| done | done].
  destruct (decide (StatusCode retryResp = StatusPaymentRequired)); [done |].
  destruct (decide (StatusCode retryResp ≠ StatusOK)); [done |].
  rewrite run_lift_bind.
  destruct (json_Decode_ChatResponse E (Body retryResp)) as [chatResp | e | why];
    cbn [wrap_err]; [| done | done].
  rewrite run_bind. unfold after_request. rewrite Hdo.
  split; [done |]. done.
Qed.

(** [requestWithPayment] either returns before any request, with a plain
    error or a panic of a collaborator, or sends the first request and
    goes on as the response says. *)
Lemma requestWithPayment_first endpoint body w :
  ((requestWithPayment E endpoint body w).2 = w
   ∧ ((∃ text, (requestWithPayment E endpoint body w).1 = Err (errorString text))
      ∨ (∃ why, (requestWithPayment E endpoint body w).1 = Panic why)))
  ∨ ∃ jsonBody,
      json_Marshal E (toJSON_any E (AMap body)) = Ok jsonBody
      ∧ requestWithPayment E endpoint body w
        = match httpClient_Do E (trips E w)
                  (first_request E (apiURL E (client E w) +:+ endpoint) jsonBody) with
          | Ok resp =>
              if decide (StatusCode resp = StatusPaymentRequired) then
                handlePaymentAndRetry E (apiURL E (client E w) +:+ endpoint) jsonBody resp
                  (after_request E w
                     (first_request E (apiURL E (client E w) +:+ endpoint) jsonBody))
              else
                (if decide (StatusCode resp ≠ StatusOK) then
                   Err (APIError (StatusCode resp) ("API error: " +:+ Body resp))
                 else wrap_err (Errorf "failed to decode response: ")
                        (json_Decode_ChatResponse E (Body resp)),
                 after_request E w
                   (first_request E (apiURL E (client E w) +:+ endpoint) jsonBody))
          | Err e =>
              (Err (Errorf "request failed: " e),
               after_request E w
                 (first_request E (apiURL E (client E w) +:+ endpoint) jsonBody))
          | Panic why =>
              (Panic why,
               after_request E w
                 (first_request E (apiURL E (client E w) +:+ endpoint) jsonBody))
          end.
Proof.
  unfold requestWithPayment. rewrite run_bind. cbn beta iota.
  rewrite run_lift_bind.
  destruct (json_Marshal E (toJSON_any E (AMap body))) as [jsonBody | e | why];
    cbn [wrap_err].
  2: { left. split; [done |]. left. by eexists. }
  2: { left. split; [done |]. right. by eexists. }
  rewrite run_bind, run_NewRequest_POST.
  destruct (http_NewRequest_error E "POST" (apiURL E (client E w) +:+ endpoint)).
  { left. split; [done |]. left. by eexists. }
  right. exists jsonBody. split; [done |].
  cbn [foldl fst snd].
  change {| Method := "POST"; RequestURL := _; RequestHeader := _; RequestBody := jsonBody |}
    with (first_request E (apiURL E (client E w) +:+ endpoint) jsonBody).
  rewrite run_bind. unfold Do at 1. fold (after_request E w
    (first_request E (apiURL E (client E w) +:+ endpoint) jsonBody)).
  destruct (httpClient_Do E (trips E w)
              (first_request E (apiURL E (client E w) +:+ endpoint) jsonBody))
    as [resp | e | why]; cbn [wrap_err]; [| done | done].
  destruct (decide (StatusCode resp = StatusPaymentRequired)); [done |].
  destruct (decide (StatusCode resp ≠ StatusOK)); [done |].
  rewrite run_lift_bind.
  by destruct (json_Decode_ChatResponse E (Body resp)).
Qed.

Lemma requestWithPayment_shape endpoint body w : call_shape E endpoint body w.
Proof.
  destruct (requestWithPayment_first endpoint body w)
    as [[Hw Hresult] | (jsonBody & Hbody & Hrun)].
  { by apply shape_no_request. }
  set (url := apiURL E (client E w) +:+ endpoint) in *.
  set (req1 := first_request E url jsonBody) in *.
  destruct (httpClient_Do E (trips E w) req1) as [resp1 | e | why] eqn:Hdo.
  - destruct (decide (StatusCode resp1 = StatusPaymentRequired)) as [H402 | Hnot].
    + destruct (handlePaymentAndRetry_steps url jsonBody resp1 (after_request E w req1))
        as [[Hw Hresult] | (req & opt & payload & Hreq & Hopt & Hpayload & Hout)].
      * apply (shape_one_request E endpoint body w jsonBody); [done | |].
        -- by rewrite Hrun.
        -- fold url req1. rewrite Hdo, decide_True by done. by rewrite Hrun.
      * apply (shape_two_requests E endpoint body w jsonBody resp1 req opt payload); try done.
        fold url req1. by rewrite Hrun.
    + apply (shape_one_request E endpoint body w jsonBody); [done | |].
      * by rewrite Hrun.
      * fold url req1. rewrite Hdo, decide_False by done. rewrite Hrun.
        by destruct (decide (StatusCode resp1 ≠ StatusOK)).
  - apply (shape_one_request E endpoint body w jsonBody); [done | |].
    + by rewrite Hrun.
    + fold url req1. by rewrite Hdo, Hrun.
  - apply (shape_one_request E endpoint body w jsonBody); [done | |].
    + by rewrite Hrun.
    + fold url req1. by rewrite Hdo, Hrun.
Qed.

End handshake_steps.

(* ===================================================================== *)
(** * The retry carries the payload signed for the first option *)
(* ===================================================================== *)

(** The option [ExtractPaymentDetails] returns is the first one on offer,
    with its amount resolved. *)
Lemma ExtractPaymentDetails_first (req : PaymentRequirement) (opt : PaymentOption) :
  ExtractPaymentDetails req = Ok opt →
  ∃ first rest,
    elems (Accepts req) = first :: rest
    ∧ opt = set_Amount first (resolved_amount first).
Proof.
  unfold ExtractPaymentDetails.
  destruct (elems (Accepts req)) as [| first rest]; [done |].
  rewrite fallback_resolves. cbn [Amount set_Amount].
  destruct (decide (resolved_amount first = "")); [done |].
  intros [= <-]. by exists first, rest.
Qed.

(** Whenever [requestWithPayment] makes a second request, the first was
    answered 402 with a challenge that parses, and the second is the first
    again (same URL and body) with the header [PAYMENT-SIGNATURE] set to
    the payload [CreatePaymentPayload] built with the client's key for the
    first option of that challenge: its payee, its resolved amount, its
    network, timeout and token metadata, for the challenge's resource URL
    (the request URL when the challenge names none), description and
    extensions. *)
Theorem retry_carries_signed_payload (E : Env) endpoint body (w : world E) x1 x2 :
  trips E (requestWithPayment E endpoint body w).2 = trips E w ++ [x1; x2] →
  ∃ resp1 req first rest opt paymentPayload,
    x1.2 = Ok resp1
    ∧ StatusCode resp1 = StatusPaymentRequired
    ∧ ParsePaymentRequired E (paymentHeader_of E resp1) = Ok req
    ∧ elems (Accepts req) = first :: rest
    ∧ opt = set_Amount first (resolved_amount first)
    ∧ CreatePaymentPayload E (privateKey E (client E w))
        (PayTo first) (resolved_amount first) (Network first)
        (payment_resource_url req (RequestURL x1.1)) (Description (Resource req))
        (MaxTimeoutSeconds first) (Extra first) (Extensions req)
      = Ok paymentPayload
    ∧ x2.1 = retry_request E (RequestURL x1.1) (RequestBody x1.1) paymentPayload
    ∧ RequestHeader x2.1 !! CanonicalMIMEHeaderKey E "PAYMENT-SIGNATURE"
      = Some paymentPayload.
Proof.
  intros Htrips.
  destruct (requestWithPayment_shape E endpoint body w)
    as [Hw _ | jsonBody url req1 _ Hw _
        | jsonBody resp1 req opt payload url req1 _ Hdo H402 Hreq Hopt Hpayload Hout].
  - rewrite Hw in Htrips. apply (f_equal length) in Htrips.
    rewrite length_app in Htrips. cbn in Htrips. lia.
  - rewrite Hw in Htrips. cbn [after_request trips] in Htrips.
    apply app_inv_head in Htrips. discriminate Htrips.
  - destruct Hout as [Hsent _]. rewrite Hsent in Htrips.
    cbn [after_request trips] in Htrips. rewrite <- app_assoc in Htrips.
    apply app_inv_head in Htrips. cbn [app] in Htrips.
    injection Htrips as <- <-. cbn [fst snd].
    destruct (ExtractPaymentDetails_first req opt Hopt) as (first & rest & Hel & ->).
    exists resp1, req, first, rest, (set_Amount first (resolved_amount first)), payload.
    split; [exact Hdo |]. split; [done |]. split; [done |]. split; [done |].
    split; [done |]. split; [exact Hpayload |]. split; [done |].
    cbn [retry_request RequestHeader]. apply lookup_insert_eq.
Qed.

(** The paid call of the scenario: the retry carries the payload for one
    USDC to the scenario's payee. *)
Lemma retry_carries_signed_payload_witness :
  ∃ x1 x2 paymentPayload,
    trips settling_env
      (requestWithPayment settling_env "/v1/chat/completions" hello_body
         (fresh_world settling_env tt)).2 = [x1; x2]
    ∧ CreatePaymentPayload settling_env tt scenario_payTo "1000000" "eip155:8453"
        "https://blockrun.ai/api/v1/chat/completions" "Chat completion" 300 None None
      = Ok paymentPayload
    ∧ RequestHeader x2.1 !! "Payment-Signature" = Some paymentPayload
    ∧ RequestBody x2.1 = RequestBody x1.1.
Proof.
  assert (Hrun : ∃ x1 x2,
    trips settling_env
      (requestWithPayment settling_env "/v1/chat/completions" hello_body
         (fresh_world settling_env tt)).2 = [x1; x2]
    ∧ x1.2 = Ok million_challenge
    ∧ RequestURL x1.1 = "https://blockrun.ai/api/v1/chat/completions")
    by (eexists _, _; split; [vm_compute; reflexivity |];
        split; [vm_compute; reflexivity | vm_compute; reflexivity]).
  destruct Hrun as (x1 & x2 & Htrips & Hx1 & Hurl).
  destruct (retry_carries_signed_payload settling_env "/v1/chat/completions" hello_body
              (fresh_world settling_env tt) x1 x2 Htrips)
    as (resp1 & req & first & rest & opt & payload & Hresp1 & _ & Hreq & Hel & _
        & Hpayload & Hx2 & Hheader).
  rewrite Hx1 in Hresp1. injection Hresp1 as <-.
  assert (Hparsed : ParsePaymentRequired settling_env
                      (paymentHeader_of settling_env million_challenge)
                    = Ok million_requirement) by (vm_compute; reflexivity).
  rewrite Hparsed in Hreq. injection Hreq as <-.
  cbn in Hel. injection Hel as <- <-.
  exists x1, x2, payload. split; [exact Htrips |].
  split.
  { rewrite <- Hpayload, Hurl. reflexivity. }
  split; [exact Hheader |]. rewrite Hx2. reflexivity.
Defined.

(* ===================================================================== *)
(** * The kinds of error a call returns *)
(* ===================================================================== *)

(** What the typed errors of [requestWithPayment] tell the caller.  It
    never returns a [ValidationError].  An [APIError] carries the status
    of the last response received, which is neither 200 nor 402, and that
    response's body in its message, after "API error: " when it answered
    the first request and after "API error after payment: " when it
    answered the retry.  A [PaymentError] means the first request was
    answered 402: either no retry was sent and the message names the step
    that failed (no requirements found, parsing, choosing the option,
    creating the payment), or the retry was sent, answered 402 again, and
    the message is "Payment was rejected. Check your wallet balance.". *)
Theorem requestWithPayment_error_kinds (E : Env) endpoint body (w : world E) :
  (∀ field message,
     (requestWithPayment E endpoint body w).1 ≠ Err (ValidationError field message))
  ∧ (∀ code message,
       (requestWithPayment E endpoint body w).1 = Err (APIError code message) →
       ∃ earlier x resp,
         trips E (requestWithPayment E endpoint body w).2 = trips E w ++ earlier ++ [x]
         ∧ x.2 = Ok resp ∧ StatusCode resp = code
         ∧ code ≠ StatusOK ∧ code ≠ StatusPaymentRequired
         ∧ ((earlier = [] ∧ message = "API error: " +:+ Body resp)
            ∨ (∃ x1 resp1,
                 earlier = [x1] ∧ x1.2 = Ok resp1
                 ∧ StatusCode resp1 = StatusPaymentRequired
                 ∧ message = "API error after payment: " +:+ Body resp)))
  ∧ (∀ message,
       (requestWithPayment E endpoint body w).1 = Err (PaymentError message) →
       ∃ x1 resp1 later,
         trips E (requestWithPayment E endpoint body w).2 = trips E w ++ x1 :: later
         ∧ x1.2 = Ok resp1 ∧ StatusCode resp1 = StatusPaymentRequired
         ∧ ((later = [] ∧ stops_before_retry message)
            ∨ (∃ x2 resp2,
                 later = [x2] ∧ x2.2 = Ok resp2
                 ∧ StatusCode resp2 = StatusPaymentRequired
                 ∧ message = payment_rejected))).
Proof.
  destruct (requestWithPayment_shape E endpoint body w)
    as [Hw Hresult | jsonBody url req1 _ Hw Hresult
        | jsonBody resp1 req opt payload url req1 _ Hdo H402 _ _ _ Hout].
  - split; [| split].
    + intros field message H. destruct Hresult as [[text Ht] | [why Ht]]; congruence.
    + intros code message H. destruct Hresult as [[text Ht] | [why Ht]]; congruence.
    + intros message H. destruct Hresult as [[text Ht] | [why Ht]]; congruence.
  - rewrite Hw. cbn [after_request trips].
    destruct (httpClient_Do E (trips E w) req1) as [resp | e | why] eqn:Hdo.
    + destruct (decide (StatusCode resp = StatusPaymentRequired)) as [H402 | Hnot402].
      * split; [| split].
        -- intros field message H.
           destruct Hresult as [(m & Hm & _) | [[text Ht] | [why Ht]]]; congruence.
        -- intros code message H.
           destruct Hresult as [(m & Hm & _) | [[text Ht] | [why Ht]]]; congruence.
        -- intros message H.
           destruct Hresult as [(m & Hm & Hstop) | [[text Ht] | [why Ht]]];
             [| congruence | congruence].
           rewrite Hm in H. injection H as ->.
           exists (req1, Ok resp), resp, []. split; [done |]. split; [done |].
           split; [done |]. by left.
      * destruct (decide (StatusCode resp ≠ StatusOK)) as [Hnot200 | H200].
        -- rewrite Hresult. split; [done |]. split; [| done].
           intros code message [= <- <-].
           exists [], (req1, Ok resp), resp. split; [done |]. split; [done |].
           split; [done |]. split; [done |]. split; [done |]. by left.
        -- rewrite Hresult.
           destruct (json_Decode_ChatResponse E (Body resp)); cbn [wrap_err]; done.
    + rewrite Hresult. done.
    + rewrite Hresult. done.
  - destruct Hout as [Hsent Hout]. rewrite Hsent. cbn [after_request trips] in Hout |- *.
    rewrite <- app_assoc. cbn [app].
    set (r2 := httpClient_Do E (trips E w ++ [(req1, httpClient_Do E (trips E w) req1)])
                 (retry_request E url jsonBody payload)) in *.
    destruct r2 as [resp2 | e | why] eqn:Hr2.
    + destruct (decide (StatusCode resp2 = StatusPaymentRequired)) as [Hagain | Hnot402].
      * destruct Hout as [-> _]. split; [done |]. split; [done |].
        intros message [= <-].
        exists (req1, httpClient_Do E (trips E w) req1), resp1,
               [(retry_request E url jsonBody payload, Ok resp2)].
        split; [done |]. split; [done |]. split; [done |].
        right. by exists (retry_request E url jsonBody payload, Ok resp2), resp2.
      * destruct (decide (StatusCode resp2 ≠ StatusOK)) as [Hnot200 | H200].
        -- destruct Hout as [-> _]. split; [done |]. split; [| done].
           intros code message [= <- <-].
           exists [(req1, httpClient_Do E (trips E w) req1)],
                  (retry_request E url jsonBody payload, Ok resp2), resp2.
           split; [done |]. split; [done |]. split; [done |]. split; [done |].
           split; [done |]. right.
           by exists (req1, httpClient_Do E (trips E w) req1), resp1.
        -- destruct (json_Decode_ChatResponse E (Body resp2));
             destruct Hout as [-> _]; done.
    + destruct Hout as [-> _]. done.
    + destruct Hout as [-> _]. done.
Qed.

(** Against the server that answers 402 twice the call ends in the
    "payment rejected" error, after two round trips. *)
Lemma requestWithPayment_error_kinds_witness :
  ∃ x1 x2 resp1 resp2,
    (requestWithPayment rejecting_env "/v1/chat/completions" hello_body
       (fresh_world rejecting_env tt)).1 = Err (PaymentError payment_rejected)
    ∧ trips rejecting_env
        (requestWithPayment rejecting_env "/v1/chat/completions" hello_body
           (fresh_world rejecting_env tt)).2 = [x1; x2]
    ∧ x1.2 = Ok resp1 ∧ StatusCode resp1 = StatusPaymentRequired
    ∧ x2.2 = Ok resp2 ∧ StatusCode resp2 = StatusPaymentRequired.
Proof.
  destruct (requestWithPayment_error_kinds rejecting_env "/v1/chat/completions"
              hello_body (fresh_world rejecting_env tt)) as (_ & _ & Hpayment).
  assert (Hrun :
    (requestWithPayment rejecting_env "/v1/chat/completions" hello_body
       (fresh_world rejecting_env tt)).1 = Err (PaymentError payment_rejected))
    by (vm_compute; reflexivity).
  destruct (Hpayment _ Hrun) as (x1 & resp1 & later & Htrips & Hx1 & H402 & Hlater).
  destruct Hlater as [[_ Hstop] | (x2 & resp2 & -> & Hx2 & Hagain & _)].
  - exfalso. unfold stops_before_retry, payment_rejected, no_requirements_found in Hstop.
    destruct Hstop as [H | [[c H] | [[c H] | [c H]]]]; discriminate H.
  - exists x1, x2, resp1, resp2. split; [exact Hrun |]. split; [exact Htrips |].
    split; [exact Hx1 |]. split; [exact H402 |]. split; [exact Hx2 | exact Hagain].
Defined.

(* ===================================================================== *)
(** * The body of a chat completion *)
(* ===================================================================== *)

(** Whatever the options, the body [ChatCompletion] sends has the model,
    the messages and a positive [max_tokens]: the option's value when that
    is positive and 1024 otherwise.  [temperature] and [top_p] are sent
    only when the option is greater than zero (a zero cannot be asked
    for), [search_parameters] only when the option has them, or, as
    [{"mode": "on"}], when it has none and [Search] is set; and the body
    has no other key. *)
Theorem ChatCompletion_body_invariant model messages opts :
  ChatCompletion_body model messages opts !! "model" = Some (AString model)
  ∧ ChatCompletion_body model messages opts !! "messages"
    = Some (AMessages (elems messages))
  ∧ (∃ n, ChatCompletion_body model messages opts !! "max_tokens" = Some (AInt n)
          ∧ 0 < n
          ∧ match opts with
            | Some o => n = if 0 <? MaxTokens o then MaxTokens o else 1024
            | None => n = 1024
            end)
  ∧ (∀ v, ChatCompletion_body model messages opts !! "temperature" = Some v →
          ∃ o, opts = Some o ∧ v = AFloat64 (Temperature o)
               ∧ PrimFloat.ltb 0 (Temperature o) = true)
  ∧ (∀ v, ChatCompletion_body model messages opts !! "top_p" = Some v →
          ∃ o, opts = Some o ∧ v = AFloat64 (TopP o) ∧ PrimFloat.ltb 0 (TopP o) = true)
  ∧ (∀ v, ChatCompletion_body model messages opts !! "search_parameters" = Some v →
          ∃ o, opts = Some o
               ∧ (SearchParameters o = Some v
                  ∨ (SearchParameters o = None ∧ Search o = true
                     ∧ v = AStringMap {[ "mode" := "on" ]})))
  ∧ (∀ k, is_Some (ChatCompletion_body model messages opts !! k) → k ∈ body_keys).
Proof.
  unfold ChatCompletion_body, body_keys.
  destruct opts as [o |].
  - destruct (PrimFloat.ltb 0 (Temperature o)) eqn:Htemp;
      destruct (PrimFloat.ltb 0 (TopP o)) eqn:Htop;
      destruct (SearchParameters o) as [p |] eqn:Hp;
      destruct (Search o) eqn:Hs;
      (split; [by simplify_map_eq |]);
      (split; [by simplify_map_eq |]);
      (split; [eexists; split; [by simplify_map_eq |];
               split; [unfold DefaultMaxTokens; destruct (Z.ltb_spec 0 (MaxTokens o)); lia
                      | done] |]);
      (split; [intros v Hv; simplify_map_eq; eauto |]);
      (split; [intros v Hv; simplify_map_eq; eauto |]);
      (split; [intros v Hv; simplify_map_eq; eauto 6 |]);
      intros k [v Hk];
      repeat (match type of Hk with
              | <[?key := _]> _ !! k = Some _ =>
                  destruct (decide (k = key)) as [-> |];
                  [repeat first [apply list_elem_of_here | apply list_elem_of_further]
                  | rewrite lookup_insert_ne in Hk by done]
              end);
      by rewrite lookup_empty in Hk.
  - split; [by simplify_map_eq |]. split; [by simplify_map_eq |].
    split; [exists 1024; by simplify_map_eq |].
    split; [intros v Hv; simplify_map_eq |].
    split; [intros v Hv; simplify_map_eq |].
    split; [intros v Hv; simplify_map_eq |].
    intros k [v Hk].
    repeat (match type of Hk with
            | <[?key := _]> _ !! k = Some _ =>
                destruct (decide (k = key)) as [-> |];
                [repeat first [apply list_elem_of_here | apply list_elem_of_further]
                  | rewrite lookup_insert_ne in Hk by done]
            end).
    by rewrite lookup_empty in Hk.
Qed.

(* ===================================================================== *)
(** * Chat and ChatWithSystem *)
(* ===================================================================== *)

Lemma requestWithPayment_not_ValidationError (E : Env) endpoint body (w : world E)
    field message :
  (requestWithPayment E endpoint body w).1 ≠ Err (ValidationError field message).
Proof.
  destruct (requestWithPayment_shape E endpoint body w)
    as [Hw Hresult | jsonBody url req1 _ Hw Hresult
        | jsonBody resp1 req opt payload url req1 _ Hdo H402 _ _ _ [_ Hout]].
  - destruct Hresult as [[text Ht] | [why Ht]]; congruence.
  - destruct (httpClient_Do E (trips E w) req1) as [resp | e | why];
      [| by rewrite Hresult..].
    destruct (decide (StatusCode resp = StatusPaymentRequired)).
    + destruct Hresult as [(m & Hm & _) | [[text Ht] | [why Ht]]]; congruence.
    + destruct (decide (StatusCode resp ≠ StatusOK)); rewrite Hresult; [done |].
      by destruct (json_Decode_ChatResponse E (Body resp)).
  - destruct (httpClient_Do E _ (retry_request E url jsonBody payload))
      as [resp2 | e | why]; [| destruct Hout as [-> _]; done..].
    destruct (decide (StatusCode resp2 = StatusPaymentRequired));
      [destruct Hout as [-> _]; done |].
    destruct (decide (StatusCode resp2 ≠ StatusOK)); [destruct Hout as [-> _]; done |].
    destruct (json_Decode_ChatResponse E (Body resp2)); destruct Hout as [-> _]; done.
Qed.

Lemma chat_messages_nonempty prompt system : chat_messages prompt system ≠ [].
Proof. unfold chat_messages. by destruct (decide (system = "")). Qed.

(** [ChatWithSystem] is [ChatCompletion] on its own messages. *)
Lemma ChatWithSystem_run (E : Env) model prompt system (w : world E) :
  model ≠ "" →
  ChatWithSystem E model prompt system w
  = match requestWithPayment E "/v1/chat/completions" (chat_body model prompt system) w with
    | (Ok resp, w') =>
        match elems (Choices resp) with
        | [] => (Err (APIError 0 "No choices in response"), w')
        | choice :: _ => (Ok (Content (Message choice)), w')
        end
    | (Err e, w') => (Err e, w')
    | (Panic why, w') => (Panic why, w')
    end.
Proof.
  intros Hmodel. unfold ChatWithSystem, chat_body.
  assert (Hmessages :
    (if decide (system ≠ "")
     then [] ++ [ {| Role := "system"; Content := system |} ]
     else []) ++ [ {| Role := "user"; Content := prompt |} ]
    = chat_messages prompt system).
  { unfold chat_messages. by destruct (decide (system = "")), (decide (system ≠ "")). }
  rewrite Hmessages, run_bind. unfold ChatCompletion.
  rewrite decide_False by done.
  rewrite decide_False
    by (cbn [elems default from_option id]; intros Hlen;
        by destruct (chat_messages prompt system) eqn:Hm;
          [apply chat_messages_nonempty in Hm |]).
  destruct (requestWithPayment E "/v1/chat/completions" _ w) as [[resp | e | why] w'];
    [| done | done].
  by destruct (elems (Choices resp)).
Qed.

(** [ChatWithSystem] sends the system prompt, when it is not empty, and
    then the user's, with [max_tokens] 1024; so of the two input checks of
    [ChatCompletion] only the one on the model can fail.  With a model
    it makes the round trips, and leaves the client and its ledger, as the
    completion call does, and returns the content of the first choice of
    the response.  A response without choices is an [APIError] with status
    0, not a panic, and is returned after the ledger has been updated: a
    paid call can end in this error. *)
Theorem ChatWithSystem_outcomes (E : Env) model prompt system (w : world E) :
  (model = "" →
     ChatWithSystem E model prompt system w
     = (Err (ValidationError "model" "Model is required"), w))
  ∧ (model ≠ "" →
       chat_body model prompt system !! "messages"
       = Some (AMessages (chat_messages prompt system))
       ∧ chat_body model prompt system !! "max_tokens" = Some (AInt 1024)
       ∧ (ChatWithSystem E model prompt system w).2
         = (requestWithPayment E "/v1/chat/completions"
              (chat_body model prompt system) w).2
       ∧ (∀ field message,
            (ChatWithSystem E model prompt system w).1
            ≠ Err (ValidationError field message))
       ∧ (∀ text,
            (ChatWithSystem E model prompt system w).1 = Ok text ↔
            ∃ resp choice rest,
              (requestWithPayment E "/v1/chat/completions"
                 (chat_body model prompt system) w).1 = Ok resp
              ∧ elems (Choices resp) = choice :: rest
              ∧ text = Content (Message choice))
       ∧ (∀ resp,
            (requestWithPayment E "/v1/chat/completions"
               (chat_body model prompt system) w).1 = Ok resp →
            elems (Choices resp) = [] →
            (ChatWithSystem E model prompt system w).1
            = Err (APIError 0 "No choices in response"))).
Proof.
  split.
  - intros ->. unfold ChatWithSystem. rewrite run_bind. unfold ChatCompletion.
    by rewrite decide_True.
  - intros Hmodel. rewrite (ChatWithSystem_run E model prompt system w Hmodel).
    pose proof (requestWithPayment_not_ValidationError E "/v1/chat/completions"
                  (chat_body model prompt system) w) as Hnever.
    split; [unfold chat_body, ChatCompletion_body; by simplify_map_eq |].
    split; [unfold chat_body, ChatCompletion_body; by simplify_map_eq |].
    destruct (requestWithPayment E "/v1/chat/completions" _ w) as [[resp | e | why] w'];
      cbn [fst snd] in *.
    + destruct (elems (Choices resp)) as [| choice rest] eqn:Hchoices; cbn [fst snd].
      * split; [done |]. split; [done |]. split.
        -- intros text. split; [done |].
           intros (resp' & choice & rest & [= <-] & Hel & _). congruence.
        -- done.
      * split; [done |]. split; [done |]. split.
        -- intros text. split.
           ++ intros [= <-]. by exists resp, choice, rest.
           ++ intros (resp' & choice' & rest' & [= <-] & Hel & ->). congruence.
        -- intros resp' [= <-] Hnil. congruence.
    + split; [done |]. split; [intros field message [= ->]; by apply (Hnever field message) |].
      split; [| done]. intros text. split; [done |]. by intros (? & ? & ? & ? & _).
    + split; [done |]. split; [done |].
      split; [| done]. intros text. split; [done |]. by intros (? & ? & ? & ? & _).
Qed.

(** The test double's server settles the payment and answers with a
    response that has no choice: the call reports the error, and the
    ledger shows the USDC paid. *)
Lemma ChatWithSystem_outcomes_witness :
  (ChatWithSystem settling_env "openai/gpt-4o-mini" "Hello" "Be brief"
     (fresh_world settling_env tt)).1 = Err (APIError 0 "No choices in response")
  ∧ GetSpending settling_env
      (client settling_env
         (ChatWithSystem settling_env "openai/gpt-4o-mini" "Hello" "Be brief"
            (fresh_world settling_env tt)).2)
    = {| TotalUSD := 1; Calls := 1 |}
  ∧ chat_body "openai/gpt-4o-mini" "Hello" "Be brief" !! "messages"
    = Some (AMessages [ {| Role := "system"; Content := "Be brief" |};
                        {| Role := "user"; Content := "Hello" |} ]).
Proof.
  destruct (ChatWithSystem_outcomes settling_env "openai/gpt-4o-mini" "Hello" "Be brief"
              (fresh_world settling_env tt)) as [_ Hmodel].
  destruct Hmodel as (Hmessages & _ & Hworld & _ & _ & Hnone); [discriminate |].
  split; [| split].
  - apply (Hnone demo_ChatResponse); [vm_compute; reflexivity | reflexivity].
  - rewrite Hworld. vm_compute. reflexivity.
  - rewrite Hmessages. reflexivity.
Defined.

(* ===================================================================== *)
(** * Listing the models *)
(* ===================================================================== *)

Section listings.
Context (E : Env) (D : Decoders).

Lemma Get_run prefix url (w : world E) :
  Get E prefix url w
  = match http_NewRequest_error E "GET" url with
    | Some e => (Err (Errorf prefix e), w)
    | None =>
        (wrap_err (Errorf prefix) (httpClient_Do E (trips E w) (get_request url)),
         after_request E w (get_request url))
    end.
Proof. unfold Get. by destruct (http_NewRequest_error E "GET" url). Qed.

Lemma ListModels_run (w : world E) :
  ListModels E D w
  = match http_NewRequest_error E "GET" (apiURL E (client E w) +:+ "/v1/models") with
    | Some e => (Err (Errorf "failed to list models: " e), w)
    | None =>
        (match httpClient_Do E (trips E w)
                 (get_request (apiURL E (client E w) +:+ "/v1/models")) with
         | Ok resp =>
             if decide (StatusCode resp ≠ StatusOK)
             then Err (APIError (StatusCode resp) "Failed to list models")
             else wrap_err (Errorf "failed to decode models response: ")
                    (json_Decode_Models D (Body resp))
         | Err e => Err (Errorf "failed to list models: " e)
         | Panic why => Panic why
         end,
         after_request E w (get_request (apiURL E (client E w) +:+ "/v1/models")))
    end.
Proof.
  unfold ListModels. rewrite run_bind. cbn beta iota. rewrite run_bind, Get_run.
  destruct (http_NewRequest_error E "GET" _); [done |].
  destruct (httpClient_Do E (trips E w) _) as [resp | e | why]; cbn [wrap_err];
    [| done | done].
  destruct (decide (StatusCode resp ≠ StatusOK)); [done |].
  rewrite run_lift_bind. by destruct (json_Decode_Models D (Body resp)).
Qed.

Lemma ListImageModels_run (w : world E) :
  ListImageModels E D w
  = match http_NewRequest_error E "GET" (apiURL E (client E w) +:+ "/v1/images/models") with
    | Some e => (Err (Errorf "failed to list image models: " e), w)
    | None =>
        (match httpClient_Do E (trips E w)
                 (get_request (apiURL E (client E w) +:+ "/v1/images/models")) with
         | Ok resp =>
             if decide (StatusCode resp ≠ StatusOK)
             then Err (APIError (StatusCode resp) "Failed to list image models")
             else wrap_err (Errorf "failed to decode image models response: ")
                    (json_Decode_ImageModels D (Body resp))
         | Err e => Err (Errorf "failed to list image models: " e)
         | Panic why => Panic why
         end,
         after_request E w (get_request (apiURL E (client E w) +:+ "/v1/images/models")))
    end.
Proof.
  unfold ListImageModels. rewrite run_bind. cbn beta iota. rewrite run_bind, Get_run.
  destruct (http_NewRequest_error E "GET" _); [done |].
  destruct (httpClient_Do E (trips E w) _) as [resp | e | why]; cbn [wrap_err];
    [| done | done].
  destruct (decide (StatusCode resp ≠ StatusOK)); [done |].
  rewrite run_lift_bind. by destruct (json_Decode_ImageModels D (Body resp)).
Qed.

(** A run of the given shape is a plain GET. *)
Lemma plain_get_of_run {A} (w : world E) url failure prefix (decode : result A)
    (run : result A * world E) (answer : result Response) :
  answer = httpClient_Do E (trips E w) (get_request url) →
  run = match http_NewRequest_error E "GET" url with
        | Some e => (Err (Errorf prefix e), w)
        | None =>
            (match answer with
             | Ok resp =>
                 if decide (StatusCode resp ≠ StatusOK)
                 then Err (APIError (StatusCode resp) failure)
                 else decode
             | Err e => Err (Errorf prefix e)
             | Panic why => Panic why
             end,
             after_request E w (get_request url))
        end →
  plain_get E w url failure run.
Proof.
  intros Hanswer ->. unfold plain_get.
  destruct (http_NewRequest_error E "GET" url) as [e |]; cbn [fst snd].
  { split; [done |]. split; [by left |]. split; [| done].
    intros x resp Htrips. apply (f_equal length) in Htrips.
    rewrite length_app in Htrips. cbn in Htrips. lia. }
  cbn [after_request client trips]. rewrite <- Hanswer.
  split; [done |]. split; [right; by eexists |]. split.
  - intros x resp Htrips Hx Hstatus. apply app_inv_head in Htrips.
    injection Htrips as <-. cbn [snd] in Hx. rewrite Hx.
    by rewrite decide_True.
  - intros a Ha. destruct answer as [resp | e | why]; [| done | done].
    destruct (decide (StatusCode resp ≠ StatusOK)) as [| H200]; [done |].
    apply dec_stable in H200. by exists (get_request url, Ok resp), resp.
Qed.

Lemma foldl_snoc_fmap {A B} (f : A → B) (l : list A) (acc : list B) :
  foldl (λ all m, all ++ [f m]) acc l = acc ++ (f <$> l).
Proof.
  revert acc. induction l as [| a l IH]; intros acc; cbn [foldl fmap list_fmap].
  - by rewrite app_nil_r.
  - rewrite IH, <- app_assoc. done.
Qed.

End listings.

(** [ListModels] and [ListImageModels] never pay.  Each leaves the
    client, and so the spending ledger, as it was, and makes at most one
    request: a GET, without headers or body, of the API URL followed by
    [/v1/models] or [/v1/images/models].  Any answer but 200 is returned
    as an [APIError] with that status; this includes 402, for which no
    payment is signed and no second request is made.  A list is returned
    only for an answer 200. *)
Theorem listings_never_pay (E : Env) (D : Decoders) (w : world E) :
  plain_get E w (apiURL E (client E w) +:+ "/v1/models") "Failed to list models"
    (ListModels E D w)
  ∧ plain_get E w (apiURL E (client E w) +:+ "/v1/images/models")
      "Failed to list image models" (ListImageModels E D w).
Proof.
  split.
  - apply (plain_get_of_run E w _ _ "failed to list models: "
             (match httpClient_Do E (trips E w)
                      (get_request (apiURL E (client E w) +:+ "/v1/models")) with
              | Ok resp => wrap_err (Errorf "failed to decode models response: ")
                             (json_Decode_Models D (Body resp))
              | _ => Panic ""
              end) _ _ eq_refl).
    rewrite ListModels_run.
    destruct (http_NewRequest_error E "GET" _); [done |].
    by destruct (httpClient_Do E (trips E w) _).
  - apply (plain_get_of_run E w _ _ "failed to list image models: "
             (match httpClient_Do E (trips E w)
                      (get_request (apiURL E (client E w) +:+ "/v1/images/models")) with
              | Ok resp => wrap_err (Errorf "failed to decode image models response: ")
                             (json_Decode_ImageModels D (Body resp))
              | _ => Panic ""
              end) _ _ eq_refl).
    rewrite ListImageModels_run.
    destruct (http_NewRequest_error E "GET" _); [done |].
    by destruct (httpClient_Do E (trips E w) _).
Qed.

(** Asked for payment, [ListModels] reports status 402 after its one
    request. *)
Lemma listings_never_pay_witness :
  ∃ x,
    trips charging_env (ListModels charging_env demo_decoders (fresh_world charging_env tt)).2
    = [x]
    ∧ x.2 = Ok challenge_response
    ∧ (ListModels charging_env demo_decoders (fresh_world charging_env tt)).1
      = Err (APIError 402 "Failed to list models")
    ∧ GetSpending charging_env
        (client charging_env
           (ListModels charging_env demo_decoders (fresh_world charging_env tt)).2)
      = {| TotalUSD := 0; Calls := 0 |}.
Proof.
  destruct (listings_never_pay charging_env demo_decoders (fresh_world charging_env tt))
    as [(Hclient & _ & Hstatus & _) _].
  assert (Hrun : ∃ x,
    trips charging_env (ListModels charging_env demo_decoders (fresh_world charging_env tt)).2
    = [x] ∧ x.2 = Ok challenge_response)
    by (eexists; split; [vm_compute; reflexivity | vm_compute; reflexivity]).
  destruct Hrun as (x & Htrips & Hx). exists x.
  split; [exact Htrips |]. split; [exact Hx |].
  split; [exact (Hstatus x challenge_response Htrips Hx ltac:(discriminate)) |].
  rewrite Hclient. reflexivity.
Defined.

(* ===================================================================== *)
(** * The unified list *)
(* ===================================================================== *)

Lemma ListAllModels_run (E : Env) (D : Decoders) (w : world E) :
  ListAllModels E D w
  = match ListModels E D w with
    | (Ok llm, w1) =>
        match ListImageModels E D w1 with
        | (Ok image, w2) =>
            (Ok (Some ((AllModel_of_llm <$> elems llm)
                       ++ (AllModel_of_image <$> elems image))), w2)
        | (Err e, w2) => (Err (Errorf "failed to list image models: " e), w2)
        | (Panic why, w2) => (Panic why, w2)
        end
    | (Err e, w1) => (Err (Errorf "failed to list LLM models: " e), w1)
    | (Panic why, w1) => (Panic why, w1)
    end.
Proof.
  unfold ListAllModels. rewrite run_bind. unfold wrapped at 1.
  destruct (ListModels E D w) as [[llm | e | why] w1]; cbn [fst snd wrap_err];
    [| done | done].
  rewrite run_bind. unfold wrapped at 1.
  destruct (ListImageModels E D w1) as [[image | e | why] w2]; cbn [fst snd wrap_err];
    [| done | done].
  by rewrite !foldl_snoc_fmap.
Qed.

(** [ListAllModels] asks for the LLM models and then for the image
    models, and returns the first list followed by the second, each in
    the order received: as many entries as both lists together, those of
    the first tagged "llm" and those of the second "image".  It leaves the
    client as it was.  When the first listing fails it returns that
    error behind "failed to list LLM models: " and does not ask for the
    image models. *)
Theorem ListAllModels_combines (E : Env) (D : Decoders) (w : world E) :
  (∀ all, (ListAllModels E D w).1 = Ok all →
     ∃ llm image resp1 resp2,
       trips E (ListAllModels E D w).2
       = trips E w ++ [ (get_request (apiURL E (client E w) +:+ "/v1/models"), Ok resp1);
                        (get_request (apiURL E (client E w) +:+ "/v1/images/models"),
                         Ok resp2) ]
       ∧ json_Decode_Models D (Body resp1) = Ok llm
       ∧ json_Decode_ImageModels D (Body resp2) = Ok image
       ∧ all = Some ((AllModel_of_llm <$> elems llm)
                     ++ (AllModel_of_image <$> elems image))
       ∧ length (elems all) = (length (elems llm) + length (elems image))%nat
       ∧ (∀ i m, elems llm !! i = Some m →
            ∃ a, elems all !! i = Some a ∧ All_Type a = "llm" ∧ All_ID a = LLM_ID m)
       ∧ (∀ i m, elems image !! i = Some m →
            ∃ a, elems all !! (length (elems llm) + i)%nat = Some a
                 ∧ All_Type a = "image" ∧ All_ID a = Image_ID m)
       ∧ client E (ListAllModels E D w).2 = client E w)
  ∧ (∀ e, (ListModels E D w).1 = Err e →
       ListAllModels E D w
       = (Err (errorString ("failed to list LLM models: " +:+ Error e)),
          (ListModels E D w).2)).
Proof.
  rewrite ListAllModels_run. split.
  - intros all. rewrite ListModels_run.
    destruct (http_NewRequest_error E "GET" (apiURL E (client E w) +:+ "/v1/models"));
      [done |].
    destruct (httpClient_Do E (trips E w) _) as [resp1 | e | why] eqn:Hdo1;
      [| done | done].
    destruct (decide (StatusCode resp1 ≠ StatusOK)); [done |].
    destruct (json_Decode_Models D (Body resp1)) as [llm | e | why] eqn:Hllm;
      cbn [wrap_err]; [| done | done].
    rewrite ListImageModels_run. cbn [after_request client trips].
    destruct (http_NewRequest_error E "GET"
                (apiURL E (client E w) +:+ "/v1/images/models")); [done |].
    destruct (httpClient_Do E _ (get_request (apiURL E (client E w) +:+ "/v1/images/models")))
      as [resp2 | e | why] eqn:Hdo2; [| done | done].
    destruct (decide (StatusCode resp2 ≠ StatusOK)); [done |].
    destruct (json_Decode_ImageModels D (Body resp2)) as [image | e | why] eqn:Himage;
      cbn [wrap_err]; [| done | done].
    cbn [fst snd trips client]. intros [= <-].
    exists llm, image, resp1, resp2.
    split.
    { cbn [after_request trips client] in Hdo2 |- *.
      rewrite ?Hdo1 in Hdo2. rewrite ?Hdo1. rewrite Hdo2, <- app_assoc. done. }
    split; [done |]. split; [done |].
    split; [done |].
    change (elems (Some ((AllModel_of_llm <$> elems llm)
                         ++ (AllModel_of_image <$> elems image))))
      with ((AllModel_of_llm <$> elems llm) ++ (AllModel_of_image <$> elems image)).
    split; [by rewrite length_app, !length_fmap |].
    split; [| split; [| done]].
    + intros i m Hi. exists (AllModel_of_llm m).
      rewrite lookup_app_l by (rewrite length_fmap; by eapply lookup_lt_Some).
      by rewrite list_lookup_fmap, Hi.
    + intros i m Hi. exists (AllModel_of_image m).
      rewrite lookup_app_r by (rewrite length_fmap; lia).
      rewrite length_fmap.
      replace (length (elems llm) + i - length (elems llm))%nat with i by lia.
      by rewrite list_lookup_fmap, Hi.
  - intros e He. destruct (ListModels E D w) as [[llm | e' | why] w1]; cbn [fst snd] in *;
      [done | | done].
    by injection He as ->.
Qed.

(** The two listings of the tests: one entry "llm" more than the image
    list has entries, after two GETs. *)
Lemma ListAllModels_combines_witness :
  ∃ all,
    (ListAllModels listing_env demo_decoders (fresh_world listing_env tt)).1 = Ok all
    ∧ length (elems all) = 3%nat
    ∧ All_Type <$> elems all = ["llm"; "llm"; "image"]
    ∧ All_ID <$> elems all
      = ["openai/gpt-4o"; "anthropic/claude-sonnet-4"; "google/nano-banana"]
    ∧ length (trips listing_env
                (ListAllModels listing_env demo_decoders (fresh_world listing_env tt)).2)
      = 2%nat.
Proof.
  destruct (ListAllModels_combines listing_env demo_decoders (fresh_world listing_env tt))
    as [Hok _].
  assert (Hrun : ∃ all,
    (ListAllModels listing_env demo_decoders (fresh_world listing_env tt)).1 = Ok all)
    by (eexists; vm_compute; reflexivity).
  destruct Hrun as [all Hrun]. exists all. split; [exact Hrun |].
  destruct (Hok all Hrun)
    as (llm & image & resp1 & resp2 & Htrips & Hllm & Himage & -> & Hlen & _).
  cbn in Hllm, Himage. injection Hllm as <-. injection Himage as <-.
  split; [exact Hlen |]. split; [reflexivity |]. split; [reflexivity |].
  rewrite Htrips. reflexivity.
Defined.

(* ===================================================================== *)
(** * Proofs: regular expressions *)
(* ===================================================================== *)

Lemma string_app_nil_r (s : string) : s +:+ "" = s.
Proof. induction s as [| c s IH]; [done |]. by rewrite string_app_cons, IH. Qed.

Lemma string_app_eq_nil (x y : string) : x +:+ y = "" → x = "" ∧ y = "".
Proof. destruct x; [done |]. by rewrite string_app_cons. Qed.

Lemma string_app_eq_cons c (s x y : string) :
  String c s = x +:+ y →
  (x = "" ∧ y = String c s) ∨ ∃ x', x = String c x' ∧ s = x' +:+ y.
Proof.
  destruct x as [| c' x'].
  - rewrite string_app_nil_l. intros <-. by left.
  - rewrite string_app_cons. intros [= <- ->]. right. by exists x'.
Qed.

Lemma string_length_app (x y : string) :
  String.length (x +:+ y) = (String.length x + String.length y)%nat.
Proof.
  induction x as [| c x IH]; [done |].
  rewrite string_app_cons. cbn [String.length]. by rewrite IH.
Qed.

Lemma list_ascii_of_string_app (x y : string) :
  list_ascii_of_string (x +:+ y) = list_ascii_of_string x ++ list_ascii_of_string y.
Proof.
  induction x as [| c x IH]; [done |].
  rewrite string_app_cons. cbn [list_ascii_of_string app]. by rewrite IH.
Qed.

Module regexp_facts.
Import regexp.

Lemma nullable_lang r : nullable r = true ↔ lang r "".
Proof.
  induction r as [| | p | r1 IH1 r2 IH2 | r1 IH1 r2 IH2 | r IH]; cbn [nullable lang].
  - done.
  - done.
  - split; [done |]. by intros (c & ? & _).
  - rewrite andb_true_iff, IH1, IH2. split.
    + intros [H1 H2]. by exists "", "".
    + intros (x & y & Hxy & H1 & H2). symmetry in Hxy.
      apply string_app_eq_nil in Hxy as [-> ->]. done.
  - by rewrite orb_true_iff, IH1, IH2.
  - split; [intros _; constructor | done].
Qed.

Lemma deriv_lang c r s : lang (deriv c r) s ↔ lang r (String c s).
Proof.
  revert s. induction r as [| | p | r1 IH1 r2 IH2 | r1 IH1 r2 IH2 | r IH]; intros s;
    cbn [deriv lang].
  - done.
  - done.
  - destruct (p c) eqn:Hp; cbn [lang].
    + split; [intros ->; by exists c |]. by intros (c' & [= <- ->] & _).
    + split; [done |]. intros (c' & [= <- ->] & Hp'). congruence.
  - assert (Hcat :
      (∃ x y, s = x +:+ y ∧ lang (deriv c r1) x ∧ lang r2 y)
      ↔ ∃ x y, String c s = String c x +:+ y ∧ lang r1 (String c x) ∧ lang r2 y).
    { split; intros (x & y & Hs & H1 & H2); exists x, y.
      - rewrite string_app_cons, <- Hs. by rewrite <- IH1.
      - rewrite string_app_cons in Hs. injection Hs as ->. by rewrite IH1. }
    destruct (nullable r1) eqn:Hnull; cbn [lang]; rewrite Hcat.
    + rewrite IH2. split.
      * intros [(x & y & Hs & H1 & H2) | H2]; [by exists (String c x), y |].
        exists "", (String c s). split; [done |]. split; [| done].
        by apply nullable_lang.
      * intros (x & y & Hs & H1 & H2).
        apply string_app_eq_cons in Hs as [[-> ->] | (x' & -> & ->)]; [by right |].
        left. by exists x', y.
    + split.
      * intros (x & y & Hs & H1 & H2). by exists (String c x), y.
      * intros (x & y & Hs & H1 & H2).
        apply string_app_eq_cons in Hs as [[-> ->] | (x' & -> & ->)].
        -- apply nullable_lang in H1. congruence.
        -- by exists x', y.
  - by rewrite IH1, IH2.
  - split.
    + intros (x & y & -> & H1 & H2). apply IH in H1.
      rewrite <- string_app_cons. by constructor.
    + intros Hstar. remember (String c s) as t eqn:Ht. revert s Ht.
      induction Hstar as [| x y Hx Hy IHy]; intros s Ht; [done |].
      symmetry in Ht. apply string_app_eq_cons in Ht as [[-> ->] | (x' & -> & ->)].
      * by apply IHy.
      * exists x', y. split; [done |]. split; [by apply IH | done].
Qed.

(** The matcher decides the language. *)
Lemma MatchString_lang r s : MatchString r s = true ↔ lang r s.
Proof.
  revert r. induction s as [| c s IH]; intros r; cbn [MatchString].
  - apply nullable_lang.
  - by rewrite IH, deriv_lang.
Qed.

Lemma lang_Lit t s : lang (Lit t) s ↔ s = t.
Proof.
  revert s. induction t as [| c t IH]; intros s; cbn [Lit lang]; [done |].
  split.
  - intros (x & y & -> & (c' & -> & Hc) & Hy). apply Ascii.eqb_eq in Hc as <-.
    apply IH in Hy as ->. done.
  - intros ->. exists (String c ""), t. split; [done |].
    split; [exists c; by rewrite Ascii.eqb_refl | by apply IH].
Qed.

Lemma lang_Opt r s : lang (Opt r) s ↔ s = "" ∨ lang r s.
Proof. done. Qed.

Lemma lang_Repeat_Class n p s :
  lang (Repeat n (Class p)) s
  ↔ String.length s = n ∧ forallb p (list_ascii_of_string s) = true.
Proof.
  revert s. induction n as [| n IH]; intros s; cbn [Repeat lang].
  - split; [by intros -> | intros [Hlen _]; by destruct s].
  - split.
    + intros (x & y & -> & (c & -> & Hc) & Hy). apply IH in Hy as [<- Hall].
      rewrite string_app_cons, string_app_nil_l.
      cbn [String.length list_ascii_of_string forallb]. by rewrite Hc, Hall.
    + intros [Hlen Hall]. destruct s as [| c s]; [done |].
      cbn [String.length list_ascii_of_string forallb] in Hlen, Hall.
      apply andb_true_iff in Hall as [Hc Hall].
      exists (String c ""), s. split; [done |]. split; [by exists c |].
      apply IH. split; [lia | done].
Qed.

Lemma lang_Star_Class p s :
  star (lang (Class p)) s ↔ forallb p (list_ascii_of_string s) = true.
Proof.
  split.
  - induction 1 as [| x y (c & -> & Hc) _ IH]; [done |].
    rewrite string_app_cons, string_app_nil_l.
    cbn [list_ascii_of_string forallb]. by rewrite Hc, IH.
  - induction s as [| c s IH]; [constructor |].
    cbn [list_ascii_of_string forallb]. intros [Hc Hall]%andb_true_iff.
    change (String c s) with (String c "" +:+ s).
    constructor; [by exists c | by apply IH].
Qed.

Lemma lang_Plus_Class p s :
  lang (Plus (Class p)) s ↔ s ≠ "" ∧ forallb p (list_ascii_of_string s) = true.
Proof.
  unfold Plus. cbn [lang]. split.
  - intros (x & y & -> & (c & -> & Hc) & Hy). apply lang_Star_Class in Hy.
    rewrite string_app_cons, string_app_nil_l. split; [done |].
    cbn [list_ascii_of_string forallb]. by rewrite Hc, Hy.
  - intros [Hne Hall]. destruct s as [| c s]; [done |].
    cbn [list_ascii_of_string forallb] in Hall. apply andb_true_iff in Hall as [Hc Hall].
    exists (String c ""), s. split; [done |]. split; [by exists c |].
    by apply lang_Star_Class.
Qed.

End regexp_facts.

(* ===================================================================== *)
(** * Proofs: strings *)
(* ===================================================================== *)

Lemma CutPrefix_app (prefix s : string) : strings.CutPrefix (prefix +:+ s) prefix = Some s.
Proof.
  induction prefix as [| c prefix IH]; [by destruct s |].
  rewrite string_app_cons. cbn [strings.CutPrefix]. by rewrite Ascii.eqb_refl.
Qed.

Lemma CutPrefix_Some (s prefix rest : string) :
  strings.CutPrefix s prefix = Some rest → s = prefix +:+ rest.
Proof.
  revert s. induction prefix as [| c prefix IH]; intros s.
  - destruct s; by intros [= <-].
  - destruct s as [| c' s]; [done |]. cbn [strings.CutPrefix].
    destruct (Ascii.eqb_spec c c') as [<- |]; [| done].
    intros H. apply IH in H as ->. by rewrite string_app_cons.
Qed.

Lemma TrimPrefix_app (prefix s : string) : strings.TrimPrefix (prefix +:+ s) prefix = s.
Proof. unfold strings.TrimPrefix. by rewrite CutPrefix_app. Qed.

(** A key of 64 hexadecimal digits does not start with ["0x"]. *)
Lemma TrimPrefix_hex_key digits : is_hex_key digits → strings.TrimPrefix digits "0x" = digits.
Proof.
  intros [Hlen Hall]. unfold strings.TrimPrefix.
  destruct digits as [| a [| b rest]]; [done | done |].
  cbn [strings.CutPrefix].
  destruct (Ascii.eqb "0" a); [| done].
  destruct (Ascii.eqb_spec "x" b) as [<- |]; [| done].
  cbn [list_ascii_of_string forallb] in Hall.
  apply andb_true_iff in Hall as [_ Hall]. apply andb_true_iff in Hall as [Hx _].
  vm_compute in Hx. discriminate Hx.
Qed.

(* ===================================================================== *)
(** * The key and the model that pass validation *)
(* ===================================================================== *)

Lemma privateKeyRegex_lang key :
  regexp.MatchString privateKeyRegex key = true
  ↔ ∃ digits, is_hex_key digits ∧ (key = digits ∨ key = "0x" +:+ digits).
Proof.
  rewrite regexp_facts.MatchString_lang. unfold privateKeyRegex, is_hex_key.
  cbn [regexp.lang]. split.
  - intros (x & y & -> & Hx & Hy).
    apply regexp_facts.lang_Repeat_Class in Hy. exists y. split; [done |].
    destruct Hx as [-> | Hx]; [by left |].
    apply regexp_facts.lang_Lit in Hx as ->. by right.
  - intros (digits & Hdigits & [-> | ->]).
    + exists "", digits. split; [done |]. split; [by left |].
      by apply regexp_facts.lang_Repeat_Class.
    + exists "0x", digits. split; [done |].
      split; [right; by apply regexp_facts.lang_Lit |].
      by apply regexp_facts.lang_Repeat_Class.
Qed.

Lemma ValidatePrivateKey_None key :
  ValidatePrivateKey key = None
  ↔ ∃ digits, is_hex_key digits ∧ (key = digits ∨ key = "0x" +:+ digits).
Proof.
  unfold ValidatePrivateKey. rewrite <- privateKeyRegex_lang.
  destruct (decide (key = "")) as [-> |]; [done |].
  by destruct (regexp.MatchString privateKeyRegex key).
Qed.

(** [ValidatePrivateKey] accepts exactly the keys made of 64 hexadecimal
    digits of either case, alone or after ["0x"]: nothing before, after or
    between, so no surrounding white space and no ["0X"].  What
    [strings.TrimPrefix(key, "0x")], the first step of every function that
    parses a key, leaves of an accepted key is its 64 digits.  The empty
    key is refused with "Private key is required", any other refused key
    with the message on the format. *)
Theorem ValidatePrivateKey_accepts key :
  (ValidatePrivateKey key = None
   ↔ ∃ digits, is_hex_key digits ∧ (key = digits ∨ key = "0x" +:+ digits))
  ∧ (ValidatePrivateKey key = None → is_hex_key (strings.TrimPrefix key "0x"))
  ∧ (∀ e, ValidatePrivateKey key = Some e →
          e = ValidationError "privateKey"
                (if decide (key = "") then "Private key is required"
                 else "Private key must be a 64-character hex string (with optional 0x prefix)")).
Proof.
  pose proof (ValidatePrivateKey_None key) as Hiff.
  split; [exact Hiff |]. split.
  - intros H. apply Hiff in H as (digits & Hdigits & [-> | ->]).
    + by rewrite TrimPrefix_hex_key.
    + by rewrite TrimPrefix_app.
  - unfold ValidatePrivateKey. intros e.
    destruct (decide (key = "")); [by intros [= <-] |].
    destruct (regexp.MatchString privateKeyRegex key); [done | by intros [= <-]].
Qed.

(** The key of the tests passes, with its prefix and without; cut short
    it does not. *)
Lemma ValidatePrivateKey_accepts_witness :
  ValidatePrivateKey "0xac0974bec39a17e36ba4a6b4d238ff944bacb478cbed5efcae784d7bf4f2ff80"
  = None
  ∧ is_hex_key
      (strings.TrimPrefix
         "0xac0974bec39a17e36ba4a6b4d238ff944bacb478cbed5efcae784d7bf4f2ff80" "0x")
  ∧ ValidatePrivateKey "0xac0974bec39a17e36ba4a6b4d238ff944bacb478cbed5efcae784d7bf4f2ff8"
    = Some (ValidationError "privateKey"
              "Private key must be a 64-character hex string (with optional 0x prefix)").
Proof.
  destruct (ValidatePrivateKey_accepts
              "0xac0974bec39a17e36ba4a6b4d238ff944bacb478cbed5efcae784d7bf4f2ff80")
    as (Hiff & Htrim & _).
  assert (Hok : ValidatePrivateKey
                  "0xac0974bec39a17e36ba4a6b4d238ff944bacb478cbed5efcae784d7bf4f2ff80"
                = None).
  { apply Hiff.
    exists "ac0974bec39a17e36ba4a6b4d238ff944bacb478cbed5efcae784d7bf4f2ff80".
    split; [split; reflexivity | by right]. }
  split; [exact Hok |]. split; [exact (Htrim Hok) |].
  destruct (ValidatePrivateKey_accepts
              "0xac0974bec39a17e36ba4a6b4d238ff944bacb478cbed5efcae784d7bf4f2ff8")
    as (_ & _ & Herr).
  destruct (ValidatePrivateKey
              "0xac0974bec39a17e36ba4a6b4d238ff944bacb478cbed5efcae784d7bf4f2ff8")
    as [e |] eqn:Hshort; [| vm_compute in Hshort; discriminate Hshort].
  by rewrite (Herr e eq_refl).
Defined.

Lemma modelRegex_lang model :
  regexp.MatchString modelRegex model = true
  ↔ ∃ provider,
      provider ≠ "" ∧ forallb provider_class (list_ascii_of_string provider) = true
      ∧ (model = provider
         ∨ ∃ name, name ≠ ""
                   ∧ forallb name_class (list_ascii_of_string name) = true
                   ∧ model = provider +:+ "/" +:+ name).
Proof.
  rewrite regexp_facts.MatchString_lang. unfold modelRegex.
  change (regexp.lang (regexp.Cat ?r1 ?r2) model)
    with (∃ x y, model = x +:+ y ∧ regexp.lang r1 x ∧ regexp.lang r2 y).
  split.
  - intros (x & y & -> & Hx & Hy).
    apply regexp_facts.lang_Plus_Class in Hx as [Hne Hall].
    exists x. split; [done |]. split; [done |].
    apply regexp_facts.lang_Opt in Hy as [-> | Hy];
      [left; by rewrite string_app_nil_r |].
    destruct Hy as (slash & name & -> & Hslash & Hname).
    apply regexp_facts.lang_Lit in Hslash as ->.
    apply regexp_facts.lang_Plus_Class in Hname as [Hne' Hall'].
    right. by exists name.
  - intros (provider & Hne & Hall & [-> | (name & Hne' & Hall' & ->)]).
    + exists provider, "". split; [by rewrite string_app_nil_r |].
      split; [by apply regexp_facts.lang_Plus_Class | by left].
    + exists provider, ("/" +:+ name). split; [done |].
      split; [by apply regexp_facts.lang_Plus_Class |].
      right. exists "/", name. split; [done |].
      split; [by apply regexp_facts.lang_Lit | by apply regexp_facts.lang_Plus_Class].
Qed.

(** [ValidateModel] accepts exactly the names made of a provider, one or
    more letters, digits, [_] or [-], alone or followed by one [/] and one
    or more letters, digits, [.], [_] or [-]: so no space, no second
    slash, and no dot before the slash.  The empty model is refused with
    "Model is required", any other refused model with the message on the
    format. *)
Theorem ValidateModel_accepts model :
  (ValidateModel model = None
   ↔ ∃ provider,
       provider ≠ "" ∧ forallb provider_class (list_ascii_of_string provider) = true
       ∧ (model = provider
          ∨ ∃ name, name ≠ ""
                    ∧ forallb name_class (list_ascii_of_string name) = true
                    ∧ model = provider +:+ "/" +:+ name))
  ∧ (∀ e, ValidateModel model = Some e →
          e = ValidationError "model"
                (if decide (model = "") then "Model is required"
                 else "Invalid model format. Expected format: 'provider/model' or 'model-name'")).
Proof.
  split.
  - unfold ValidateModel. rewrite <- modelRegex_lang.
    destruct (decide (model = "")) as [-> |]; [done |].
    by destruct (regexp.MatchString modelRegex model).
  - unfold ValidateModel. intros e.
    destruct (decide (model = "")); [by intros [= <-] |].
    destruct (regexp.MatchString modelRegex model); [done | by intros [= <-]].
Qed.

(** The model of the tests passes; a model with two slashes does not. *)
Lemma ValidateModel_accepts_witness :
  ValidateModel "openai/gpt-4o" = None
  ∧ ValidateModel "meta/llama/3" ≠ None.
Proof.
  split.
  - apply (ValidateModel_accepts "openai/gpt-4o").
    exists "openai". split; [done |]. split; [reflexivity |].
    right. exists "gpt-4o". split; [done |]. split; reflexivity.
  - vm_compute. discriminate.
Defined.

(* ===================================================================== *)
(** * Proofs: comparing floats *)
(* ===================================================================== *)

Lemma SFcompare_antisym x y :
  SFcompare y x = option_map CompOpp (SFcompare x y).
Proof.
  destruct x as [sx | sx | | sx mx ex], y as [sy | sy | | sy my ey]; cbn;
    try reflexivity; try (by destruct sx); try (by destruct sy);
    try (by destruct sx, sy).
  destruct sx, sy; cbn; try reflexivity.
  - rewrite (Z.compare_antisym ex ey). destruct (ex ?= ey)%Z; cbn; try reflexivity.
    rewrite CompOpp_involutive, Pos.compare_cont_antisym. reflexivity.
  - rewrite (Z.compare_antisym ex ey). destruct (ex ?= ey)%Z; cbn; try reflexivity.
    rewrite Pos.compare_cont_antisym. reflexivity.
Qed.

Lemma SFcompare_refl x : SFcompare x x = None ∨ SFcompare x x = Some Eq.
Proof.
  destruct x as [s | s | | s m e]; cbn; [by right | | by left |].
  - right. by destruct s.
  - right. destruct s; rewrite Z.compare_refl, Pos.compare_cont_refl; reflexivity.
Qed.

Lemma is_nan_SFcompare x y :
  SFcompare (Prim2SF x) (Prim2SF y) = None →
  PrimFloat.is_nan x = true ∨ PrimFloat.is_nan y = true.
Proof.
  unfold PrimFloat.is_nan. rewrite !FloatAxioms.eqb_spec. unfold SFeqb.
  destruct (Prim2SF x) as [sx | sx | | sx mx ex] eqn:Hx;
    destruct (Prim2SF y) as [sy | sy | | sy my ey] eqn:Hy; cbn;
    try discriminate; try (by left); try (by right).
Qed.

Lemma is_nan_compare x y :
  PrimFloat.is_nan x = true → SFcompare (Prim2SF x) (Prim2SF y) = None
                              ∧ SFcompare (Prim2SF y) (Prim2SF x) = None.
Proof.
  unfold PrimFloat.is_nan. rewrite FloatAxioms.eqb_spec. unfold SFeqb.
  destruct (SFcompare_refl (Prim2SF x)) as [Hrefl | Hrefl]; rewrite Hrefl; [| done].
  intros _. destruct (Prim2SF x) as [sx | sx | | sx mx ex];
    [by destruct sx | by destruct sx | | ].
  - split; [done |]. by destruct (Prim2SF y).
  - cbn in Hrefl. discriminate Hrefl.
Qed.

(** [x < y] is false exactly when one of them is not a number or
    [y <= x]. *)
Lemma ltb_false_iff x y :
  PrimFloat.ltb x y = false
  ↔ PrimFloat.is_nan x = true ∨ PrimFloat.is_nan y = true ∨ PrimFloat.leb y x = true.
Proof.
  rewrite FloatAxioms.ltb_spec, FloatAxioms.leb_spec. unfold SFltb, SFleb.
  rewrite (SFcompare_antisym (Prim2SF x) (Prim2SF y)). split.
  - destruct (SFcompare (Prim2SF x) (Prim2SF y)) as [[] |] eqn:Hc; cbn;
      [by right; right | done | by right; right |].
    intros _. apply is_nan_SFcompare in Hc as [? | ?]; [by left | by right; left].
  - intros [Hnan | [Hnan | Hle]].
    + apply (is_nan_compare x y) in Hnan as [-> _]. done.
    + apply (is_nan_compare y x) in Hnan as [_ ->]. done.
    + by destruct (SFcompare (Prim2SF x) (Prim2SF y)) as [[] |].
Qed.

(* ===================================================================== *)
(** * The numbers that pass validation *)
(* ===================================================================== *)

(** [ValidateMaxTokens] accepts the integers from 0 to 1,000,000.
    [ValidateTemperature] accepts the numbers from 0 to 2 and
    [ValidateTopP] those from 0 to 1, both bounds included, and each also
    accepts the value that is not a number (both comparisons of the code
    are false for it). *)
Theorem numeric_validators_accept :
  (∀ n, ValidateMaxTokens n = None ↔ 0 ≤ n ≤ 1000000)
  ∧ (∀ t, ValidateTemperature t = None
          ↔ PrimFloat.is_nan t = true
            ∨ (PrimFloat.leb 0 t = true ∧ PrimFloat.leb t 2 = true))
  ∧ (∀ p, ValidateTopP p = None
          ↔ PrimFloat.is_nan p = true
            ∨ (PrimFloat.leb 0 p = true ∧ PrimFloat.leb p 1 = true)).
Proof.
  assert (Hbounds : ∀ lo hi t,
    PrimFloat.is_nan lo = false → PrimFloat.is_nan hi = false →
    (PrimFloat.ltb t lo = false ∧ PrimFloat.ltb hi t = false)
    ↔ PrimFloat.is_nan t = true
      ∨ (PrimFloat.leb lo t = true ∧ PrimFloat.leb t hi = true)).
  { intros lo hi t Hlo Hhi. rewrite !ltb_false_iff, Hlo, Hhi. split.
    - intros [[? | [? | ?]] [? | [? | ?]]]; try done; try (by left). by right.
    - intros [? | [? ?]]; [split; [by left | by right; left] |].
      split; right; [by right | by right]. }
  split; [| split].
  - intros n. unfold ValidateMaxTokens.
    destruct (Z.ltb_spec n 0); [split; [done | lia] |].
    destruct (Z.ltb_spec 1000000 n); [split; [done | lia] |]. split; [lia | done].
  - intros t. rewrite <- (Hbounds 0%float 2%float t) by reflexivity.
    unfold ValidateTemperature.
    destruct (PrimFloat.ltb t 0); [split; [done | by intros [? _]] |].
    destruct (PrimFloat.ltb 2 t); [split; [done | by intros [_ ?]] |]. done.
  - intros p. rewrite <- (Hbounds 0%float 1%float p) by reflexivity.
    unfold ValidateTopP.
    destruct (PrimFloat.ltb p 0); [split; [done | by intros [? _]] |].
    destruct (PrimFloat.ltb 1 p); [split; [done | by intros [_ ?]] |]. done.
Qed.

(** The values of the tests, and the one that is not a number. *)
Lemma numeric_validators_accept_witness :
  ValidateTemperature 0.5 = None
  ∧ ValidateTemperature (-0.5) ≠ None
  ∧ ValidateTemperature PrimFloat.nan = None
  ∧ ValidateTopP PrimFloat.nan = None
  ∧ ValidateMaxTokens 0 = None.
Proof.
  destruct numeric_validators_accept as (Htokens & Htemp & Htop).
  split; [apply Htemp; right; split; reflexivity |].
  split; [vm_compute; discriminate |].
  split; [apply Htemp; left; reflexivity |].
  split; [apply Htop; left; reflexivity |].
  apply Htokens. lia.
Defined.

(* ===================================================================== *)
(** * Proofs: suffixes and the URL validators *)
(* ===================================================================== *)

Lemma string_of_list_ascii_app (l1 l2 : list ascii) :
  string_of_list_ascii (l1 ++ l2) = string_of_list_ascii l1 +:+ string_of_list_ascii l2.
Proof.
  induction l1 as [| c l1 IH]; [by rewrite string_app_nil_l |].
  cbn [app string_of_list_ascii]. by rewrite string_app_cons, IH.
Qed.

Lemma string_length_chars (s : string) :
  String.length s = length (list_ascii_of_string s).
Proof. induction s as [| c s IH]; [done |]. cbn. by rewrite IH. Qed.

Lemma HasSuffix_app (s suffix : string) : strings.HasSuffix (s +:+ suffix) suffix = true.
Proof.
  unfold strings.HasSuffix. apply bool_decide_eq_true.
  rewrite list_ascii_of_string_app. by apply suffix_app_r.
Qed.

(** [strings.TrimSuffix] removes the suffix once when the text ends with
    it and leaves any other text alone. *)
Lemma TrimSuffix_spec (s suffix : string) :
  (strings.HasSuffix s suffix = true
   ∧ s = strings.TrimSuffix s suffix +:+ suffix)
  ∨ (strings.HasSuffix s suffix = false ∧ strings.TrimSuffix s suffix = s).
Proof.
  unfold strings.TrimSuffix.
  destruct (strings.HasSuffix s suffix) eqn:Hsuf; [left | by right].
  split; [done |].
  unfold strings.HasSuffix in Hsuf. apply bool_decide_eq_true in Hsuf as [k Hk].
  rewrite !string_length_chars, Hk, length_app.
  replace (length k + length (list_ascii_of_string suffix)
           - length (list_ascii_of_string suffix))%nat with (length k) by lia.
  rewrite take_app_length.
  rewrite <- (string_of_list_ascii_of_string s) at 1.
  by rewrite Hk, string_of_list_ascii_app, string_of_list_ascii_of_string.
Qed.

Lemma TrimSuffix_app (s suffix : string) : strings.TrimSuffix (s +:+ suffix) suffix = s.
Proof.
  unfold strings.TrimSuffix. rewrite HasSuffix_app.
  rewrite !string_length_chars, list_ascii_of_string_app, length_app.
  replace (length (list_ascii_of_string s) + length (list_ascii_of_string suffix)
           - length (list_ascii_of_string suffix))%nat
    with (length (list_ascii_of_string s)) by lia.
  by rewrite take_app_length, string_of_list_ascii_of_string.
Qed.

Section url_validators.
Context (url_Parse : string → result URL_).

(** For a resource URL that is not empty, [ValidateResourceURL] accepts
    exactly what [ValidateAPIURL] accepts: a text [url.Parse] reads with
    scheme [http] or [https].  It returns that text as given, or without
    its last character when that is a slash (one slash only), and its
    answer does not depend on the expected base: the host of the URL is
    not compared with anything.  Every error is a [ValidationError] on
    field [resourceURL]. *)
Theorem ValidateResourceURL_accepts resourceURL expectedBase :
  resourceURL ≠ "" →
  (is_Ok (ValidateResourceURL url_Parse resourceURL expectedBase)
   ↔ ValidateAPIURL url_Parse resourceURL = None)
  ∧ (∀ out, ValidateResourceURL url_Parse resourceURL expectedBase = Ok out →
            (strings.HasSuffix resourceURL "/" = true ∧ resourceURL = out +:+ "/")
            ∨ (strings.HasSuffix resourceURL "/" = false ∧ out = resourceURL))
  ∧ (∀ otherBase, ValidateResourceURL url_Parse resourceURL otherBase
                  = ValidateResourceURL url_Parse resourceURL expectedBase)
  ∧ (∀ e, ValidateResourceURL url_Parse resourceURL expectedBase = Err e →
          ∃ message, e = ValidationError "resourceURL" message)
  ∧ (∀ why, ValidateResourceURL url_Parse resourceURL expectedBase ≠ Panic why).
Proof.
  intros Hne. unfold ValidateResourceURL, ValidateAPIURL, is_Ok.
  destruct (decide (resourceURL = "")) as [? | _]; [done |].
  destruct (url_Parse resourceURL) as [parsed | err | why].
  - destruct (decide (URLScheme parsed ≠ "http" ∧ URLScheme parsed ≠ "https")).
    + repeat split; try done.
      * by intros [out [=]].
      * intros e [= <-]. by eexists.
    + repeat split; try done.
      * by eexists.
      * intros out [= <-].
        destruct (TrimSuffix_spec resourceURL "/") as [[? ?] | [? ?]]; [by left | by right].
  - repeat split; try done.
    + by intros [out [=]].
    + intros e [= <-]. by eexists.
  - repeat split; try done.
    + by intros [out [=]].
    + intros e [= <-]. by eexists.
Qed.

End url_validators.

(** A URL with a trailing slash loses it, whatever the expected base; a
    second slash stays. *)
Lemma ValidateResourceURL_accepts_witness :
  "https://other.example/v1/" ≠ ""
  ∧ ValidateResourceURL demo_url_Parse "https://other.example/v1/" "https://blockrun.ai/api"
    = Ok "https://other.example/v1"
  ∧ ValidateAPIURL demo_url_Parse "https://other.example/v1/" = None.
Proof.
  split; [done |].
  destruct (ValidateResourceURL_accepts demo_url_Parse
              "https://other.example/v1/" "https://blockrun.ai/api")
    as (Hiff & Hout & _); [done |].
  split; [reflexivity |].
  apply Hiff. by eexists.
Defined.

(* ===================================================================== *)
(** * Proofs: white space around a key *)
(* ===================================================================== *)

Lemma rev_app_app (s1 s2 acc : string) :
  String.rev_app (s1 +:+ s2) acc = String.rev_app s2 (String.rev_app s1 acc).
Proof.
  revert acc. induction s1 as [| c s1 IH]; intros acc; [by rewrite string_app_nil_l |].
  rewrite string_app_cons. cbn [String.rev_app]. by rewrite IH.
Qed.

Lemma rev_snoc (s : string) (c : ascii) :
  String.rev (s +:+ String c "") = String c (String.rev s).
Proof. unfold String.rev. by rewrite rev_app_app. Qed.

(** A text that is not empty has a last character. *)
Lemma string_snoc (c : ascii) (s : string) :
  ∃ init d, String c s = init +:+ String d ""
            ∧ d ∈ c :: list_ascii_of_string s.
Proof.
  revert c. induction s as [| c' s IH]; intros c.
  - exists "", c. split; [by rewrite string_app_nil_l | apply list_elem_of_here].
  - destruct (IH c') as (init & d & Heq & Hd).
    exists (String c init), d. split.
    + by rewrite string_app_cons, <- Heq.
    + by apply list_elem_of_further.
Qed.

Lemma cut_space_printable (c : ascii) (s : string) :
  printable c = true → cut_space (String c s) = None.
Proof.
  intros Hc.
  destruct c as [[] [] [] [] [] [] [] []];
    first [ by vm_compute in Hc | vm_compute; reflexivity ].
Qed.

Lemma cut_space_right_printable (s : string) (c : ascii) :
  printable c = true → cut_space_right (s +:+ String c "") = None.
Proof.
  intros Hc. unfold cut_space_right. rewrite rev_snoc.
  generalize (String.rev s). intros r.
  destruct c as [[] [] [] [] [] [] [] []];
    first [ by vm_compute in Hc | vm_compute; reflexivity ].
Qed.

Lemma trim_left_fixed fuel s : cut_space s = None → trim_left fuel s = s.
Proof. intros Hs. destruct fuel; [done |]. cbn [trim_left]. by rewrite Hs. Qed.

Lemma trim_right_fixed fuel s : cut_space_right s = None → trim_right fuel s = s.
Proof. intros Hs. destruct fuel; [done |]. cbn [trim_right]. by rewrite Hs. Qed.

(** [strings.TrimSpace] leaves alone a text of printing ASCII
    characters. *)
Lemma TrimSpace_printable (s : string) :
  forallb printable (list_ascii_of_string s) = true → TrimSpace s = s.
Proof.
  intros Hs. unfold TrimSpace.
  destruct s as [| c s]; [reflexivity |].
  assert (Hall : ∀ d, d ∈ c :: list_ascii_of_string s → printable d = true).
  { intros d Hd. rewrite forallb_forall in Hs. apply Hs.
    by apply list_elem_of_In. }
  rewrite trim_left_fixed.
  - destruct (string_snoc c s) as (init & d & Heq & Hd).
    rewrite trim_right_fixed; [done |].
    rewrite Heq. apply cut_space_right_printable. by apply Hall.
  - apply cut_space_printable. apply Hall. apply list_elem_of_here.
Qed.

Lemma hex_digit_lower_any n : is_lower_hex (hex_digit n) = true.
Proof.
  destruct (decide (0 ≤ n < 16)) as [Hn | Hn]; [by apply hex_digit_lower |].
  unfold hex_digit.
  destruct (decide (n < 0)) as [Hneg | Hpos].
  - replace (Z.to_nat n) with 0%nat by lia. reflexivity.
  - replace (Z.to_nat n) with (16 + (Z.to_nat n - 16))%nat by lia.
    reflexivity.
Qed.

Lemma lower_hex_classes c :
  is_lower_hex c = true → hex_class c = true ∧ printable c = true.
Proof.
  intros Hc.
  destruct c as [[] [] [] [] [] [] [] []];
    first [ by vm_compute in Hc | by vm_compute ].
Qed.

Lemma hex_class_printable c : hex_class c = true → printable c = true.
Proof.
  intros Hc.
  destruct c as [[] [] [] [] [] [] [] []];
    first [ by vm_compute in Hc | by vm_compute ].
Qed.

Lemma Bytes2Hex_classes d :
  forallb hex_class (list_ascii_of_string (Bytes2Hex d)) = true
  ∧ forallb printable (list_ascii_of_string (Bytes2Hex d)) = true.
Proof.
  induction d as [| b d [IH1 IH2]]; [done |].
  cbn [Bytes2Hex list_ascii_of_string forallb].
  destruct (lower_hex_classes _ (hex_digit_lower_any (Z.shiftr b 4))) as [-> ->].
  destruct (lower_hex_classes _ (hex_digit_lower_any (Z.land b 15))) as [-> ->].
  by rewrite IH1, IH2.
Qed.

(** A key as [CreateWallet] writes it survives [strings.TrimSpace]. *)
Lemma TrimSpace_created_key d : TrimSpace ("0x" +:+ Bytes2Hex d) = "0x" +:+ Bytes2Hex d.
Proof.
  apply TrimSpace_printable.
  rewrite !string_app_cons, string_app_nil_l. cbn [list_ascii_of_string forallb].
  destruct (Bytes2Hex_classes d) as [_ ->]. reflexivity.
Qed.

(** So does a key [ValidatePrivateKey] accepts. *)
Lemma TrimSpace_hex_key digits :
  is_hex_key digits →
  TrimSpace digits = digits ∧ TrimSpace ("0x" +:+ digits) = "0x" +:+ digits.
Proof.
  intros [_ Hall].
  assert (Hp : forallb printable (list_ascii_of_string digits) = true).
  { rewrite forallb_forall in *. intros c Hc. apply hex_class_printable. by apply Hall. }
  split; apply TrimSpace_printable; [done |].
  rewrite !string_app_cons, string_app_nil_l. cbn [list_ascii_of_string forallb].
  by rewrite Hp.
Qed.

(* ===================================================================== *)
(** * Proofs: the wallet file *)
(* ===================================================================== *)

Lemma key_in_file_insert (fs : files) (path data : string) :
  key_in_file (<[path := data]> fs) path
  = if String.eqb (TrimSpace data) "" then None else Some (TrimSpace data).
Proof.
  unfold key_in_file, os_ReadFile. rewrite lookup_insert_eq.
  by destruct (String.eqb (TrimSpace data) "").
Qed.

Lemma created_key_not_empty d : String.eqb ("0x" +:+ Bytes2Hex d) "" = false.
Proof. by rewrite !string_app_cons. Qed.

Section wallet_facts.
Context {E : Env} (H : Host E).

Lemma SaveWallet_Ok privateKey fs path fs' :
  SaveWallet H privateKey fs = (Ok path, fs') →
  path = WalletFile H ∧ fs' = <[WalletFile H := privateKey]> fs.
Proof.
  unfold SaveWallet, os_WriteFile.
  destruct (os_MkdirAll_error H fs (WalletDir H)); [done |].
  destruct (os_WriteFile_failure H fs (WalletFile H) privateKey) as [[err fs''] |]; [done |].
  by intros [= <- <-].
Qed.

Lemma LoadWallet_written fs data :
  TrimSpace data ≠ "" →
  LoadWallet H (<[WalletFile H := data]> fs) = Ok (TrimSpace data).
Proof.
  intros Hne. unfold LoadWallet. rewrite key_in_file_insert.
  apply String.eqb_neq in Hne. by rewrite Hne.
Qed.

Lemma wallet_fileKey_written fs data :
  TrimSpace data ≠ "" →
  wallet_fileKey H (<[WalletFile H := data]> fs) = TrimSpace data.
Proof. intros Hne. unfold wallet_fileKey. by rewrite LoadWallet_written. Qed.

(** What [SaveWallet] wrote, [LoadWallet] reads: the saved text without
    the white space around it, so a key that [ValidatePrivateKey] accepts
    comes back as it was saved.  [SaveWallet] writes the one file
    [WalletFile] and nothing else. *)
Theorem SaveWallet_LoadWallet privateKey fs path fs' :
  SaveWallet H privateKey fs = (Ok path, fs') →
  path = WalletFile H
  ∧ fs' = <[WalletFile H := privateKey]> fs
  ∧ (TrimSpace privateKey ≠ "" → LoadWallet H fs' = Ok (TrimSpace privateKey))
  ∧ (ValidatePrivateKey privateKey = None → LoadWallet H fs' = Ok privateKey).
Proof.
  intros Hsave. apply SaveWallet_Ok in Hsave as [-> ->].
  split; [done |]. split; [done |]. split.
  - apply LoadWallet_written.
  - intros Hvalid. apply ValidatePrivateKey_None in Hvalid as (digits & Hdigits & Hkey).
    assert (Htrim : TrimSpace privateKey = privateKey).
    { destruct (TrimSpace_hex_key digits Hdigits) as [H1 H2].
      by destruct Hkey as [-> | ->]. }
    rewrite <- Htrim at 2. apply LoadWallet_written. rewrite Htrim.
    destruct Hdigits as [Hlen _].
    destruct Hkey as [-> | ->]; [by destruct digits | by rewrite !string_app_cons].
Qed.

Lemma CreateWallet_Ok address privateKey :
  CreateWallet H = Ok (address, privateKey) →
  ∃ key, crypto_GenerateKey H = Ok key
         ∧ privateKey = "0x" +:+ Bytes2Hex (crypto_FromECDSA H key)
         ∧ address = PubkeyToAddress_Hex E key.
Proof.
  unfold CreateWallet.
  destruct (crypto_GenerateKey H) as [key | err | why]; [| done | done].
  cbn. intros [= <- <-]. by exists key.
Qed.

Lemma GetAddressFromKey_created key :
  crypto_HexToECDSA H (Bytes2Hex (crypto_FromECDSA H key)) = Ok key →
  GetAddressFromKey H ("0x" +:+ Bytes2Hex (crypto_FromECDSA H key))
  = Ok (PubkeyToAddress_Hex E key).
Proof.
  intros Hlaw. unfold GetAddressFromKey. by rewrite TrimPrefix_app, Hlaw.
Qed.

Lemma key_in_file_spec (fs : files) (path : string) :
  key_in_file fs path
  = (let key := default "" (TrimSpace <$> fs !! path) in
     if String.eqb key "" then None else Some key).
Proof.
  unfold key_in_file, os_ReadFile.
  destruct (fs !! path) as [data |]; cbn; [| done].
  by destruct (String.eqb (TrimSpace data) "").
Qed.

Lemma wallet_fileKey_spec fs :
  wallet_fileKey H fs = first_nonempty (drop 2 (wallet_candidates H fs)).
Proof.
  unfold wallet_fileKey, LoadWallet, wallet_candidates, first_nonempty.
  rewrite !key_in_file_spec. cbn [drop List.find].
  destruct (String.eqb (default "" (TrimSpace <$> fs !! WalletFile H)) ""); [| done].
  cbn [negb].
  by destruct (String.eqb
                 (default "" (TrimSpace <$> fs !! filepath_Join H (WalletDir H) "wallet.key"))
                 "").
Qed.

Lemma first_nonempty_wallet fs :
  first_nonempty (wallet_candidates H fs)
  = if String.eqb (wallet_envKey H) "" then wallet_fileKey H fs else wallet_envKey H.
Proof.
  rewrite wallet_fileKey_spec. unfold wallet_envKey, first_nonempty, wallet_candidates.
  cbn [drop List.find].
  destruct (String.eqb (os_Getenv H "BLOCKRUN_WALLET_KEY") "") eqn:H1; cbv iota; cbn [negb].
  - destruct (String.eqb (os_Getenv H "BASE_CHAIN_WALLET_KEY") "") eqn:H2; cbn [negb]; done.
  - by rewrite H1.
Qed.

Lemma first_nonempty_fileKey fs :
  String.eqb (wallet_envKey H) "" = true →
  String.eqb (first_nonempty (wallet_candidates H fs)) "" = String.eqb (wallet_fileKey H fs) "".
Proof. intros Henv. by rewrite first_nonempty_wallet, Henv. Qed.

(** [GetOrCreateWallet] follows its documented priority, and
    [GetWalletAddressFromEnvOrFile] follows the same one.  The key in use
    is the first that is not empty of: [BLOCKRUN_WALLET_KEY],
    [BASE_CHAIN_WALLET_KEY], the content of [.session], the content of
    [wallet.key], the files read without the white space around the key.
    When there is one, both functions answer from it alone and touch no
    file: if it does not parse, that is the error, and no later source is
    tried.  When there is none, [GetWalletAddressFromEnvOrFile] returns an
    empty address without error, and a wallet [GetOrCreateWallet] returns
    is a new one, whose key is then the content of [.session]. *)
Theorem GetOrCreateWallet_priority fs :
  let key := first_nonempty (wallet_candidates H fs) in
  (key ≠ "" →
     GetOrCreateWallet H fs
     = ((λ address, {| WalletPrivateKey := key; WalletAddress := address;
                       IsNew := false |}) <$> GetAddressFromKey H key, fs)
     ∧ GetWalletAddressFromEnvOrFile H fs = GetAddressFromKey H key)
  ∧ (key = "" →
     GetWalletAddressFromEnvOrFile H fs = Ok ""
     ∧ ∀ info fs', GetOrCreateWallet H fs = (Ok info, fs') →
         IsNew info = true
         ∧ CreateWallet H = Ok (WalletAddress info, WalletPrivateKey info)
         ∧ fs' = <[WalletFile H := WalletPrivateKey info]> fs).
Proof.
  intros key. subst key. rewrite first_nonempty_wallet.
  unfold GetOrCreateWallet, GetWalletAddressFromEnvOrFile.
  destruct (String.eqb (wallet_envKey H) "") eqn:Henv; cbn [negb].
  - destruct (String.eqb (wallet_fileKey H fs) "") eqn:Hfile; cbn [negb].
    + apply String.eqb_eq in Hfile. split; [done |]. intros _. split; [done |].
      intros info fs'.
      destruct (CreateWallet H) as [[address privateKey] | err | why]; [| done | done].
      destruct (SaveWallet H privateKey fs) as [[path | err | why] fs''] eqn:Hsave;
        [| done | done].
      intros [= <- <-]. apply SaveWallet_Ok in Hsave as [_ ->]. done.
    + apply String.eqb_neq in Hfile. split; [| done]. intros _.
      split; [| done].
      by destruct (GetAddressFromKey H (wallet_fileKey H fs)).
  - apply String.eqb_neq in Henv. split; [| done]. intros _.
    split; [| done].
    by destruct (GetAddressFromKey H (wallet_envKey H)).
Qed.

(** A wallet once returned is returned again: a second call of
    [GetOrCreateWallet], on the files the first one left, gives the same
    key and address, not new, and changes no file;
    [GetWalletAddressFromEnvOrFile] then gives that address.  For a wallet
    the first call created, this relies on [crypto.HexToECDSA] reading
    back the digits of [crypto.FromECDSA]. *)
Theorem GetOrCreateWallet_again fs info fs' :
  (∀ key, crypto_HexToECDSA H (Bytes2Hex (crypto_FromECDSA H key)) = Ok key) →
  GetOrCreateWallet H fs = (Ok info, fs') →
  GetOrCreateWallet H fs'
  = (Ok {| WalletPrivateKey := WalletPrivateKey info;
           WalletAddress := WalletAddress info; IsNew := false |}, fs')
  ∧ GetWalletAddressFromEnvOrFile H fs' = Ok (WalletAddress info)
  ∧ (IsNew info = false → fs' = fs).
Proof.
  intros Hlaw. unfold GetOrCreateWallet, GetWalletAddressFromEnvOrFile.
  destruct (String.eqb (wallet_envKey H) "") eqn:Henv; cbn [negb].
  - destruct (String.eqb (wallet_fileKey H fs) "") eqn:Hfile; cbn [negb].
    + destruct (CreateWallet H) as [[address privateKey] | err | why] eqn:Hcreate;
        [| done | done].
      apply CreateWallet_Ok in Hcreate as (key & Hgen & -> & ->).
      destruct (SaveWallet H _ fs) as [[path | err | why] fs''] eqn:Hsave; [| done | done].
      intros [= <- <-]. apply SaveWallet_Ok in Hsave as [_ ->].
      cbn [WalletPrivateKey WalletAddress IsNew].
      rewrite wallet_fileKey_written; rewrite TrimSpace_created_key;
        [| by rewrite !string_app_cons].
      rewrite created_key_not_empty. cbn [negb].
      rewrite GetAddressFromKey_created by apply Hlaw. done.
    + destruct (GetAddressFromKey H (wallet_fileKey H fs)) as [address | |] eqn:Haddr;
        [| done | done].
      cbn. intros [= <- <-]. cbn [WalletPrivateKey WalletAddress IsNew].
      by rewrite Hfile, Haddr.
  - destruct (GetAddressFromKey H (wallet_envKey H)) as [address | |] eqn:Haddr;
      [| done | done].
    cbn. intros [= <- <-]. done.
Qed.

(** Every digit [Bytes2Hex] writes is a lower-case one. *)
Lemma Bytes2Hex_lower_any d :
  forallb is_lower_hex (list_ascii_of_string (Bytes2Hex d)) = true.
Proof.
  induction d as [| b d IH]; [done |].
  cbn [Bytes2Hex list_ascii_of_string forallb].
  by rewrite !hex_digit_lower_any, IH.
Qed.

(** The key [CreateWallet] returns is ["0x"] and 64 lower-case
    hexadecimal digits, two for each of the 32 bytes of
    [crypto.FromECDSA]: [ValidatePrivateKey] accepts it, and when
    [crypto.HexToECDSA] reads those digits back, [GetAddressFromKey] gives
    for it the address [CreateWallet] returned with it. *)
Theorem CreateWallet_key_valid address privateKey :
  (∀ key, length (crypto_FromECDSA H key) = 32%nat) →
  CreateWallet H = Ok (address, privateKey) →
  ValidatePrivateKey privateKey = None
  ∧ String.length privateKey = 66%nat
  ∧ TrimSpace privateKey = privateKey
  ∧ ((∀ key, crypto_HexToECDSA H (Bytes2Hex (crypto_FromECDSA H key)) = Ok key) →
     GetAddressFromKey H privateKey = Ok address)
  ∧ ∃ digits,
      privateKey = "0x" +:+ digits
      ∧ String.length digits = 64%nat
      ∧ forallb is_lower_hex (list_ascii_of_string digits) = true.
Proof.
  intros Hlen Hcreate. apply CreateWallet_Ok in Hcreate as (key & Hgen & -> & ->).
  assert (Hkey : is_hex_key (Bytes2Hex (crypto_FromECDSA H key))).
  { split; [by rewrite Bytes2Hex_length, Hlen |]. apply Bytes2Hex_classes. }
  split; [| split; [| split; [| split]]].
  - apply ValidatePrivateKey_None. eexists. split; [exact Hkey |]. by right.
  - rewrite !string_app_cons, string_app_nil_l. cbn [String.length].
    by rewrite Bytes2Hex_length, Hlen.
  - apply TrimSpace_created_key.
  - intros Hlaw. by apply GetAddressFromKey_created.
  - exists (Bytes2Hex (crypto_FromECDSA H key)).
    split; [done |]. split; [by rewrite Bytes2Hex_length, Hlen |].
    apply Bytes2Hex_lower_any.
Qed.

End wallet_facts.

Lemma demo_host_reads_back env (key : PrivateKey (demo_env [] [])) :
  crypto_HexToECDSA (demo_host env) (Bytes2Hex (crypto_FromECDSA (demo_host env) key))
  = Ok key.
Proof. destruct key. vm_compute. reflexivity. Qed.

(** The key of the tests, saved in an empty home, is loaded as saved. *)
Lemma SaveWallet_LoadWallet_witness :
  SaveWallet (demo_host demo_home) demo_key ∅
  = (Ok demo_session, {[ demo_session := demo_key ]})
  ∧ LoadWallet (demo_host demo_home) {[ demo_session := demo_key ]} = Ok demo_key.
Proof.
  split; [reflexivity |].
  destruct (SaveWallet_LoadWallet (demo_host demo_home) demo_key ∅
              demo_session {[ demo_session := demo_key ]} eq_refl)
    as (_ & _ & _ & Hload).
  apply Hload. vm_compute. reflexivity.
Defined.

(** With a key in [BASE_CHAIN_WALLET_KEY] and another text in the session
    file, the wallet is the one of the environment, and the file stays. *)
Lemma GetOrCreateWallet_priority_witness :
  GetOrCreateWallet demo_keyed_host demo_stale_files
  = (Ok {| WalletPrivateKey := demo_key; WalletAddress := demo_address;
           IsNew := false |}, demo_stale_files)
  ∧ GetWalletAddressFromEnvOrFile demo_keyed_host demo_stale_files = Ok demo_address.
Proof.
  destruct (GetOrCreateWallet_priority demo_keyed_host demo_stale_files) as [Hkey _].
  destruct Hkey as [Hget Haddr]; [by vm_compute |].
  split; [rewrite Hget | rewrite Haddr]; reflexivity.
Defined.

(** In an empty home a wallet is created and its key saved; asked again,
    the same wallet is returned, no longer new. *)
Lemma GetOrCreateWallet_again_witness :
  GetOrCreateWallet (demo_host demo_home) ∅
  = (Ok {| WalletPrivateKey := demo_key; WalletAddress := demo_address;
           IsNew := true |}, {[ demo_session := demo_key ]})
  ∧ GetOrCreateWallet (demo_host demo_home) {[ demo_session := demo_key ]}
    = (Ok {| WalletPrivateKey := demo_key; WalletAddress := demo_address;
             IsNew := false |}, {[ demo_session := demo_key ]}).
Proof.
  assert (Hfirst : GetOrCreateWallet (demo_host demo_home) ∅
                   = (Ok {| WalletPrivateKey := demo_key; WalletAddress := demo_address;
                            IsNew := true |}, {[ demo_session := demo_key ]}))
    by reflexivity.
  split; [exact Hfirst |].
  destruct (GetOrCreateWallet_again (demo_host demo_home) ∅ _ _
              (demo_host_reads_back demo_home) Hfirst)
    as (Hagain & _ & _).
  exact Hagain.
Defined.

(** The wallet of the examples: its key passes validation. *)
Lemma CreateWallet_key_valid_witness :
  CreateWallet (demo_host demo_home) = Ok (demo_address, demo_key)
  ∧ ValidatePrivateKey demo_key = None
  ∧ GetAddressFromKey (demo_host demo_home) demo_key = Ok demo_address.
Proof.
  assert (Hcreate : CreateWallet (demo_host demo_home) = Ok (demo_address, demo_key))
    by reflexivity.
  split; [exact Hcreate |].
  destruct (CreateWallet_key_valid (demo_host demo_home) demo_address demo_key
              (λ _, eq_refl) Hcreate) as (Hvalid & _ & _ & Haddr & _).
  split; [exact Hvalid |].
  apply Haddr. apply demo_host_reads_back.
Defined.

(* ===================================================================== *)
(** * Proofs: a key file with white space around the key *)
(* ===================================================================== *)

Lemma rev_app_acc (s acc : string) :
  String.rev_app s acc = String.rev_app s "" +:+ acc.
Proof.
  revert acc. induction s as [| c s IH]; intros acc; [by rewrite string_app_nil_l |].
  cbn [String.rev_app]. rewrite (IH (String c acc)), (IH (String c "")).
  by rewrite string_app_assoc, string_app_cons, string_app_nil_l.
Qed.

Lemma rev_app_distr (a b : string) :
  String.rev (a +:+ b) = String.rev b +:+ String.rev a.
Proof. unfold String.rev. by rewrite rev_app_app, rev_app_acc. Qed.

Lemma rev_involutive (s : string) : String.rev (String.rev s) = s.
Proof.
  induction s as [| c s IH]; [done |].
  change (String c s) with (String c "" +:+ s) at 1.
  rewrite rev_app_distr.
  change (String.rev (String c "")) with (String c "").
  by rewrite rev_snoc, IH.
Qed.

(** Each space character is cut from the front of a text that begins
    with it, and from the end of one that ends with it. *)
Lemma cut_space_table :
  Forall (λ sp, sp ≠ ""
                ∧ (∀ rest, cut_space (sp +:+ rest) = Some rest)
                ∧ (∀ r, cut_one (String.rev <$> space_sequences) (String.rev sp +:+ r)
                        = Some r))
         space_sequences.
Proof.
  set (P := λ sp : string, _).
  unfold space_sequences. cbn [app fmap list_fmap].
  repeat (apply Forall_cons; split;
          [unfold P; split;
           [intros Heq; vm_compute in Heq; discriminate Heq
           | split; intros r; vm_compute; reflexivity] |]).
  apply Forall_nil_2.
Qed.

Lemma cut_space_seq sp rest :
  sp ∈ space_sequences → cut_space (sp +:+ rest) = Some rest.
Proof.
  intros Hsp. pose proof cut_space_table as Htable.
  rewrite Forall_forall in Htable. by apply Htable.
Qed.

Lemma cut_space_right_seq init sp :
  sp ∈ space_sequences → cut_space_right (init +:+ sp) = Some init.
Proof.
  intros Hsp. pose proof cut_space_table as Htable.
  rewrite Forall_forall in Htable. destruct (Htable sp Hsp) as (_ & _ & Hright).
  unfold cut_space_right. rewrite rev_app_distr, Hright. cbn.
  by rewrite rev_involutive.
Qed.

Lemma space_seq_length sp : sp ∈ space_sequences → (1 ≤ String.length sp)%nat.
Proof.
  intros Hsp. pose proof cut_space_table as Htable.
  rewrite Forall_forall in Htable. destruct (Htable sp Hsp) as (Hne & _).
  destruct sp; [done | cbn; lia].
Qed.

Lemma white_space_length l :
  Forall (λ sp, sp ∈ space_sequences) l →
  (length l ≤ String.length (white_space l))%nat.
Proof.
  induction 1 as [| sp l Hsp _ IH]; [done |].
  cbn [white_space foldr length]. rewrite string_length_app.
  apply space_seq_length in Hsp. unfold white_space in IH. lia.
Qed.

Lemma white_space_snoc l sp : white_space (l ++ [sp]) = white_space l +:+ sp.
Proof.
  induction l as [| x l IH].
  - cbn. by rewrite string_app_nil_r, string_app_nil_l.
  - cbn [app white_space foldr]. unfold white_space in IH.
    by rewrite IH, string_app_assoc.
Qed.

Lemma trim_left_spaces fuel l rest :
  Forall (λ sp, sp ∈ space_sequences) l →
  (length l ≤ fuel)%nat →
  cut_space rest = None →
  trim_left fuel (white_space l +:+ rest) = rest.
Proof.
  intros Hl. revert fuel. induction Hl as [| sp l Hsp _ IH]; intros fuel Hfuel Hrest.
  - cbn [white_space foldr]. rewrite string_app_nil_l. by apply trim_left_fixed.
  - destruct fuel as [| fuel]; [cbn in Hfuel; lia |].
    cbn [white_space foldr trim_left].
    rewrite string_app_assoc, cut_space_seq by done.
    apply IH; [cbn in Hfuel; lia | done].
Qed.

Lemma trim_right_spaces fuel l init :
  Forall (λ sp, sp ∈ space_sequences) l →
  (length l ≤ fuel)%nat →
  cut_space_right init = None →
  trim_right fuel (init +:+ white_space l) = init.
Proof.
  revert fuel. induction l as [| sp l IH] using rev_ind; intros fuel Hl Hfuel Hinit.
  - cbn [white_space foldr]. rewrite string_app_nil_r. by apply trim_right_fixed.
  - apply Forall_app in Hl as [Hl Hsp]. apply Forall_cons in Hsp as [Hsp _].
    rewrite length_app in Hfuel. cbn in Hfuel.
    destruct fuel as [| fuel]; [lia |].
    cbn [trim_right]. rewrite white_space_snoc, <- string_app_assoc.
    rewrite cut_space_right_seq by done.
    apply IH; [done | lia | done].
Qed.

(** [strings.TrimSpace] removes the white space around a text that begins
    and ends with a printing character, and nothing of the text. *)
Lemma TrimSpace_strips before key after :
  Forall (λ sp, sp ∈ space_sequences) before →
  Forall (λ sp, sp ∈ space_sequences) after →
  printable_ends key →
  TrimSpace (white_space before +:+ key +:+ white_space after) = key.
Proof.
  intros Hbefore Hafter (c & rest & init & d & Hfirst & Hlast & Hc & Hd).
  unfold TrimSpace.
  rewrite trim_left_spaces; [| done | |].
  - rewrite trim_right_spaces; [done | done | |].
    + rewrite string_length_app. apply white_space_length in Hafter. lia.
    + rewrite Hlast. by apply cut_space_right_printable.
  - rewrite string_length_app. apply white_space_length in Hbefore. lia.
  - rewrite Hfirst, string_app_cons. by apply cut_space_printable.
Qed.

(** White space alone is trimmed to nothing. *)
Lemma TrimSpace_blank l :
  Forall (λ sp, sp ∈ space_sequences) l → TrimSpace (white_space l) = "".
Proof.
  intros Hl.
  assert (Hleft : trim_left (String.length (white_space l)) (white_space l +:+ "") = "").
  { apply trim_left_spaces; [done | by apply white_space_length | done]. }
  rewrite string_app_nil_r in Hleft.
  unfold TrimSpace. cbv zeta. by rewrite Hleft.
Qed.

Section wallet_file_facts.
Context {E : Env} (H : Host E).

Lemma key_in_file_key fs path before key after :
  Forall (λ sp, sp ∈ space_sequences) before →
  Forall (λ sp, sp ∈ space_sequences) after →
  printable_ends key →
  fs !! path = Some (white_space before +:+ key +:+ white_space after) →
  key_in_file fs path = Some key.
Proof.
  intros Hbefore Hafter Hkey Hfile. rewrite key_in_file_spec, Hfile. cbn.
  rewrite TrimSpace_strips by done.
  destruct Hkey as (c & rest & _ & _ & -> & _). done.
Qed.

Lemma key_in_file_blank fs path :
  fs !! path = None
  ∨ (∃ blank, Forall (λ sp, sp ∈ space_sequences) blank
              ∧ fs !! path = Some (white_space blank)) →
  key_in_file fs path = None.
Proof.
  rewrite key_in_file_spec. intros [-> | (blank & Hblank & ->)]; cbn; [done |].
  by rewrite TrimSpace_blank.
Qed.

(** [LoadWallet] reads a key file whatever white space surrounds the key:
    spaces, tabs, line ends or any other Unicode space before and after a
    key that begins and ends with a printing character are dropped, and
    the key itself is returned.  A session file that is missing or holds
    white space only is passed over for the legacy file [wallet.key], read
    in the same way. *)
Theorem LoadWallet_trims fs before key after :
  Forall (λ sp, sp ∈ space_sequences) before →
  Forall (λ sp, sp ∈ space_sequences) after →
  printable_ends key →
  (fs !! WalletFile H = Some (white_space before +:+ key +:+ white_space after) →
   LoadWallet H fs = Ok key)
  ∧ (fs !! WalletFile H = None
     ∨ (∃ blank, Forall (λ sp, sp ∈ space_sequences) blank
                 ∧ fs !! WalletFile H = Some (white_space blank)) →
     fs !! filepath_Join H (WalletDir H) "wallet.key"
     = Some (white_space before +:+ key +:+ white_space after) →
     LoadWallet H fs = Ok key).
Proof.
  intros Hbefore Hafter Hkey. unfold LoadWallet. split.
  - intros Hfile. by rewrite (key_in_file_key _ _ before key after).
  - intros Hblank Hfile.
    by rewrite key_in_file_blank, (key_in_file_key _ _ before key after).
Qed.

End wallet_file_facts.

Lemma demo_key_printable_ends : printable_ends demo_key.
Proof.
  exists "0"%char, "xac0974bec39a17e36ba4a6b4d238ff944bacb478cbed5efcae784d7bf4f2ff80",
    "0xac0974bec39a17e36ba4a6b4d238ff944bacb478cbed5efcae784d7bf4f2ff8", "0"%char.
  repeat split; reflexivity.
Qed.

(** The key followed by a line feed loads as the key. *)
Lemma LoadWallet_trims_witness :
  LoadWallet (demo_host demo_home) demo_edited_files = Ok demo_key.
Proof.
  destruct (LoadWallet_trims (demo_host demo_home) demo_edited_files
              [] demo_key [utf8 [10]]) as [Hsession _].
  - apply Forall_nil_2.
  - apply Forall_cons. split; [| apply Forall_nil_2].
    unfold space_sequences. cbn [app]. do 1 apply list_elem_of_further.
    apply list_elem_of_here.
  - apply demo_key_printable_ends.
  - apply Hsession. reflexivity.
Defined.

(* ===================================================================== *)
(** * Proofs: the constructors *)
(* ===================================================================== *)

Section constructor_facts.
Context {E : Env} (H : Host E).
Implicit Types c : NewClient (E := E).

Lemma same_identity_refl (c : NewClient (E := E)) : same_identity c c.
Proof. by repeat split. Qed.

Lemma same_identity_trans (c1 c2 c3 : NewClient (E := E)) :
  same_identity c1 c2 → same_identity c2 c3 → same_identity c1 c3.
Proof.
  intros (H1 & H2 & H3 & H4) (H1' & H2' & H3' & H4').
  repeat split; congruence.
Qed.

Lemma apply_ClientOption_identity opt c h c' h' :
  apply_ClientOption opt c h = (Ok c', h') → same_identity c c'.
Proof.
  destruct opt as [url | timeout | client]; cbn [apply_ClientOption].
  - intros [= <- <-]. by repeat split.
  - unfold set_Timeout. destruct (httpClient c); [| done].
    intros [= <- <-]. by repeat split.
  - intros [= <- <-]. by repeat split.
Qed.

Lemma apply_ImageClientOption_identity opt c h c' h' :
  apply_ImageClientOption opt c h = (Ok c', h') → same_identity c c'.
Proof.
  destruct opt as [url | timeout | client]; cbn [apply_ImageClientOption].
  - intros [= <- <-]. by repeat split.
  - unfold set_Timeout. destruct (httpClient c); [| done].
    intros [= <- <-]. by repeat split.
  - intros [= <- <-]. by repeat split.
Qed.

Lemma apply_options_identity {O}
    (apply : O → NewClient → gmap loc Z → result NewClient * gmap loc Z) opts :
  (∀ opt c h c' h', apply opt c h = (Ok c', h') → same_identity c c') →
  ∀ c h c' h', apply_options apply opts c h = (Ok c', h') → same_identity c c'.
Proof.
  intros Happly. induction opts as [| opt opts IH]; intros c h c' h'.
  - cbn. intros [= <- <-]. apply same_identity_refl.
  - cbn [apply_options].
    destruct (apply opt c h) as [[c1 | err | why] h1] eqn:Hopt; [| done | done].
    intros Hrest. eapply same_identity_trans; [by eapply Happly | by eapply IH].
Qed.

Lemma env_apiURL_identity c : same_identity c (env_apiURL H c).
Proof.
  unfold env_apiURL.
  destruct (negb _ && _); by repeat split.
Qed.

(** The steps of [NewLLMClient] that is given, or finds, a key. *)
Lemma NewLLMClient_run privateKey opts h :
  NewLLMClient H privateKey opts h
  = if String.eqb (llm_key H privateKey) "" then
      (Err (ValidationError "privateKey"
              "Private key required. Pass privateKey parameter or set BASE_CHAIN_WALLET_KEY environment variable. NOTE: Your key never leaves your machine - only signatures are sent."),
       h)
    else
      match GetPrivateKeyFromHex H (llm_key H privateKey) with
      | Err err =>
          (Err (ValidationError "privateKey"
                  ("Invalid private key format: " +:+ Error err)), h)
      | Panic why => (Panic why, h)
      | Ok ecdsaKey =>
          match apply_options apply_ClientOption opts
                  {| fields := {| privateKey := ecdsaKey;
                                  address := PubkeyToAddress_Hex E ecdsaKey;
                                  apiURL := DefaultAPIURL;
                                  sessionTotalUSD := 0%float; sessionCalls := 0 |};
                     httpClient := Some (fresh (dom h)) |}
                  (<[fresh (dom h) := DefaultTimeout]> h) with
          | (Ok client, h') => (Ok (env_apiURL H client), h')
          | other => other
          end
      end.
Proof. reflexivity. Qed.

Lemma NewImageClient_run privateKey opts h :
  NewImageClient H privateKey opts h
  = if String.eqb (image_key H privateKey) "" then
      (Err (ValidationError "privateKey"
              "Private key required. Pass privateKey parameter or set BLOCKRUN_WALLET_KEY environment variable."),
       h)
    else
      match GetPrivateKeyFromHex H (image_key H privateKey) with
      | Err err =>
          (Err (ValidationError "privateKey"
                  ("Invalid private key format: " +:+ Error err)), h)
      | Panic why => (Panic why, h)
      | Ok ecdsaKey =>
          match apply_options apply_ImageClientOption opts
                  {| fields := {| privateKey := ecdsaKey;
                                  address := PubkeyToAddress_Hex E ecdsaKey;
                                  apiURL := DefaultAPIURL;
                                  sessionTotalUSD := 0%float; sessionCalls := 0 |};
                     httpClient := Some (fresh (dom h)) |}
                  (<[fresh (dom h) := DefaultImageTimeout]> h) with
          | (Ok client, h') => (Ok (env_apiURL H client), h')
          | other => other
          end
      end.
Proof.
  unfold NewImageClient, image_key, wallet_envKey.
  destruct (String.eqb privateKey "") eqn:Hpk; [reflexivity |].
  cbv zeta iota. rewrite !Hpk. reflexivity.
Qed.

Lemma apply_options_no_error {O}
    (apply : O → NewClient → gmap loc Z → result NewClient * gmap loc Z) opts :
  (∀ opt c h e h', apply opt c h ≠ (Err e, h')) →
  ∀ c h e h', apply_options apply opts c h ≠ (Err e, h').
Proof.
  intros Happly. induction opts as [| opt opts IH]; intros c h e h'; [done |].
  cbn [apply_options].
  destruct (apply opt c h) as [[c1 | err | why] h1] eqn:Hopt; [apply IH | | done].
  by apply Happly in Hopt.
Qed.

Lemma apply_ClientOption_no_error opt c h e h' :
  apply_ClientOption opt c h ≠ (Err e, h').
Proof.
  destruct opt; cbn [apply_ClientOption]; [done | | done].
  unfold set_Timeout. by destruct (httpClient c).
Qed.

Lemma apply_ImageClientOption_no_error opt c h e h' :
  apply_ImageClientOption opt c h ≠ (Err e, h').
Proof.
  destruct opt; cbn [apply_ImageClientOption]; [done | | done].
  unfold set_Timeout. by destruct (httpClient c).
Qed.

Lemma GetAddressFromKey_parsed key ecdsaKey :
  GetPrivateKeyFromHex H key = Ok ecdsaKey →
  GetAddressFromKey H key = Ok (PubkeyToAddress_Hex E ecdsaKey).
Proof. unfold GetPrivateKeyFromHex, GetAddressFromKey. by intros ->. Qed.

(** What a constructor that found the key [key] and applied its options
    with [apply] returns. *)
Lemma constructed_identity {O}
    (apply : O → NewClient → gmap loc Z → result NewClient * gmap loc Z)
    opts key ecdsaKey url l h c h' :
  (∀ opt c h c' h', apply opt c h = (Ok c', h') → same_identity c c') →
  GetPrivateKeyFromHex H key = Ok ecdsaKey →
  match apply_options apply opts
          {| fields := {| privateKey := ecdsaKey;
                          address := PubkeyToAddress_Hex E ecdsaKey;
                          apiURL := url;
                          sessionTotalUSD := 0%float; sessionCalls := 0 |};
             httpClient := Some l |} h with
  | (Ok client, h') => (Ok (env_apiURL H client), h')
  | other => other
  end = (Ok c, h') →
  GetPrivateKeyFromHex H key = Ok (privateKey E (fields c))
  ∧ GetAddressFromKey H key = Ok (address E (fields c))
  ∧ sessionTotalUSD E (fields c) = 0%float
  ∧ sessionCalls E (fields c) = 0.
Proof.
  intros Happly Hkey.
  destruct (apply_options apply opts _ h) as [[c1 | err | why] h1] eqn:Hopts; [| done | done].
  intros [= <- <-].
  apply (apply_options_identity apply opts Happly) in Hopts.
  pose proof (same_identity_trans _ _ _ Hopts (env_apiURL_identity c1))
    as (Hpk & Haddr & Htotal & Hcalls).
  cbn in Hpk, Haddr, Htotal, Hcalls.
  rewrite Hpk, Haddr, Htotal, Hcalls.
  split; [done |]. split; [by apply GetAddressFromKey_parsed | done].
Qed.

Lemma NewLLMClient_Ok key opts h c h' :
  NewLLMClient H key opts h = (Ok c, h') →
  llm_key H key ≠ ""
  ∧ GetPrivateKeyFromHex H (llm_key H key) = Ok (privateKey E (fields c))
  ∧ GetAddressFromKey H (llm_key H key) = Ok (address E (fields c))
  ∧ sessionTotalUSD E (fields c) = 0%float
  ∧ sessionCalls E (fields c) = 0.
Proof.
  rewrite NewLLMClient_run.
  destruct (String.eqb (llm_key H key) "") eqn:Hempty; [done |].
  apply String.eqb_neq in Hempty.
  destruct (GetPrivateKeyFromHex H (llm_key H key)) as [ecdsaKey | |] eqn:Hparse;
    [| done | done].
  intros Hrun. split; [done |]. rewrite <- Hparse.
  eapply constructed_identity; [apply apply_ClientOption_identity | exact Hparse | exact Hrun].
Qed.

Lemma NewImageClient_Ok key iopts h c h' :
  NewImageClient H key iopts h = (Ok c, h') →
  image_key H key ≠ ""
  ∧ GetPrivateKeyFromHex H (image_key H key) = Ok (privateKey E (fields c))
  ∧ GetAddressFromKey H (image_key H key) = Ok (address E (fields c))
  ∧ sessionTotalUSD E (fields c) = 0%float
  ∧ sessionCalls E (fields c) = 0.
Proof.
  rewrite NewImageClient_run.
  destruct (String.eqb (image_key H key) "") eqn:Hempty; [done |].
  apply String.eqb_neq in Hempty.
  destruct (GetPrivateKeyFromHex H (image_key H key)) as [ecdsaKey | |] eqn:Hparse;
    [| done | done].
  intros Hrun. split; [done |]. rewrite <- Hparse.
  eapply constructed_identity;
    [apply apply_ImageClientOption_identity | exact Hparse | exact Hrun].
Qed.

(** An error of a constructor comes from the key: there is none, or it
    does not parse. *)
Lemma NewLLMClient_Err key opts h e h' :
  NewLLMClient H key opts h = (Err e, h') →
  h' = h
  ∧ (∃ message, e = ValidationError "privateKey" message)
  ∧ (llm_key H key = "" ∨ is_Err (GetPrivateKeyFromHex H (llm_key H key))).
Proof.
  rewrite NewLLMClient_run.
  destruct (String.eqb (llm_key H key) "") eqn:Hempty.
  { apply String.eqb_eq in Hempty. intros [= <- <-].
    split; [done |]. split; [by eexists | by left]. }
  destruct (GetPrivateKeyFromHex H (llm_key H key)) as [ecdsaKey | err |]; [| | done].
  - destruct (apply_options apply_ClientOption opts _ _) as [[c1 | err | why] h1] eqn:Hopts;
      [done | | done].
    by apply (apply_options_no_error _ _ apply_ClientOption_no_error) in Hopts.
  - intros [= <- <-]. split; [done |]. split; [by eexists | right; by eexists].
Qed.

Lemma NewImageClient_Err key iopts h e h' :
  NewImageClient H key iopts h = (Err e, h') →
  h' = h
  ∧ (∃ message, e = ValidationError "privateKey" message)
  ∧ (image_key H key = "" ∨ is_Err (GetPrivateKeyFromHex H (image_key H key))).
Proof.
  rewrite NewImageClient_run.
  destruct (String.eqb (image_key H key) "") eqn:Hempty.
  { apply String.eqb_eq in Hempty. intros [= <- <-].
    split; [done |]. split; [by eexists | by left]. }
  destruct (GetPrivateKeyFromHex H (image_key H key)) as [ecdsaKey | err |]; [| | done].
  - destruct (apply_options apply_ImageClientOption iopts _ _)
      as [[c1 | err | why] h1] eqn:Hopts; [done | | done].
    by apply (apply_options_no_error _ _ apply_ImageClientOption_no_error) in Hopts.
  - intros [= <- <-]. split; [done |]. split; [by eexists | right; by eexists].
Qed.

(** Each constructor parses one key: its argument or, for an empty
    argument, [BASE_CHAIN_WALLET_KEY] for [NewLLMClient], and
    [BLOCKRUN_WALLET_KEY] before [BASE_CHAIN_WALLET_KEY] for
    [NewImageClient].  A client it returns holds that key, parsed as
    [GetPrivateKeyFromHex] parses it, the address [GetAddressFromKey] gives
    for it, and an empty ledger, whatever the options.  Without a key the
    error is the one on the missing key, so [NewLLMClient] fails on an
    empty [BASE_CHAIN_WALLET_KEY] even when [BLOCKRUN_WALLET_KEY] is set.
    Every error is a [ValidationError] on [privateKey] and leaves the
    [http.Client] objects as they were. *)
Theorem constructors_key key opts iopts h :
  (∀ c h', NewLLMClient H key opts h = (Ok c, h') →
     llm_key H key ≠ ""
     ∧ GetPrivateKeyFromHex H (llm_key H key) = Ok (privateKey E (fields c))
     ∧ GetAddressFromKey H (llm_key H key) = Ok (address E (fields c))
     ∧ sessionTotalUSD E (fields c) = 0%float
     ∧ sessionCalls E (fields c) = 0)
  ∧ (∀ c h', NewImageClient H key iopts h = (Ok c, h') →
     image_key H key ≠ ""
     ∧ GetPrivateKeyFromHex H (image_key H key) = Ok (privateKey E (fields c))
     ∧ GetAddressFromKey H (image_key H key) = Ok (address E (fields c))
     ∧ sessionTotalUSD E (fields c) = 0%float
     ∧ sessionCalls E (fields c) = 0)
  ∧ (llm_key H key = "" →
     ∃ message, NewLLMClient H key opts h
                = (Err (ValidationError "privateKey" message), h))
  ∧ (image_key H key = "" →
     ∃ message, NewImageClient H key iopts h
                = (Err (ValidationError "privateKey" message), h))
  ∧ (∀ e h', NewLLMClient H key opts h = (Err e, h')
             ∨ NewImageClient H key iopts h = (Err e, h') →
             h' = h ∧ ∃ message, e = ValidationError "privateKey" message).
Proof.
  split; [apply NewLLMClient_Ok |]. split; [apply NewImageClient_Ok |].
  split; [| split].
  - intros Hkey. rewrite NewLLMClient_run, Hkey. by eexists.
  - intros Hkey. rewrite NewImageClient_run, Hkey. by eexists.
  - intros e h' [Hllm | Himage].
    + apply NewLLMClient_Err in Hllm as (-> & Hmessage & _). done.
    + apply NewImageClient_Err in Himage as (-> & Hmessage & _). done.
Qed.

Lemma GetOrCreateWallet_key fs info fs' :
  (∀ key, crypto_HexToECDSA H (Bytes2Hex (crypto_FromECDSA H key)) = Ok key) →
  GetOrCreateWallet H fs = (Ok info, fs') →
  WalletPrivateKey info ≠ ""
  ∧ GetAddressFromKey H (WalletPrivateKey info) = Ok (WalletAddress info).
Proof.
  intros Hlaw. unfold GetOrCreateWallet.
  destruct (String.eqb (wallet_envKey H) "") eqn:Henv; cbn [negb].
  - destruct (String.eqb (wallet_fileKey H fs) "") eqn:Hfile; cbn [negb].
    + destruct (CreateWallet H) as [[address privateKey] | err | why] eqn:Hcreate;
        [| done | done].
      apply CreateWallet_Ok in Hcreate as (key & Hgen & -> & ->).
      destruct (SaveWallet H _ fs) as [[path | err | why] fs''] eqn:Hsave; [| done | done].
      intros [= <- <-]. cbn [WalletPrivateKey WalletAddress].
      split; [by rewrite !string_app_cons | by apply GetAddressFromKey_created].
    + apply String.eqb_neq in Hfile.
      destruct (GetAddressFromKey H (wallet_fileKey H fs)) as [address | |] eqn:Haddr;
        [| done | done].
      cbn. by intros [= <- <-].
  - apply String.eqb_neq in Henv.
    destruct (GetAddressFromKey H (wallet_envKey H)) as [address | |] eqn:Haddr;
      [| done | done].
    cbn. by intros [= <- <-].
Qed.

Lemma llm_key_given (key : string) : key ≠ "" → llm_key H key = key.
Proof. intros Hkey. unfold llm_key. apply String.eqb_neq in Hkey. by rewrite Hkey. Qed.

Lemma image_key_given (key : string) : key ≠ "" → image_key H key = key.
Proof. intros Hkey. unfold image_key. apply String.eqb_neq in Hkey. by rewrite Hkey. Qed.

Lemma GetAddressFromKey_Ok_parsed key address :
  GetAddressFromKey H key = Ok address → ¬ is_Err (GetPrivateKeyFromHex H key).
Proof.
  unfold GetAddressFromKey, GetPrivateKeyFromHex.
  destruct (crypto_HexToECDSA H (strings.TrimPrefix key "0x")); [| done | done].
  by intros _ [e [=]].
Qed.

(** A client made from the key of the wallet [GetOrCreateWallet] returned
    pays from the address of that wallet, whichever constructor made it
    and whatever the options, and the constructor does not refuse that
    key, be it from the environment, from a file or new.  For a new wallet
    this relies on [crypto.HexToECDSA] reading back the digits of
    [crypto.FromECDSA]. *)
Theorem wallet_then_client fs info fs' opts iopts h :
  (∀ key, crypto_HexToECDSA H (Bytes2Hex (crypto_FromECDSA H key)) = Ok key) →
  GetOrCreateWallet H fs = (Ok info, fs') →
  (∀ c h', NewLLMClient H (WalletPrivateKey info) opts h = (Ok c, h') →
           address E (fields c) = WalletAddress info)
  ∧ (∀ c h', NewImageClient H (WalletPrivateKey info) iopts h = (Ok c, h') →
             address E (fields c) = WalletAddress info)
  ∧ (∀ e h', NewLLMClient H (WalletPrivateKey info) opts h ≠ (Err e, h'))
  ∧ (∀ e h', NewImageClient H (WalletPrivateKey info) iopts h ≠ (Err e, h')).
Proof.
  intros Hlaw Hwallet.
  destruct (GetOrCreateWallet_key fs info fs' Hlaw Hwallet) as [Hne Haddr].
  pose proof (GetAddressFromKey_Ok_parsed _ _ Haddr) as Hparsed.
  split; [| split; [| split]].
  - intros c h' Hnew. apply NewLLMClient_Ok in Hnew as (_ & _ & Hc & _).
    rewrite llm_key_given in Hc by done. congruence.
  - intros c h' Hnew. apply NewImageClient_Ok in Hnew as (_ & _ & Hc & _).
    rewrite image_key_given in Hc by done. congruence.
  - intros e h' Hnew. apply NewLLMClient_Err in Hnew as (_ & _ & Hwhy).
    rewrite llm_key_given in Hwhy by done. by destruct Hwhy.
  - intros e h' Hnew. apply NewImageClient_Err in Hnew as (_ & _ & Hwhy).
    rewrite image_key_given in Hwhy by done. by destruct Hwhy.
Qed.

End constructor_facts.

(** With the key in [BLOCKRUN_WALLET_KEY] only, [NewImageClient] builds a
    client for it and [NewLLMClient] finds no key. *)
Lemma constructors_key_witness :
  (∃ message,
     NewLLMClient demo_blockrun_host "" [] ∅
     = (Err (ValidationError "privateKey" message), ∅))
  ∧ (∃ c h', NewImageClient demo_blockrun_host "" [] ∅ = (Ok c, h')
             ∧ GetAddressFromKey demo_blockrun_host demo_key
               = Ok (address _ (fields c))).
Proof.
  destruct (constructors_key demo_blockrun_host "" [] [] ∅) as (_ & Himage & Hllm & _).
  split; [apply Hllm; reflexivity |].
  eexists _, _. split; [reflexivity |].
  eapply Himage. reflexivity.
Defined.

(** The wallet created in an empty home, and the client for its key. *)
Lemma wallet_then_client_witness :
  ∃ c h', NewLLMClient (demo_host demo_home) demo_key [] ∅ = (Ok c, h')
          ∧ address _ (fields c) = demo_address.
Proof.
  assert (Hwallet : GetOrCreateWallet (demo_host demo_home) ∅
                    = (Ok {| WalletPrivateKey := demo_key; WalletAddress := demo_address;
                             IsNew := true |}, {[ demo_session := demo_key ]}))
    by reflexivity.
  eexists _, _. split; [reflexivity |].
  destruct (wallet_then_client (demo_host demo_home) ∅ _ _ [] [] ∅
              (demo_host_reads_back demo_home) Hwallet) as (Hllm & _).
  eapply Hllm. reflexivity.
Defined.

(* ===================================================================== *)
(** * Proofs: the options of a client *)
(* ===================================================================== *)

Section option_facts.
Context {E : Env} (H : Host E).
Implicit Types c : NewClient (E := E).

Lemma apply_options_app {O}
    (apply : O → NewClient → gmap loc Z → result NewClient * gmap loc Z)
    (a b : list O) c h :
  apply_options apply (a ++ b) c h
  = match apply_options apply a c h with
    | (Ok c', h') => apply_options apply b c' h'
    | other => other
    end.
Proof.
  revert c h. induction a as [| opt a IH]; intros c h; [done |].
  cbn [app apply_options].
  destruct (apply opt c h) as [[c1 | err | why] h1]; [apply IH | done | done].
Qed.

(** The client as [NewLLMClient] has it before the options. *)
Lemma NewLLMClient_options key opts h c h' :
  NewLLMClient H key opts h = (Ok c, h') →
  ∃ c0 c1,
    httpClient c0 = Some (fresh (dom h))
    ∧ apiURL E (fields c0) = DefaultAPIURL
    ∧ apply_options apply_ClientOption opts c0 (<[fresh (dom h) := DefaultTimeout]> h)
      = (Ok c1, h')
    ∧ c = env_apiURL H c1.
Proof.
  rewrite NewLLMClient_run.
  destruct (String.eqb (llm_key H key) ""); [done |].
  destruct (GetPrivateKeyFromHex H (llm_key H key)) as [ecdsaKey | |]; [| done | done].
  destruct (apply_options apply_ClientOption opts _ _) as [[c1 | err | why] h1] eqn:Hopts;
    [| done | done].
  intros [= <- <-]. eexists _, c1.
  split; [| split; [| split; [exact Hopts | reflexivity]]]; reflexivity.
Qed.

Lemma env_apiURL_httpClient c : httpClient (env_apiURL H c) = httpClient c.
Proof. unfold env_apiURL. by destruct (negb _ && _). Qed.

Lemma env_apiURL_apiURL c :
  apiURL E (fields (env_apiURL H c))
  = if negb (String.eqb (os_Getenv H "BLOCKRUN_API_URL") "")
       && String.eqb (apiURL E (fields c)) DefaultAPIURL
    then strings.TrimSuffix (os_Getenv H "BLOCKRUN_API_URL") "/"
    else apiURL E (fields c).
Proof. unfold env_apiURL. by destruct (negb _ && _). Qed.

Lemma apply_options_apiURL opts c h c' h' :
  Forall (λ opt, is_WithAPIURL opt = false) opts →
  apply_options apply_ClientOption opts c h = (Ok c', h') →
  apiURL E (fields c') = apiURL E (fields c).
Proof.
  intros Hopts. revert c h. induction Hopts as [| opt opts Hopt _ IH]; intros c h.
  - cbn. by intros [= <- <-].
  - cbn [apply_options].
    destruct (apply_ClientOption opt c h) as [[c1 | err | why] h1] eqn:Hstep;
      [| done | done].
    intros Hrest. rewrite (IH _ _ Hrest).
    destruct opt as [url | timeout | client]; [done | |].
    + cbn in Hstep. unfold set_Timeout in Hstep.
      destruct (httpClient c); [| done]. by injection Hstep as <- <-.
    + cbn in Hstep. by injection Hstep as <- <-.
Qed.

(** The API URL of a new client.  The last [WithAPIURL] gives it, cut of
    one final slash, and the environment is then not looked at, unless
    what that option gives is the default URL: then, and when there is no
    such option, [BLOCKRUN_API_URL] gives it if set, cut in the same way,
    and the default URL is used otherwise.  So an explicit
    [WithAPIURL(DefaultAPIURL)] does not keep the environment out. *)
Theorem NewLLMClient_apiURL key opts h c h' :
  NewLLMClient H key opts h = (Ok c, h') →
  (Forall (λ opt, is_WithAPIURL opt = false) opts →
     apiURL E (fields c)
     = if String.eqb (os_Getenv H "BLOCKRUN_API_URL") "" then DefaultAPIURL
       else strings.TrimSuffix (os_Getenv H "BLOCKRUN_API_URL") "/")
  ∧ (∀ pre url post,
       opts = pre ++ WithAPIURL url :: post →
       Forall (λ opt, is_WithAPIURL opt = false) post →
       (strings.TrimSuffix url "/" ≠ DefaultAPIURL →
          apiURL E (fields c) = strings.TrimSuffix url "/")
       ∧ (strings.TrimSuffix url "/" = DefaultAPIURL →
          apiURL E (fields c)
          = if String.eqb (os_Getenv H "BLOCKRUN_API_URL") "" then DefaultAPIURL
            else strings.TrimSuffix (os_Getenv H "BLOCKRUN_API_URL") "/")).
Proof.
  intros Hnew. apply NewLLMClient_options in Hnew as (c0 & c1 & _ & Hurl0 & Hopts & ->).
  rewrite env_apiURL_apiURL. split.
  - intros Hnone. rewrite (apply_options_apiURL _ _ _ _ _ Hnone Hopts), Hurl0.
    rewrite String.eqb_refl, andb_true_r.
    by destruct (String.eqb (os_Getenv H "BLOCKRUN_API_URL") "").
  - intros pre url post -> Hpost.
    rewrite apply_options_app in Hopts.
    destruct (apply_options apply_ClientOption pre c0 _) as [[c2 | err | why] h2];
      [| done | done].
    cbn [apply_options apply_ClientOption] in Hopts.
    rewrite (apply_options_apiURL _ _ _ _ _ Hpost Hopts). cbn [set_apiURL fields apiURL].
    split.
    + intros Hother. apply String.eqb_neq in Hother. by rewrite Hother, andb_false_r.
    + intros ->. rewrite String.eqb_refl, andb_true_r.
      by destruct (String.eqb (os_Getenv H "BLOCKRUN_API_URL") "").
Qed.

(** Options other than [WithHTTPClient] keep the client's [http.Client]
    and change the [Timeout] of no other one. *)
Lemma apply_options_pointer opts c h c' h' :
  Forall (λ opt, is_WithHTTPClient opt = false) opts →
  apply_options apply_ClientOption opts c h = (Ok c', h') →
  httpClient c' = httpClient c
  ∧ (∀ l, httpClient c ≠ Some l → h' !! l = h !! l)
  ∧ (Forall (λ opt, is_WithTimeout opt = false) opts → h' = h).
Proof.
  intros Hopts. revert c h. induction Hopts as [| opt opts Hopt _ IH]; intros c h.
  - cbn. by intros [= <- <-].
  - cbn [apply_options].
    destruct (apply_ClientOption opt c h) as [[c1 | err | why] h1] eqn:Hstep;
      [| done | done].
    intros Hrest. destruct (IH _ _ Hrest) as (Hptr & Hframe & Hsame).
    destruct opt as [url | timeout | client]; [| | done].
    + cbn in Hstep. injection Hstep as <- <-. cbn [set_apiURL httpClient] in *.
      split; [done |]. split; [done |].
      intros Hno. apply Forall_cons in Hno as [_ Hno]. by apply Hsame.
    + cbn in Hstep. unfold set_Timeout in Hstep.
      destruct (httpClient c) as [l0 |] eqn:Hc; [| done].
      injection Hstep as <- <-. rewrite Hc in *.
      split; [done |]. split.
      * intros l Hl. rewrite Hframe by done. apply lookup_insert_ne. congruence.
      * intros Hno. by apply Forall_cons in Hno as [[=] _].
Qed.

(** The [Timeout] that [WithTimeout], followed by neither [WithTimeout]
    nor [WithHTTPClient], leaves in the client's [http.Client]. *)
Lemma apply_options_timeout t post c h c' h' l :
  httpClient c = Some l →
  Forall (λ opt, is_WithHTTPClient opt = false) post →
  Forall (λ opt, is_WithTimeout opt = false) post →
  apply_options apply_ClientOption (WithTimeout t :: post) c h = (Ok c', h') →
  httpClient c' = Some l ∧ h' !! l = Some t.
Proof.
  intros Hc Hhttp Htime. cbn [apply_options apply_ClientOption].
  unfold set_Timeout. rewrite Hc. intros Hrest.
  destruct (apply_options_pointer _ _ _ _ _ Hhttp Hrest) as (Hptr & _ & Hsame).
  rewrite Hptr, Hc, (Hsame Htime). by rewrite lookup_insert_eq.
Qed.

(** [WithTimeout] on a client without [http.Client] does not return. *)
Lemma apply_options_nil mid t post c h c' h' :
  httpClient c = None →
  Forall (λ opt, is_WithHTTPClient opt = false) mid →
  apply_options apply_ClientOption (mid ++ WithTimeout t :: post) c h ≠ (Ok c', h').
Proof.
  intros Hc Hmid. rewrite apply_options_app.
  destruct (apply_options apply_ClientOption mid c h) as [[c1 | err | why] h1] eqn:Hrun;
    [| done | done].
  destruct (apply_options_pointer _ _ _ _ _ Hmid Hrun) as (Hptr & _).
  cbn [apply_options apply_ClientOption]. unfold set_Timeout.
  by rewrite Hptr, Hc.
Qed.


Lemma same_but_default_insert l0 l t h1 h2 :
  same_but_default l0 h1 h2 → same_but_default l0 (<[l := t]> h1) (<[l := t]> h2).
Proof.
  intros Hsame l'. destruct (decide (l = l')) as [<- | Hne].
  - left. by rewrite !lookup_insert_eq.
  - rewrite !lookup_insert_ne by done. apply Hsame.
Qed.

(** The image options do to a client what the client options of the same
    name do. *)
Lemma image_options_simulate l0 opts c h1 h2 :
  same_but_default l0 h1 h2 →
  (apply_options apply_ImageClientOption (image_option <$> opts) c h2).1
  = (apply_options apply_ClientOption opts c h1).1
  ∧ same_but_default l0
      (apply_options apply_ClientOption opts c h1).2
      (apply_options apply_ImageClientOption (image_option <$> opts) c h2).2.
Proof.
  revert c h1 h2. induction opts as [| opt opts IH]; intros c h1 h2 Hsame; [done |].
  cbn [fmap list_fmap apply_options].
  destruct opt as [url | timeout | client];
    cbn [image_option apply_ClientOption apply_ImageClientOption].
  - by apply IH.
  - unfold set_Timeout. destruct (httpClient c) as [l |]; [| done].
    apply IH. by apply same_but_default_insert.
  - by apply IH.
Qed.

(** [NewImageClient] is [NewLLMClient] with another default: for a key
    both would parse, and options of the same names, the two return the
    same client, error or panic, and leave every [http.Client] object
    with the same [Timeout], but for the object they made, which without
    [WithTimeout] waits 120 s for images and 60 s otherwise. *)
Theorem NewImageClient_as_NewLLMClient key opts h :
  image_key H key = llm_key H key →
  llm_key H key ≠ "" →
  (NewImageClient H key (image_option <$> opts) h).1 = (NewLLMClient H key opts h).1
  ∧ same_but_default (fresh (dom h))
      (NewLLMClient H key opts h).2
      (NewImageClient H key (image_option <$> opts) h).2.
Proof.
  intros Hsame Hkey. rewrite NewLLMClient_run, NewImageClient_run, Hsame.
  apply String.eqb_neq in Hkey. rewrite Hkey.
  destruct (GetPrivateKeyFromHex H (llm_key H key)) as [ecdsaKey | err | why];
    [| split; [done | by left] | split; [done | by left]].
  match goal with
  | |- context [apply_options apply_ClientOption opts ?c0 ?h1] =>
      destruct (image_options_simulate (fresh (dom h)) opts c0 h1
                  (<[fresh (dom h) := DefaultImageTimeout]> h)) as [Hresult Hstore]
  end.
  { intros l. destruct (decide (l = fresh (dom h))) as [-> | Hne].
    - right. by rewrite !lookup_insert_eq.
    - left. by rewrite !lookup_insert_ne. }
  destruct (apply_options apply_ClientOption opts _ _) as [r1 h1'].
  destruct (apply_options apply_ImageClientOption _ _ _) as [r2 h2'].
  cbn [fst snd] in Hresult, Hstore. subst r2.
  by destruct r1.
Qed.

End option_facts.

(** With [BLOCKRUN_API_URL] set, a client asked for the default URL, here
    with a final slash, gets the URL of the environment. *)
Lemma NewLLMClient_apiURL_witness :
  ∃ c h',
    NewLLMClient demo_staging_host demo_key [WithAPIURL "https://blockrun.ai/api/"] ∅
    = (Ok c, h')
    ∧ apiURL _ (fields c) = "https://staging.example/api".
Proof.
  eexists _, _. split; [reflexivity |].
  edestruct (NewLLMClient_apiURL demo_staging_host demo_key
               [WithAPIURL "https://blockrun.ai/api/"] ∅) as [_ Hlast]; [reflexivity |].
  destruct (Hlast [] "https://blockrun.ai/api/" [] eq_refl (Forall_nil_2 _))
    as [_ Hdefault].
  rewrite Hdefault; reflexivity.
Defined.


(** For the key of the tests and no option, the two constructors return
    the same client, with a timeout of 60 s and of 120 s. *)
Lemma NewImageClient_as_NewLLMClient_witness :
  (NewImageClient (demo_host demo_home) demo_key [] ∅).1
  = (NewLLMClient (demo_host demo_home) demo_key [] ∅).1
  ∧ (NewLLMClient (demo_host demo_home) demo_key [] ∅).2 !! fresh (dom (∅ : gmap loc Z))
    = Some DefaultTimeout
  ∧ (NewImageClient (demo_host demo_home) demo_key [] ∅).2 !! fresh (dom (∅ : gmap loc Z))
    = Some DefaultImageTimeout.
Proof.
  destruct (NewImageClient_as_NewLLMClient (demo_host demo_home) demo_key [] ∅)
    as [Hresult _]; [reflexivity | done |].
  split; [exact Hresult |]. split; reflexivity.
Defined.

(* ===================================================================== *)
(** * Proofs: the image client *)
(* ===================================================================== *)

Section image_facts.
Context (E : Env) (json_Decode_ImageResponse : string → result ImageResponse).

Lemma same_handshake_same {A B} (w w' : world E) (e : error) :
  client E w' = client E w →
  same_handshake (A := A) (B := B) w (Err e, w') (Err e, w').
Proof.
  intros Hclient. unfold same_handshake. cbn [fst snd].
  split; [done |]. split; [| by split].
  intros e' _. by split; intros [= <-].
Qed.

Lemma same_handshake_panic {A B} (w w' : world E) (why : string) :
  client E w' = client E w →
  same_handshake (A := A) (B := B) w (Panic why, w') (Panic why, w').
Proof.
  intros Hclient. unfold same_handshake. cbn [fst snd].
  split; [done |]. split; [| by split].
  by intros e' _.
Qed.

(** The last step of both handshakes: the response is decoded, and
    [after] is done when that succeeds. *)
Lemma same_handshake_decode {A B} (w w1 : world E) (after : M E unit)
    (ri : result A) (rc : result B) :
  client E w1 = client E w →
  (∀ w', (after w').1 = Ok tt) →
  trips E (after w1).2 = trips E w1 →
  same_handshake w
    ((imageResp ← lift E (wrap_err (Errorf "failed to decode response: ") ri);
      after;; mret imageResp) w1)
    ((chatResp ← lift E (wrap_err (Errorf "failed to decode response: ") rc);
      after;; mret chatResp) w1).
Proof.
  intros Hclient Hafter Htrips. rewrite !run_lift_bind.
  assert (Hrun : ∀ C (x : C), ((after;; mret x) w1 : result C * world E)
                              = (Ok x, (after w1).2)).
  { intros C x. rewrite run_bind. specialize (Hafter w1).
    destruct (after w1) as [[[] | |] w2]; cbn in Hafter; by try discriminate Hafter. }
  destruct ri as [imageResp | ei | whyi], rc as [chatResp | ec | whyc];
    cbn [wrap_err]; rewrite ?Hrun; cbn [fst snd]; unfold same_handshake; cbn [fst snd].
  all: split; [by rewrite ?Htrips |].
  all: split;
    [intros e Hnot; split; intros [= <-]; by destruct (Hnot _ eq_refl) || done |].
  all: split.
  all: try (intros [Hto Hfrom]; first
              [ done
              | by destruct (Hto (ex_intro _ _ eq_refl)) as [? [=]]
              | by destruct (Hfrom (ex_intro _ _ eq_refl)) as [? [=]] ]).
  all: try (intros Hnot; first [done | by destruct (Hnot (ex_intro _ _ eq_refl))]).
Qed.

Lemma same_handshake_decoded {A B} (w w1 : world E) (ri : result A) (rc : result B) :
  client E w1 = client E w →
  same_handshake w
    ((imageResp ← lift E (wrap_err (Errorf "failed to decode response: ") ri);
      mret imageResp) w1)
    ((chatResp ← lift E (wrap_err (Errorf "failed to decode response: ") rc);
      mret chatResp) w1).
Proof.
  intros Hclient. rewrite !run_lift_bind.
  destruct ri as [imageResp | ei | whyi], rc as [chatResp | ec | whyc];
    cbn [wrap_err]; unfold same_handshake, mret, M_ret; cbn [fst snd].
  all: split; [done |].
  all: split;
    [intros e Hnot; split; intros [= <-]; by destruct (Hnot _ eq_refl) || done |].
  all: split.
  all: try (intros [Hto Hfrom]; first
              [ done
              | by destruct (Hto (ex_intro _ _ eq_refl)) as [? [=]]
              | by destruct (Hfrom (ex_intro _ _ eq_refl)) as [? [=]] ]).
  all: try (intros Hnot; first [done | by destruct (Hnot (ex_intro _ _ eq_refl))]).
Qed.

(** The handshake of the image client after a 402 is the one of the LLM
    client. *)
Lemma Image_handlePaymentAndRetry_as_chat url body resp w0 w :
  client E w = client E w0 →
  same_handshake w0
    (Image_handlePaymentAndRetry E json_Decode_ImageResponse url body resp w)
    (handlePaymentAndRetry E url body resp w).
Proof.
  intros Hclient. unfold Image_handlePaymentAndRetry, handlePaymentAndRetry.
  destruct (decide (paymentHeader_of E resp = "")) as [| Hheader];
    [by apply same_handshake_same |].
  rewrite !run_lift_bind.
  destruct (ParsePaymentRequired E (paymentHeader_of E resp)) as [req | e | why];
    cbn [wrap_err];
    [| by apply same_handshake_same | by apply same_handshake_panic].
  rewrite !run_lift_bind.
  destruct (ExtractPaymentDetails req) as [opt | e | why]; cbn [wrap_err];
    [| by apply same_handshake_same | by apply same_handshake_panic].
  rewrite !(run_bind E (λ w1, (Ok (client E w1), w1))). cbn beta iota.
  rewrite !run_lift_bind.
  destruct (CreatePaymentPayload E (privateKey E (client E w)) (PayTo opt) (Amount opt)
              (Network opt) _ (Description (Resource req)) (MaxTimeoutSeconds opt)
              (Extra opt) (Extensions req)) as [payload | e | why]; cbn [wrap_err];
    [| by apply same_handshake_same | by apply same_handshake_panic].
  rewrite !(run_bind E (NewRequest_POST E _ _ _ _)), !run_NewRequest_POST.
  destruct (http_NewRequest_error E "POST" url) as [e |];
    [by apply same_handshake_same |].
  rewrite !(run_bind E (Do E _ _)). unfold Do.
  destruct (httpClient_Do E (trips E w) _) as [retryResp | e | why]; cbn [wrap_err];
    [| by apply same_handshake_same | by apply same_handshake_panic].
  destruct (decide (StatusCode retryResp = StatusPaymentRequired));
    [by apply same_handshake_same |].
  destruct (decide (StatusCode retryResp ≠ StatusOK)); [by apply same_handshake_same |].
  apply same_handshake_decode; [done | done | done].
Qed.

(** The handshake of the image client is the one of the LLM client. *)
Lemma Image_requestWithPayment_same endpoint body w :
  same_handshake w
    (Image_requestWithPayment E json_Decode_ImageResponse endpoint body w)
    (requestWithPayment E endpoint body w).
Proof.
  unfold Image_requestWithPayment, requestWithPayment.
  rewrite !(run_bind E (λ w1, (Ok (client E w1), w1))). cbn beta iota.
  rewrite !run_lift_bind.
  destruct (json_Marshal E (toJSON_any E (AMap body))) as [jsonBody | e | why];
    cbn [wrap_err];
    [| by apply same_handshake_same | by apply same_handshake_panic].
  rewrite !(run_bind E (NewRequest_POST E _ _ _ _)), !run_NewRequest_POST.
  destruct (http_NewRequest_error E "POST" _) as [e |];
    [by apply same_handshake_same |].
  rewrite !(run_bind E (Do E _ _)). unfold Do.
  destruct (httpClient_Do E (trips E w) _) as [resp1 | e | why]; cbn [wrap_err];
    [| by apply same_handshake_same | by apply same_handshake_panic].
  destruct (decide (StatusCode resp1 = StatusPaymentRequired));
    [by apply Image_handlePaymentAndRetry_as_chat |].
  destruct (decide (StatusCode resp1 ≠ StatusOK)); [by apply same_handshake_same |].
  by apply same_handshake_decoded.
Qed.

(** A response of the image client after a 402 comes with the ledger
    entry for the option the challenge leads to. *)
Lemma Image_handlePaymentAndRetry_paid (Q : world E → Prop) url body resp w :
  (∀ opt payload,
     chosen_option E resp = Ok opt →
     Q (track_spending E (Amount opt)
          (after_request E w (retry_request E url body payload))).2) →
  is_Ok (Image_handlePaymentAndRetry E json_Decode_ImageResponse url body resp w).1 →
  Q (Image_handlePaymentAndRetry E json_Decode_ImageResponse url body resp w).2.
Proof.
  intros HQ. unfold Image_handlePaymentAndRetry, chosen_option in *.
  destruct (decide (paymentHeader_of E resp = "")) as [| Hheader]; [by intros [? [=]] |].
  rewrite run_lift_bind.
  destruct (ParsePaymentRequired E (paymentHeader_of E resp)) as [req | e | why];
    cbn [wrap_err]; [| by intros [? [=]] | by intros [? [=]]].
  rewrite run_lift_bind. cbn [mbind result_bind] in HQ.
  destruct (ExtractPaymentDetails req) as [opt | e | why]; cbn [wrap_err];
    [| by intros [? [=]] | by intros [? [=]]].
  rewrite (run_bind E (λ w1, (Ok (client E w1), w1))). cbn beta iota.
  rewrite run_lift_bind.
  destruct (CreatePaymentPayload E (privateKey E (client E w)) (PayTo opt) (Amount opt)
              (Network opt) _ (Description (Resource req)) (MaxTimeoutSeconds opt)
              (Extra opt) (Extensions req)) as [payload | e | why]; cbn [wrap_err];
    [| by intros [? [=]] | by intros [? [=]]].
  rewrite (run_bind E (NewRequest_POST E _ _ _ _)), run_NewRequest_POST.
  destruct (http_NewRequest_error E "POST" url) as [e |]; [by intros [? [=]] |].
  cbn [foldl fst snd].
  change {| Method := "POST"; RequestURL := url;
            RequestHeader := _; RequestBody := body |}
    with (retry_request E url body payload).
  rewrite (run_bind E (Do E _ _)). unfold Do.
  destruct (httpClient_Do E (trips E w) (retry_request E url body payload))
    as [retryResp | e | why] eqn:Hdo; cbn [wrap_err];
    [| by intros [? [=]] | by intros [? [=]]].
  destruct (decide (StatusCode retryResp = StatusPaymentRequired)); [by intros [? [=]] |].
  destruct (decide (StatusCode retryResp ≠ StatusOK)); [by intros [? [=]] |].
  rewrite run_lift_bind.
  destruct (json_Decode_ImageResponse (Body retryResp)) as [imageResp | e | why];
    cbn [wrap_err]; [| by intros [? [=]] | by intros [? [=]]].
  intros _. rewrite run_bind.
  specialize (HQ opt payload eq_refl). unfold after_request in HQ. rewrite Hdo in HQ.
  exact HQ.
Qed.

(** A response of the image client comes after one round trip, the client
    as it was, or after two, with the ledger entry for the option of the
    first answer. *)
Lemma Image_requestWithPayment_paid endpoint body w :
  is_Ok (Image_requestWithPayment E json_Decode_ImageResponse endpoint body w).1 →
  ∃ jsonBody,
    let url := apiURL E (client E w) +:+ endpoint in
    let w1 := after_request E w (first_request E url jsonBody) in
    (Image_requestWithPayment E json_Decode_ImageResponse endpoint body w).2 = w1
    ∨ ∃ resp1 opt payload,
        httpClient_Do E (trips E w) (first_request E url jsonBody) = Ok resp1
        ∧ StatusCode resp1 = StatusPaymentRequired
        ∧ chosen_option E resp1 = Ok opt
        ∧ (Image_requestWithPayment E json_Decode_ImageResponse endpoint body w).2
          = (track_spending E (Amount opt)
               (after_request E w1 (retry_request E url jsonBody payload))).2.
Proof.
  unfold Image_requestWithPayment.
  rewrite (run_bind E (λ w1, (Ok (client E w1), w1))). cbn beta iota.
  rewrite run_lift_bind.
  destruct (json_Marshal E (toJSON_any E (AMap body))) as [jsonBody | e | why];
    cbn [wrap_err]; [| by intros [? [=]] | by intros [? [=]]].
  rewrite (run_bind E (NewRequest_POST E _ _ _ _)), run_NewRequest_POST.
  destruct (http_NewRequest_error E "POST" _) as [e |]; [by intros [? [=]] |].
  cbn [foldl fst snd].
  change {| Method := "POST"; RequestURL := _; RequestHeader := _; RequestBody := jsonBody |}
    with (first_request E (apiURL E (client E w) +:+ endpoint) jsonBody).
  rewrite (run_bind E (Do E _ _)). unfold Do.
  destruct (httpClient_Do E (trips E w) _) as [resp1 | e | why] eqn:Hdo; cbn [wrap_err];
    [| by intros [? [=]] | by intros [? [=]]].
  intros Hok. exists jsonBody. cbv zeta.
  assert (Hw1 : after_request E w
                  (first_request E (apiURL E (client E w) +:+ endpoint) jsonBody)
                = {| client := client E w;
                     trips := trips E w
                              ++ [(first_request E (apiURL E (client E w) +:+ endpoint)
                                     jsonBody, Ok resp1)] |}).
  { unfold after_request. by rewrite Hdo. }
  rewrite Hw1.
  destruct (decide (StatusCode resp1 = StatusPaymentRequired)) as [H402 |].
  - right. revert Hok.
    match goal with
    | |- is_Ok (Image_handlePaymentAndRetry _ _ ?url ?body ?resp ?w1).1 → _ =>
        apply (Image_handlePaymentAndRetry_paid
                 (λ w', ∃ resp1 opt payload,
                    httpClient_Do E (trips E w)
                      (first_request E (apiURL E (client E w) +:+ endpoint) jsonBody)
                    = Ok resp1
                    ∧ StatusCode resp1 = StatusPaymentRequired
                    ∧ chosen_option E resp1 = Ok opt
                    ∧ w' = (track_spending E (Amount opt)
                              (after_request E w1 (retry_request E url body payload))).2))
    end.
    intros opt payload Hopt. by exists resp1, opt, payload.
  - left. destruct (decide (StatusCode resp1 ≠ StatusOK)); [by destruct Hok as [? [=]] |].
    rewrite run_lift_bind.
    by destruct (json_Decode_ImageResponse (Body resp1)).
Qed.

(** [Generate] runs the handshake of the LLM client.  On the endpoint
    [/v1/images/generations] with the body it built, it makes the round
    trips [requestWithPayment] makes, request for request, so the same
    retry with the same signed payment; it returns the same error, unless
    the error is one of decoding the response, and never a
    [ValidationError]: nothing is checked before the request, not even
    that the prompt is not empty.  When both calls return a response, or
    neither does, they leave the same client and ledger; and when
    [Generate] returns no response the client is as it was. *)
Theorem Generate_handshake prompt opts w :
  trips E (Generate E json_Decode_ImageResponse prompt opts w).2
  = trips E (requestWithPayment E "/v1/images/generations"
               (Generate_body prompt opts) w).2
  ∧ (∀ e, (∀ cause, e ≠ Errorf "failed to decode response: " cause) →
          (Generate E json_Decode_ImageResponse prompt opts w).1 = Err e
          ↔ (requestWithPayment E "/v1/images/generations"
               (Generate_body prompt opts) w).1 = Err e)
  ∧ (∀ field message,
       (Generate E json_Decode_ImageResponse prompt opts w).1
       ≠ Err (ValidationError field message))
  ∧ ((is_Ok (Generate E json_Decode_ImageResponse prompt opts w).1
      ↔ is_Ok (requestWithPayment E "/v1/images/generations"
                 (Generate_body prompt opts) w).1) →
     (Generate E json_Decode_ImageResponse prompt opts w).2
     = (requestWithPayment E "/v1/images/generations" (Generate_body prompt opts) w).2)
  ∧ (¬ is_Ok (Generate E json_Decode_ImageResponse prompt opts w).1 →
     client E (Generate E json_Decode_ImageResponse prompt opts w).2 = client E w).
Proof.
  destruct (Image_requestWithPayment_same "/v1/images/generations"
              (Generate_body prompt opts) w) as (Htrips & Herr & Hworld & Hclient).
  unfold Generate.
  split; [exact Htrips |]. split; [exact Herr |].
  split; [| split; [exact Hworld | exact Hclient]].
  intros field message Hvalidation.
  apply Herr in Hvalidation; [| done].
  by apply requestWithPayment_not_ValidationError in Hvalidation.
Qed.

(** The ledger of the image client.  A call of [Generate] that returns a
    response made one round trip and left the client as it was, or made
    two, the first answered 402, and then counts one more call and adds to
    the total the amount of the option chosen from that answer, read as a
    number and divided by 1,000,000 (nothing when the amount does not
    read).  The key, the address and the API URL never change. *)
Theorem Generate_ledger prompt opts w :
  is_Ok (Generate E json_Decode_ImageResponse prompt opts w).1 →
  (∃ x1, trips E (Generate E json_Decode_ImageResponse prompt opts w).2 = trips E w ++ [x1]
         ∧ client E (Generate E json_Decode_ImageResponse prompt opts w).2 = client E w)
  ∨ (∃ x1 x2 resp1 opt,
       trips E (Generate E json_Decode_ImageResponse prompt opts w).2
       = trips E w ++ [x1; x2]
       ∧ x1.2 = Ok resp1
       ∧ StatusCode resp1 = StatusPaymentRequired
       ∧ chosen_option E resp1 = Ok opt
       ∧ sessionCalls E (client E (Generate E json_Decode_ImageResponse prompt opts w).2)
         = wrap64 (sessionCalls E (client E w) + 1)
       ∧ sessionTotalUSD E (client E (Generate E json_Decode_ImageResponse prompt opts w).2)
         = match Sscanf_f E (Amount opt) with
           | Ok amountMicro =>
               PrimFloat.add (sessionTotalUSD E (client E w))
                 (PrimFloat.div amountMicro 1000000)
           | _ => sessionTotalUSD E (client E w)
           end
       ∧ privateKey E (client E (Generate E json_Decode_ImageResponse prompt opts w).2)
         = privateKey E (client E w)
       ∧ address E (client E (Generate E json_Decode_ImageResponse prompt opts w).2)
         = address E (client E w)
       ∧ apiURL E (client E (Generate E json_Decode_ImageResponse prompt opts w).2)
         = apiURL E (client E w)).
Proof.
  unfold Generate. intros Hok.
  apply Image_requestWithPayment_paid in Hok as (jsonBody & Hout). cbv zeta in Hout.
  destruct Hout as [-> | (resp1 & opt & payload & Hdo & H402 & Hopt & ->)].
  - left. by eexists.
  - right. eexists _, _, resp1, opt.
    split; [unfold track_spending, after_request; cbn [snd trips];
            by rewrite <- app_assoc |].
    split; [by rewrite Hdo |]. split; [done |]. split; [done |].
    pose proof (chosen_option_amount E resp1 opt Hopt) as Hamount.
    destruct (track_spending_client E (Amount opt)
                (after_request E
                   (after_request E w
                      (first_request E (apiURL E (client E w) +:+ "/v1/images/generations")
                         jsonBody))
                   (retry_request E (apiURL E (client E w) +:+ "/v1/images/generations")
                      jsonBody payload)) Hamount) as [Hcalls Htotal].
    split; [exact Hcalls |]. split; [exact Htotal |]. done.
Qed.

End image_facts.

(** The body of an image request, key by key.  The prompt is sent as
    given, empty or not.  The model and the size are the option's when
    the options are given and name one, and the defaults
    [google/nano-banana] and [1024x1024] otherwise, so never empty; the
    number of images is the option's when that is positive and 1
    otherwise, so at least 1; [quality] is sent exactly when the option
    names one; and the body has no other key. *)
Theorem Generate_body_invariant prompt opts :
  Generate_body prompt opts !! "prompt" = Some (AString prompt)
  ∧ Generate_body prompt opts !! "model"
    = Some (AString match opts with
                    | Some o => if String.eqb (ImageModelName o) "" then DefaultImageModel
                                else ImageModelName o
                    | None => DefaultImageModel
                    end)
  ∧ Generate_body prompt opts !! "size"
    = Some (AString match opts with
                    | Some o => if String.eqb (Size o) "" then DefaultImageSize else Size o
                    | None => DefaultImageSize
                    end)
  ∧ Generate_body prompt opts !! "n"
    = Some (AInt match opts with
                 | Some o => if 0 <? ImageN o then ImageN o else 1
                 | None => 1
                 end)
  ∧ Generate_body prompt opts !! "quality"
    = match opts with
      | Some o => if String.eqb (Quality o) "" then None else Some (AString (Quality o))
      | None => None
      end
  ∧ (∀ model, Generate_body prompt opts !! "model" = Some (AString model) → model ≠ "")
  ∧ (∀ size, Generate_body prompt opts !! "size" = Some (AString size) → size ≠ "")
  ∧ (∀ n, Generate_body prompt opts !! "n" = Some (AInt n) → 1 ≤ n)
  ∧ (∀ k, is_Some (Generate_body prompt opts !! k) → k ∈ image_body_keys).
Proof.
  assert (Hvalues :
    Generate_body prompt opts !! "prompt" = Some (AString prompt)
    ∧ Generate_body prompt opts !! "model"
      = Some (AString match opts with
                      | Some o => if String.eqb (ImageModelName o) "" then DefaultImageModel
                                  else ImageModelName o
                      | None => DefaultImageModel
                      end)
    ∧ Generate_body prompt opts !! "size"
      = Some (AString match opts with
                      | Some o => if String.eqb (Size o) "" then DefaultImageSize else Size o
                      | None => DefaultImageSize
                      end)
    ∧ Generate_body prompt opts !! "n"
      = Some (AInt match opts with
                   | Some o => if 0 <? ImageN o then ImageN o else 1
                   | None => 1
                   end)
    ∧ Generate_body prompt opts !! "quality"
      = match opts with
        | Some o => if String.eqb (Quality o) "" then None else Some (AString (Quality o))
        | None => None
        end).
  { unfold Generate_body. destruct opts as [o |].
    - destruct (String.eqb (ImageModelName o) ""), (String.eqb (Size o) ""),
        (0 <? ImageN o), (String.eqb (Quality o) ""); cbn [negb];
        repeat split; by simplify_map_eq.
    - repeat split; by simplify_map_eq. }
  destruct Hvalues as (Hprompt & Hmodel & Hsize & Hn & Hquality).
  split; [exact Hprompt |]. split; [exact Hmodel |]. split; [exact Hsize |].
  split; [exact Hn |]. split; [exact Hquality |].
  split; [| split; [| split]].
  - intros model. rewrite Hmodel. intros [= <-]. destruct opts as [o |]; [| done].
    by destruct (String.eqb_spec (ImageModelName o) "").
  - intros size. rewrite Hsize. intros [= <-]. destruct opts as [o |]; [| done].
    by destruct (String.eqb_spec (Size o) "").
  - intros n. rewrite Hn. intros [= <-]. destruct opts as [o |]; [| done].
    destruct (Z.ltb_spec 0 (ImageN o)); lia.
  - unfold Generate_body, image_body_keys. intros k [v Hk].
    destruct opts as [o |];
      [destruct (String.eqb (ImageModelName o) ""), (String.eqb (Size o) ""),
         (0 <? ImageN o), (String.eqb (Quality o) ""); cbn [negb] in Hk |];
      repeat (match type of Hk with
              | <[?key := _]> _ !! k = Some _ =>
                  destruct (decide (k = key)) as [-> |];
                  [repeat first [apply list_elem_of_here | apply list_elem_of_further]
                  | rewrite lookup_insert_ne in Hk by done]
              end);
      by rewrite lookup_empty in Hk.
Qed.

(** With a model, two images and a quality asked for and no size: the
    model, the number and the quality of the options, the default size. *)
Lemma Generate_body_invariant_witness :
  Generate_body "a cat" (Some demo_image_options) !! "model"
  = Some (AString "openai/dall-e-3")
  ∧ Generate_body "a cat" (Some demo_image_options) !! "size" = Some (AString "1024x1024")
  ∧ Generate_body "a cat" (Some demo_image_options) !! "n" = Some (AInt 2)
  ∧ Generate_body "a cat" (Some demo_image_options) !! "quality" = Some (AString "hd")
  ∧ Generate_body "a cat" None !! "n" = Some (AInt 1)
  ∧ Generate_body "a cat" None !! "quality" = None.
Proof.
  destruct (Generate_body_invariant "a cat" (Some demo_image_options))
    as (_ & Hmodel & Hsize & Hn & Hquality & _).
  destruct (Generate_body_invariant "a cat" None) as (_ & _ & _ & Hn0 & Hquality0 & _).
  split; [exact Hmodel |]. split; [exact Hsize |]. split; [exact Hn |].
  split; [exact Hquality |]. split; [exact Hn0 | exact Hquality0].
Defined.

(** An image asked of the server that settles the payment: the two round
    trips of the LLM client's handshake. *)
Lemma Generate_handshake_witness :
  trips settling_env
    (Generate settling_env demo_image_decoder "a cat" None (fresh_world settling_env tt)).2
  = trips settling_env
      (requestWithPayment settling_env "/v1/images/generations"
         (Generate_body "a cat" None) (fresh_world settling_env tt)).2
  ∧ length (trips settling_env
              (Generate settling_env demo_image_decoder "a cat" None
                 (fresh_world settling_env tt)).2) = 2%nat.
Proof.
  destruct (Generate_handshake settling_env demo_image_decoder "a cat" None
              (fresh_world settling_env tt)) as (Htrips & _).
  split; [exact Htrips |]. vm_compute. reflexivity.
Defined.

(** The image paid for is one call on the ledger of a new client. *)
Lemma Generate_ledger_witness :
  (Generate settling_env demo_image_decoder "a cat" None (fresh_world settling_env tt)).1
  = Ok demo_ImageResponse
  ∧ sessionCalls settling_env
      (client settling_env
         (Generate settling_env demo_image_decoder "a cat" None
            (fresh_world settling_env tt)).2) = 1.
Proof.
  assert (Hok : (Generate settling_env demo_image_decoder "a cat" None
                   (fresh_world settling_env tt)).1 = Ok demo_ImageResponse)
    by (vm_compute; reflexivity).
  split; [exact Hok |].
  destruct (Generate_ledger settling_env demo_image_decoder "a cat" None
              (fresh_world settling_env tt) (ex_intro _ _ Hok))
    as [(x1 & Htrips & _) | (x1 & x2 & resp1 & opt & _ & _ & _ & _ & Hcalls & _)].
  - apply (f_equal length) in Htrips. vm_compute in Htrips. discriminate Htrips.
  - rewrite Hcalls. reflexivity.
Defined.
